(* ===== verification/_CoqProject ===== *)
-Q . S2P
Prelude.v
JsString.v
JsNumber.v
JsCore.v
SdkJson.v
GatewayTypes.v
DomainProbes.v
GatewayOperations.v
Observability.v
TraceSink.v
GatewaySearch.v
ApiAdapter.v
ShellWords.v
GatewayConnections.v
CommandHighlight.v
GatewayData.v
UrlState.v
StateMachine.v
ServiceAccountDialog.v
Debounce.v
GatewayPlacementSelect.v
GatewayDialogs.v
ServiceAccountData.v
CommandViews.v
ServiceAccountSetup.v
GatewayPages.v
Composition.v
Shell.v
SdkSchema.v
SdkContract.v
SdkText.v
SdkClient.v
SdkSession.v
SdkAdapter.v
ConsoleClient.v
Telemetry.v
TelemetryTrace.v
TelemetryExport.v
TrustedDom.v
DashboardTelemetry.v
PageViews.v
ActionViews.v
CollectionFlow.v
ServiceAccountViews.v
ConsoleShell.v
FormFlow.v
Messages.v
