(* ===== verification/Prelude.v ===== *)
(** * A verification development of the HyperShell web console

    The console is a browser application that manages OpenShell gateways. Its own
    logic is TypeScript, in two places: the package
    [packages/gateway-management-ui] holds the use cases and the pages, and
    [components/web-console] the adapters, the routes and the composition. This
    library models that logic shallowly, as Rocq functions one can evaluate, and
    proves what each part promises. Paths below are relative to [src/]; [ui/] stands
    for [packages/gateway-management-ui/src/] and [app/] for
    [components/web-console/app/].

    ** How the parts interact

    A page calls a use case ([GatewayOperations]). The use case opens a workflow,
    calls the driven port ([GatewayControlPlane]) once, and publishes four domain
    probes around the call. The API adapter implements the port over the SDK client:
    it builds the search expressions, checks the answers and maps records and
    failures. The SDK client, generated from the API's contract, checks the input of
    an operation against the contract, sends it to its own origin with the session's
    token where it changes something, and checks the answer against the contract. The
    probes go through a fan-out publisher to the sinks the observability platform
    installs, of which one keeps the last hundred and one turns them into trace spans;
    the header that continues the trace is read back by the adapter for its requests.
    The generated browser telemetry bounds what is recorded and exports it with the
    session's token. The pages keep their lists' state in the address,
    poll while something is changing, and show commands the operator pastes into a
    shell. A one-time secret is shown in a dialog whose leave guard is consulted by
    the tabs and by the router.

    ** The files

    The base: [Prelude] (this file: notations, tactics, hint databases, lemmas on
    lists and finite maps); [JsString] (strings as lists of 16-bit units: trimming,
    searching, replacing, sorting by unit); [JsNumber] (numbers as integers,
    dyadic fractions, infinities and NaN, rounded to 53 bits); [JsCore] (dynamic
    values, property lists, and the state and exception monad [M E W] in which
    effectful code is written); [StateMachine] (runs of a step function with
    outputs, invariants, and the balance of requests and answers).

    The core: [GatewayTypes] ([ui/application/gateway-types.ts]: the records, the
    error class and the three ports, as records of operations);
    [DomainProbes] ([components/web-console/domain-probes/src]: deep freezing and
    the class [FanOutDomainProbePublisher]; the type class [DomainProbe] is what the
    publisher needs of a probe); [GatewayOperations]
    ([ui/application/gateway-operations.ts], [gateway-probes.ts]: [execute] and the
    thirteen operations); [Observability]
    ([app/adapters/observability/gateway-observability.ts]); [TraceSink]
    ([gateway-trace-sink.ts]); [GatewaySearch] (the search expressions of
    [app/adapters/api/gateway-operations.ts]); [ApiAdapter] (the rest of that file);
    [Composition] ([app/composition/gateway-composition.ts]: all of these wired into
    one set of use cases, over one world).

    The console's data: [ShellWords] (a reference reader of the shell grammar,
    a specification and not a model); [GatewayConnections]
    ([ui/gateways/gateway-connections.ts] and the sanitiser of
    [editable-command.tsx]); [CommandHighlight] ([command-highlight.ts]);
    [GatewayData] ([gateway-data.ts], [console-wait-tracker.ts]); [UrlState]
    ([app/features/gateways/gateway-list-state.ts] and the search parameters of
    [app/routes/gateway.tsx]).

    The API client ([out/tssdk/index.js]): [SdkJson] (the bounded JSON parser and
    the check of UTF-16); [SdkSchema] (date-times and the check of a value against a
    schema, with its specification [conforms]); [SdkContract] (the embedded contract:
    models, operations and error codes, and the readers of checked values);
    [SdkText] (UTF-8, percent encoding, [JSON.stringify] and the bounds of an
    input); [SdkClient] (call slots, requests, answers, the session, the
    operations); [SdkSession] ([client.request] of the session clients in
    [console/out/browser/sessionclient] and its copy); [SdkAdapter] (the client as
    the API client and the session client of the adapters); [ConsoleClient] (the
    composition over this client).

    The telemetry of the browser ([console/out/browsertelemetry/index.js]):
    [Telemetry] (identifiers, the bounds of attributes and records, the bounded
    meter); [TelemetryTrace] (the trace sink over its identifier generator);
    [TelemetryExport] (settings, what an export sends, the queue of exports
    and the lives of the telemetries). The gateway console:
    [TrustedDom] ([gateway-console/out/browser/dom/index.js]: the scan of trusted
    markup and the walk over its nodes); [DashboardTelemetry]
    ([components/gateway-dashboard/frontend/telemetry.stego.tsx]).

    The pages: [ServiceAccountDialog]
    ([ui/service-accounts/service-account-create-dialog.tsx] with the tab switch of
    [ui/pages/gateway-pages.tsx] and the blocker of [app/routes/gateway.tsx]);
    [Debounce] ([ui/shared/use-debounced-value.ts]); [GatewayPlacementSelect]
    ([ui/gateways/gateway-placement-select.tsx]); [GatewayDialogs]
    ([gateway-create.tsx], [gateway-rename-dialog.tsx], [gateway-delete-dialog.tsx],
    [gateway-row-actions.tsx], [gateway-detail-header.tsx]); [ServiceAccountData]
    ([service-account-data.ts], [service-account-commands.ts],
    [service-account-row-actions.tsx]); [CommandViews]
    ([gateway-connection-steps.tsx], [editable-command.tsx]: the commands that are
    edited in place); [ServiceAccountSetup] ([service-account-setup.tsx]);
    [GatewayPages] ([ui/shared/resource-table.tsx]
    and the collections of [gateway-pages.tsx] and [service-accounts-page.tsx]);
    [PageViews] (what these pages show for a result of their queries, and the toasts
    with [app/routes/home.tsx]); [ActionViews] (what a gateway's menus and dialogs show
    and enable, and the detail page); [CollectionFlow] (the collection over the whole
    console: its query's function); [ServiceAccountViews] (the form, the content and the
    buttons of the creation dialog, the setup view and the rows of accounts); [FormFlow]
    (the forms and dialogs over the whole console: from what is typed to what is sent);
    [ConsoleShell]
    ([app/features/shell/application-shell.tsx], [app/root.tsx],
    [ui/gateway-ui-provider.tsx], [ui/metrics]); [Messages] (the texts of all of
    them: [ui/messages.ts], [app/i18n], [locales/en.json]);
    [Shell] ([app/adapters/session/session-adapter.ts] and, of [app/features/shell],
    [use-color-scheme.ts], [route-focus.ts] and the name [user-menu.tsx] shows).

    ** How code is modelled

    Definitions keep the source's names. A string is the list of its UTF-16 units, a
    number a [num], an optional property an [option]. Code that calls the outside (the
    clock, the API client, a tracer, a reporter) takes it as an argument and runs in
    [M E W], where [E] is what may be thrown and [W] the world's state; a component's
    own state is a part of [W], reached through a [Lens]. Promises are followed in
    the order the code awaits them; each call is atomic up to its awaited effects, and
    interleavings of several calls are runs over arbitrary sequences of probes or
    events. What the API client needs of the browser (addresses, [fetch], abort
    controllers, the text decoder) is the record [SdkClient.Browser], and
    [SdkClient.browser_ok] what is assumed of it: requests are sent by [fetch] only,
    and what the browser throws is no error of the client; for the telemetry they are
    [TelemetryExport.Wire] and [TelemetryExport.wire_ok]. The result of a query is a
    [PageViews.Query] with the statuses the library documents
    ([PageViews.query_ok]). A page's state machine takes one event per step, an event the page does
    not offer (a disabled button, a hidden dialog) giving [None]; React's commit, which
    runs the effects, is part of the step. Locale-dependent functions, [JSON.parse],
    date formatting, the tracer and the tokenizer of the highlighter
    are arguments; the adapter's API client is one too, which [SdkAdapter] and
    [ConsoleClient] instantiate; where a theorem needs something of one it is a named hypothesis,
    and a witness instantiates it.

    ** What the theorems show

    - Use cases and observability: a call publishes its four probes in order around
      exactly one port call and returns its outcome; every sink is given every probe
      whatever the others do, and failures are counted once; buffers keep their
      bounds; spans are started and ended once each, none is left when calls
      complete; the propagation header reads back to the span. Through the whole
      composition, a request carries the header of its own dependency span, below a
      root span of the call's trace, and both report the call's outcome and end. Over
      the generated client, the requests of a call are those of its operation of the
      contract, and each of them continues that trace, whose id the call's probes
      carry; over the generated telemetry every span of a call is part of the trace
      its workflow was started with, and no other root is taken into it. From the
      address to the table: one request with the page, size, order and search of the
      state, and the rows are the gateways of an answer the contract allows, as many as
      that page holds. From a form to the API: the text that is sent is read back as
      exactly what was typed and selected, and a change that succeeds has sent the
      session's request and its own.
    - Adapter: pages are accepted exactly when they are complete; failures map to
      kinds by status; search expressions read back, by a reference reader of the
      query language's literals, to exactly what was asked.
    - API client: the parser accepts exactly the bounded JSON texts; an answer passes
      the check exactly when it conforms to the contract, whose models the budget
      always covers, and what the adapter reads of it has the type it declares; an
      input that passes the bounds is sent as a text that parses to it; the path of
      an operation, and a request of the session clients, stay on their resource
      whatever texts they are given; changing requests follow the session they take
      their token from; at most sixteen calls are in flight; the control plane over
      this client fails with application errors only.
    - Telemetry: an export sends the session's token to its own origin only while the
      session is authenticated, every export is answered once, the meter keeps its
      bounds; the dashboard records each document once, under the name of its route.
    - Trusted markup: what is accepted is exactly a grammar of allowed items, rendered
      with its style attributes renamed, and nothing forbidden reaches the page.
    - Shell texts: read by [ShellWords], every command runs as exactly the commands
      meant, with the gateway's texts as single words; what is copied is what is
      shown, however fields are edited and whenever highlighting arrives.
    - Address and keys: lists' states survive the address; keys tell requests apart
      and refreshes reach what they should.
    - Pages: a one-time secret cannot be lost by navigating; the page shows the colour
      scheme that loading it again would show; requests are sent once
      and for what the page showed; the cluster field shows what the form holds and
      its keyboard loop ends; polling ends at its deadline; a page shows data whenever
      it has some; a deletion is announced until it is dismissed and never again; links
      lead to the gateway they name; a dialog enables exactly what its handlers act on; the
      texts that are shown are those of the catalogue, with five that are not the
      declared ones.

    ** Fuel and bounds

    [GatewayPlacementSelect.next_index] runs on the number of options, enough for one
    turn; [CommandHighlight.split_loop] on the length of the text, enough since every
    round takes at least one unit when no marker is empty; [JsString.digits_of] on the
    number's size. Theorems state that these fuels suffice. The API client's own
    limits (32 levels and 10000 values of JSON, 48 levels and 100000 visits of a
    schema, 33 levels of an input) are the code's, kept as levels of recursion or as
    counters; [SdkJson.elements] and [SdkJson.members]
    run on the length of the text and [SdkText.decode_loop] on that of the escapes,
    and each reads at least one unit per round. The loops of [TrustedDom] run on the
    length of the markup; its theorem has no case for their running out. Integers are exact up to
    2^53 and rounded beyond, as the language does; theorems that need exactness say
    so.

    ** What is not modelled

    Markup and styling, the formatting of messages, timers of toasts; build, lint and
    acceptance scripts; the bundled editor's loader; the Go services. The routing
    table is read by the router and not modelled. Of the OpenTelemetry packages only
    what their documentation says is assumed ([TraceSink.otel_calls_ok],
    [TelemetryTrace.sdk_ok]). *)
From stdpp Require Export prelude gmap strings list sorting.
From Stdlib Require Export ZArith NArith Lia.

(** * Notations *)

Declare Scope js_scope.
Delimit Scope js_scope with js.

(** * Tactics *)

(** Case analysis on every [match]/[if] scrutinee of the goal or of a
    hypothesis, then the usual clean-up. *)
Ltac break_goal :=
  repeat (case_match || case_decide); simplify_eq/=.

Ltac break_in H :=
  repeat (let E := fresh "E" in
          match type of H with
          | context [ match ?x with _ => _ end ] => destruct x eqn:E
          end; simplify_eq/=).

(** Close boolean side conditions about integers. *)
Ltac bool_lia :=
  repeat match goal with
  | H : _ && _ = true |- _ => apply andb_prop in H as [? ?]
  | H : (_ =? _)%Z = true |- _ => apply Z.eqb_eq in H
  | H : (_ =? _)%Z = false |- _ => apply Z.eqb_neq in H
  | H : (_ <? _)%Z = true |- _ => apply Z.ltb_lt in H
  | H : (_ <? _)%Z = false |- _ => apply Z.ltb_ge in H
  | H : (_ <=? _)%Z = true |- _ => apply Z.leb_le in H
  | H : (_ <=? _)%Z = false |- _ => apply Z.leb_gt in H
  end; lia.

(** Concatenations nested to the right. *)
Ltac list_norm := repeat first [rewrite <- app_assoc | rewrite <- app_comm_cons | rewrite app_nil_l].

(** Arithmetic on the lengths of concatenations. *)
Ltac length_lia := repeat first [progress simpl in * | rewrite length_app in *]; lia.

(** Prove a closed decidable fact by evaluating it. *)
Ltac decide_fact := apply (bool_decide_unpack _); vm_compute; exact I.

(** * Hint databases *)

Create HintDb js.
Create Rewrite HintDb js_simp.

(** * Lists *)

(** Insertion-ordered set of the elements of a list: what [[...new Set(l)]]
    enumerates. *)
Definition nub_step `{EqDecision A} (acc : list A) (x : A) : list A :=
  if decide (x ∈ acc) then acc else acc ++ [x].

Definition nub `{EqDecision A} (l : list A) : list A := foldl nub_step [] l.

Section nub.
Context `{EqDecision A}.
Implicit Types (l acc : list A) (x : A).

Lemma nub_step_NoDup acc x : NoDup acc → NoDup (nub_step acc x).
Proof.
  intros Hacc. unfold nub_step. case_decide; [done|].
  apply NoDup_app. repeat split; [done| |apply NoDup_singleton].
  intros y Hy ->%list_elem_of_singleton. done.
Qed.

Lemma elem_of_nub_step acc x y : y ∈ nub_step acc x ↔ y ∈ acc ∨ y = x.
Proof. unfold nub_step. case_decide; set_solver. Qed.

Lemma foldl_nub_NoDup l acc : NoDup acc → NoDup (foldl nub_step acc l).
Proof. revert acc. induction l; simpl; eauto using nub_step_NoDup. Qed.

Lemma elem_of_foldl_nub l acc y :
  y ∈ foldl nub_step acc l ↔ y ∈ acc ∨ y ∈ l.
Proof.
  revert acc. induction l as [|x l IH]; intros acc; simpl.
  - set_solver.
  - rewrite IH, elem_of_nub_step, elem_of_cons. tauto.
Qed.

Lemma NoDup_nub l : NoDup (nub l).
Proof. apply foldl_nub_NoDup, NoDup_nil_2. Qed.

Lemma elem_of_nub l x : x ∈ nub l ↔ x ∈ l.
Proof. unfold nub. rewrite elem_of_foldl_nub. set_solver. Qed.

Lemma foldl_nub_id l acc : NoDup (acc ++ l) → foldl nub_step acc l = acc ++ l.
Proof.
  revert acc. induction l as [|x l IH]; intros acc Hd; simpl.
  - by rewrite app_nil_r.
  - unfold nub_step at 2. rewrite decide_False.
    + rewrite IH; by rewrite <- (assoc_L (++)).
    + apply NoDup_app in Hd as (_ & Hd & _). set_solver.
Qed.

Lemma nub_id l : NoDup l → nub l = l.
Proof. intros. by apply (foldl_nub_id l []). Qed.

(** [new Set(l).size === l.length] exactly when [l] has no duplicates. *)
Lemma length_nub_step acc x : length acc ≤ length (nub_step acc x) ≤ S (length acc).
Proof. unfold nub_step. case_decide; rewrite ?length_app; simpl; lia. Qed.

Lemma length_foldl_nub l acc :
  length (foldl nub_step acc l) ≤ length acc + length l.
Proof.
  revert acc. induction l as [|x l IH]; intros acc; simpl; [lia|].
  pose proof (length_nub_step acc x). pose proof (IH (nub_step acc x)). lia.
Qed.

Lemma foldl_nub_length_NoDup l acc :
  NoDup acc → length (foldl nub_step acc l) = length acc + length l →
  NoDup (acc ++ l).
Proof.
  revert acc. induction l as [|x l IH]; intros acc Hacc Hlen; simpl in *.
  - by rewrite app_nil_r.
  - pose proof (length_nub_step acc x). pose proof (length_foldl_nub l (nub_step acc x)).
    assert (Hst : nub_step acc x = acc ++ [x]).
    { unfold nub_step in *. case_decide; [|done]. lia. }
    rewrite Hst in *. rewrite length_app in *; simpl in *.
    specialize (IH (acc ++ [x])). rewrite length_app in IH; simpl in IH.
    rewrite <- (assoc_L (++)) in IH. apply IH; [|lia].
    rewrite <- Hst. by apply nub_step_NoDup.
Qed.

Lemma length_nub_NoDup l : length (nub l) = length l ↔ NoDup l.
Proof.
  split.
  - intros H. apply (foldl_nub_length_NoDup l []); [apply NoDup_nil_2|done].
  - intros H. by rewrite nub_id.
Qed.
End nub.

#[export] Hint Resolve NoDup_nub : js.

(** The last [n] elements of a list. *)
Definition lastn {A} (n : nat) (l : list A) : list A := drop (length l - n) l.

Lemma length_lastn {A} n (l : list A) : length (lastn n l) = min n (length l).
Proof. unfold lastn. rewrite length_drop. lia. Qed.

Lemma lastn_all {A} n (l : list A) : length l ≤ n → lastn n l = l.
Proof. intros. unfold lastn. by replace (length l - n) with 0 by lia. Qed.

Lemma lastn_lastn_snoc {A} n (l : list A) x :
  0 < n → lastn n (lastn n l ++ [x]) = lastn n (l ++ [x]).
Proof.
  intros Hn. destruct (decide (length l ≤ n)) as [Hl|Hl].
  - by rewrite (lastn_all n l).
  - assert (length (lastn n l) = n) by (rewrite length_lastn; lia).
    unfold lastn at 1 3. rewrite !length_app; simpl.
    rewrite !drop_app_le by lia. f_equal.
    unfold lastn. rewrite drop_drop. f_equal.
    rewrite length_drop. lia.
Qed.

Lemma lastn_lastn_app {A} n (l k : list A) :
  0 < n → lastn n (lastn n l ++ k) = lastn n (l ++ k).
Proof.
  intros Hn. induction k as [|x k IH] using rev_ind.
  - rewrite !app_nil_r. apply lastn_all. rewrite length_lastn. lia.
  - rewrite !(assoc_L (++)), <- lastn_lastn_snoc by done.
    by rewrite IH, lastn_lastn_snoc.
Qed.

(** Induction on the length of a list. *)
Lemma list_length_ind {A} (P : list A → Prop) :
  (∀ l, (∀ k, length k < length l → P k) → P l) → ∀ l, P l.
Proof.
  intros H l. remember (length l) as n eqn:Hn. revert l Hn.
  induction n as [n IH] using (well_founded_induction lt_wf). intros l ->. eauto.
Qed.
