(* ===== verification/JsString.v ===== *)
(** JavaScript strings as sequences of UTF-16 code units, with the
    [String.prototype] operations the console uses: [trim], [includes],
    [indexOf], [startsWith], [slice], [replaceAll] with a one-unit pattern,
    [join], the code-unit order of [Array.prototype.sort], and the decimal
    digits of [String(n)] for an integer [n]. *)
From Stdlib Require Import Ascii.
From S2P Require Export Prelude.

(** * Code units and literals *)

(** A string is the list of its code units; a literal is embedded by [js]. *)
Abbreviation jsstring := (list N).

Definition js (s : string) : jsstring := Ascii.N_of_ascii <$> String.list_ascii_of_string s.

(** A string that JavaScript can hold: every unit is below 2^16. *)
Definition wf_units (s : jsstring) : Prop := Forall (λ c, (c < 65536)%N) s.

Definition is_nonempty {A} (s : list A) : bool :=
  match s with [] => false | _ => true end.

(** * Operations *)

(** WhiteSpace and LineTerminator of ECMA-262, the units [trim] strips. *)
Definition is_white (c : N) : bool :=
  ((9 <=? c) && (c <=? 13) || (c =? 32) || (c =? 160) || (c =? 5760)
   || (8192 <=? c) && (c <=? 8202) || (c =? 8232) || (c =? 8233)
   || (c =? 8239) || (c =? 8287) || (c =? 12288) || (c =? 65279))%N.

Fixpoint trimStart (s : jsstring) : jsstring :=
  match s with
  | [] => []
  | c :: s' => if is_white c then trimStart s' else s
  end.

Definition trimEnd (s : jsstring) : jsstring := reverse (trimStart (reverse s)).

Definition trim (s : jsstring) : jsstring := trimEnd (trimStart s).

Fixpoint startsWith (s p : jsstring) : bool :=
  match p, s with
  | [], _ => true
  | c :: p', d :: s' => (c =? d)%N && startsWith s' p'
  | _ :: _, [] => false
  end.

Fixpoint indexOf (s p : jsstring) : option nat :=
  if startsWith s p then Some 0
  else match s with
       | [] => None
       | _ :: s' => S <$> indexOf s' p
       end.

Definition includes (s p : jsstring) : bool :=
  match indexOf s p with Some _ => true | None => false end.

(** [s.replaceAll(c, rep)] for a one-unit pattern [c]; [rep] holds no [$], which
    JavaScript would expand. *)
Definition replaceAll (s : jsstring) (c : N) (rep : jsstring) : jsstring :=
  s ≫= λ d, if (d =? c)%N then rep else [d].

Fixpoint joinWith (sep : jsstring) (l : list jsstring) : jsstring :=
  match l with
  | [] => []
  | [s] => s
  | s :: l' => s ++ sep ++ joinWith sep l'
  end.

(** The order of [Array.prototype.sort()] on strings: by code units. *)
Fixpoint js_leb (a b : jsstring) : bool :=
  match a, b with
  | [], _ => true
  | _ :: _, [] => false
  | c :: a', d :: b' =>
      if (c <? d)%N then true else if (d <? c)%N then false else js_leb a' b'
  end.

Definition js_le (a b : jsstring) : Prop := js_leb a b = true.

#[export] Instance js_le_dec : RelDecision js_le := λ a b, bool_eq_dec _ _.

Definition js_sort (l : list jsstring) : list jsstring := merge_sort js_le l.

(** ASCII case mapping, the letters every locale-independent caller relies on. *)
Definition ascii_lower_unit (c : N) : N :=
  if ((65 <=? c) && (c <=? 90))%N then (c + 32)%N else c.

Definition ascii_lower (s : jsstring) : jsstring := ascii_lower_unit <$> s.

(** * Digits *)

Definition is_digit (c : N) : bool := ((48 <=? c) && (c <=? 57))%N.

(** The value of a digit string, most significant digit first. *)
Definition digits_value (s : jsstring) : Z :=
  foldl (λ acc c, acc * 10 + (Z.of_N c - 48))%Z 0%Z s.

(** The decimal digits of a non-negative integer, as [String(n)] prints it;
    [fuel] bounds the number of digits. *)
Fixpoint digits_fuel (fuel : nat) (z : Z) : jsstring :=
  match fuel with
  | O => []
  | S f =>
      let d := Z.to_N (48 + z mod 10) in
      if (z <? 10)%Z then [d] else digits_fuel f (z / 10) ++ [d]
  end.

Definition digits_of (z : Z) : jsstring := digits_fuel (S (Z.to_nat (Z.log2 z))) z.

(** [String(z)] for an integer [z] of magnitude below 10^21. *)
Definition string_of_Z (z : Z) : jsstring :=
  if (z <? 0)%Z then 45%N :: digits_of (- z) else digits_of z.

#[global] Arguments js : simpl never.
#[global] Arguments trim : simpl never.

(** * Lemmas: trimming *)

Definition no_outer_white (s : jsstring) : Prop :=
  trimStart s = s ∧ trimEnd s = s.

Lemma trimStart_idemp s : trimStart (trimStart s) = trimStart s.
Proof.
  induction s as [|c s IH]; simpl; [done|].
  destruct (is_white c) eqn:E; [done|]. simpl. by rewrite E.
Qed.

Lemma trimEnd_idemp s : trimEnd (trimEnd s) = trimEnd s.
Proof. unfold trimEnd. by rewrite reverse_involutive, trimStart_idemp. Qed.

Lemma trimStart_suffix s : ∃ w, s = w ++ trimStart s ∧ Forall (λ c, is_white c = true) w.
Proof.
  induction s as [|c s (w & Hw & Hf)]; simpl; [by exists []|].
  destruct (is_white c) eqn:E.
  - exists (c :: w). split; [by rewrite Hw at 1|by constructor].
  - by exists [].
Qed.

Lemma trimStart_cons_head s c t : trimStart s = c :: t → is_white c = false.
Proof.
  induction s as [|d s IH]; simpl; [done|].
  destruct (is_white d) eqn:E; [by apply IH|]. by intros [= <- _].
Qed.

Lemma trimStart_fix c t : is_white c = false → trimStart (c :: t) = c :: t.
Proof. simpl. by intros ->. Qed.

(** Stripping the end keeps a non-white first unit in place. *)
Lemma trimEnd_cons c t : is_white c = false → ∃ t', trimEnd (c :: t) = c :: t'.
Proof.
  intros Hc. unfold trimEnd. rewrite reverse_cons.
  generalize (reverse t) as u. intros u. induction u as [|d u IH]; simpl.
  - rewrite Hc. simpl. by exists [].
  - destruct (is_white d); [done|].
    exists (reverse u ++ [d]).
    rewrite reverse_cons, reverse_app. simpl. done.
Qed.

Lemma trim_idemp s : trim (trim s) = trim s.
Proof.
  unfold trim. destruct (trimStart s) as [|c t] eqn:E; [done|].
  pose proof (trimStart_cons_head _ _ _ E) as Hc.
  destruct (trimEnd_cons c t Hc) as [t' Ht].
  rewrite Ht, trimStart_fix by done. by rewrite <- Ht, trimEnd_idemp.
Qed.

Lemma trim_nil : trim [] = [].
Proof. done. Qed.

Lemma trim_no_white s : Forall (λ c, is_white c = false) s → trim s = s.
Proof.
  intros Hs. unfold trim.
  assert (Hst : ∀ u, Forall (λ c, is_white c = false) u → trimStart u = u).
  { intros [|c u] Hu; [done|]. inversion Hu; subst. by apply trimStart_fix. }
  rewrite (Hst s Hs). unfold trimEnd. rewrite Hst by by apply Forall_reverse.
  apply reverse_involutive.
Qed.

Lemma trimStart_Forall P s : Forall P s → Forall P (trimStart s).
Proof.
  destruct (trimStart_suffix s) as (w & Hw & _). intros H. rewrite Hw in H.
  by apply Forall_app in H as [_ H].
Qed.

Lemma trim_Forall P s : Forall P s → Forall P (trim s).
Proof.
  intros H. unfold trim, trimEnd.
  apply Forall_reverse, trimStart_Forall, Forall_reverse, trimStart_Forall, H.
Qed.

(** * Lemmas: [startsWith], [indexOf] *)

Lemma startsWith_spec s p : startsWith s p = true ↔ ∃ t, s = p ++ t.
Proof.
  revert s. induction p as [|c p IH]; intros s; simpl.
  - split; [by exists s|]. by destruct s.
  - destruct s as [|d s]; [by split; [done|intros [? [=]]]|].
    simpl. destruct (N.eqb_spec c d) as [->|Hne]; simpl.
    + rewrite IH. split; [intros [t ->]; by exists t|intros [t [= ->]]; by exists t].
    + split; [done|intros [t [= -> ->]]; done].
Qed.

Lemma startsWith_app p t : startsWith (p ++ t) p = true.
Proof. apply startsWith_spec. by exists t. Qed.

Lemma indexOf_Some s p i :
  indexOf s p = Some i → ∃ a b, s = a ++ p ++ b ∧ length a = i.
Proof.
  revert i. induction s as [|c s IH]; intros i; cbn [indexOf].
  - destruct (startsWith [] p) eqn:E; [|done]. intros [= <-].
    apply startsWith_spec in E as [t E]. exists [], t. by split.
  - destruct (startsWith (c :: s) p) eqn:E.
    + intros [= <-]. apply startsWith_spec in E as [t E]. exists [], t. by split.
    + destruct (indexOf s p) as [j|]; [|done]. intros [= <-].
      destruct (IH j eq_refl) as (a & b & -> & <-). exists (c :: a), b. done.
Qed.

Lemma indexOf_app_is_Some a p b : is_Some (indexOf (a ++ p ++ b) p).
Proof.
  induction a as [|c a IH].
  - rewrite app_nil_l. pose proof (startsWith_app p b) as H.
    destruct (p ++ b); cbn [indexOf]; rewrite H; by eauto.
  - cbn [indexOf app]. destruct (startsWith _ _); [by eauto|].
    destruct IH as [i Hi]. cbn in Hi. rewrite Hi. by eauto.
Qed.

Lemma includes_spec s p : includes s p = true ↔ ∃ a b, s = a ++ p ++ b.
Proof.
  unfold includes. split.
  - destruct (indexOf s p) as [i|] eqn:E; [|done]. intros _.
    destruct (indexOf_Some _ _ _ E) as (a & b & ? & _). by exists a, b.
  - intros (a & b & ->). by destruct (indexOf_app_is_Some a p b) as [i ->].
Qed.

Lemma indexOf_bound s p i : indexOf s p = Some i → i + length p ≤ length s.
Proof.
  intros (a & b & -> & <-)%indexOf_Some. rewrite !length_app. lia.
Qed.

(** * Lemmas: [replaceAll] and [join] *)

Lemma replaceAll_nil c rep : replaceAll [] c rep = [].
Proof. done. Qed.

Lemma replaceAll_cons d s c rep :
  replaceAll (d :: s) c rep = (if (d =? c)%N then rep else [d]) ++ replaceAll s c rep.
Proof. done. Qed.

Lemma replaceAll_app s t c rep :
  replaceAll (s ++ t) c rep = replaceAll s c rep ++ replaceAll t c rep.
Proof. apply bind_app. Qed.

Lemma replaceAll_id s c rep : c ∉ s → replaceAll s c rep = s.
Proof.
  induction s as [|d s IH]; intros H; [done|].
  rewrite replaceAll_cons, IH by set_solver.
  destruct (N.eqb_spec d c); [set_solver|done].
Qed.

#[export] Hint Rewrite replaceAll_nil replaceAll_cons replaceAll_app : js_simp.

Lemma joinWith_cons sep s l :
  l ≠ [] → joinWith sep (s :: l) = s ++ sep ++ joinWith sep l.
Proof. by destruct l. Qed.

(** * Lemmas: code-unit order *)

#[export] Instance js_le_refl : Reflexive js_le.
Proof.
  intros a. unfold js_le. induction a as [|c a IH]; simpl; [done|].
  by rewrite N.ltb_irrefl.
Qed.

#[export] Instance js_le_trans : Transitive js_le.
Proof.
  unfold js_le. intros a. induction a as [|c a IH]; intros [|d b] [|e t]; simpl; try done.
  destruct (N.ltb_spec c d), (N.ltb_spec d c), (N.ltb_spec d e), (N.ltb_spec e d),
    (N.ltb_spec c e), (N.ltb_spec e c); try done; try lia; try (intros; exfalso; lia).
  apply IH.
Qed.

#[export] Instance js_le_antisymm : AntiSymm (=) js_le.
Proof.
  intros a. unfold js_le. induction a as [|c a IH]; intros [|d b]; simpl; try done.
  destruct (N.ltb_spec c d), (N.ltb_spec d c); try done; try lia.
  intros. assert (c = d) as -> by lia. f_equal. by apply IH.
Qed.

#[export] Instance js_le_total : Total js_le.
Proof.
  intros a. unfold js_le. induction a as [|c a IH]; intros [|d b]; simpl; auto.
  destruct (N.ltb_spec c d), (N.ltb_spec d c); auto.
Qed.

Lemma js_sort_Permutation l : js_sort l ≡ₚ l.
Proof. apply merge_sort_Permutation. Qed.

Lemma js_sort_sorted l : StronglySorted js_le (js_sort l).
Proof. apply (StronglySorted_merge_sort _). Qed.

Lemma js_sort_unique l k : l ≡ₚ k → js_sort l = js_sort k.
Proof.
  intros H. apply (StronglySorted_unique js_le); try apply js_sort_sorted.
  by rewrite !js_sort_Permutation.
Qed.

Lemma js_sort_id l : StronglySorted js_le l → js_sort l = l.
Proof.
  intros. apply (StronglySorted_unique js_le); auto using js_sort_sorted, js_sort_Permutation.
Qed.

#[export] Hint Resolve js_sort_sorted js_sort_Permutation trim_idemp : js.
