(* ===== verification/JsNumber.v ===== *)
(** JavaScript numbers. A number is an integer-valued double, a fractional
    double [m * 2^-e], an infinity or [NaN]; -0 is identified with 0, which no
    operation modelled here can tell apart. Integer arithmetic rounds to 53
    significant bits, ties to even; arithmetic on fractions goes through the
    binary64 operations of the Standard Library's [SpecFloat]. *)
From Stdlib Require Import SpecFloat.
From S2P Require Export JsString.

Inductive num : Type :=
| NInt (z : Z)
| NFrac (m : Z) (e : positive)
| NInf (neg : bool)
| NNaN.

#[export] Instance num_eq_dec : EqDecision num.
Proof. solve_decision. Defined.

(** * Rounding *)

Definition max_safe : Z := 9007199254740991.   (* Number.MAX_SAFE_INTEGER *)

(** Round a positive integer above 2^53 to 53 significant bits, ties to even. *)
Definition round53_pos (z : Z) : Z :=
  let k := (Z.log2 z - 52)%Z in
  let q := (z / 2 ^ k)%Z in
  let r := (z mod 2 ^ k)%Z in
  let half := (2 ^ (k - 1))%Z in
  let q' := (if r <? half then q else if half <? r then q + 1
             else if Z.even q then q else q + 1)%Z in
  (q' * 2 ^ k)%Z.

Definition round_int (z : Z) : num :=
  if (Z.abs z <=? 2 ^ 53)%Z then NInt z
  else
    let m := round53_pos (Z.abs z) in
    if (2 ^ 1024 <=? m)%Z then NInf (z <? 0)%Z else NInt (Z.sgn z * m).

(** * Conversion from and to [SpecFloat] *)

Definition num_to_sf (n : num) : spec_float :=
  match n with
  | NInt z => binary_normalize 53 1024 z 0 false
  | NFrac m e => binary_normalize 53 1024 m (Z.neg e) false
  | NInf b => S754_infinity b
  | NNaN => S754_nan
  end.

(** Normalize [m * 2^-e]: drop common factors of two. *)
Fixpoint norm_frac (m : positive) (e : positive) : positive * option positive :=
  match m with
  | xO m' => match e with
             | xH => (m', None)
             | _ => norm_frac m' (Pos.pred e)
             end
  | _ => (m, Some e)
  end.

Definition num_of_sf (f : spec_float) : num :=
  match f with
  | S754_zero _ => NInt 0
  | S754_infinity b => NInf b
  | S754_nan => NNaN
  | S754_finite s m e =>
      let sg (p : positive) := if s then Z.neg p else Z.pos p in
      match e with
      | Z0 => NInt (sg m)
      | Zpos _ => NInt (sg m * 2 ^ e)
      | Zneg k => match norm_frac m k with
                  | (m', None) => NInt (sg m')
                  | (m', Some k') => NFrac (sg m') k'
                  end
      end
  end.

(** * Arithmetic *)

Definition num_op (f : spec_float → spec_float → spec_float) (a b : num) : num :=
  num_of_sf (f (num_to_sf a) (num_to_sf b)).

Definition num_add (a b : num) : num :=
  match a, b with
  | NInt x, NInt y => round_int (x + y)
  | _, _ => num_op (SFadd 53 1024) a b
  end.

Definition num_sub (a b : num) : num :=
  match a, b with
  | NInt x, NInt y => round_int (x - y)
  | NInt _, NInf b => NInf (negb b)
  | _, _ => num_op (SFsub 53 1024) a b
  end.

Definition num_mul (a b : num) : num :=
  match a, b with
  | NInt x, NInt y => round_int (x * y)
  | _, _ => num_op (SFmul 53 1024) a b
  end.

(** * Comparison *)

(** [None] is JavaScript's undefined comparison, when an operand is [NaN]. *)
Definition num_compare (a b : num) : option comparison :=
  match a, b with
  | NNaN, _ | _, NNaN => None
  | NInf x, NInf y => Some (if Bool.eqb x y then Eq else if x then Lt else Gt)
  | NInf x, _ => Some (if x then Lt else Gt)
  | _, NInf y => Some (if y then Gt else Lt)
  | NInt x, NInt y => Some (x ?= y)%Z
  | NInt x, NFrac m e => Some (x * 2 ^ Z.pos e ?= m)%Z
  | NFrac m e, NInt y => Some (m ?= y * 2 ^ Z.pos e)%Z
  | NFrac m e, NFrac m' e' => Some (m * 2 ^ Z.pos e' ?= m' * 2 ^ Z.pos e)%Z
  end.

Definition num_lt (a b : num) : bool :=
  match num_compare a b with Some Lt => true | _ => false end.
Definition num_le (a b : num) : bool :=
  match num_compare a b with Some Lt | Some Eq => true | _ => false end.
Definition num_gt (a b : num) : bool := num_lt b a.
Definition num_ge (a b : num) : bool := num_le b a.
(** [===] on two numbers. *)
Definition num_eqb (a b : num) : bool :=
  match num_compare a b with Some Eq => true | _ => false end.

(** [Math.min] and [Math.max] of two numbers. *)
Definition num_min (a b : num) : num :=
  match num_compare a b with None => NNaN | Some Gt => b | Some _ => a end.
Definition num_max (a b : num) : num :=
  match num_compare a b with None => NNaN | Some Lt => b | Some _ => a end.

Definition is_integer (n : num) : bool :=
  match n with NInt _ => true | _ => false end.

Definition is_safe_integer (n : num) : bool :=
  match n with NInt z => (Z.abs z <=? max_safe)%Z | _ => false end.

Definition is_nan (n : num) : bool :=
  match n with NNaN => true | _ => false end.

(** [Number(s)] for a string of decimal digits. *)
Definition number_of_digits (s : jsstring) : num := round_int (digits_value s).

(** * Lemmas *)

(** A double obtained by rounding, as far as the callers need it: exact up to
    2^53, and on the same side of the bound beyond it. *)
Lemma round_int_exact z : (Z.abs z ≤ 2 ^ 53)%Z → round_int z = NInt z.
Proof. intros H. unfold round_int. by rewrite (proj2 (Z.leb_le _ _) H). Qed.

Lemma round53_pos_ge z : (2 ^ 53 < z)%Z → (2 ^ 53 ≤ round53_pos z)%Z.
Proof.
  intros Hz. unfold round53_pos.
  set (k := (Z.log2 z - 52)%Z). set (q := (z / 2 ^ k)%Z).
  assert (Hlog : (53 ≤ Z.log2 z)%Z) by (apply Z.log2_le_pow2; lia).
  assert (Hk : (1 ≤ k)%Z) by lia.
  assert (Hq : (2 ^ 52 ≤ q)%Z).
  { apply Z.div_le_lower_bound; [apply Z.pow_pos_nonneg; lia|].
    rewrite <- Z.pow_add_r by lia. replace (k + 52)%Z with (Z.log2 z) by lia.
    apply Z.log2_spec. lia. }
  assert (Hp : (2 ≤ 2 ^ k)%Z) by (apply (Z.pow_le_mono_r 2 1 k); lia).
  set (q' := (if _ <? _ then _ else _)%Z).
  assert (q ≤ q')%Z by (unfold q'; repeat case_match; lia).
  replace (2 ^ 53)%Z with (2 ^ 52 * 2)%Z by reflexivity.
  apply Z.mul_le_mono_nonneg; lia.
Qed.

Lemma round_int_nonpos z :
  (z ≤ 0)%Z → ∃ n, round_int z = n ∧ num_le n (NInt 0) = true.
Proof.
  intros Hz. eexists; split; [done|]. unfold round_int.
  destruct (Z.leb_spec (Z.abs z) (2 ^ 53)).
  - unfold num_le; simpl. destruct (Z.compare_spec z 0); lia || done.
  - pose proof (round53_pos_ge (Z.abs z)).
    case_match.
    + rewrite (proj2 (Z.ltb_lt z 0)) by lia. done.
    + unfold num_le; simpl.
      destruct (Z.compare_spec (Z.sgn z * round53_pos (Z.abs z)) 0); try done.
      rewrite Z.sgn_neg in * by lia. lia.
Qed.

Lemma round_int_big z :
  (2 ^ 53 < z)%Z →
  round_int z = NInf false ∨ ∃ y, round_int z = NInt y ∧ (2 ^ 53 ≤ y)%Z.
Proof.
  intros Hz. unfold round_int. rewrite (proj2 (Z.leb_gt _ _)) by lia.
  rewrite Z.abs_eq by lia. case_match.
  - left. by rewrite (proj2 (Z.ltb_ge z 0)) by lia.
  - right. eexists; split; [done|]. rewrite Z.sgn_pos by lia.
    pose proof (round53_pos_ge z Hz). lia.
Qed.

Lemma is_safe_round_int z :
  (0 ≤ z)%Z → is_safe_integer (round_int z) = (z <=? max_safe)%Z.
Proof.
  intros Hz. unfold max_safe. destruct (Z.leb_spec z (2 ^ 53)).
  - rewrite round_int_exact by lia. simpl. by rewrite Z.abs_eq.
  - rewrite (proj2 (Z.leb_gt z _)) by lia.
    destruct (round_int_big z) as [->|(y & -> & Hy)]; [lia|done|].
    simpl. unfold max_safe. apply Z.leb_gt. lia.
Qed.

Lemma is_safe_integer_inv n :
  is_safe_integer n = true → ∃ z, n = NInt z ∧ (Z.abs z ≤ max_safe)%Z.
Proof. destruct n as [z| | |]; simpl; try done. intros H%Z.leb_le. eauto. Qed.

(** * Lemmas: digits *)

Lemma digits_value_snoc s d :
  digits_value (s ++ [d]) = (digits_value s * 10 + (Z.of_N d - 48))%Z.
Proof. unfold digits_value. by rewrite foldl_app. Qed.

Lemma digits_fuel_value f z :
  (0 ≤ z)%Z → (z < 2 ^ Z.of_nat f)%Z → digits_value (digits_fuel f z) = z.
Proof.
  revert z. induction f as [|f IH]; intros z H0 Hz.
  { change (2 ^ Z.of_nat 0)%Z with 1%Z in Hz. by assert (z = 0%Z) as -> by lia. }
  assert (Hm : (0 ≤ z mod 10 < 10)%Z) by (apply Z.mod_pos_bound; lia).
  simpl. destruct (Z.ltb_spec z 10).
  - unfold digits_value; simpl. rewrite Z.mod_small by lia. lia.
  - rewrite digits_value_snoc, IH.
    + rewrite Z2N.id by lia. pose proof (Z.div_mod z 10). lia.
    + apply Z.div_pos; lia.
    + apply Z.div_lt_upper_bound; [lia|].
      rewrite Nat2Z.inj_succ, Z.pow_succ_r in Hz by lia. lia.
Qed.

Lemma log2_fuel z : (0 ≤ z)%Z → (z < 2 ^ Z.of_nat (S (Z.to_nat (Z.log2 z))))%Z.
Proof.
  intros H. pose proof (Z.log2_nonneg z).
  rewrite Nat2Z.inj_succ, Z2Nat.id by lia.
  destruct (decide (z = 0%Z)) as [->|]; [done|]. apply Z.log2_spec. lia.
Qed.

(** Printing an integer and reading its digits back gives the integer. *)
Lemma digits_of_value z : (0 ≤ z)%Z → digits_value (digits_of z) = z.
Proof. intros H. apply digits_fuel_value; [done|by apply log2_fuel]. Qed.

Lemma digits_fuel_digits f z : (0 ≤ z)%Z → Forall (λ c, is_digit c = true) (digits_fuel f z).
Proof.
  revert z. induction f as [|f IH]; intros z H; simpl; [constructor|].
  assert (Hd : is_digit (Z.to_N (48 + z mod 10)) = true).
  { assert (0 ≤ z mod 10 < 10)%Z by (apply Z.mod_pos_bound; lia).
    unfold is_digit. apply andb_true_iff. rewrite !N.leb_le. lia. }
  case_match; [by repeat constructor|].
  apply Forall_app. split; [apply IH, Z.div_pos; lia|by repeat constructor].
Qed.

(** The first digit of a positive integer is not 0. *)
Lemma digits_fuel_head f z :
  (1 ≤ z)%Z → (z < 2 ^ Z.of_nat f)%Z →
  ∃ c t, digits_fuel f z = c :: t ∧ (49 ≤ c ≤ 57)%N.
Proof.
  revert z. induction f as [|f IH]; intros z H0 Hz.
  { change (2 ^ Z.of_nat 0)%Z with 1%Z in Hz. lia. }
  simpl. destruct (Z.ltb_spec z 10).
  - rewrite Z.mod_small by lia. do 2 eexists; split; [done|]. lia.
  - destruct (IH (z / 10)%Z) as (c & t & -> & Hc).
    + apply Z.div_le_lower_bound; lia.
    + apply Z.div_lt_upper_bound; [lia|].
      rewrite Nat2Z.inj_succ, Z.pow_succ_r in Hz by lia. lia.
    + simpl. eauto.
Qed.

Lemma digits_of_head z :
  (1 ≤ z)%Z → ∃ c t, digits_of z = c :: t ∧ (49 ≤ c ≤ 57)%N ∧
    Forall (λ c, is_digit c = true) t.
Proof.
  intros H. destruct (digits_fuel_head (S (Z.to_nat (Z.log2 z))) z) as (c & t & E & Hc);
    [done|apply log2_fuel; lia|].
  exists c, t. repeat split; [done|lia|lia|].
  pose proof (digits_fuel_digits (S (Z.to_nat (Z.log2 z))) z) as Hf.
  rewrite E in Hf. specialize (Hf ltac:(lia)). by inversion Hf.
Qed.

#[export] Hint Resolve digits_of_value : js.

(** * Lemmas: comparison of integers *)

Lemma num_eqb_int x y : num_eqb (NInt x) (NInt y) = (x =? y)%Z.
Proof. unfold num_eqb; simpl. destruct (Z.compare_spec x y), (Z.eqb_spec x y); lia || done. Qed.

Lemma num_lt_int x y : num_lt (NInt x) (NInt y) = (x <? y)%Z.
Proof. unfold num_lt; simpl. destruct (Z.compare_spec x y), (Z.ltb_spec x y); lia || done. Qed.

Lemma num_le_int x y : num_le (NInt x) (NInt y) = (x <=? y)%Z.
Proof. unfold num_le; simpl. destruct (Z.compare_spec x y), (Z.leb_spec x y); lia || done. Qed.

Lemma num_min_int x y : num_min (NInt x) (NInt y) = NInt (Z.min x y).
Proof. unfold num_min; simpl. destruct (Z.compare_spec x y); f_equal; lia. Qed.

Lemma num_max_int x y : num_max (NInt x) (NInt y) = NInt (Z.max x y).
Proof. unfold num_max; simpl. destruct (Z.compare_spec x y); f_equal; lia. Qed.

Lemma num_eqb_eq a z : num_eqb a (NInt z) = true → is_integer a = true → a = NInt z.
Proof.
  destruct a as [y| | |]; simpl; try done. rewrite num_eqb_int. by intros ->%Z.eqb_eq.
Qed.

#[export] Hint Rewrite num_eqb_int num_lt_int num_le_int num_min_int num_max_int : js_simp.
