(* ===== verification/JsCore.v ===== *)
(** JavaScript values, thrown values and effectful computations: dynamic values
    with [typeof] and property lookup, results of code that may throw, and the
    state-and-exception monad in which [await], [try]/[catch] and calls through
    ports are written. *)
From S2P Require Export JsNumber.

(** * Dynamic values *)

(** A value of type [unknown]: what [JSON.parse] builds, or [undefined]. An
    object lists its own properties in insertion order. *)
Unset Elimination Schemes.
Inductive jsval : Type :=
| VUndef
| VNull
| VBool (b : bool)
| VNum (n : num)
| VStr (s : jsstring)
| VArr (l : list jsval)
| VObj (props : list (jsstring * jsval)).
Set Elimination Schemes.

Definition js_typeof (v : jsval) : jsstring :=
  match v with
  | VUndef => js "undefined"
  | VNull | VArr _ | VObj _ => js "object"
  | VBool _ => js "boolean"
  | VNum _ => js "number"
  | VStr _ => js "string"
  end.

(** * Property lists *)

Section props.
Context {V : Type}.

Fixpoint prop_get (l : list (jsstring * V)) (k : jsstring) : option V :=
  match l with
  | [] => None
  | (k', v) :: l' => if decide (k = k') then Some v else prop_get l' k
  end.

(** Assignment keeps the position of an existing property. *)
Fixpoint prop_set (l : list (jsstring * V)) (k : jsstring) (v : V) : list (jsstring * V) :=
  match l with
  | [] => [(k, v)]
  | (k', v') :: l' =>
      if decide (k = k') then (k, v) :: l' else (k', v') :: prop_set l' k v
  end.

Definition prop_delete (l : list (jsstring * V)) (k : jsstring) : list (jsstring * V) :=
  filter (λ p, p.1 ≠ k) l.

Lemma prop_get_set l k k' v :
  prop_get (prop_set l k v) k' = if decide (k' = k) then Some v else prop_get l k'.
Proof.
  induction l as [|[j w] l IH]; simpl; [done|].
  destruct (decide (k = j)) as [->|]; simpl; [by case_decide|].
  rewrite IH. repeat case_decide; congruence.
Qed.

Lemma prop_get_delete l k k' :
  prop_get (prop_delete l k) k' = if decide (k' = k) then None else prop_get l k'.
Proof.
  unfold prop_delete. induction l as [|[j w] l IH]; simpl.
  - by case_decide.
  - rewrite filter_cons; simpl. repeat case_decide; simpl; subst; try done;
      rewrite ?IH; repeat case_decide; congruence.
Qed.

Lemma prop_get_is_Some l k : is_Some (prop_get l k) ↔ k ∈ l.*1.
Proof.
  induction l as [|[j v] l IH]; simpl.
  - split; [by intros [? ?]|by intros ?%not_elem_of_nil].
  - rewrite elem_of_cons, <- IH. case_decide; subst; naive_solver.
Qed.

Lemma prop_get_elem l k v : prop_get l k = Some v → (k, v) ∈ l.
Proof.
  induction l as [|[j w] l IH]; simpl; [done|]. case_decide; [intros [= ->]; subst; by left|].
  intros Hg. right. by apply IH.
Qed.
End props.

#[export] Hint Rewrite @prop_get_set @prop_get_delete : js_simp.

(** [v?.key] on the result of [JSON.parse]: own properties only. *)
Definition val_prop (v : jsval) (k : jsstring) : jsval :=
  match v with
  | VObj l => default VUndef (prop_get l k)
  | _ => VUndef
  end.

(** * Thrown values *)

(** What the code inspects of a caught value: whether it is an [Error], its
    [name] property if it is an object that has one, and [typeof]. *)
Class Thrown (E : Type) := {
  err_is_error : E → bool;
  err_name : E → option jsval;
  err_typeof : E → jsstring
}.

Inductive result (E A : Type) : Type :=
| Ok (a : A)
| Err (e : E).
Arguments Ok {E A} a.
Arguments Err {E A} e.

(** * Effectful computations *)

(** Code that runs in a world [W], may change it, and returns or throws. An
    [async] function is the computation of its settled promise: what other code
    does to the world while it is suspended belongs to the awaited call. *)
Definition M (E W A : Type) : Type := W → result E A * W.

Section monad.
Context {E W : Type}.

#[export] Instance M_ret : MRet (M E W) := λ A a w, (Ok a, w).

#[export] Instance M_bind : MBind (M E W) := λ A B f m w,
  match m w with
  | (Ok a, w') => f a w'
  | (Err e, w') => (Err e, w')
  end.

#[export] Instance M_fmap : FMap (M E W) := λ A B f m w,
  match m w with
  | (Ok a, w') => (Ok (f a), w')
  | (Err e, w') => (Err e, w')
  end.

Definition is_ok {E A} (r : result E A) : bool := match r with Ok _ => true | Err _ => false end.

Definition throw {A} (e : E) : M E W A := λ w, (Err e, w).

(** [try { m } catch (error) { h(error) }] *)
Definition try_catch {A} (m : M E W A) (h : E → M E W A) : M E W A := λ w,
  match m w with
  | (Ok a, w') => (Ok a, w')
  | (Err e, w') => h e w'
  end.

Definition lift_result {A} (r : result E A) : M E W A := λ w, (r, w).

Lemma M_bind_ok {A B} (f : A → M E W B) m w a w' :
  m w = (Ok a, w') → (m ≫= f) w = f a w'.
Proof. intros H. unfold mbind, M_bind. by rewrite H. Qed.

Lemma M_bind_err {A B} (f : A → M E W B) m w e w' :
  m w = (Err e, w') → (m ≫= f) w = (Err e, w').
Proof. intros H. unfold mbind, M_bind. by rewrite H. Qed.

Lemma M_bind_assoc {A B C} (m : M E W A) (f : A → M E W B) (g : B → M E W C) w :
  ((m ≫= f) ≫= g) w = (m ≫= λ a, f a ≫= g) w.
Proof. unfold mbind, M_bind. by destruct (m w) as [[]]. Qed.

Lemma try_catch_ok {A} (m : M E W A) h w a w' :
  m w = (Ok a, w') → try_catch m h w = (Ok a, w').
Proof. intros H. unfold try_catch. by rewrite H. Qed.

Lemma try_catch_err {A} (m : M E W A) h w e w' :
  m w = (Err e, w') → try_catch m h w = h e w'.
Proof. intros H. unfold try_catch. by rewrite H. Qed.
End monad.
