(* ===== verification/SdkJson.v ===== *)
(** The response parser of the generated API client ([out/tssdk/index.js]:
    [unicode], [parseJSON]). It accepts exactly the JSON texts that a reference
    grammar generates, within its bounds: no duplicate keys, no lone surrogate, no
    number that would become an integer, or an unsafe one, by rounding, at most ten
    thousand values, nested at most 32 deep.

    The client is generated code kept in the repository; the console's copy for the
    session resource ([console/out/browser/sessionclient/index.js]) has the same
    parser. *)
From Stdlib Require Import SpecFloat.
From S2P Require Export JsCore.

(** * Well-formed UTF-16 *)

Definition is_high (c : N) : bool := ((0xd800 <=? c) && (c <=? 0xdbff))%N.
Definition is_low (c : N) : bool := ((0xdc00 <=? c) && (c <=? 0xdfff))%N.

(** Past the end, [charCodeAt] is [NaN], which is not a low surrogate. *)
Fixpoint unicode (s : jsstring) : bool :=
  match s with
  | [] => true
  | c :: t =>
      if is_high c then match t with n :: t' => is_low n && unicode t' | [] => false end
      else if is_low c then false
      else unicode t
  end.

(** * Tokens *)

Definition is_space_unit (c : N) : bool :=
  ((c =? 32) || (c =? 9) || (c =? 13) || (c =? 10))%N.

(** The text from the first unit that is no white space. *)
Fixpoint space (s : jsstring) : jsstring :=
  match s with
  | c :: t => if is_space_unit c then space t else s
  | [] => []
  end.

(** The loop of [string], after the opening quote: the units up to the closing
    one, and the text after it. A backslash takes the unit after it along. *)
Fixpoint scan_string (s : jsstring) : option (jsstring * jsstring) :=
  match s with
  | [] => None
  | c :: t =>
      if (c =? 92)%N then
        match t with
        | [] => None
        | d :: t' => r ← scan_string t'; Some (c :: d :: r.1, r.2)
        end
      else if (c =? 34)%N then Some ([], t)
      else r ← scan_string t; Some (c :: r.1, r.2)
  end.

Definition hex_value (c : N) : option N :=
  if is_digit c then Some (c - 48)%N
  else if ((97 <=? c) && (c <=? 102))%N then Some (c - 87)%N
  else if ((65 <=? c) && (c <=? 70))%N then Some (c - 55)%N
  else None.

Definition hex4 (a b c d : N) : option N :=
  a' ← hex_value a; b' ← hex_value b; c' ← hex_value c; d' ← hex_value d;
  Some (((a' * 16 + b') * 16 + c') * 16 + d')%N.

(** The unit a one-letter escape stands for. *)
Definition escaped_unit (e : N) : option N :=
  if ((e =? 34) || (e =? 92) || (e =? 47))%N then Some e
  else if (e =? 98)%N then Some 8%N
  else if (e =? 102)%N then Some 12%N
  else if (e =? 110)%N then Some 10%N
  else if (e =? 114)%N then Some 13%N
  else if (e =? 116)%N then Some 9%N
  else None.

(** [JSON.parse] of a string literal, given what is between its quotes. *)
Fixpoint unescape (raw : jsstring) : option jsstring :=
  match raw with
  | [] => Some []
  | c :: t =>
      if (c =? 92)%N then
        match t with
        | [] => None
        | e :: t' =>
            if (e =? 117)%N then
              match t' with
              | a :: b :: x :: y :: t'' => u ← hex4 a b x y; (u ::.) <$> unescape t''
              | _ => None
              end
            else u ← escaped_unit e; (u ::.) <$> unescape t'
        end
      else if ((c <? 32) || (c =? 34))%N then None
      else (c ::.) <$> unescape t
  end.

(** [string], from the unit after the opening quote. *)
Definition json_string (s : jsstring) : option (jsstring * jsstring) :=
  r ← scan_string s; v ← unescape r.1; if unicode v then Some (v, r.2) else None.

(** * Numbers *)

(** A match of the number pattern, part by part. *)
Record NumberToken := {
  tk_negative : bool;
  tk_whole : jsstring;
  tk_fraction : option jsstring;
  tk_exponent : option (N * option N * jsstring)   (* its letter, sign and digits *)
}.

Definition token_text (tk : NumberToken) : jsstring :=
  (if tk_negative tk then [45%N] else []) ++ tk_whole tk ++
  match tk_fraction tk with Some f => 46%N :: f | None => [] end ++
  match tk_exponent tk with
  | Some (e, sign, ds) => e :: option_list sign ++ ds
  | None => []
  end.

Fixpoint take_digits (s : jsstring) : jsstring * jsstring :=
  match s with
  | c :: t => if is_digit c then (c :: (take_digits t).1, (take_digits t).2) else ([], s)
  | [] => ([], [])
  end.

Definition whole_part (s : jsstring) : option (jsstring * jsstring) :=
  match s with
  | c :: t => if (c =? 48)%N then Some ([c], t)
              else if is_digit c then Some (take_digits s) else None
  | [] => None
  end.

(** The optional groups take nothing when they cannot match. *)
Definition fraction_part (s : jsstring) : option jsstring * jsstring :=
  match s with
  | c :: t => if (c =? 46)%N then
                match take_digits t with ([], _) => (None, s) | (ds, k) => (Some ds, k) end
              else (None, s)
  | [] => (None, s)
  end.

Definition sign_part (s : jsstring) : option N * jsstring :=
  match s with
  | c :: t => if ((c =? 43) || (c =? 45))%N then (Some c, t) else (None, s)
  | [] => (None, s)
  end.

Definition exponent_part (s : jsstring) : option (N * option N * jsstring) * jsstring :=
  match s with
  | c :: t =>
      if ((c =? 101) || (c =? 69))%N then
        let g := sign_part t in
        match take_digits g.2 with
        | ([], _) => (None, s)
        | (ds, k) => (Some (c, g.1, ds), k)
        end
      else (None, s)
  | [] => (None, s)
  end.

(** The pattern's match at the start of the text: an optional minus, a zero or a
    number without leading zero, a fraction, an exponent. *)
Definition number_token (s : jsstring) : option (NumberToken * jsstring) :=
  let negative := match s with c :: _ => (c =? 45)%N | [] => false end in
  w ← whole_part (if negative then tail s else s);
  let f := fraction_part w.2 in
  let e := exponent_part f.2 in
  Some ({| tk_negative := negative; tk_whole := w.1; tk_fraction := f.1;
           tk_exponent := e.1 |}, e.2).

(** [BigInt(whole + fraction)], without the sign. *)
Definition token_digits (tk : NumberToken) : Z :=
  digits_value (tk_whole tk ++ default [] (tk_fraction tk)).

Definition token_exponent (tk : NumberToken) : Z :=
  match tk_exponent tk with
  | Some (_, sign, ds) =>
      if decide (sign = Some 45%N) then (- digits_value ds)%Z else digits_value ds
  | None => 0%Z
  end.

(** [fraction.length - Number(exponent)]. It is only compared with 0 and 400, and
    used below that, where the conversion to a double changes nothing. *)
Definition token_scale (tk : NumberToken) : Z :=
  (Z.of_nat (length (default [] (tk_fraction tk))) - token_exponent tk)%Z.

(** The double nearest to [m * 10^-scale], for [m] of at most 128 digits: those
    above 10^400 are infinite, those below 10^-672 zero. *)
Definition decimal_num (negative : bool) (m scale : Z) : num :=
  let sg z := if negative then (- z)%Z else z in
  if (m =? 0)%Z then NInt 0
  else if (scale <=? 0)%Z then
    if (400 <? - scale)%Z then NInf negative else round_int (sg (m * 10 ^ (- scale))%Z)
  else if (800 <? scale)%Z then NInt 0
  else if (m mod 10 ^ scale =? 0)%Z then round_int (sg (m / 10 ^ scale)%Z)
  else num_of_sf (SFdiv 53 1024 (S754_finite negative (Z.to_pos m) 0)
                    (S754_finite false (Z.to_pos (10 ^ scale)) 0)).

(** [Number(token)] *)
Definition token_number (tk : NumberToken) : num :=
  decimal_num (tk_negative tk) (token_digits tk) (token_scale tk).

Definition is_finite (n : num) : bool :=
  match n with NInt _ | NFrac _ _ => true | _ => false end.

(** The checks on the number of a token. *)
Definition checked_number (tk : NumberToken) : option num :=
  let n := token_number tk in
  if (128 <? length (token_text tk)) then None
  else if negb (is_finite n) || is_integer n && negb (is_safe_integer n) then None
  else if is_integer n && (0 <? token_scale tk)%Z &&
          ((400 <? token_scale tk)%Z ||
           negb (token_digits tk mod 10 ^ token_scale tk =? 0)%Z) then None
  else Some n.

(** * Values *)

Definition maxNodes : N := 10000.
Definition maxDepth : nat := 32.

(** What a call of [value] leaves: its result, the rest of the text and [nodes]. *)
Definition parsed : Type := jsval * jsstring * N.

Definition words : list (jsstring * jsval) :=
  [(js "true", VBool true); (js "false", VBool false); (js "null", VNull)].

Fixpoint parse_word (ws : list (jsstring * jsval)) (s : jsstring) : option (jsval * jsstring) :=
  match ws with
  | [] => None
  | (w, v) :: ws' => if startsWith s w then Some (v, drop (length w) s) else parse_word ws' s
  end.

Definition scalar (s : jsstring) : option (jsval * jsstring) :=
  match parse_word words s with
  | Some r => Some r
  | None => r ← number_token s; n ← checked_number r.1; Some (VNum n, r.2)
  end.

Section loops.
Context (value : jsstring → N → option parsed).

(** The loop over the items of an array, from the unit where one starts. Its fuel
    is the length of the text: every round takes a unit. *)
Fixpoint elements (fuel : nat) (out : list jsval) (s : jsstring) (nodes : N) : option parsed :=
  match fuel, s with
  | S fuel', _ :: _ =>
      r ← value s nodes;
      match space r.1.2 with
      | c :: t =>
          if (c =? 93)%N then Some (VArr (out ++ [r.1.1]), t, r.2)
          else if (c =? 44)%N then elements fuel' (out ++ [r.1.1]) (space t) r.2
          else None
      | [] => None
      end
  | _, _ => None
  end.

(** The same over the properties of an object. *)
Fixpoint members (fuel : nat) (out : list (jsstring * jsval)) (s : jsstring) (nodes : N) :
    option parsed :=
  match fuel, s with
  | S fuel', q :: t =>
      if negb (q =? 34)%N then None
      else
        key ← json_string t;
        match space key.2 with
        | c :: t' =>
            if bool_decide (is_Some (prop_get out key.1)) || negb (c =? 58)%N then None
            else
              r ← value t' nodes;
              let out' := out ++ [(key.1, r.1.1)] in
              match space r.1.2 with
              | c' :: t'' =>
                  if (c' =? 125)%N then Some (VObj out', t'', r.2)
                  else if (c' =? 44)%N then members fuel' out' (space t'') r.2
                  else None
              | [] => None
              end
        | [] => None
        end
  | _, _ => None
  end.
End loops.

(** [value], with the number of levels left below [maxDepth]. *)
Fixpoint value (levels : nat) (s : jsstring) (nodes : N) : option parsed :=
  let s := space s in
  let nodes := (nodes + 1)%N in
  match levels with
  | O => None
  | S levels' =>
      if (maxNodes <? nodes)%N then None
      else
        match s with
        | c :: t =>
            if (c =? 34)%N then r ← json_string t; Some (VStr r.1, r.2, nodes)
            else if ((c =? 123) || (c =? 91))%N then
              let close := if (c =? 123)%N then 125%N else 93%N in
              match space t with
              | c' :: k =>
                  if (c' =? close)%N
                  then Some (if (c =? 123)%N then VObj [] else VArr [], k, nodes)
                  else if (c =? 123)%N
                  then members (value levels') (S (length (c' :: k))) [] (c' :: k) nodes
                  else elements (value levels') (S (length (c' :: k))) [] (c' :: k) nodes
              | [] => None
              end
            else r ← scalar s; Some (r.1, r.2, nodes)
        | [] => None
        end
  end.

(** [None] is the failure [invalid_response]; what [JSON.parse] throws for a
    string literal becomes that failure in every caller. *)
Definition parseJSON (text : jsstring) : option jsval :=
  r ← value (S maxDepth) text 0;
  match space r.1.2 with [] => Some r.1.1 | _ => None end.

(** * The reference grammar *)

Definition ws (w : jsstring) : Prop := Forall (λ c, is_space_unit c = true) w.

(** What one unit of a string literal may be written as. *)
Inductive unit_text : N → jsstring → Prop :=
| ut_plain c : (32 ≤ c)%N → c ≠ 34%N → c ≠ 92%N → unit_text c [c]
| ut_escape e c : escaped_unit e = Some c → unit_text c [92%N; e]
| ut_hex a b x y c : hex4 a b x y = Some c → unit_text c [92%N; 117%N; a; b; x; y].

Inductive string_text : jsstring → jsstring → Prop :=
| st_nil : string_text [] []
| st_cons c s t t' : unit_text c t → string_text s t' → string_text (c :: s) (t ++ t').

(** The parts of a number are as the grammar has them. *)
Definition wf_token (tk : NumberToken) : Prop :=
  (tk_whole tk = [48%N] ∨
   ∃ c ds, tk_whole tk = c :: ds ∧ is_digit c = true ∧ c ≠ 48%N ∧
     Forall (λ d, is_digit d = true) ds) ∧
  (∀ f, tk_fraction tk = Some f → f ≠ [] ∧ Forall (λ d, is_digit d = true) f) ∧
  (∀ e g ds, tk_exponent tk = Some (e, g, ds) →
     (e = 101 ∨ e = 69)%N ∧ (g = None ∨ g = Some 43 ∨ g = Some 45)%N ∧
     ds ≠ [] ∧ Forall (λ d, is_digit d = true) ds).

(** The token denotes the integer [z]. *)
Definition denotes (tk : NumberToken) (z : Z) : Prop :=
  ((if tk_negative tk then - token_digits tk else token_digits tk) *
     10 ^ Z.max 0 (- token_scale tk) = z * 10 ^ Z.max 0 (token_scale tk))%Z.

(** A number of at most 128 units whose double is finite and, if it is an
    integer, a safe one that the number denotes exactly. A zero written with an
    exponent below -400 is left out too. *)
Definition number_text (n : num) (t : jsstring) : Prop :=
  ∃ tk, wf_token tk ∧ t = token_text tk ∧ length t ≤ 128 ∧ n = token_number tk ∧
    is_finite n = true ∧
    ∀ z, n = NInt z → (Z.abs z ≤ max_safe)%Z ∧ denotes tk z ∧ (token_scale tk ≤ 400)%Z.

Inductive json_text : jsval → jsstring → Prop :=
| jt_word w v : (w, v) ∈ words → json_text v w
| jt_string s t : string_text s t → unicode s = true →
    json_text (VStr s) (34%N :: t ++ [34%N])
| jt_number n t : number_text n t → json_text (VNum n) t
| jt_array_nil w : ws w → json_text (VArr []) (91%N :: w ++ [93%N])
| jt_array l t : elements_text l t → json_text (VArr l) (91%N :: t ++ [93%N])
| jt_object_nil w : ws w → json_text (VObj []) (123%N :: w ++ [125%N])
| jt_object l t : members_text l t → NoDup l.*1 → json_text (VObj l) (123%N :: t ++ [125%N])
with elements_text : list jsval → jsstring → Prop :=
| et_last v w t w' : ws w → json_text v t → ws w' → elements_text [v] (w ++ t ++ w')
| et_cons v l w t w' k : ws w → json_text v t → ws w' → elements_text l k →
    elements_text (v :: l) (w ++ t ++ w' ++ 44%N :: k)
with members_text : list (jsstring * jsval) → jsstring → Prop :=
| mt_last p w t w' : ws w → member_text p t → ws w' → members_text [p] (w ++ t ++ w')
| mt_cons p l w t w' k : ws w → member_text p t → ws w' → members_text l k →
    members_text (p :: l) (w ++ t ++ w' ++ 44%N :: k)
with member_text : jsstring * jsval → jsstring → Prop :=
| mt_member s t w v w' k : string_text s t → unicode s = true → ws w → ws w' →
    json_text v k → member_text (s, v) (34%N :: t ++ 34%N :: w ++ 58%N :: w' ++ k).

Scheme json_text_mut := Minimality for json_text Sort Prop
with elements_text_mut := Minimality for elements_text Sort Prop
with members_text_mut := Minimality for members_text Sort Prop
with member_text_mut := Minimality for member_text Sort Prop.
Combined Scheme json_text_ind' from json_text_mut, elements_text_mut, members_text_mut,
  member_text_mut.

Definition json_document (v : jsval) (text : jsstring) : Prop :=
  ∃ w t w', ws w ∧ json_text v t ∧ ws w' ∧ text = w ++ t ++ w'.

(** The number of values in a value, and how deep they nest. *)
Fixpoint json_nodes (v : jsval) : nat :=
  match v with
  | VArr l => S (list_sum (map json_nodes l))
  | VObj l => S (list_sum (map (λ p, json_nodes p.2) l))
  | _ => 1
  end.

Fixpoint json_height (v : jsval) : nat :=
  match v with
  | VArr l => list_max (map (λ v, S (json_height v)) l)
  | VObj l => list_max (map (λ p, S (json_height p.2)) l)
  | _ => 0
  end.

(** * Lemmas: white space and strings *)

(** The text does not begin with a unit of the class. *)
Definition no_head (P : N → bool) (s : jsstring) : Prop :=
  match s with c :: _ => P c = false | [] => True end.

Lemma space_split s : ∃ w, s = w ++ space s ∧ ws w.
Proof.
  induction s as [|c t (w & Hw & Hf)]; [by exists []; split; [|constructor]|]. simpl.
  destruct (is_space_unit c) eqn:E; [|by exists []; split; [|constructor]].
  exists (c :: w). split; [simpl; by rewrite <- Hw|by constructor].
Qed.

Lemma space_no_head s : no_head is_space_unit (space s).
Proof. induction s as [|c t IH]; [done|]. simpl. by destruct (is_space_unit c) eqn:E. Qed.

Lemma space_app w t : ws w → space (w ++ t) = space t.
Proof. induction 1 as [|c w Hc _ IH]; [done|]. simpl. by rewrite Hc. Qed.

Lemma space_fix s : no_head is_space_unit s → space s = s.
Proof. destruct s as [|c t]; [done|]. simpl. by intros ->. Qed.

Lemma space_idemp s : space (space s) = space s.
Proof. apply space_fix, space_no_head. Qed.

Lemma length_space s : length (space s) ≤ length s.
Proof. destruct (space_split s) as (w & H & _). rewrite H at 2. rewrite length_app. lia. Qed.

Lemma hex_value_range c v : hex_value c = Some v → (48 ≤ c)%N ∧ c ≠ 92%N.
Proof.
  unfold hex_value, is_digit. intros H.
  destruct (N.leb_spec 48 c), (N.leb_spec c 57), (N.leb_spec 97 c), (N.leb_spec c 102),
    (N.leb_spec 65 c), (N.leb_spec c 70); simpl in H; try done; lia.
Qed.

Lemma hex4_range a b x y u : hex4 a b x y = Some u →
  Forall (λ c, (48 ≤ c)%N ∧ c ≠ 92%N) [a; b; x; y].
Proof.
  unfold hex4. intros H. repeat (apply bind_Some in H as (? & ? & H)).
  repeat constructor; eapply hex_value_range; eauto.
Qed.

Lemma scan_plain c k : c ≠ 34%N → c ≠ 92%N →
  scan_string (c :: k) = r ← scan_string k; Some (c :: r.1, r.2).
Proof.
  intros H1 H2. simpl. destruct (N.eqb_spec c 92); [done|]. by destruct (N.eqb_spec c 34).
Qed.

Lemma scan_unit c t k : unit_text c t →
  scan_string (t ++ k) = r ← scan_string k; Some (t ++ r.1, r.2).
Proof.
  intros [c' H1 H2 H3|e c' He|a b x y c' Hx]; simpl app.
  - by apply scan_plain.
  - simpl. by destruct (scan_string k) as [[]|].
  - apply hex4_range in Hx. do 4 (apply Forall_cons in Hx as [[] Hx]).
    change (scan_string (92%N :: 117%N :: ?t)) with
      (r ← scan_string t; Some (92%N :: 117%N :: r.1, r.2)).
    rewrite !scan_plain by lia. by destruct (scan_string k) as [[]|].
Qed.

Lemma scan_string_text s t k : string_text s t → scan_string (t ++ 34%N :: k) = Some (t, k).
Proof.
  induction 1 as [|c s t t' Hc _ IH]; [done|].
  by rewrite <- (assoc_L (++)), (scan_unit c), IH.
Qed.

Lemma scan_string_split s raw k : scan_string s = Some (raw, k) → s = raw ++ 34%N :: k.
Proof.
  revert raw k. induction s as [s IH] using list_length_ind. intros raw k.
  destruct s as [|c t]; [done|]. simpl. destruct (N.eqb_spec c 92) as [->|].
  - destruct t as [|d t]; [done|]. intros ([r k'] & Hr & [= <- <-])%bind_Some.
    apply IH in Hr as ->; [done|simpl; lia].
  - destruct (N.eqb_spec c 34) as [->|]; [by intros [= <- <-]|].
    intros ([r k'] & Hr & [= <- <-])%bind_Some. apply IH in Hr as ->; [done|simpl; lia].
Qed.

Lemma unescape_plain c k : (32 ≤ c)%N → c ≠ 34%N → c ≠ 92%N →
  unescape (c :: k) = (c ::.) <$> unescape k.
Proof.
  intros H1 H2 H3. simpl. destruct (N.eqb_spec c 92), (N.ltb_spec c 32), (N.eqb_spec c 34);
    done || lia.
Qed.

Lemma unescape_unit c t k : unit_text c t → unescape (t ++ k) = (c ::.) <$> unescape k.
Proof.
  intros [c' H1 H2 H3|e c' He|a b x y c' Hx]; simpl app.
  - by apply unescape_plain.
  - simpl. destruct (N.eqb_spec e 117) as [->|]; [done|]. by rewrite He.
  - simpl. by rewrite Hx.
Qed.

Lemma unescape_string_text s t : string_text s t → unescape t = Some s.
Proof. induction 1 as [|c s t t' Hc _ IH]; [done|]. by rewrite (unescape_unit c), IH. Qed.

Lemma unescape_inv raw v : unescape raw = Some v → string_text v raw.
Proof.
  revert v. induction raw as [raw IH] using list_length_ind. intros v.
  destruct raw as [|c t]; [intros [= <-]; constructor|]. simpl.
  destruct (N.eqb_spec c 92) as [->|].
  - destruct t as [|e t]; [done|]. destruct (N.eqb_spec e 117) as [->|].
    + destruct t as [|a [|b [|x [|y t]]]]; try done.
      intros (u & Hu & (r & Hr & ->)%fmap_Some)%bind_Some.
      apply (st_cons u r [_; _; _; _; _; _]); [by constructor|]. apply IH; [simpl; lia|done].
    + intros (u & Hu & (r & Hr & ->)%fmap_Some)%bind_Some.
      apply (st_cons u r [_; _]); [by constructor|]. apply IH; [simpl; lia|done].
  - destruct (N.ltb_spec c 32), (N.eqb_spec c 34); simpl; try done.
    intros (r & Hr & ->)%fmap_Some. apply (st_cons c r [_]); [by constructor|].
    apply IH; [simpl; lia|done].
Qed.

Lemma json_string_spec s v k : json_string s = Some (v, k) ↔
  ∃ t, s = t ++ 34%N :: k ∧ string_text v t ∧ unicode v = true.
Proof.
  unfold json_string. split.
  - intros ([raw k'] & Hs%scan_string_split & (v' & Hu%unescape_inv & Hx)%bind_Some)%bind_Some.
    simpl in *. destruct (unicode v') eqn:E; [|done]. injection Hx as <- <-. eauto.
  - intros (t & -> & Ht & Hv). rewrite (scan_string_text _ _ _ Ht). simpl.
    rewrite (unescape_string_text _ _ Ht). simpl. by rewrite Hv.
Qed.

(** * Lemmas: numbers *)

Lemma take_digits_split s :
  s = (take_digits s).1 ++ (take_digits s).2 ∧
  Forall (λ c, is_digit c = true) (take_digits s).1 ∧ no_head is_digit (take_digits s).2.
Proof.
  induction s as [|c t (IH1 & IH2 & IH3)]; [done|]. simpl.
  destruct (is_digit c) eqn:E; [|done]. simpl. split_and!; [congruence|by constructor|done].
Qed.

Lemma take_digits_app ds k :
  Forall (λ c, is_digit c = true) ds → no_head is_digit k → take_digits (ds ++ k) = (ds, k).
Proof.
  intros H Hk. induction H as [|c ds Hc _ IH]; simpl.
  - destruct k as [|c k]; [done|]. simpl in *. by rewrite Hk.
  - by rewrite Hc, IH.
Qed.

(** What may follow a number that ends: no digit, point or exponent letter. *)
Definition number_unit (c : N) : bool :=
  is_digit c || (c =? 46)%N || (c =? 101)%N || (c =? 69)%N.

Lemma number_unit_false c : number_unit c = false →
  is_digit c = false ∧ c ≠ 46%N ∧ c ≠ 101%N ∧ c ≠ 69%N.
Proof.
  unfold number_unit. rewrite !orb_false_iff, !N.eqb_neq. tauto.
Qed.

Lemma no_head_impl (P Q : N → bool) s :
  (∀ c, Q c = false → P c = false) → no_head Q s → no_head P s.
Proof. destruct s; simpl; auto. Qed.

Lemma whole_part_spec s w k : whole_part s = Some (w, k) →
  s = w ++ k ∧ (w = [48%N] ∨ ∃ c ds, w = c :: ds ∧ is_digit c = true ∧ c ≠ 48%N ∧
    Forall (λ d, is_digit d = true) ds).
Proof.
  destruct s as [|c t]; [done|]. unfold whole_part.
  destruct (N.eqb_spec c 48) as [->|]; [intros [= <- <-]; auto|].
  destruct (is_digit c) eqn:E; [|done].
  destruct (take_digits_split (c :: t)) as (H1 & H2 & _).
  intros [= Hw]. change (take_digits (c :: t) = (w, k)) in Hw.
  rewrite Hw in H1, H2. split; [done|right]. simpl in H2. simpl in Hw. rewrite E in Hw. injection Hw as <- <-.
  apply Forall_cons in H2 as [_ H2]. by exists c, (take_digits t).1.
Qed.

Lemma whole_part_app w k :
  (w = [48%N] ∨ ∃ c ds, w = c :: ds ∧ is_digit c = true ∧ c ≠ 48%N ∧
    Forall (λ d, is_digit d = true) ds) →
  no_head is_digit k → whole_part (w ++ k) = Some (w, k).
Proof.
  intros [->|(c & ds & -> & Hc & Hn & Hds)] Hk; [done|]. simpl.
  destruct (N.eqb_spec c 48); [done|]. by rewrite Hc, take_digits_app.
Qed.

Lemma fraction_part_split s f k : fraction_part s = (f, k) →
  s = match f with Some ds => 46%N :: ds | None => [] end ++ k ∧
  ∀ ds, f = Some ds → ds ≠ [] ∧ Forall (λ d, is_digit d = true) ds.
Proof.
  destruct s as [|c t]; [by intros [= <- <-]|]. simpl.
  destruct (N.eqb_spec c 46) as [->|]; [|by intros [= <- <-]].
  destruct (take_digits_split t) as (H1 & H2 & _).
  destruct (take_digits t) as [ds r]. simpl in *. subst t.
  destruct ds as [|d ds]; intros [= <- <-]; [done|]. split; [done|]. by intros ? [= <-].
Qed.

Lemma fraction_part_app f k :
  (∀ ds, f = Some ds → ds ≠ [] ∧ Forall (λ d, is_digit d = true) ds) →
  no_head (λ c, is_digit c || (c =? 46)%N) k →
  fraction_part (match f with Some ds => 46%N :: ds | None => [] end ++ k) = (f, k).
Proof.
  intros Hf Hk. destruct f as [ds|]; simpl.
  - destruct (Hf ds eq_refl) as [Hne Hds]. rewrite take_digits_app; [by destruct ds|done|].
    revert Hk. apply no_head_impl. intros c Hc. by apply orb_false_iff in Hc as [].
  - destruct k as [|c k]; [done|]. simpl in *. apply orb_false_iff in Hk as [_ Hk]. by rewrite Hk.
Qed.

Definition exponent_text (e : option (N * option N * jsstring)) : jsstring :=
  match e with Some (e, g, ds) => e :: option_list g ++ ds | None => [] end.

Definition wf_exponent (e : option (N * option N * jsstring)) : Prop :=
  ∀ l g ds, e = Some (l, g, ds) →
    (l = 101 ∨ l = 69)%N ∧ (g = None ∨ g = Some 43 ∨ g = Some 45)%N ∧
    ds ≠ [] ∧ Forall (λ d, is_digit d = true) ds.

Lemma sign_part_split s :
  s = option_list (sign_part s).1 ++ (sign_part s).2 ∧
  ((sign_part s).1 = None ∨ (sign_part s).1 = Some 43%N ∨ (sign_part s).1 = Some 45%N).
Proof.
  destruct s as [|c t]; [by auto|]. simpl.
  destruct (N.eqb_spec c 43) as [->|]; [by auto|].
  destruct (N.eqb_spec c 45) as [->|]; by auto.
Qed.

Lemma sign_part_app g k :
  (g = None ∨ g = Some 43 ∨ g = Some 45)%N →
  no_head (λ c, (c =? 43) || (c =? 45))%N k → sign_part (option_list g ++ k) = (g, k).
Proof.
  intros [->|[-> | ->]] Hk; [|done..]. destruct k as [|c k]; [done|]. simpl in *. by rewrite Hk.
Qed.

Lemma digit_not_sign c : is_digit c = true → ((c =? 43) || (c =? 45))%N = false.
Proof.
  unfold is_digit. intros [H1%N.leb_le H2%N.leb_le]%andb_prop.
  apply orb_false_iff. rewrite !N.eqb_neq. lia.
Qed.

Lemma exponent_part_split s e k : exponent_part s = (e, k) →
  s = exponent_text e ++ k ∧ wf_exponent e.
Proof.
  assert (wf_exponent None) as Hnone by done.
  destruct s as [|c t]; [by intros [= <- <-]|]. simpl.
  destruct ((c =? 101) || (c =? 69))%N eqn:Hc; [|by intros [= <- <-]].
  apply orb_true_iff in Hc. rewrite !N.eqb_eq in Hc.
  destruct (sign_part_split t) as [Ht Hg]. destruct (sign_part t) as [g t']. simpl in *. subst t.
  destruct (take_digits_split t') as (H1 & H2 & _).
  destruct (take_digits t') as [ds r]. simpl in *. subst t'.
  destruct ds as [|d ds]; intros [= <- <-]; [done|]. split.
  - simpl. by rewrite <- (assoc_L (++)).
  - intros l g' ds' [= <- <- <-]. by split_and!.
Qed.

Lemma exponent_part_app e k :
  wf_exponent e → no_head number_unit k → exponent_part (exponent_text e ++ k) = (e, k).
Proof.
  intros He Hk. destruct e as [[[l g] ds]|]; simpl.
  - destruct (He l g ds eq_refl) as (Hl & Hg & Hne & Hds).
    replace ((l =? 101) || (l =? 69))%N with true
      by (symmetry; apply orb_true_iff; by rewrite !N.eqb_eq).
    rewrite <- (assoc_L (++)), sign_part_app; [|done|].
    + simpl. rewrite take_digits_app; [by destruct ds|done|].
      revert Hk. apply no_head_impl. intros c Hc. by apply number_unit_false.
    + destruct ds as [|d ds]; [done|]. apply Forall_cons in Hds as [Hd _].
      by apply digit_not_sign.
  - destruct k as [|c k]; [done|]. simpl in *. apply number_unit_false in Hk as (_ & _ & H1 & H2).
    apply N.eqb_neq in H1, H2. by rewrite H1, H2.
Qed.

Lemma token_text_eq tk : token_text tk =
  (if tk_negative tk then [45%N] else []) ++ tk_whole tk ++
  match tk_fraction tk with Some f => 46%N :: f | None => [] end ++ exponent_text (tk_exponent tk).
Proof. unfold token_text, exponent_text. by destruct (tk_exponent tk) as [[[]]|]. Qed.

Lemma number_token_split s tk k :
  number_token s = Some (tk, k) → s = token_text tk ++ k ∧ wf_token tk.
Proof.
  unfold number_token. set (neg := match s with c :: _ => _ | [] => _ end).
  intros ([w s1] & Hw & H)%bind_Some. simpl in H.
  apply whole_part_spec in Hw as [Hs Hw].
  destruct (fraction_part s1) as [f s2] eqn:Hf. apply fraction_part_split in Hf as [-> Hf].
  simpl in H. destruct (exponent_part s2) as [e s3] eqn:He.
  apply exponent_part_split in He as [-> He]. injection H as <- <-.
  split; [|split_and!; done]. rewrite token_text_eq. simpl. rewrite <- !(assoc_L (++)), <- Hs.
  unfold neg. destruct s as [|c t]; [done|]. destruct (N.eqb_spec c 45) as [->|]; done.
Qed.

Lemma wf_whole_head tk k : wf_token tk → ∃ c t, tk_whole tk ++ k = c :: t ∧ is_digit c = true.
Proof.
  intros ([-> |(c & ds & -> & Hc & _)] & _); [by exists 48%N, k|]. by exists c, (ds ++ k).
Qed.

Lemma fraction_no_head f k :
  no_head is_digit k →
  no_head is_digit (match f with Some ds => 46%N :: ds | None => [] end ++ k).
Proof. by destruct f. Qed.

Lemma exponent_no_head e k :
  wf_exponent e → no_head number_unit k →
  no_head (λ c, is_digit c || (c =? 46)%N) (exponent_text e ++ k).
Proof.
  intros He Hk. destruct e as [[[l g] ds]|]; simpl.
  - by destruct (He l g ds eq_refl) as ([-> | ->] & _).
  - revert Hk. apply no_head_impl. intros c (H1 & H2 & _)%number_unit_false.
    apply orb_false_iff. by rewrite N.eqb_neq.
Qed.

Lemma number_token_app tk k :
  wf_token tk → no_head number_unit k → number_token (token_text tk ++ k) = Some (tk, k).
Proof.
  intros Hwf Hk. pose proof Hwf as (Hw & Hf & He). rewrite token_text_eq, <- !(assoc_L (++)).
  set (rest := _ ++ exponent_text _ ++ k).
  assert (no_head is_digit rest) as Hrest.
  { apply fraction_no_head. eapply no_head_impl; [|by apply exponent_no_head].
    intros c Hc. by apply orb_false_iff in Hc as []. }
  destruct (wf_whole_head tk rest Hwf) as (c & t & Hct & Hc).
  assert ((c =? 45)%N = false) as Hc45
    by (apply digit_not_sign, orb_false_iff in Hc; tauto).
  unfold number_token. destruct tk as [[] w f e]; simpl in *.
  - rewrite whole_part_app by done. simpl. unfold rest.
    rewrite fraction_part_app by (done || by apply exponent_no_head). simpl.
    by rewrite exponent_part_app.
  - rewrite Hct, Hc45, <- Hct, whole_part_app by done. simpl. unfold rest.
    rewrite fraction_part_app by (done || by apply exponent_no_head). simpl.
    by rewrite exponent_part_app.
Qed.

Lemma round_int_safe x z : round_int x = NInt z → (Z.abs z ≤ max_safe)%Z → x = z.
Proof.
  unfold round_int, max_safe. destruct (Z.leb_spec (Z.abs x) (2 ^ 53)) as [|Hx];
    [by intros [= ->]|].
  case_match; [done|]. intros [= <-] Hz. exfalso.
  pose proof (round53_pos_ge (Z.abs x) Hx) as Hr.
  assert (Z.sgn x = 1 ∨ Z.sgn x = -1)%Z as [E|E]; [|rewrite E in Hz; lia..].
  destruct (Z.sgn_spec x) as [[_ E]|[[<- _]|[_ E]]]; [by left|simpl in Hx; lia|by right].
Qed.

(** The integers a decimal may denote: exactly, or not at all. *)
Lemma decimal_num_exact negative m scale z :
  decimal_num negative m scale = NInt z → (Z.abs z ≤ max_safe)%Z →
  (scale ≤ 0 ∨ (scale ≤ 400 ∧ m mod 10 ^ scale = 0))%Z →
  ((if negative then - m else m) * 10 ^ Z.max 0 (- scale) = z * 10 ^ Z.max 0 scale)%Z.
Proof.
  intros H Hz Hs. unfold decimal_num in H. destruct (Z.eqb_spec m 0) as [->|Hm].
  { injection H as <-. by destruct negative. }
  destruct (Z.leb_spec scale 0) as [Hle|Hgt].
  - destruct (400 <? - scale)%Z; [done|]. apply round_int_safe in H; [|done].
    rewrite !Z.max_r, (Z.max_l 0 scale), Z.mul_1_r by lia. destruct negative; lia.
  - destruct Hs as [|[Hs Hmod]]; [lia|].
    rewrite (proj2 (Z.ltb_ge 800 scale)), Hmod in H by lia. simpl in H.
    apply round_int_safe in H; [|done].
    assert (0 < 10 ^ scale)%Z as Hp by (apply Z.pow_pos_nonneg; lia).
    rewrite (Z.max_l 0 (- scale)), (Z.max_r 0 scale), Z.mul_1_r by lia.
    pose proof (Z.div_mod m (10 ^ scale)). destruct negative; nia.
Qed.

Lemma checked_number_spec tk n : checked_number tk = Some n ↔
  length (token_text tk) ≤ 128 ∧ n = token_number tk ∧ is_finite n = true ∧
  ∀ z, n = NInt z → (Z.abs z ≤ max_safe)%Z ∧ denotes tk z ∧ (token_scale tk ≤ 400)%Z.
Proof.
  unfold checked_number. set (m := token_number tk). split.
  - destruct (Nat.ltb_spec 128 (length (token_text tk))); [done|].
    destruct (is_finite m) eqn:Hfin; [|done]. simpl.
    destruct (is_integer m) eqn:Hint; simpl;
      [|intros [= <-]; split_and!; try done; intros z Hz; by rewrite Hz in Hint].
    destruct (is_safe_integer m) eqn:Hsafe; [|done]. simpl.
    apply is_safe_integer_inv in Hsafe as (z & Hz & Habs).
    destruct (Z.ltb_spec 0 (token_scale tk)), (Z.ltb_spec 400 (token_scale tk));
      simpl; try done; try lia.
    + destruct (Z.eqb_spec (token_digits tk mod 10 ^ token_scale tk) 0); [|done].
      intros [= <-]. split_and!; try done. intros z' Hz'. assert (z' = z) as -> by congruence.
      split_and!; [done| |done]. eapply decimal_num_exact; eauto.
    + intros [= <-]. split_and!; try done. intros z' Hz'. assert (z' = z) as -> by congruence.
      split_and!; [done| |lia]. eapply decimal_num_exact; eauto.
  - intros (Hlen & -> & Hfin & Hz).
    rewrite (proj2 (Nat.ltb_ge _ _)) by done. rewrite Hfin. simpl.
    destruct m as [z| | |] eqn:Hm; simpl; try done.
    destruct (Hz z eq_refl) as (Habs & Hd & Hs). rewrite (proj2 (Z.leb_le _ _)) by done. simpl.
    destruct (Z.ltb_spec 0 (token_scale tk)) as [Hpos|]; [|done].
    rewrite (proj2 (Z.ltb_ge _ _)) by done. simpl.
    unfold denotes in Hd. rewrite Z.max_l, Z.max_r, Z.mul_1_r in Hd by lia.
    assert (10 ^ token_scale tk ≠ 0)%Z by (apply Z.pow_nonzero; lia).
    destruct (Z.eqb_spec (token_digits tk mod 10 ^ token_scale tk) 0) as [|Hn]; [done|].
    exfalso. apply Hn. apply Z.mod_divide; [done|].
    exists (if tk_negative tk then - z else z)%Z. destruct (tk_negative tk); lia.
Qed.

(** * Lemmas: scalars *)

Lemma token_text_head tk k : wf_token tk →
  ∃ c t, token_text tk ++ k = c :: t ∧ (c = 45%N ∨ is_digit c = true).
Proof.
  intros Hwf. rewrite token_text_eq. destruct (tk_negative tk); simpl; [by eauto|].
  rewrite <- (assoc_L (++)).
  destruct (wf_whole_head tk ((match tk_fraction tk with Some f => 46%N :: f | None => [] end ++
    exponent_text (tk_exponent tk)) ++ k) Hwf) as (c & t & H & Hc). eauto.
Qed.

Lemma parse_word_split l s v k : parse_word l s = Some (v, k) →
  ∃ w, (w, v) ∈ l ∧ s = w ++ k.
Proof.
  induction l as [|[w v'] l IH]; [done|]. simpl. destruct (startsWith s w) eqn:E.
  - apply startsWith_spec in E as [t ->]. rewrite drop_app_length. intros [= <- <-].
    exists w. split; [by left|done].
  - intros (w' & Hin & Hs)%IH. exists w'. split; [by right|done].
Qed.

Lemma parse_word_app w v k : (w, v) ∈ words → parse_word words (w ++ k) = Some (v, k).
Proof.
  unfold words. intros H. repeat (apply elem_of_cons in H as [[= -> ->]|H]; [by destruct k|]).
  by apply not_elem_of_nil in H.
Qed.

Lemma parse_word_number c t : c = 45%N ∨ is_digit c = true → parse_word words (c :: t) = None.
Proof.
  intros Hc. assert (c ≠ 116 ∧ c ≠ 102 ∧ c ≠ 110)%N as (H1 & H2 & H3).
  { destruct Hc as [->|[_ H%N.leb_le]%andb_prop]; lia. }
  assert (∀ d p, d ≠ c → startsWith (c :: t) (d :: p) = false) as Hs.
  { intros d p Hd. simpl. by rewrite (proj2 (N.eqb_neq d c)). }
  unfold words. cbn [parse_word].
  change (js "true") with (116%N :: js "rue"). change (js "false") with (102%N :: js "alse").
  change (js "null") with (110%N :: js "ull"). by rewrite !Hs.
Qed.

Lemma scalar_split s v k : scalar s = Some (v, k) → ∃ t, s = t ++ k ∧ json_text v t ∧
  json_nodes v = 1 ∧ json_height v = 0.
Proof.
  unfold scalar. destruct (parse_word words s) as [[v' k']|] eqn:Hw.
  - intros [= -> ->]. apply parse_word_split in Hw as (w & Hin & ->).
    exists w. split; [done|]. split; [by constructor|].
    unfold words in Hin. by repeat (apply elem_of_cons in Hin as [[= -> ->]|Hin]);
      [..|apply not_elem_of_nil in Hin].
  - intros ([tk k'] & [-> Hwf]%number_token_split & (n & Hn & [= <- <-])%bind_Some)%bind_Some.
    simpl in *. exists (token_text tk). apply checked_number_spec in Hn as (? & ? & ? & ?).
    split; [done|]. split; [|done]. apply jt_number. by exists tk.
Qed.

Lemma scalar_number n t k : number_text n t → no_head number_unit k →
  scalar (t ++ k) = Some (VNum n, k).
Proof.
  intros (tk & Hwf & -> & Hlen & Hn & Hfin & Hz) Hk. unfold scalar.
  destruct (token_text_head tk k Hwf) as (c & t & Ht & Hc).
  rewrite Ht, parse_word_number, <- Ht, number_token_app by done. simpl.
  by rewrite (proj2 (checked_number_spec tk n)).
Qed.

(** * Lemmas: what is accepted is in the grammar *)

Lemma ws_app w w' : ws w → ws w' → ws (w ++ w').
Proof. apply Forall_app_2. Qed.

Lemma ws_elements w l t : ws w → elements_text l t → elements_text l (w ++ t).
Proof.
  intros Hw [v w1 t1 w2 H1 H2 H3|v l' w1 t1 w2 k H1 H2 H3 H4];
    rewrite (assoc_L (++)); constructor; try done; by apply ws_app.
Qed.

Lemma ws_members w l t : ws w → members_text l t → members_text l (w ++ t).
Proof.
  intros Hw [p w1 t1 w2 H1 H2 H3|p l' w1 t1 w2 k H1 H2 H3 H4];
    rewrite (assoc_L (++)); constructor; try done; by apply ws_app.
Qed.

Definition nodes_of (l : list jsval) : N := N.of_nat (list_sum (map json_nodes l)).

Lemma nodes_of_cons v l : nodes_of (v :: l) = (N.of_nat (json_nodes v) + nodes_of l)%N.
Proof. unfold nodes_of. simpl. lia. Qed.

Lemma nodes_of_nil : nodes_of [] = 0%N.
Proof. done. Qed.

(** [val] reads a value after white space, of at most [levels] levels. *)
Definition sound (val : jsstring → N → option parsed) (levels : nat) : Prop :=
  ∀ s n v k n', val s n = Some (v, k, n') → ∃ w t, s = w ++ t ++ k ∧ ws w ∧ json_text v t ∧
    n' = (n + N.of_nat (json_nodes v))%N ∧ (n' ≤ maxNodes)%N ∧ json_height v < levels.

Section loops_sound.
Context (val : jsstring → N → option parsed) (levels : nat) (Hval : sound val levels).

Lemma elements_sound fuel out s n u k n' :
  elements val fuel out s n = Some (u, k, n') → ∃ l t, u = VArr (out ++ l) ∧
    s = t ++ 93%N :: k ∧ elements_text l t ∧ n' = (n + nodes_of l)%N ∧ (n' ≤ maxNodes)%N ∧
    Forall (λ v, json_height v < levels) l.
Proof using Hval.
  revert out s n. induction fuel as [|fuel IH]; intros out s n; [done|].
  destruct s as [|c0 s0]; [done|]. cbn [elements]. set (s := c0 :: s0).
  intros ([[v r] n1] & (w & t & Hs & Hw & Hv & Hn & Hb & Hh)%Hval & H)%bind_Some.
  cbn [fst snd] in H. destruct (space_split r) as (w' & Hr & Hw').
  destruct (space r) as [|c r'] eqn:Hsp; [done|].
  destruct (N.eqb_spec c 93) as [->|]; [|destruct (N.eqb_spec c 44) as [->|]; [|done]].
  - injection H as <- <- <-. exists [v], (w ++ t ++ w'). split_and!; try done.
    + rewrite Hs, Hr. by list_norm.
    + by constructor.
    + rewrite nodes_of_cons, nodes_of_nil. lia.
    + by constructor.
  - apply IH in H as (l & t' & -> & Ht' & Hl & -> & Hb' & Hf).
    destruct (space_split r') as (w3 & Hr' & Hw3).
    exists (v :: l), (w ++ t ++ w' ++ 44%N :: w3 ++ t'). split_and!; try done.
    + by list_norm.
    + rewrite Hs, Hr, Hr', Ht'. by list_norm.
    + apply et_cons; try done. by apply ws_elements.
    + rewrite nodes_of_cons. lia.
    + by constructor.
Qed.

Lemma members_sound fuel out s n u k n' :
  NoDup out.*1 → members val fuel out s n = Some (u, k, n') → ∃ l t, u = VObj (out ++ l) ∧
    s = t ++ 125%N :: k ∧ members_text l t ∧ n' = (n + nodes_of l.*2)%N ∧ (n' ≤ maxNodes)%N ∧
    Forall (λ v, json_height v < levels) l.*2 ∧ NoDup (out ++ l).*1.
Proof using Hval.
  revert out s n. induction fuel as [|fuel IH]; intros out s n Hout; [done|].
  destruct s as [|q s0]; [done|]. cbn [members].
  destruct (N.eqb_spec q 34) as [->|]; [|done]. simpl negb. cbv iota.
  intros ([key r] & (tk & -> & Hk & Hu)%json_string_spec & H)%bind_Some. cbn [fst snd] in H.
  destruct (space_split r) as (w0 & Hr & Hw0). destruct (space r) as [|c r0]; [done|].
  case_bool_decide as Hown; [done|]. destruct (N.eqb_spec c 58) as [->|]; [|done].
  simpl negb in H. cbv iota in H. simpl in H.
  apply bind_Some in H as ([[v r1] n1] & (w & t & -> & Hw & Hv & Hn & Hb & Hh)%Hval & H).
  cbn [fst snd] in H. destruct (space_split r1) as (w' & Hr1 & Hw').
  assert (NoDup (out ++ [(key, v)]).*1) as Hout'.
  { rewrite fmap_app. apply NoDup_app. split_and!; [done| |apply NoDup_singleton].
    intros x Hx ->%list_elem_of_singleton. apply Hown. by apply prop_get_is_Some. }
  set (m := 34%N :: tk ++ 34%N :: w0 ++ 58%N :: w ++ t).
  assert (member_text (key, v) m) as Hm by by constructor.
  destruct (space r1) as [|c r2] eqn:Hsp; [done|].
  destruct (N.eqb_spec c 125) as [->|]; [|destruct (N.eqb_spec c 44) as [->|]; [|done]].
  - injection H as <- <- <-. exists [(key, v)], ([] ++ m ++ w'). split_and!; try done.
    + rewrite Hr, Hr1. unfold m. simpl. by list_norm.
    + by constructor; [constructor| |].
    + simpl. rewrite nodes_of_cons, nodes_of_nil. lia.
    + by constructor.
  - apply IH in H as (l & t' & -> & Ht' & Hl & -> & Hb' & Hf & Hnd); [|done].
    destruct (space_split r2) as (w3 & Hr2 & Hw3).
    exists ((key, v) :: l), ([] ++ m ++ w' ++ 44%N :: w3 ++ t'). split_and!.
    + by list_norm.
    + rewrite Hr, Hr1, Hr2, Ht'. unfold m. simpl. by list_norm.
    + apply mt_cons; [constructor|done|done|by apply ws_members].
    + rewrite fmap_cons, nodes_of_cons. cbn [snd]. lia.
    + done.
    + by constructor.
    + by rewrite <- (assoc_L (++)) in Hnd.
Qed.
End loops_sound.

Lemma json_nodes_arr l : N.of_nat (json_nodes (VArr l)) = (1 + nodes_of l)%N.
Proof. unfold nodes_of. simpl. lia. Qed.

Lemma json_nodes_obj l : N.of_nat (json_nodes (VObj l)) = (1 + nodes_of l.*2)%N.
Proof.
  unfold nodes_of. simpl. replace (map json_nodes l.*2) with (map (λ p, json_nodes p.2) l);
    [lia|]. induction l as [|p l IH]; [done|]. cbn. f_equal. exact IH.
Qed.

Lemma list_max_S l n : list_max (map S l) < S n ↔ Forall (λ h, h < n) l.
Proof.
  rewrite Nat.lt_succ_r, list_max_le, List.Forall_map. done.
Qed.

Lemma json_height_arr l n : json_height (VArr l) < S n ↔ Forall (λ v, json_height v < n) l.
Proof.
  simpl. rewrite <- (map_map json_height S), list_max_S. by rewrite List.Forall_map.
Qed.

Lemma json_height_obj l n : json_height (VObj l) < S n ↔ Forall (λ v, json_height v < n) l.*2.
Proof.
  simpl. rewrite <- (map_map (λ p, json_height p.2) S), list_max_S.
  by rewrite List.Forall_map, Forall_fmap.
Qed.

(** One call of [value], once white space is skipped and the bounds are checked. *)
Definition value_at (levels : nat) (s : jsstring) (nodes : N) : option parsed :=
  match s with
  | c :: t =>
      if (c =? 34)%N then r ← json_string t; Some (VStr r.1, r.2, nodes)
      else if ((c =? 123) || (c =? 91))%N then
        match space t with
        | c' :: k =>
            if (c' =? if (c =? 123)%N then 125%N else 93%N)%N
            then Some (if (c =? 123)%N then VObj [] else VArr [], k, nodes)
            else if (c =? 123)%N
            then members (value levels) (S (length (c' :: k))) [] (c' :: k) nodes
            else elements (value levels) (S (length (c' :: k))) [] (c' :: k) nodes
        | [] => None
        end
      else r ← scalar s; Some (r.1, r.2, nodes)
  | [] => None
  end.

Lemma value_S levels s n :
  value (S levels) s n =
  if (maxNodes <? n + 1)%N then None else value_at levels (space s) (n + 1)%N.
Proof. done. Qed.

Lemma value_sound levels : sound (value levels) levels.
Proof.
  induction levels as [|levels IH]; intros s n v k n'; [done|]. rewrite value_S.
  destruct (N.ltb_spec maxNodes (n + 1)) as [|Hb]; [done|].
  destruct (space_split s) as (w & Hs & Hw). intros H.
  cut (∃ t, space s = t ++ k ∧ json_text v t ∧ n' = (n + N.of_nat (json_nodes v))%N ∧
            (n' ≤ maxNodes)%N ∧ json_height v < S levels).
  { intros (t & Ht & H1 & H2 & H3 & H4). exists w, t. rewrite <- Ht. by split_and!. }
  unfold value_at in H. destruct (space s) as [|c t]; [done|].
  destruct (N.eqb_spec c 34) as [->|Hq].
  - apply bind_Some in H as ([str r] & (tk & -> & Hk & Hu)%json_string_spec & [= <- <- <-]).
    exists (34%N :: tk ++ [34%N]). split_and!; try (done || lia); [by list_norm|by constructor|].
    simpl. lia.
  - destruct ((c =? 123) || (c =? 91))%N eqn:Hc.
    + apply orb_true_iff in Hc. rewrite !N.eqb_eq in Hc.
      destruct (space_split t) as (w0 & Ht & Hw0). destruct (space t) as [|c' r]; [done|].
      destruct Hc as [-> | ->]; simpl (_ =? _)%N in H; cbv iota in H.
      * destruct (N.eqb_spec c' 125) as [->|].
        -- injection H as <- <- <-. exists (123%N :: w0 ++ [125%N]).
           rewrite Ht. split_and!; try (done || (simpl; lia)); [by list_norm|by constructor].
        -- apply (members_sound _ _ IH) in H as (l & tl & -> & Htl & Hl & -> & Hb' & Hf & Hnd);
             [|constructor]. exists (123%N :: (w0 ++ tl) ++ [125%N]).
           rewrite Ht, Htl. split_and!; [by list_norm| | |done|].
           ++ apply jt_object; [by apply ws_members|done].
           ++ rewrite json_nodes_obj. simpl. lia.
           ++ by apply json_height_obj.
      * destruct (N.eqb_spec c' 93) as [->|].
        -- injection H as <- <- <-. exists (91%N :: w0 ++ [93%N]).
           rewrite Ht. split_and!; try (done || (simpl; lia)); [by list_norm|by constructor].
        -- apply (elements_sound _ _ IH) in H as (l & tl & -> & Htl & Hl & -> & Hb' & Hf).
           exists (91%N :: (w0 ++ tl) ++ [93%N]).
           rewrite Ht, Htl. split_and!; [by list_norm| | |done|].
           ++ apply jt_array. by apply ws_elements.
           ++ rewrite json_nodes_arr. simpl. lia.
           ++ by apply json_height_arr.
    + apply bind_Some in H as ([v' r] & (tk & -> & Hk & Hn & Hh)%scalar_split & [= <- <- <-]).
      exists tk. simpl in *. rewrite Hn, Hh. split_and!; done || lia.
Qed.

(** * Lemmas: what is in the grammar is accepted *)

(** How the text of a value begins. *)
Lemma json_text_head v t : json_text v t →
  ∃ c r, t = c :: r ∧ is_space_unit c = false ∧ c ≠ 93%N ∧
    ((c =? 34) || (c =? 123) || (c =? 91) = false →
     (∃ w, (w, v) ∈ words ∧ t = w) ∨ ∃ n, v = VNum n ∧ number_text n t)%N.
Proof.
  intros [w v' Hw|s t' _ _|n t' Hn|w _|l t' _|w _|l t' _ _]; try by eexists _, _.
  - unfold words in Hw.
    assert (∃ c r, w = c :: r ∧ is_space_unit c = false ∧ c ≠ 93%N) as (c & r & -> & ? & ?).
    { repeat (apply elem_of_cons in Hw as [[= -> _]|Hw]; [by eexists _, _|]).
      by apply not_elem_of_nil in Hw. }
    exists c, r. split_and!; try done. left. by exists (c :: r).
  - pose proof Hn as (tk & Hwf & -> & _).
    destruct (token_text_head tk [] Hwf) as (c & r & Ht & Hc). rewrite app_nil_r in Ht.
    exists c, r. assert (c = 45 ∨ 48 ≤ c ≤ 57)%N as Hr.
    { destruct Hc as [->|[H1%N.leb_le H2%N.leb_le]%andb_prop]; [by left|right; lia]. }
    split_and!; [done| |lia|intros _; right; by exists n].
    unfold is_space_unit. rewrite !orb_false_iff, !N.eqb_neq. lia.
Qed.

Lemma space_value w v t k : ws w → json_text v t → space (w ++ t ++ k) = t ++ k.
Proof.
  intros Hw Ht. rewrite space_app by done. apply space_fix.
  destruct (json_text_head v t Ht) as (c & r & -> & H & _). done.
Qed.

(** What a text followed by [k] is read as. *)
Definition reads_value (v : jsval) (t : jsstring) : Prop := ∀ levels w n k,
  ws w → no_head number_unit k → json_height v < levels →
  (n + N.of_nat (json_nodes v) ≤ maxNodes)%N →
  value levels (w ++ t ++ k) n = Some (v, k, (n + N.of_nat (json_nodes v))%N).

Definition reads_elements (l : list jsval) (t : jsstring) : Prop := ∀ levels fuel out n k,
  Forall (λ v, json_height v < levels) l → (n + nodes_of l ≤ maxNodes)%N →
  length (space (t ++ 93%N :: k)) ≤ fuel →
  elements (value levels) fuel out (space (t ++ 93%N :: k)) n =
  Some (VArr (out ++ l), k, (n + nodes_of l)%N).

Definition reads_members (l : list (jsstring * jsval)) (t : jsstring) : Prop :=
  ∀ levels fuel out n k,
  Forall (λ v, json_height v < levels) l.*2 → (n + nodes_of l.*2 ≤ maxNodes)%N →
  NoDup (out ++ l).*1 → length (space (t ++ 125%N :: k)) ≤ fuel →
  members (value levels) fuel out (space (t ++ 125%N :: k)) n =
  Some (VObj (out ++ l), k, (n + nodes_of l.*2)%N).

Definition reads_member (p : jsstring * jsval) (t : jsstring) : Prop := ∀ levels n k,
  no_head number_unit k → json_height p.2 < levels →
  (n + N.of_nat (json_nodes p.2) ≤ maxNodes)%N →
  ∃ t0 r r', t ++ k = 34%N :: t0 ∧ json_string t0 = Some (p.1, r) ∧ space r = 58%N :: r' ∧
    value levels r' n = Some (p.2, k, (n + N.of_nat (json_nodes p.2))%N).

(** After a value come white space, a comma, a bracket or the end. *)
Definition closer (c : N) : bool := (c =? 93)%N || (c =? 125)%N || (c =? 44)%N.

Lemma no_head_closer w c k : ws w → closer c = true → no_head number_unit (w ++ c :: k).
Proof.
  intros Hw Hc. destruct Hw as [|d w Hd _]; simpl.
  - unfold closer in Hc. rewrite !orb_true_iff, !N.eqb_eq in Hc.
    by destruct Hc as [[-> | ->]| ->].
  - unfold is_space_unit in Hd. rewrite !orb_true_iff, !N.eqb_eq in Hd.
    by destruct Hd as [[[-> | ->]| ->]| ->].
Qed.

Lemma space_closer w c k : ws w → closer c = true → space (w ++ c :: k) = c :: k.
Proof.
  intros Hw Hc. rewrite space_app by done. apply space_fix. simpl.
  unfold closer in Hc. rewrite !orb_true_iff, !N.eqb_eq in Hc.
  by destruct Hc as [[-> | ->]| ->].
Qed.

Lemma reads_et_last v w t w' : ws w → json_text v t → reads_value v t → ws w' →
  reads_elements [v] (w ++ t ++ w').
Proof.
  intros Hw Ht Hv Hw' levels fuel out n k Hf Hn Hlen.
  apply Forall_cons in Hf as [Hf _]. rewrite nodes_of_cons, nodes_of_nil, N.add_0_r in *.
  assert (Hval := Hv levels [] n (w' ++ 93%N :: k) ltac:(constructor)
    ltac:(by apply no_head_closer) Hf Hn). simpl in Hval. revert Hlen. list_norm.
  rewrite (space_value w v) by done. intros Hlen.
  destruct (json_text_head v t Ht) as (c & r & -> & _). simpl in Hval |- *.
  destruct fuel as [|fuel]; [length_lia|].
  cbn [elements app]. rewrite Hval. simpl. by rewrite space_closer.
Qed.

Lemma reads_et_cons v l w t w' k : ws w → json_text v t → reads_value v t → ws w' →
  reads_elements l k → reads_elements (v :: l) (w ++ t ++ w' ++ 44%N :: k).
Proof.
  intros Hw Ht Hv Hw' Hl levels fuel out n r Hf Hn Hlen.
  apply Forall_cons in Hf as [Hf Hfl]. rewrite nodes_of_cons in *.
  assert (Hval := Hv levels [] n (w' ++ 44%N :: k ++ 93%N :: r) ltac:(constructor)
    ltac:(by apply no_head_closer) Hf ltac:(lia)). simpl in Hval.
  revert Hlen. list_norm. rewrite (space_value w v) by done. intros Hlen.
  destruct (json_text_head v t Ht) as (c & t' & -> & _). simpl in Hval |- *.
  destruct fuel as [|fuel]; [length_lia|].
  cbn [elements app]. rewrite Hval. simpl. rewrite space_closer by done. simpl.
  rewrite Hl; [|done|lia|]; [by list_norm; rewrite N.add_assoc|].
  pose proof (length_space (k ++ 93%N :: r)). length_lia.
Qed.

Lemma reads_mt_member s t w v w' k : string_text s t → unicode s = true → ws w → ws w' →
  reads_value v k → reads_member (s, v) (34%N :: t ++ 34%N :: w ++ 58%N :: w' ++ k).
Proof.
  intros Ht Hs Hw Hw' Hv levels n r Hr Hh Hn. simpl in *.
  exists (t ++ 34%N :: w ++ 58%N :: w' ++ k ++ r), (w ++ 58%N :: w' ++ k ++ r), (w' ++ k ++ r).
  split_and!; [by list_norm| | |by apply Hv].
  - apply json_string_spec. by exists t.
  - by rewrite space_app, space_fix.
Qed.

(** One round of the loop over properties. *)
Lemma members_round val fuel out t0 n key r r' v k n' :
  json_string t0 = Some (key, r) → space r = 58%N :: r' → (key ∉ out.*1) →
  val r' n = Some (v, k, n') →
  members val (S fuel) out (34%N :: t0) n =
  match space k with
  | c :: t => if (c =? 125)%N then Some (VObj (out ++ [(key, v)]), t, n')
              else if (c =? 44)%N then members val fuel (out ++ [(key, v)]) (space t) n'
              else None
  | [] => None
  end.
Proof.
  intros H1 H2 H3 H4. cbn [members]. simpl negb. cbv iota. rewrite H1. cbn -[space].
  rewrite H2. rewrite bool_decide_eq_false_2 by by rewrite prop_get_is_Some.
  simpl negb. simpl orb. cbv iota. rewrite H4. done.
Qed.

Lemma NoDup_fresh (out : list (jsstring * jsval)) p l :
  NoDup (out ++ p :: l).*1 → (p.1 ∉ out.*1) ∧ NoDup ((out ++ [p]) ++ l).*1.
Proof.
  intros H. split; [|by rewrite <- (assoc_L (++))].
  rewrite fmap_app in H. apply NoDup_app in H as (_ & H & _).
  intros Hin. apply (H _ Hin). left.
Qed.

Lemma reads_mt_last p w t w' : ws w → member_text p t → reads_member p t → ws w' →
  reads_members [p] (w ++ t ++ w').
Proof.
  intros Hw Ht Hp Hw' levels fuel out n k Hf Hn Hnd Hlen.
  apply Forall_cons in Hf as [Hf _]. rewrite fmap_cons, nodes_of_cons, fmap_nil, nodes_of_nil, N.add_0_r in *.
  destruct (Hp levels n (w' ++ 125%N :: k)) as (t0 & r & r' & Htk & Hs & Hr & Hval);
    [by apply no_head_closer|done|done|].
  revert Hlen. list_norm. rewrite space_app, Htk by done. simpl space. intros Hlen.
  destruct fuel as [|fuel]; [length_lia|]. apply NoDup_fresh in Hnd as [Hfresh _].
  rewrite (members_round _ _ _ _ _ _ _ _ _ _ _ Hs Hr Hfresh Hval), space_closer by done.
  simpl. by destruct p.
Qed.

Lemma reads_mt_cons p l w t w' k : ws w → member_text p t → reads_member p t → ws w' →
  reads_members l k → reads_members (p :: l) (w ++ t ++ w' ++ 44%N :: k).
Proof.
  intros Hw Ht Hp Hw' Hl levels fuel out n z Hf Hn Hnd Hlen.
  apply Forall_cons in Hf as [Hf Hfl]. rewrite fmap_cons, nodes_of_cons in *.
  destruct (Hp levels n (w' ++ 44%N :: k ++ 125%N :: z)) as (t0 & r & r' & Htk & Hs & Hr & Hval);
    [by apply no_head_closer|done|lia|].
  revert Hlen. list_norm. rewrite space_app, Htk by done. simpl space. intros Hlen.
  destruct fuel as [|fuel]; [length_lia|]. apply NoDup_fresh in Hnd as [Hfresh Hnd].
  rewrite (members_round _ _ _ _ _ _ _ _ _ _ _ Hs Hr Hfresh Hval), space_closer by done.
  simpl (_ =? _)%N. cbv iota. replace (p.1, p.2) with p by by destruct p.
  rewrite Hl; [|done|lia|done|]; [list_norm; by rewrite N.add_assoc|].
  pose proof (length_space (k ++ 125%N :: z)). apply (f_equal length) in Htk. length_lia.
Qed.

Lemma reads_container levels w c t k n r :
  ws w → ((c =? 123) || (c =? 91) = true)%N → (n + 1 ≤ maxNodes)%N →
  value_at levels (c :: t ++ k) (n + 1) = r → value (S levels) (w ++ (c :: t) ++ k) n = r.
Proof.
  intros Hw Hc Hn <-. rewrite value_S, (proj2 (N.ltb_ge _ _)) by lia.
  rewrite space_app by done. rewrite space_fix; [done|]. simpl.
  rewrite orb_true_iff, !N.eqb_eq in Hc. by destruct Hc as [-> | ->].
Qed.

(** What comes after the opening bracket of a container that is not empty. *)
Lemma elements_head l t k : elements_text l t → ∃ c r, space (t ++ k) = c :: r ∧ c ≠ 93%N.
Proof.
  intros [v w t' w' Hw Ht _|v l' w t' w' k' Hw Ht _ _]; list_norm;
    rewrite (space_value w v) by done; destruct (json_text_head v t' Ht) as (c & r & -> & _ & H & _);
    by eexists _, _.
Qed.

Lemma members_head l t k : members_text l t → ∃ r, space (t ++ k) = 34%N :: r.
Proof.
  intros [p w t' w' Hw Ht _|p l' w t' w' k' Hw Ht _ _]; list_norm;
    rewrite space_app by done; destruct Ht; by eexists.
Qed.

Lemma reads_array l t : elements_text l t → reads_elements l t →
  reads_value (VArr l) (91%N :: t ++ [93%N]).
Proof.
  intros Ht Hl levels w n k Hw Hk Hh Hn. rewrite json_nodes_arr in *.
  destruct levels as [|levels]; [lia|]. apply json_height_arr in Hh.
  apply reads_container; [done|done|lia|]. list_norm. unfold value_at. simpl orb. cbv iota.
  simpl (91 =? 34)%N. cbv iota.
  destruct (elements_head l t (93%N :: k) Ht) as (c & r & Hs & Hc).
  rewrite Hs, (proj2 (N.eqb_neq c _)) by done. simpl (91 =? 123)%N. cbv iota.
  rewrite <- Hs, Hl; [by rewrite N.add_assoc|done|lia|lia].
Qed.

Lemma reads_object l t : members_text l t → reads_members l t → NoDup l.*1 →
  reads_value (VObj l) (123%N :: t ++ [125%N]).
Proof.
  intros Ht Hl Hnd levels w n k Hw Hk Hh Hn. rewrite json_nodes_obj in *.
  destruct levels as [|levels]; [lia|]. apply json_height_obj in Hh.
  apply reads_container; [done|done|lia|]. list_norm. unfold value_at. simpl orb. cbv iota.
  simpl (123 =? 34)%N. cbv iota.
  destruct (members_head l t (125%N :: k) Ht) as (r & Hs).
  rewrite Hs. simpl (_ =? _)%N. cbv iota.
  rewrite <- Hs, Hl; [by rewrite N.add_assoc|done|lia|done|lia].
Qed.

Lemma reads_empty c w0 v : ws w0 →
  (c = 91 ∧ v = VArr [] ∨ c = 123 ∧ v = VObj [])%N →
  reads_value v (c :: w0 ++ [if (c =? 123)%N then 125%N else 93%N]).
Proof.
  intros Hw0 Hc levels w n k Hw Hk Hh Hn. destruct levels as [|levels]; [lia|].
  assert (json_nodes v = 1) as Hv by by destruct Hc as [[_ ->]|[_ ->]]. rewrite Hv in *.
  apply reads_container; [done|by destruct Hc as [[-> _]|[-> _]]|lia|].
  list_norm. unfold value_at.
  destruct Hc as [[-> ->]|[-> ->]]; simpl orb; cbv iota; simpl (_ =? _)%N; cbv iota;
    by rewrite space_closer.
Qed.

Lemma reads_leaf v t : json_nodes v = 1 → (∃ c r, t = c :: r ∧ is_space_unit c = false) →
  (∀ levels n k, no_head number_unit k → value_at levels (t ++ k) n = Some (v, k, n)) →
  reads_value v t.
Proof.
  intros Hv (c & r & -> & Hc) H levels w n k Hw Hk Hh Hn. rewrite Hv in *.
  destruct levels as [|levels]; [lia|]. rewrite value_S, (proj2 (N.ltb_ge _ _)) by lia.
  rewrite space_app, space_fix by done. by apply H.
Qed.

Lemma reads_scalar v t : json_text v t → json_nodes v = 1 →
  (∀ k, no_head number_unit k → scalar (t ++ k) = Some (v, k)) →
  (∃ c r, t = c :: r ∧ (c =? 34) || (c =? 123) || (c =? 91) = false)%N → reads_value v t.
Proof.
  intros Ht Hv Hs (c & r & -> & Hc). destruct (json_text_head v _ Ht) as (c' & r' & [= <- <-] & Hsp & _).
  apply reads_leaf; [done|by exists c, r|]. intros levels n k Hk. unfold value_at. simpl.
  apply orb_false_iff in Hc as [[Hc1 Hc2]%orb_false_iff Hc3]. rewrite Hc1, Hc2, Hc3. simpl.
  change (c :: r ++ k) with ((c :: r) ++ k). by rewrite Hs.
Qed.

Lemma reads_word w v : (w, v) ∈ words → reads_value v w.
Proof.
  intros Hw. apply reads_scalar; [by apply (jt_word w v)| | |].
  - unfold words in Hw. by repeat (apply elem_of_cons in Hw as [[= _ ->]|Hw]);
      [..|apply not_elem_of_nil in Hw].
  - intros k _. unfold scalar. by rewrite (parse_word_app w v).
  - unfold words in Hw. repeat (apply elem_of_cons in Hw as [[= -> _]|Hw]; [by eexists _, _|]).
    by apply not_elem_of_nil in Hw.
Qed.

Lemma reads_number n t : number_text n t → reads_value (VNum n) t.
Proof.
  intros Ht. apply reads_scalar; [by apply jt_number|done| |].
  - intros k Hk. by apply scalar_number.
  - pose proof Ht as (tk & Hwf & -> & _). destruct (token_text_head tk [] Hwf) as (c & r & H & Hc).
    rewrite app_nil_r in H. exists c, r. split; [done|].
    assert (c = 45 ∨ 48 ≤ c ≤ 57)%N as Hr.
    { destruct Hc as [->|[H1%N.leb_le H2%N.leb_le]%andb_prop]; [by left|right; lia]. }
    rewrite !orb_false_iff, !N.eqb_neq. lia.
Qed.

Lemma reads_string s t : string_text s t → unicode s = true →
  reads_value (VStr s) (34%N :: t ++ [34%N]).
Proof.
  intros Ht Hs. apply reads_leaf; [done|by eexists _, _|]. intros levels n k _.
  unfold value_at. simpl. list_norm.
  by rewrite (proj2 (json_string_spec _ s k)) by by exists t.
Qed.

Lemma grammar_read :
  (∀ v t, json_text v t → reads_value v t) ∧ (∀ l t, elements_text l t → reads_elements l t) ∧
  (∀ l t, members_text l t → reads_members l t) ∧ (∀ p t, member_text p t → reads_member p t).
Proof.
  apply json_text_ind'; intros.
  - by apply reads_word.
  - by apply reads_string.
  - by apply reads_number.
  - apply (reads_empty 91); auto.
  - by apply reads_array.
  - apply (reads_empty 123); auto.
  - by apply reads_object.
  - by apply reads_et_last.
  - by apply reads_et_cons.
  - by apply reads_mt_last.
  - by apply reads_mt_cons.
  - by apply reads_mt_member.
Qed.

(** * Unicode scalar values *)

Definition is_scalar_value (p : N) : Prop :=
  (p < 0xd800 ∨ 0xe000 ≤ p < 0x110000)%N.

(** The UTF-16 units of a code point. *)
Definition utf16 (p : N) : jsstring :=
  if (p <? 0x10000)%N then [p]
  else [0xd800 + (p - 0x10000) / 0x400; 0xdc00 + (p - 0x10000) mod 0x400]%N.

Lemma is_high_spec c : is_high c = true ↔ (0xd800 ≤ c ≤ 0xdbff)%N.
Proof. unfold is_high. rewrite andb_true_iff, !N.leb_le. done. Qed.

Lemma is_low_spec c : is_low c = true ↔ (0xdc00 ≤ c ≤ 0xdfff)%N.
Proof. unfold is_low. rewrite andb_true_iff, !N.leb_le. done. Qed.

Lemma unicode_utf16 p s : is_scalar_value p → unicode (utf16 p ++ s) = unicode s.
Proof.
  intros Hp. unfold utf16. destruct (N.ltb_spec p 0x10000); cbn [app unicode].
  - destruct (is_high p) eqn:Hh; [apply is_high_spec in Hh; destruct Hp; lia|].
    destruct (is_low p) eqn:Hl; [apply is_low_spec in Hl; destruct Hp; lia|done].
  - assert (p - 0x10000 < 0x400 * 0x400)%N as Hb by (destruct Hp; lia).
    pose proof (N.Div0.div_lt_upper_bound _ 0x400 0x400 Hb) as H1.
    pose proof (N.mod_lt (p - 0x10000) 0x400 ltac:(lia)) as H2. revert H1 H2.
    generalize ((p - 0x10000) / 0x400)%N, ((p - 0x10000) mod 0x400)%N. intros x y H1 H2.
    rewrite (proj2 (is_high_spec _)) by lia. by rewrite (proj2 (is_low_spec _)) by lia.
Qed.

(** Two units that make a pair are those of one code point. *)
Lemma utf16_pair h l : is_high h = true → is_low l = true →
  ∃ p, is_scalar_value p ∧ utf16 p = [h; l].
Proof.
  rewrite is_high_spec, is_low_spec. intros Hh Hl.
  exists (0x10000 + (h - 0xd800) * 0x400 + (l - 0xdc00))%N.
  split; [right; lia|]. unfold utf16. rewrite (proj2 (N.ltb_ge _ _)) by lia.
  replace (0x10000 + (h - 0xd800) * 0x400 + (l - 0xdc00) - 0x10000)%N
    with ((l - 0xdc00) + (h - 0xd800) * 0x400)%N by lia.
  rewrite N.div_add, N.Div0.mod_add, N.div_small, N.mod_small by lia.
  f_equal; [lia|]. f_equal. lia.
Qed.

Lemma parseJSON_sound text v : parseJSON text = Some v →
  json_document v text ∧ (N.of_nat (json_nodes v) ≤ maxNodes)%N ∧ json_height v ≤ maxDepth.
Proof.
  unfold parseJSON.
  intros ([[v' k] n'] & (w & t & -> & Hw & Hv & Hn & Hb & Hh)%value_sound & H)%bind_Some.
  cbn [fst snd] in H. destruct (space_split k) as (w' & Hk & Hw').
  destruct (space k); [|done]. injection H as <-. rewrite app_nil_r in Hk. subst k.
  split_and!; [by exists w, t, w'|lia|lia].
Qed.

Lemma parseJSON_complete text v : json_document v text →
  (N.of_nat (json_nodes v) ≤ maxNodes)%N → json_height v ≤ maxDepth → parseJSON text = Some v.
Proof.
  unfold parseJSON. intros (w & t & w' & Hw & Ht & Hw' & ->) Hn Hh.
  rewrite (proj1 grammar_read v t Ht); [|done| |lia|lia].
  - cbn [mbind option_bind fst snd]. rewrite <- (app_nil_r w'), space_app by done. done.
  - destruct Hw' as [|c w' Hc _]; [done|]. simpl.
    unfold is_space_unit in Hc. rewrite !orb_true_iff, !N.eqb_eq in Hc.
    by destruct Hc as [[[-> | ->]| ->]| ->].
Qed.

Lemma unicode_scalars s : wf_units s → unicode s = true →
  ∃ ps, Forall is_scalar_value ps ∧ s = ps ≫= utf16.
Proof.
  induction s as [s IH] using list_length_ind. intros Hs Hu.
  destruct s as [|c t]; [by exists []|]. apply Forall_cons in Hs as [Hc Ht].
  cbn [unicode] in Hu. destruct (is_high c) eqn:Hh.
  - destruct t as [|l t]; [done|]. apply andb_prop in Hu as [Hl Hu].
    apply Forall_cons in Ht as [_ Ht].
    destruct (IH t) as (ps & Hps & ->); [simpl; lia|done|done|].
    destruct (utf16_pair c l Hh Hl) as (p & Hp & Hpe).
    exists (p :: ps). split; [by constructor|]. cbn. by rewrite Hpe.
  - destruct (is_low c) eqn:Hl; [done|].
    destruct (IH t) as (ps & Hps & ->); [simpl; lia|done|done|].
    exists (c :: ps). split.
    + constructor; [|done]. unfold is_scalar_value.
      apply not_true_iff_false in Hh, Hl. rewrite is_high_spec in Hh. rewrite is_low_spec in Hl. lia.
    + cbn. unfold utf16. by rewrite (proj2 (N.ltb_lt c 0x10000)).
Qed.

(** * Properties *)

(** C27 The client's parser accepts a text as a value exactly when the reference
    grammar generates the text for that value and the value has at most ten
    thousand nodes, nested at most 32 deep. *)
Theorem parseJSON_accepts (text : jsstring) (v : jsval) :
  parseJSON text = Some v ↔
  json_document v text ∧ (N.of_nat (json_nodes v) ≤ maxNodes)%N ∧ json_height v ≤ maxDepth.
Proof. split; [apply parseJSON_sound|]. intros (? & ? & ?). by apply parseJSON_complete. Qed.

(** The client's check of a string accepts exactly the UTF-16 encodings of
    sequences of Unicode scalar values. *)
Theorem unicode_is_utf16 (s : jsstring) :
  wf_units s →
  unicode s = true ↔ ∃ ps, Forall is_scalar_value ps ∧ s = ps ≫= utf16.
Proof.
  intros Hs. split; [by apply unicode_scalars|].
  intros (ps & Hps & ->). clear Hs. induction Hps as [|p ps Hp _ IH]; [done|].
  cbn. by rewrite unicode_utf16.
Qed.

Lemma unicode_is_utf16_witness :
  let s := [0xd83d; 0xde00; 97]%N in
  unicode s = true ↔ ∃ ps, Forall is_scalar_value ps ∧ s = ps ≫= utf16.
Proof. refine (unicode_is_utf16 _ _). repeat constructor. Defined.

(** A text written with back quotes for its quotes. *)
Definition backquoted (s : string) : jsstring := js s ≫= λ c, if decide (c = 96%N) then [34%N] else [c].

Example parse_object :
  parseJSON (backquoted " { `a` : [1, -2.5e1 ,true], `b`:{} } ") =
  Some (VObj [(js "a", VArr [VNum (NInt 1); VNum (NInt (-25)); VBool true]); (js "b", VObj [])]).
Proof. vm_compute. done. Qed.

Example parse_rejects :
  parseJSON (js "[1,]") = None ∧ parseJSON (js "1.00000000000000001") = None ∧
  parseJSON (js "9007199254740993") = None ∧ parseJSON (js "01") = None.
Proof. vm_compute. done. Qed.
