(* ===== verification/GatewayTypes.v ===== *)
(** The application's data model: [application/gateway-types.ts] of the
    gateway-management package, with the errors thrown across its ports and the
    two ports (control plane and workflow runtime) as records of operations. A
    string-literal union is an enumeration with its literals ([*_str]); an
    optional property is an [option]. *)
From S2P Require Export JsCore.

(** * Gateways *)

Record GatewayRecord := {
  gr_activeSandboxCount : option num;
  gr_clusterId : jsstring;
  gr_consoleUrl : option jsstring;
  gr_createdAt : option jsstring;
  gr_createdBy : option jsstring;
  gr_externalDns : option jsstring;
  gr_id : jsstring;
  gr_name : jsstring;
  gr_namespace : jsstring;
  gr_oidcAudience : option jsstring;
  gr_oidcClientId : option jsstring;
  gr_oidcIssuer : option jsstring;
  gr_phase : option jsstring;
  gr_releaseId : jsstring;
  gr_status : option jsstring
}.

Record GatewayPlacement := {
  pl_id : jsstring;
  pl_name : jsstring;
  pl_provider : jsstring;
  pl_region : option jsstring;
  pl_status : option jsstring
}.

Record GatewayPlacementOptions := {
  po_hasMore : bool;
  po_items : list GatewayPlacement
}.

Inductive GatewaySortDirection := Asc | Desc.

Inductive GatewaySortField :=
| SortCluster | SortCreated | SortEndpoint | SortName | SortOwner | SortStatus.

Definition sortDirection_str (d : GatewaySortDirection) : jsstring :=
  match d with Asc => js "asc" | Desc => js "desc" end.

Definition sortField_str (f : GatewaySortField) : jsstring :=
  match f with
  | SortCluster => js "cluster"
  | SortCreated => js "created"
  | SortEndpoint => js "endpoint"
  | SortName => js "name"
  | SortOwner => js "owner"
  | SortStatus => js "status"
  end.

Record GatewayListRequest := {
  lr_page : num;
  lr_search : jsstring;
  lr_size : num;
  lr_sortDirection : GatewaySortDirection;
  lr_sortField : GatewaySortField
}.

Definition gatewayListPageSizes : list num := [NInt 10; NInt 20; NInt 50; NInt 100].

Definition defaultGatewayListRequest : GatewayListRequest := {|
  lr_page := NInt 1;
  lr_search := [];
  lr_size := default NNaN (gatewayListPageSizes !! 1);
  lr_sortDirection := Asc;
  lr_sortField := SortName
|}.

Record GatewayPage (T : Type) := {
  gp_items : list T;
  gp_page : num;
  gp_size : num;
  gp_total : num
}.
Arguments gp_items {T}.
Arguments gp_page {T}.
Arguments gp_size {T}.
Arguments gp_total {T}.

(** A DOM [AbortSignal], by reference. *)
Definition AbortSignal : Type := N.

Record GatewayInvocationContext := {
  ctx_correlationId : jsstring;
  ctx_signal : option AbortSignal
}.

Record GatewayProvisionInput := {
  pi_clusterId : jsstring;
  pi_name : jsstring
}.

(** * Service accounts *)

Inductive ServiceAccountRole := OpenshellAdmin | OpenshellUser.

Inductive ServiceAccountStatus :=
| Degraded | Deleting | StatusError | Expired | Provisioning | Ready | Revoked | Revoking.

Definition role_str (r : ServiceAccountRole) : jsstring :=
  match r with
  | OpenshellAdmin => js "openshell-admin"
  | OpenshellUser => js "openshell-user"
  end.

Definition status_str (s : ServiceAccountStatus) : jsstring :=
  match s with
  | Degraded => js "degraded"
  | Deleting => js "deleting"
  | StatusError => js "error"
  | Expired => js "expired"
  | Provisioning => js "provisioning"
  | Ready => js "ready"
  | Revoked => js "revoked"
  | Revoking => js "revoking"
  end.

Record ServiceAccountRecord := {
  sa_clientId : jsstring;
  sa_createdAt : jsstring;
  sa_createdByUserId : jsstring;
  sa_description : option jsstring;
  sa_expiresAt : jsstring;
  sa_gatewayId : jsstring;
  sa_id : jsstring;
  sa_lastError : option jsstring;
  sa_name : jsstring;
  sa_revokedAt : option jsstring;
  sa_role : ServiceAccountRole;
  sa_status : ServiceAccountStatus;
  sa_subject : jsstring;
  sa_updatedAt : jsstring
}.

Record ServiceAccountConnection := {
  cn_accessTokenLifetimeSeconds : num;
  cn_audience : jsstring;
  cn_clientId : jsstring;
  cn_gatewayEndpoint : option jsstring;
  cn_gatewayName : jsstring;
  cn_issuer : jsstring;
  cn_tokenEndpoint : jsstring
}.

Record ServiceAccountCredential := {
  cr_connection : ServiceAccountConnection;
  cr_clientSecret : jsstring
}.

Record ExpirationPolicy := {
  ep_defaultSeconds : num;
  ep_maximumSeconds : num;
  ep_minimumSeconds : num
}.

Record ServiceAccountCapabilities := {
  cap_allowedRoles : list ServiceAccountRole;
  cap_canCreate : bool;
  cap_canManageAll : bool;
  cap_expirationPolicy : ExpirationPolicy
}.

Record ServiceAccountPage := {
  sp_capabilities : ServiceAccountCapabilities;
  sp_items : list ServiceAccountRecord;
  sp_page : num;
  sp_size : num;
  sp_total : num
}.

Record ServiceAccountDetail := {
  sd_connection : ServiceAccountConnection;
  sd_serviceAccount : ServiceAccountRecord
}.

Record ServiceAccountCreateResult := {
  sc_credential : ServiceAccountCredential;
  sc_serviceAccount : ServiceAccountRecord
}.

Record ServiceAccountCreateInput := {
  si_description : option jsstring;
  si_expiresAt : jsstring;
  si_name : jsstring;
  si_role : ServiceAccountRole
}.

Inductive ServiceAccountSortField := SaCreatedAt | SaExpiresAt | SaName | SaRole | SaStatus.

Definition saSortField_str (f : ServiceAccountSortField) : jsstring :=
  match f with
  | SaCreatedAt => js "created_at"
  | SaExpiresAt => js "expires_at"
  | SaName => js "name"
  | SaRole => js "role"
  | SaStatus => js "status"
  end.

Record ServiceAccountListRequest := {
  sl_order : GatewaySortDirection;
  sl_page : num;
  sl_search : jsstring;
  sl_size : num;
  sl_sort : ServiceAccountSortField;
  sl_status : option ServiceAccountStatus
}.

Definition openShellGatewayServiceAccountPageSizes : list num :=
  [NInt 10; NInt 20; NInt 50; NInt 100].

Definition defaultServiceAccountListRequest : ServiceAccountListRequest := {|
  sl_order := Desc;
  sl_page := NInt 1;
  sl_search := [];
  sl_size := default NNaN (openShellGatewayServiceAccountPageSizes !! 1);
  sl_sort := SaCreatedAt;
  sl_status := None
|}.

(** * Errors *)

Inductive GatewayFailureKind :=
| KCancelled | KConflict | KDenied | KNotFound | KUnavailable | KUnknown.

Definition failureKind_str (k : GatewayFailureKind) : jsstring :=
  match k with
  | KCancelled => js "cancelled"
  | KConflict => js "conflict"
  | KDenied => js "denied"
  | KNotFound => js "not-found"
  | KUnavailable => js "unavailable"
  | KUnknown => js "unknown"
  end.

Inductive GatewayFailureCode := ServiceAccountNameExists.

(** The error class of the generated API client. *)
Record SDKError := {
  sdk_code : jsstring;
  sdk_status : num;
  sdk_apiCode : option jsstring
}.

Record GatewayOperationError := {
  ge_kind : GatewayFailureKind;
  ge_code : option GatewayFailureCode;
  ge_operationId : option jsstring;
  ge_cause : option SDKError
}.

(** Every value JavaScript can throw, as far as the code tells them apart: the
    two error classes, any other [Error] by its name, another object by its
    [name] property if it has one, or a primitive. *)
Inductive thrown :=
| ThrowSDK (e : SDKError)
| ThrowGateway (e : GatewayOperationError)
| ThrowError (name : jsstring)
| ThrowObject (name : option jsval)
| ThrowPrim (v : jsval).

#[export] Instance thrown_Thrown : Thrown thrown := {|
  err_is_error e := match e with
    | ThrowSDK _ | ThrowGateway _ | ThrowError _ => true
    | _ => false
    end;
  err_name e := match e with
    | ThrowSDK _ => Some (VStr (js "SDKError"))
    | ThrowGateway _ => Some (VStr (js "GatewayOperationError"))
    | ThrowError n => Some (VStr n)
    | ThrowObject n => n
    | ThrowPrim _ => None
    end;
  err_typeof e := match e with
    | ThrowPrim v => js_typeof v
    | _ => js "object"
    end
|}.

(** [new GatewayOperationError(kind, options)] *)
Definition gatewayOperationError (k : GatewayFailureKind)
    (code : option GatewayFailureCode) (operationId : option jsstring)
    (cause : option SDKError) : GatewayOperationError := {|
  ge_kind := k; ge_code := code; ge_operationId := operationId; ge_cause := cause
|}.

(** [throw new GatewayOperationError("unavailable")] *)
Definition throw_unavailable {W A} : M thrown W A :=
  throw (ThrowGateway (gatewayOperationError KUnavailable None None None)).

#[export] Instance sortDirection_eq_dec : EqDecision GatewaySortDirection.
Proof. solve_decision. Defined.
#[export] Instance sortField_eq_dec : EqDecision GatewaySortField.
Proof. solve_decision. Defined.
#[export] Instance listRequest_eq_dec : EqDecision GatewayListRequest.
Proof. solve_decision. Defined.
#[export] Instance role_eq_dec : EqDecision ServiceAccountRole.
Proof. solve_decision. Defined.
#[export] Instance status_eq_dec : EqDecision ServiceAccountStatus.
Proof. solve_decision. Defined.
#[export] Instance saSortField_eq_dec : EqDecision ServiceAccountSortField.
Proof. solve_decision. Defined.
#[export] Instance failureKind_eq_dec : EqDecision GatewayFailureKind.
Proof. solve_decision. Defined.

(** * Ports *)

(** The driven port for the control plane. *)
Record GatewayControlPlane (W : Type) := {
  cp_createServiceAccount : jsstring → ServiceAccountCreateInput →
    GatewayInvocationContext → M thrown W ServiceAccountCreateResult;
  cp_deleteServiceAccount : jsstring → jsstring →
    GatewayInvocationContext → M thrown W unit;
  cp_findGatewayPlacements : jsstring →
    GatewayInvocationContext → M thrown W GatewayPlacementOptions;
  cp_getGatewayPlacement : jsstring →
    GatewayInvocationContext → M thrown W GatewayPlacement;
  cp_getGatewayPlacements : list jsstring →
    GatewayInvocationContext → M thrown W (list GatewayPlacement);
  cp_getGateway : jsstring → GatewayInvocationContext → M thrown W GatewayRecord;
  cp_getServiceAccount : jsstring → jsstring →
    GatewayInvocationContext → M thrown W ServiceAccountDetail;
  cp_listGateways : GatewayListRequest →
    GatewayInvocationContext → M thrown W (GatewayPage GatewayRecord);
  cp_listServiceAccounts : jsstring → ServiceAccountListRequest →
    GatewayInvocationContext → M thrown W ServiceAccountPage;
  cp_provisionGateway : GatewayProvisionInput →
    GatewayInvocationContext → M thrown W GatewayRecord;
  cp_removeGateway : jsstring → GatewayInvocationContext → M thrown W unit;
  cp_renameGateway : jsstring → jsstring →
    GatewayInvocationContext → M thrown W GatewayRecord;
  cp_revokeServiceAccount : jsstring → jsstring →
    GatewayInvocationContext → M thrown W ServiceAccountRecord
}.
Arguments cp_createServiceAccount {W}.
Arguments cp_deleteServiceAccount {W}.
Arguments cp_findGatewayPlacements {W}.
Arguments cp_getGatewayPlacement {W}.
Arguments cp_getGatewayPlacements {W}.
Arguments cp_getGateway {W}.
Arguments cp_getServiceAccount {W}.
Arguments cp_listGateways {W}.
Arguments cp_listServiceAccounts {W}.
Arguments cp_provisionGateway {W}.
Arguments cp_removeGateway {W}.
Arguments cp_renameGateway {W}.
Arguments cp_revokeServiceAccount {W}.

(** The driving port: the same operations with an optional abort signal. *)
Record GatewayOperations (W : Type) := {
  op_createServiceAccount : jsstring → ServiceAccountCreateInput →
    option AbortSignal → M thrown W ServiceAccountCreateResult;
  op_deleteServiceAccount : jsstring → jsstring → option AbortSignal → M thrown W unit;
  op_findGatewayPlacements : jsstring → option AbortSignal →
    M thrown W GatewayPlacementOptions;
  op_getGatewayPlacement : jsstring → option AbortSignal → M thrown W GatewayPlacement;
  op_getGatewayPlacements : list jsstring → option AbortSignal →
    M thrown W (list GatewayPlacement);
  op_getGateway : jsstring → option AbortSignal → M thrown W GatewayRecord;
  op_getServiceAccount : jsstring → jsstring → option AbortSignal →
    M thrown W ServiceAccountDetail;
  op_listGateways : GatewayListRequest → option AbortSignal →
    M thrown W (GatewayPage GatewayRecord);
  op_listServiceAccounts : jsstring → ServiceAccountListRequest →
    option AbortSignal → M thrown W ServiceAccountPage;
  op_provisionGateway : GatewayProvisionInput → option AbortSignal →
    M thrown W GatewayRecord;
  op_removeGateway : jsstring → option AbortSignal → M thrown W unit;
  op_renameGateway : jsstring → jsstring → option AbortSignal →
    M thrown W GatewayRecord;
  op_revokeServiceAccount : jsstring → jsstring → option AbortSignal →
    M thrown W ServiceAccountRecord
}.

(** The port for nondeterministic workflow context. *)
Record GatewayWorkflowRuntime (W : Type) := {
  rt_createCorrelationId : M thrown W jsstring;
  rt_createTraceId : M thrown W jsstring;
  rt_now : M thrown W jsstring
}.
Arguments rt_createCorrelationId {W}.
Arguments rt_createTraceId {W}.
Arguments rt_now {W}.
