(* ===== verification/DomainProbes.v ===== *)
(** The domain-probes package: probe values and their deep freezing, and the
    fan-out publisher that delivers a probe to every configured sink, isolates
    sink failures and keeps the delivery-health counters
    ([domain-probes/src/domain-probe.ts], [fan-out-domain-probe-publisher.ts]).

    The publisher lives inside a larger world, reached through a [Lens], since a
    sink may call [reportDeliveryFailure] on the very publisher that is
    delivering to it. *)
From S2P Require Export JsCore.

(** * Probe values *)

Inductive ProbePrimitive :=
| PBool (b : bool)
| PNum (n : num)
| PStr (s : jsstring)
| PNull.

(** An object or array carries its frozen flag. *)
Unset Elimination Schemes.
Inductive ProbeValue :=
| PPrim (p : ProbePrimitive)
| PArray (frozen : bool) (items : list ProbeValue)
| PObject (frozen : bool) (fields : list (jsstring * ProbeValue)).
Set Elimination Schemes.

Record DomainProbeContext := {
  pc_correlationId : jsstring;
  pc_operationId : option jsstring;
  pc_parentInvocationId : option jsstring;
  pc_retryAttempt : option num;
  pc_traceId : option jsstring
}.

(** [deepFreeze]: the children first, then the value unless it is frozen. *)
Fixpoint deepFreeze (v : ProbeValue) : ProbeValue :=
  match v with
  | PPrim p => PPrim p
  | PArray frozen l =>
      let l' := map deepFreeze l in
      if frozen then PArray frozen l' else PArray true l'
  | PObject frozen l =>
      let l' := map (λ p, (p.1, deepFreeze p.2)) l in
      if frozen then PObject frozen l' else PObject true l'
  end.

(** Every object reachable from the value is frozen. *)
Fixpoint deeplyFrozen (v : ProbeValue) : bool :=
  match v with
  | PPrim _ => true
  | PArray frozen l => frozen && forallb deeplyFrozen l
  | PObject frozen l => frozen && forallb (λ p, deeplyFrozen p.2) l
  end.

(** The value with every flag cleared: what a reader of it sees. *)
Fixpoint thaw (v : ProbeValue) : ProbeValue :=
  match v with
  | PPrim p => PPrim p
  | PArray _ l => PArray false (map thaw l)
  | PObject _ l => PObject false (map (λ p, (p.1, thaw p.2)) l)
  end.

(** What the publisher reads of a probe, and its object graph. *)
Class DomainProbe (P : Type) := {
  probe_name : P → jsstring;
  probe_schemaVersion : P → num;
  probe_value : P → ProbeValue;
  probe_freeze : P → P;
  probe_freeze_value p : probe_value (probe_freeze p) = deepFreeze (probe_value p);
  probe_freeze_name p : probe_name (probe_freeze p) = probe_name p;
  probe_freeze_version p : probe_schemaVersion (probe_freeze p) = probe_schemaVersion p
}.

(** A component of the world. *)
Class Lens (W S : Type) := {
  lens_get : W → S;
  lens_put : S → W → W;
  lens_get_put s w : lens_get (lens_put s w) = s;
  lens_put_put s s' w : lens_put s (lens_put s' w) = lens_put s w
}.

(** * The fan-out publisher *)

Record ProbeDeliveryFailure := {
  df_errorType : jsstring;
  df_probeName : jsstring;
  df_schemaVersion : num;
  df_sinkId : jsstring
}.

(** The private fields of the publisher; [healthSnapshot] returns a copy. *)
Record ProbeDeliveryHealthSnapshot := {
  hs_deliveryFailureCount : N;
  hs_diagnosticFailureCount : N;
  hs_lastFailure : option ProbeDeliveryFailure
}.

Definition initial_health : ProbeDeliveryHealthSnapshot :=
  {| hs_deliveryFailureCount := 0; hs_diagnosticFailureCount := 0; hs_lastFailure := None |}.

Section fan_out.
Context {E W P : Type} `{!Thrown E, !DomainProbe P, !Lens W ProbeDeliveryHealthSnapshot}.

Record DomainProbeSink := {
  sink_id : jsstring;
  sink_publish : P → M E W unit
}.

Record FanOut := {
  fo_failureReporter : ProbeDeliveryFailure → M E W unit;
  fo_sinks : list DomainProbeSink
}.

Definition errorType (e : E) : jsstring :=
  if err_is_error e
  then match err_name e with Some (VStr n) => n | _ => [] end
  else err_typeof e.

(** The constructor's checks, in order; each failure is a [TypeError]. *)
Definition newFanOut (type_error : E)
    (reporter : ProbeDeliveryFailure → M E W unit) (sinks : list DomainProbeSink) :
    result E FanOut :=
  if decide (length sinks < 2) then Err type_error
  else if existsb (λ s, negb (is_nonempty (trim (sink_id s)))) sinks then Err type_error
  else if decide (length (nub (map sink_id sinks)) ≠ length sinks) then Err type_error
  else Ok {| fo_failureReporter := reporter; fo_sinks := sinks |}.

Definition modify_health (f : ProbeDeliveryHealthSnapshot → ProbeDeliveryHealthSnapshot) :
    M E W unit := λ w, (Ok tt, lens_put (f (lens_get w)) w).

Definition recordFailure (fo : FanOut) (failure : ProbeDeliveryFailure) : M E W unit :=
  modify_health (λ h, {|
    hs_deliveryFailureCount := hs_deliveryFailureCount h + 1;
    hs_diagnosticFailureCount := hs_diagnosticFailureCount h;
    hs_lastFailure := Some failure |}) ≫= λ _,
  try_catch (fo_failureReporter fo failure) (λ _,
    modify_health (λ h, {|
      hs_deliveryFailureCount := hs_deliveryFailureCount h;
      hs_diagnosticFailureCount := hs_diagnosticFailureCount h + 1;
      hs_lastFailure := hs_lastFailure h |})).

Definition deliver (fo : FanOut) (p : P) (sink : DomainProbeSink) : M E W unit :=
  try_catch (sink_publish sink p) (λ e,
    recordFailure fo {|
      df_errorType := errorType e;
      df_probeName := probe_name p;
      df_schemaVersion := probe_schemaVersion p;
      df_sinkId := sink_id sink |}).

Fixpoint deliver_all (fo : FanOut) (p : P) (sinks : list DomainProbeSink) : M E W unit :=
  match sinks with
  | [] => mret tt
  | s :: sinks' => deliver fo p s ≫= λ _, deliver_all fo p sinks'
  end.

Definition fanOut_publish (fo : FanOut) (p : P) : M E W unit :=
  deliver_all fo (probe_freeze p) (fo_sinks fo).

Definition reportDeliveryFailure (fo : FanOut) (failure : ProbeDeliveryFailure) : M E W unit :=
  recordFailure fo failure.

Definition healthSnapshot (w : W) : ProbeDeliveryHealthSnapshot := lens_get w.

(** * Lemmas *)

(** A computation that returns normally from every world. *)
Definition never_throws (m : M E W unit) : Prop := ∀ w, ∃ w', m w = (Ok tt, w').

(** The constructor accepts two or more sinks with distinct non-blank ids. *)
Lemma newFanOut_spec type_error reporter sinks :
  newFanOut type_error reporter sinks =
  if decide (2 ≤ length sinks ∧ Forall (λ i, trim i ≠ []) (map sink_id sinks) ∧
             NoDup (map sink_id sinks))
  then Ok {| fo_failureReporter := reporter; fo_sinks := sinks |} else Err type_error.
Proof.
  unfold newFanOut. pose proof (length_map sink_id sinks) as Hlen.
  destruct (decide (length sinks < 2)); [rewrite decide_False; [done|lia]|].
  match goal with |- context [existsb ?f ?l] => destruct (existsb f l) eqn:Hb end.
  - rewrite decide_False; [done|]. intros (_ & H & _). clear Hlen.
    apply existsb_exists in Hb as (s & Hs & Hb). rewrite Forall_map, Forall_forall in H.
    apply (H s); [by apply list_elem_of_In|]. by destruct (trim (sink_id s)).
  - case_decide as H.
    + rewrite decide_False; [done|]. intros (_ & _ & Hd). apply H. rewrite <- Hlen.
      by apply length_nub_NoDup.
    + rewrite decide_True; [done|]. split_and!; [lia| |apply length_nub_NoDup; lia].
      rewrite Forall_map, Forall_forall. intros s Hs Ht.
      assert (existsb (λ s, negb (is_nonempty (trim (sink_id s)))) sinks = true) as Hc;
        [|simpl in *; congruence].
      apply existsb_exists. exists s. split; [by apply list_elem_of_In|]. by rewrite Ht.
Qed.

Lemma recordFailure_total fo f : never_throws (recordFailure fo f).
Proof.
  intros w. unfold recordFailure, mbind, M_bind, modify_health, try_catch; simpl.
  destruct (fo_failureReporter fo f _) as [[[]|e] w'']; eauto.
Qed.

Lemma deliver_total fo p s : never_throws (deliver fo p s).
Proof.
  intros w. unfold deliver, try_catch.
  destruct (sink_publish s p w) as [[[]|e] w']; [eauto|apply recordFailure_total].
Qed.

Lemma deliver_all_total fo p sinks : never_throws (deliver_all fo p sinks).
Proof.
  induction sinks as [|s sinks IH]; intros w; simpl; [by exists w|].
  destruct (deliver_total fo p s w) as [w' H]. rewrite (M_bind_ok _ _ _ _ _ H). apply IH.
Qed.
End fan_out.

Arguments DomainProbeSink : clear implicits.
Arguments FanOut : clear implicits.

(** * Facts about freezing *)

(** Induction over a probe value, through its items and fields. *)
Lemma ProbeValue_ind' (Q : ProbeValue → Prop) :
  (∀ p, Q (PPrim p)) →
  (∀ f l, Forall Q l → Q (PArray f l)) →
  (∀ f l, Forall (λ p, Q p.2) l → Q (PObject f l)) →
  ∀ v, Q v.
Proof.
  intros Hp Ha Ho. fix IH 1. intros [p|f l|f l]; [apply Hp|apply Ha|apply Ho].
  - induction l; constructor; [apply IH|done].
  - induction l as [|[k v] l]; constructor; [apply IH|done].
Qed.

Lemma deepFreeze_frozen v : deeplyFrozen (deepFreeze v) = true.
Proof.
  induction v as [p|f l IH|f l IH] using ProbeValue_ind'; simpl; [done|..].
  - destruct f; simpl; induction IH as [|x l Hx _ IHl]; simpl; rewrite ?Hx; auto.
  - destruct f; simpl; induction IH as [|x l Hx _ IHl]; simpl; rewrite ?Hx; auto.
Qed.

Lemma thaw_deepFreeze v : thaw (deepFreeze v) = thaw v.
Proof.
  induction v as [p|f l IH|f l IH] using ProbeValue_ind'; simpl; [done|..].
  - destruct f; simpl; f_equal; induction IH as [|x l Hx _ IHl]; simpl; congruence.
  - destruct f; simpl; f_equal; induction IH as [|x l Hx _ IHl]; simpl; congruence.
Qed.

Lemma deeplyFrozen_id v : deeplyFrozen v = true → deepFreeze v = v.
Proof.
  induction v as [p|f l IH|f l IH] using ProbeValue_ind'; simpl; [done|..];
    intros [-> Hl]%andb_prop; f_equal;
    induction IH as [|x l Hx _ IHl]; simpl in *; [done| |done|];
    apply andb_prop in Hl as [Hx' Hl]; rewrite Hx, IHl by done; [done|by destruct x].
Qed.

#[export] Hint Resolve recordFailure_total deliver_total deliver_all_total : js.
#[export] Hint Rewrite deepFreeze_frozen thaw_deepFreeze : js_simp.

(** * Delivery to observed sinks *)

(** Sinks and reporter whose effect is visible in a log: each call of a sink
    appends one entry, whether it then returns or throws ([fails]), and neither
    sinks nor reporter touch the health counters themselves. *)
Section delivery.
Context {E W P : Type} `{!Thrown E, !DomainProbe P, !Lens W ProbeDeliveryHealthSnapshot}.
Context (log : W → list (jsstring * P)) (fails : jsstring → P → option E)
  (reporter_throws : bool).

Definition observed_sink (s : DomainProbeSink E W P) : Prop := ∀ p w, ∃ w',
  sink_publish s p w =
    (match fails (sink_id s) p with None => Ok tt | Some e => Err e end, w') ∧
  log w' = log w ++ [(sink_id s, p)] ∧
  lens_get (S := ProbeDeliveryHealthSnapshot) w' = lens_get w.

Definition observed_reporter (r : ProbeDeliveryFailure → M E W unit) : Prop := ∀ f w, ∃ w' res,
  r f w = (res, w') ∧ (if reporter_throws then ∃ e, res = Err e else res = Ok tt) ∧
  log w' = log w ∧ lens_get (S := ProbeDeliveryHealthSnapshot) w' = lens_get w.

Definition log_independent : Prop :=
  ∀ (h : ProbeDeliveryHealthSnapshot) w, log (lens_put h w) = log w.

(** The sinks of a list that throw on [p], with their errors. *)
Definition failing (p : P) (sinks : list (DomainProbeSink E W P)) :
    list (DomainProbeSink E W P * E) :=
  omap (λ s, (λ e, (s, e)) <$> fails (sink_id s) p) sinks.

Definition failure_of (p : P) (x : DomainProbeSink E W P * E) : ProbeDeliveryFailure := {|
  df_errorType := errorType x.2;
  df_probeName := probe_name p;
  df_schemaVersion := probe_schemaVersion p;
  df_sinkId := sink_id x.1 |}.

(** The health counters once the failures of a list have been recorded. *)
Definition health_after (p : P) (h : ProbeDeliveryHealthSnapshot)
    (l : list (DomainProbeSink E W P * E)) : ProbeDeliveryHealthSnapshot := {|
  hs_deliveryFailureCount := hs_deliveryFailureCount h + N.of_nat (length l);
  hs_diagnosticFailureCount :=
    hs_diagnosticFailureCount h + (if reporter_throws then N.of_nat (length l) else 0);
  hs_lastFailure := match last l with
                    | Some x => Some (failure_of p x)
                    | None => hs_lastFailure h
                    end |}.

Lemma health_after_nil p h : health_after p h [] = h.
Proof. destruct h. unfold health_after; simpl. f_equal; destruct reporter_throws; lia. Qed.

Lemma health_after_cons p h x l :
  health_after p (health_after p h [x]) l = health_after p h (x :: l).
Proof.
  unfold health_after; cbn -[N.of_nat last]. f_equal.
  - lia.
  - destruct reporter_throws; lia.
  - rewrite !last_cons; simpl. by destruct (last l).
Qed.

Lemma recordFailure_observed (fo : FanOut E W P) p w x :
  observed_reporter (fo_failureReporter fo) → log_independent →
  ∃ w', recordFailure fo (failure_of p x) w = (Ok tt, w') ∧ log w' = log w ∧
    lens_get w' = health_after p (lens_get w) [x].
Proof.
  intros Hr Hl. unfold recordFailure, mbind, M_bind, modify_health, try_catch; simpl.
  match goal with |- context [fo_failureReporter fo ?f ?w1] =>
    destruct (Hr f w1) as (w' & res & -> & Hres & Hlog & Hh) end.
  unfold health_after. destruct reporter_throws.
  - destruct Hres as [e ->]. eexists; split_and!; [done|by rewrite Hl, Hlog, Hl|].
    rewrite lens_get_put, Hh, lens_get_put; simpl. done.
  - subst res. eexists; split_and!; [done|by rewrite Hlog, Hl|].
    rewrite Hh, lens_get_put; simpl. f_equal; lia.
Qed.

Lemma deliver_all_observed (fo : FanOut E W P) p sinks w :
  observed_reporter (fo_failureReporter fo) → log_independent →
  Forall observed_sink sinks →
  ∃ w', deliver_all fo p sinks w = (Ok tt, w') ∧
    log w' = log w ++ map (λ s, (sink_id s, p)) sinks ∧
    lens_get w' = health_after p (lens_get w) (failing p sinks).
Proof.
  intros Hr Hl Hs. revert w. induction Hs as [|s sinks Hs _ IH]; intros w; simpl.
  { eexists. by rewrite app_nil_r, health_after_nil. }
  destruct (Hs p w) as (w1 & Hp & Hlog & Hh).
  destruct (fails (sink_id s) p) as [e|] eqn:Hf; simpl.
  - destruct (recordFailure_observed fo p w1 (s, e) Hr Hl) as (w2 & H2 & Hlog2 & Hh2).
    assert (Hd : deliver fo p s w = (Ok tt, w2)).
    { unfold deliver. by rewrite (try_catch_err _ _ _ _ _ Hp). }
    rewrite (M_bind_ok _ _ _ _ _ Hd). destruct (IH w2) as (w3 & Hw3 & Hlog3 & Hh3).
    exists w3. rewrite Hlog3, Hh3, Hlog2, Hh2, Hlog, Hh, health_after_cons.
    by rewrite <- (assoc_L (++)).
  - assert (Hd : deliver fo p s w = (Ok tt, w1)).
    { unfold deliver. by apply try_catch_ok. }
    rewrite (M_bind_ok _ _ _ _ _ Hd). destruct (IH w1) as (w3 & Hw3 & Hlog3 & Hh3).
    exists w3. rewrite Hlog3, Hh3, Hlog, Hh. by rewrite <- (assoc_L (++)).
Qed.
End delivery.

(** Freezing a probe freezes every object it reaches, changes nothing a
    reader sees, and leaves a frozen probe alone. *)
Theorem deepFreeze_correct v :
  deeplyFrozen (deepFreeze v) = true ∧ thaw (deepFreeze v) = thaw v ∧
  deepFreeze (deepFreeze v) = deepFreeze v.
Proof.
  autorewrite with js_simp. split_and!; try done.
  apply deeplyFrozen_id, deepFreeze_frozen.
Qed.

(** C12 Publishing never throws and reaches every sink once, in configured order,
    with the frozen probe, however many sinks throw; each throwing sink adds one
    to the delivery-failure count, one to the diagnostic count when the reporter
    throws too, and the last one is the recorded failure. *)
Theorem fanOut_publish_delivers {E W P} `{!Thrown E, !DomainProbe P,
    !Lens W ProbeDeliveryHealthSnapshot}
    (log : W → list (jsstring * P)) (fails : jsstring → P → option E)
    (reporter_throws : bool) (fo : FanOut E W P) (p : P) (w : W) :
  observed_reporter log reporter_throws (fo_failureReporter fo) →
  log_independent log →
  Forall (observed_sink log fails) (fo_sinks fo) →
  ∃ w', fanOut_publish fo p w = (Ok tt, w') ∧
    log w' = log w ++ map (λ s, (sink_id s, probe_freeze p)) (fo_sinks fo) ∧
    healthSnapshot w' = health_after reporter_throws (probe_freeze p) (healthSnapshot w)
      (failing fails (probe_freeze p) (fo_sinks fo)).
Proof. intros. by apply deliver_all_observed. Qed.

(** * Concrete instances, for the witnesses *)

Module Demo.

(** A probe that is its own object graph. *)
#[local] Instance value_probe : DomainProbe ProbeValue.
Proof.
  refine {| probe_name _ := js "demo"; probe_schemaVersion _ := NInt 1;
            probe_value v := v; probe_freeze := deepFreeze |}; done.
Defined.

Definition world : Type := ProbeDeliveryHealthSnapshot * list (jsstring * ProbeValue).

#[local] Instance world_lens : Lens world ProbeDeliveryHealthSnapshot.
Proof. refine {| lens_get := fst; lens_put s w := (s, w.2) |}; done. Defined.

#[local] Instance string_thrown : Thrown jsstring := {|
  err_is_error _ := true; err_name s := Some (VStr s); err_typeof _ := js "object" |}.

Definition fails (id : jsstring) (_ : ProbeValue) : option jsstring :=
  if decide (id = js "b") then Some (js "TypeError") else None.

Definition sink (id : jsstring) : DomainProbeSink jsstring world ProbeValue := {|
  sink_id := id;
  sink_publish p w := (match fails id p with None => Ok tt | Some e => Err e end,
                       (w.1, w.2 ++ [(id, p)])) |}.

Definition fo : FanOut jsstring world ProbeValue := {|
  fo_failureReporter _ w := (Err (js "reporter"), w);
  fo_sinks := [sink (js "a"); sink (js "b"); sink (js "c")] |}.

Lemma fanOut_publish_delivers_witness :
  ∃ w', fanOut_publish fo (PPrim PNull) (initial_health, []) = (Ok tt, w') ∧
    w'.2 = [] ++ map (λ s, (sink_id s, probe_freeze (PPrim PNull))) (fo_sinks fo) ∧
    healthSnapshot w' = health_after true (probe_freeze (PPrim PNull)) initial_health
      (failing fails (probe_freeze (PPrim PNull)) (fo_sinks fo)).
Proof.
  refine (fanOut_publish_delivers (W := world) snd fails true fo (PPrim PNull)
            (initial_health, []) _ _ _).
  - intros f w. exists w, (Err (js "reporter")). split_and!; eauto.
  - done.
  - repeat constructor; intros p w; eexists; done.
Defined.
End Demo.
