(* ===== verification/GatewayOperations.v ===== *)
(** The gateway use cases: [application/gateway-probes.ts] (probe vocabulary and
    catalogue) and [application/gateway-operations.ts] (the [execute] wrapper
    that publishes the four workflow probes around every control-plane call, the
    failure classification, and the thirteen operations of the driving port). *)
From S2P Require Export GatewayTypes DomainProbes.

(** * Probe vocabulary *)

Inductive GatewayAction :=
| ACreateServiceAccount | ADeleteServiceAccount | AFindPlacements | AGet
| AGetPlacement | AGetPlacements | AList | AListServiceAccounts | AProvision
| ARemove | ARename | AGetServiceAccount | ARevokeServiceAccount.

Definition action_str (a : GatewayAction) : jsstring :=
  match a with
  | ACreateServiceAccount => js "create-service-account"
  | ADeleteServiceAccount => js "delete-service-account"
  | AFindPlacements => js "find-placements"
  | AGet => js "get"
  | AGetPlacement => js "get-placement"
  | AGetPlacements => js "get-placements"
  | AList => js "list"
  | AListServiceAccounts => js "list-service-accounts"
  | AProvision => js "provision"
  | ARemove => js "remove"
  | ARename => js "rename"
  | AGetServiceAccount => js "get-service-account"
  | ARevokeServiceAccount => js "revoke-service-account"
  end.

Inductive GatewayProbeOutcome :=
| OStarted | OSucceeded | OFailed | OCancelled | ODenied | OConflicted.

Definition outcome_str (o : GatewayProbeOutcome) : jsstring :=
  match o with
  | OStarted => js "started"
  | OSucceeded => js "succeeded"
  | OFailed => js "failed"
  | OCancelled => js "cancelled"
  | ODenied => js "denied"
  | OConflicted => js "conflicted"
  end.

Inductive GatewayProbeName :=
| WorkflowStarted | WorkflowCompleted | DependencyAttempted | DependencyCompleted.

Definition probeName_str (n : GatewayProbeName) : jsstring :=
  match n with
  | WorkflowStarted => js "gateway.workflow.started"
  | WorkflowCompleted => js "gateway.workflow.completed"
  | DependencyAttempted => js "gateway.dependency.attempted"
  | DependencyCompleted => js "gateway.dependency.completed"
  end.

Record GatewayProbe := {
  pb_correlationId : jsstring;
  pb_traceId : option jsstring;
  pb_operationId : option jsstring;
  pb_parentInvocationId : option jsstring;
  pb_action : GatewayAction;
  pb_failureKind : option GatewayFailureKind;
  pb_outcome : GatewayProbeOutcome;
  pb_name : GatewayProbeName;
  pb_occurredAt : jsstring
}.

(** One entry of [gatewayProbeCatalog]. *)
Record CatalogEntry := {
  ce_allowedConsumers : list jsstring;
  ce_deliveryClass : jsstring;
  ce_fields : list (jsstring * jsstring);
  ce_name : GatewayProbeName;
  ce_owner : jsstring;
  ce_schemaVersion : num;
  ce_trigger : jsstring
}.

Definition catalog_entry (n : GatewayProbeName) (trigger : jsstring) : CatalogEntry := {|
  ce_allowedConsumers :=
    [js "structured-log"; js "performance"; js "product-health"; js "trace"];
  ce_deliveryClass := js "best-effort";
  ce_fields :=
    [(js "action", js "bounded operational enum");
     (js "failureKind", js "bounded operational enum; no raw error content");
     (js "outcome", js "bounded operational enum")];
  ce_name := n;
  ce_owner := js "gateway";
  ce_schemaVersion := NInt 1;
  ce_trigger := trigger
|}.

Definition gatewayProbeCatalog : list CatalogEntry :=
  [catalog_entry WorkflowStarted (js "A gateway application use case starts");
   catalog_entry WorkflowCompleted
     (js "A gateway application use case reaches one terminal outcome");
   catalog_entry DependencyAttempted
     (js "A gateway control-plane dependency attempt starts");
   catalog_entry DependencyCompleted
     (js "A gateway control-plane dependency attempt completes")].

(** The object [probe(...)] builds: every level is frozen. *)
Definition opt_field (k : jsstring) (v : option jsstring) : list (jsstring * ProbeValue) :=
  match v with Some s => [(k, PPrim (PStr s))] | None => [] end.

Definition gateway_probe_value (p : GatewayProbe) : ProbeValue :=
  PObject true
    [(js "context", PObject true
       ([(js "correlationId", PPrim (PStr (pb_correlationId p)))]
        ++ opt_field (js "traceId") (pb_traceId p)
        ++ opt_field (js "operationId") (pb_operationId p)
        ++ opt_field (js "parentInvocationId") (pb_parentInvocationId p)));
     (js "fields", PObject true
       [(js "action", PPrim (PStr (action_str (pb_action p))));
        (js "failureKind", PPrim (match pb_failureKind p with
                                  | Some k => PStr (failureKind_str k)
                                  | None => PNull
                                  end));
        (js "outcome", PPrim (PStr (outcome_str (pb_outcome p))))]);
     (js "name", PPrim (PStr (probeName_str (pb_name p))));
     (js "occurredAt", PPrim (PStr (pb_occurredAt p)));
     (js "schemaVersion", PPrim (PNum (NInt 1)))].

Lemma gateway_probe_frozen p : deeplyFrozen (gateway_probe_value p) = true.
Proof. destruct p as [? [] [] []]; done. Qed.

#[export] Instance GatewayProbe_DomainProbe : DomainProbe GatewayProbe.
Proof.
  refine {| probe_name p := probeName_str (pb_name p);
            probe_schemaVersion _ := NInt 1;
            probe_value := gateway_probe_value;
            probe_freeze p := p |}; try done.
  intros p. symmetry. apply deeplyFrozen_id, gateway_probe_frozen.
Defined.

(** * Failure classification *)

(** [typeof error === "object" && error !== null && "name" in error &&
    error.name === "AbortError"]. *)
Definition isCancelled (e : thrown) : bool :=
  match err_name e with
  | Some (VStr n) => bool_decide (n = js "AbortError")
  | _ => false
  end.

Definition failureKind (e : thrown) : GatewayFailureKind :=
  if isCancelled e then KCancelled
  else match e with ThrowGateway g => ge_kind g | _ => KUnknown end.

Definition failureOutcome (e : thrown) : GatewayProbeOutcome :=
  match failureKind e with
  | KCancelled => OCancelled
  | KConflict => OConflicted
  | KDenied => ODenied
  | _ => OFailed
  end.

Definition probe (a : GatewayAction) (correlationId traceId : jsstring)
    (failure : option GatewayFailureKind) (name : GatewayProbeName) (occurredAt : jsstring)
    (outcome : GatewayProbeOutcome) (operationId parentInvocationId : option jsstring) :
    GatewayProbe := {|
  pb_correlationId := correlationId;
  pb_traceId := Some traceId;
  pb_operationId := operationId;
  pb_parentInvocationId := parentInvocationId;
  pb_action := a;
  pb_failureKind := failure;
  pb_outcome := outcome;
  pb_name := name;
  pb_occurredAt := occurredAt
|}.

(** * The use cases *)

Record GatewayOperationDependencies (W : Type) := {
  dep_controlPlane : GatewayControlPlane W;
  dep_publish : GatewayProbe → M thrown W unit;
  dep_runtime : GatewayWorkflowRuntime W
}.
Arguments dep_controlPlane {W}.
Arguments dep_publish {W}.
Arguments dep_runtime {W}.

Definition error_operationId (e : thrown) : option jsstring :=
  match e with ThrowGateway g => ge_operationId g | _ => None end.

Section operations.
Context {W : Type} (deps : GatewayOperationDependencies W).

(** [probes.publish(probe(..., runtime.now(), ...))]: the clock is read first. *)
Definition publish_now (mk : jsstring → GatewayProbe) : M thrown W unit :=
  rt_now (dep_runtime deps) ≫= λ now, dep_publish deps (mk now).

Definition execute {T} (action : GatewayAction) (signal : option AbortSignal)
    (task : GatewayInvocationContext → M thrown W T) : M thrown W T :=
  rt_createCorrelationId (dep_runtime deps) ≫= λ correlationId,
  rt_createTraceId (dep_runtime deps) ≫= λ traceId,
  let context := {| ctx_correlationId := correlationId; ctx_signal := signal |} in
  publish_now (λ now, probe action correlationId traceId None WorkflowStarted now
                        OStarted None None) ≫= λ _,
  publish_now (λ now, probe action correlationId traceId None DependencyAttempted now
                        OStarted None (Some correlationId)) ≫= λ _,
  try_catch
    (task context ≫= λ result,
     publish_now (λ now, probe action correlationId traceId None DependencyCompleted now
                           OSucceeded None (Some correlationId)) ≫= λ _,
     publish_now (λ now, probe action correlationId traceId None WorkflowCompleted now
                           OSucceeded None None) ≫= λ _,
     mret result)
    (λ error,
     let kind := failureKind error in
     let outcome := failureOutcome error in
     let operationId := error_operationId error in
     publish_now (λ now, probe action correlationId traceId (Some kind) DependencyCompleted
                           now outcome operationId (Some correlationId)) ≫= λ _,
     publish_now (λ now, probe action correlationId traceId (Some kind) WorkflowCompleted
                           now outcome operationId None) ≫= λ _,
     throw error).

Definition createGatewayOperations : GatewayOperations W :=
  let controlPlane := dep_controlPlane deps in {|
  op_createServiceAccount gatewayId input signal :=
    execute ACreateServiceAccount signal
      (cp_createServiceAccount controlPlane gatewayId input);
  op_deleteServiceAccount gatewayId serviceAccountId signal :=
    execute ADeleteServiceAccount signal
      (cp_deleteServiceAccount controlPlane gatewayId serviceAccountId);
  op_findGatewayPlacements search signal :=
    execute AFindPlacements signal (cp_findGatewayPlacements controlPlane (trim search));
  op_getGatewayPlacement clusterId signal :=
    execute AGetPlacement signal (cp_getGatewayPlacement controlPlane clusterId);
  op_getGatewayPlacements clusterIds signal :=
    execute AGetPlacements signal (cp_getGatewayPlacements controlPlane clusterIds);
  op_getGateway gatewayId signal :=
    execute AGet signal (cp_getGateway controlPlane gatewayId);
  op_getServiceAccount gatewayId serviceAccountId signal :=
    execute AGetServiceAccount signal
      (cp_getServiceAccount controlPlane gatewayId serviceAccountId);
  op_listGateways request signal :=
    execute AList signal (cp_listGateways controlPlane request);
  op_listServiceAccounts gatewayId request signal :=
    execute AListServiceAccounts signal
      (cp_listServiceAccounts controlPlane gatewayId request);
  op_provisionGateway input signal :=
    execute AProvision signal (cp_provisionGateway controlPlane input);
  op_removeGateway gatewayId signal :=
    execute ARemove signal (cp_removeGateway controlPlane gatewayId);
  op_renameGateway gatewayId name signal :=
    execute ARename signal (cp_renameGateway controlPlane gatewayId name);
  op_revokeServiceAccount gatewayId serviceAccountId signal :=
    execute ARevokeServiceAccount signal
      (cp_revokeServiceAccount controlPlane gatewayId serviceAccountId)
|}.
End operations.

(** * The thirteen calls, as data *)

(** A call of the driving port, with its result type. *)
Inductive GatewayCall : Type → Type :=
| CallCreateServiceAccount (g : jsstring) (i : ServiceAccountCreateInput) :
    GatewayCall ServiceAccountCreateResult
| CallDeleteServiceAccount (g a : jsstring) : GatewayCall unit
| CallFindGatewayPlacements (s : jsstring) : GatewayCall GatewayPlacementOptions
| CallGetGatewayPlacement (c : jsstring) : GatewayCall GatewayPlacement
| CallGetGatewayPlacements (cs : list jsstring) : GatewayCall (list GatewayPlacement)
| CallGetGateway (g : jsstring) : GatewayCall GatewayRecord
| CallGetServiceAccount (g a : jsstring) : GatewayCall ServiceAccountDetail
| CallListGateways (r : GatewayListRequest) : GatewayCall (GatewayPage GatewayRecord)
| CallListServiceAccounts (g : jsstring) (r : ServiceAccountListRequest) :
    GatewayCall ServiceAccountPage
| CallProvisionGateway (i : GatewayProvisionInput) : GatewayCall GatewayRecord
| CallRemoveGateway (g : jsstring) : GatewayCall unit
| CallRenameGateway (g n : jsstring) : GatewayCall GatewayRecord
| CallRevokeServiceAccount (g a : jsstring) : GatewayCall ServiceAccountRecord.

Definition call_action {T} (c : GatewayCall T) : GatewayAction :=
  match c with
  | CallCreateServiceAccount _ _ => ACreateServiceAccount
  | CallDeleteServiceAccount _ _ => ADeleteServiceAccount
  | CallFindGatewayPlacements _ => AFindPlacements
  | CallGetGatewayPlacement _ => AGetPlacement
  | CallGetGatewayPlacements _ => AGetPlacements
  | CallGetGateway _ => AGet
  | CallGetServiceAccount _ _ => AGetServiceAccount
  | CallListGateways _ => AList
  | CallListServiceAccounts _ _ => AListServiceAccounts
  | CallProvisionGateway _ => AProvision
  | CallRemoveGateway _ => ARemove
  | CallRenameGateway _ _ => ARename
  | CallRevokeServiceAccount _ _ => ARevokeServiceAccount
  end.

(** The call on the driving port. *)
Definition run_operation {W T} (ops : GatewayOperations W) (c : GatewayCall T)
    (sg : option AbortSignal) : M thrown W T :=
  match c in GatewayCall T return M thrown W T with
  | CallCreateServiceAccount g i => op_createServiceAccount W ops g i sg
  | CallDeleteServiceAccount g a => op_deleteServiceAccount W ops g a sg
  | CallFindGatewayPlacements s => op_findGatewayPlacements W ops s sg
  | CallGetGatewayPlacement c => op_getGatewayPlacement W ops c sg
  | CallGetGatewayPlacements cs => op_getGatewayPlacements W ops cs sg
  | CallGetGateway g => op_getGateway W ops g sg
  | CallGetServiceAccount g a => op_getServiceAccount W ops g a sg
  | CallListGateways r => op_listGateways W ops r sg
  | CallListServiceAccounts g r => op_listServiceAccounts W ops g r sg
  | CallProvisionGateway i => op_provisionGateway W ops i sg
  | CallRemoveGateway g => op_removeGateway W ops g sg
  | CallRenameGateway g n => op_renameGateway W ops g n sg
  | CallRevokeServiceAccount g a => op_revokeServiceAccount W ops g a sg
  end.

(** The control-plane call a driving-port call stands for. *)
Definition run_controlPlane {W T} (cp : GatewayControlPlane W) (c : GatewayCall T)
    (ctx : GatewayInvocationContext) : M thrown W T :=
  match c in GatewayCall T return M thrown W T with
  | CallCreateServiceAccount g i => cp_createServiceAccount cp g i ctx
  | CallDeleteServiceAccount g a => cp_deleteServiceAccount cp g a ctx
  | CallFindGatewayPlacements s => cp_findGatewayPlacements cp (trim s) ctx
  | CallGetGatewayPlacement c => cp_getGatewayPlacement cp c ctx
  | CallGetGatewayPlacements cs => cp_getGatewayPlacements cp cs ctx
  | CallGetGateway g => cp_getGateway cp g ctx
  | CallGetServiceAccount g a => cp_getServiceAccount cp g a ctx
  | CallListGateways r => cp_listGateways cp r ctx
  | CallListServiceAccounts g r => cp_listServiceAccounts cp g r ctx
  | CallProvisionGateway i => cp_provisionGateway cp i ctx
  | CallRemoveGateway g => cp_removeGateway cp g ctx
  | CallRenameGateway g n => cp_renameGateway cp g n ctx
  | CallRevokeServiceAccount g a => cp_revokeServiceAccount cp g a ctx
  end.

(** * The contract of the ports *)

(** A world in which the probes published so far can be observed. *)
Class ProbeLog (W : Type) := published : W → list GatewayProbe.

(** What the use cases rely on: the runtime returns a value and publishes
    nothing; publishing a probe never throws and records it. *)
Record runtime_ok {W} `{!ProbeLog W} (rt : GatewayWorkflowRuntime W) : Prop := {
  ok_correlationId w : ∃ s w', rt_createCorrelationId rt w = (Ok s, w') ∧
    published w' = published w;
  ok_traceId w : ∃ s w', rt_createTraceId rt w = (Ok s, w') ∧ published w' = published w;
  ok_now w : ∃ s w', rt_now rt w = (Ok s, w') ∧ published w' = published w
}.

Definition publisher_ok {W} `{!ProbeLog W} (pub : GatewayProbe → M thrown W unit) : Prop :=
  ∀ p w, ∃ w', pub p w = (Ok tt, w') ∧ published w' = published w ++ [p].

(** The probes of one invocation, before and after the control-plane call. *)
Definition start_probes (a : GatewayAction) (c t t1 t2 : jsstring) : list GatewayProbe :=
  [probe a c t None WorkflowStarted t1 OStarted None None;
   probe a c t None DependencyAttempted t2 OStarted None (Some c)].

Definition end_probes {T} (a : GatewayAction) (c t t1 t2 : jsstring) (r : result thrown T) :
    list GatewayProbe :=
  match r with
  | Ok _ =>
      [probe a c t None DependencyCompleted t1 OSucceeded None (Some c);
       probe a c t None WorkflowCompleted t2 OSucceeded None None]
  | Err e =>
      [probe a c t (Some (failureKind e)) DependencyCompleted t1 (failureOutcome e)
         (error_operationId e) (Some c);
       probe a c t (Some (failureKind e)) WorkflowCompleted t2 (failureOutcome e)
         (error_operationId e) None]
  end.

(** What a world goes through, seen through any relation [Step ps w w'] ("the
    probes [ps] were published between [w] and [w']") that composes: reading the
    runtime publishes nothing, its trace ids are [good], and publishing a probe
    with a good trace id never throws. *)
Record steps_ok {W} (deps : GatewayOperationDependencies W) (good : jsstring → Prop)
    (Step : list GatewayProbe → W → W → Prop) : Prop := {
  st_trans ps qs w w' w'' : Step ps w w' → Step qs w' w'' → Step (ps ++ qs) w w'';
  st_correlationId w : ∃ s w',
    rt_createCorrelationId (dep_runtime deps) w = (Ok s, w') ∧ Step [] w w';
  st_traceId w : ∃ s w', rt_createTraceId (dep_runtime deps) w = (Ok s, w') ∧ Step [] w w' ∧
    good s;
  st_now w : ∃ s w', rt_now (dep_runtime deps) w = (Ok s, w') ∧ Step [] w w';
  st_publish p w : (∀ t, pb_traceId p = Some t → good t) → ∃ w', dep_publish deps p w = (Ok tt, w') ∧ Step [p] w w'
}.

Section contract.
Context {W : Type} (deps : GatewayOperationDependencies W) (good : jsstring → Prop)
  (Step : list GatewayProbe → W → W → Prop) (Hok : steps_ok deps good Step).

(** A probe made from the time, with a good trace id. *)
Definition good_probe (mk : jsstring → GatewayProbe) : Prop :=
  ∀ now t, pb_traceId (mk now) = Some t → good t.

Lemma publish_now_steps mk w : good_probe mk →
  ∃ t w', publish_now deps mk w = (Ok tt, w') ∧ Step [mk t] w w'.
Proof using Hok.
  intros Hg.
  destruct (st_now _ _ _ Hok w) as (t & w1 & H1 & S1).
  destruct (st_publish _ _ _ Hok (mk t) w1 (Hg t)) as (w2 & H2 & S2).
  exists t, w2. unfold publish_now. rewrite (M_bind_ok _ _ _ _ _ H1).
  split; [done|]. by apply (st_trans _ _ _ Hok [] [mk t] w w1).
Qed.

(** Two probes in a row. *)
Lemma publish_two_steps {A} mk mk' (k : M thrown W A) w :
  good_probe mk → good_probe mk' → ∃ t t' w',
  (publish_now deps mk ≫= λ _, publish_now deps mk' ≫= λ _, k) w = k w' ∧
  Step [mk t; mk' t'] w w'.
Proof using Hok.
  intros Hg Hg'. destruct (publish_now_steps mk w Hg) as (t & w1 & H1 & S1).
  destruct (publish_now_steps mk' w1 Hg') as (t' & w2 & H2 & S2).
  exists t, t', w2. rewrite (M_bind_ok _ _ _ _ _ H1), (M_bind_ok _ _ _ _ _ H2).
  split; [done|]. by apply (st_trans _ _ _ Hok [mk t] [mk' t'] w w1).
Qed.

Lemma execute_steps {T} a sg (task : GatewayInvocationContext → M thrown W T) w :
  ∃ c t t1 t2 t3 t4 w1 r w2 w3,
    task {| ctx_correlationId := c; ctx_signal := sg |} w1 = (r, w2) ∧
    execute deps a sg task w = (r, w3) ∧
    Step (start_probes a c t t1 t2) w w1 ∧ Step (end_probes a c t t3 t4 r) w2 w3.
Proof using Hok.
  destruct (st_correlationId _ _ _ Hok w) as (c & w01 & Hc & Sc).
  destruct (st_traceId _ _ _ Hok w01) as (t & w02 & Ht & St & Hg).
  assert (∀ k n o op pa, good_probe (λ now, probe a c t k n now o op pa)) as Hgood
    by (intros; by intros now ? [= <-]).
  unfold execute. rewrite (M_bind_ok _ _ _ _ _ Hc), (M_bind_ok _ _ _ _ _ Ht). simpl.
  match goal with |- context [publish_now deps ?mk ≫= λ _, publish_now deps ?mk' ≫= λ _, ?k] =>
    destruct (publish_two_steps mk mk' k w02 ltac:(apply Hgood) ltac:(apply Hgood)) as (t1 & t2 & w1 & H1 & S1) end.
  rewrite H1. apply (st_trans _ _ _ Hok [] _ _ _ _ St) in S1.
  apply (st_trans _ _ _ Hok [] _ _ _ _ Sc) in S1.
  destruct (task {| ctx_correlationId := c; ctx_signal := sg |} w1) as [[x|e] w2] eqn:Htask.
  - match goal with |- context [task _ ≫= ?k] => set (K := k) end.
    destruct (publish_two_steps
      (λ now, probe a c t None DependencyCompleted now OSucceeded None (Some c))
      (λ now, probe a c t None WorkflowCompleted now OSucceeded None None)
      (mret x) w2 ltac:(apply Hgood) ltac:(apply Hgood)) as (t3 & t4 & w3 & H3 & S3).
    exists c, t, t1, t2, t3, t4, w1, (Ok x), w2, w3. split_and!; [done| |done|done].
    apply try_catch_ok. rewrite (M_bind_ok _ _ _ _ _ Htask). unfold K. by rewrite H3.
  - match goal with |- context [try_catch ?m ?h] => set (H := h) end.
    destruct (publish_two_steps
      (λ now, probe a c t (Some (failureKind e)) DependencyCompleted now (failureOutcome e)
                (error_operationId e) (Some c))
      (λ now, probe a c t (Some (failureKind e)) WorkflowCompleted now (failureOutcome e)
                (error_operationId e) None)
      (throw (A := T) e) w2 ltac:(apply Hgood) ltac:(apply Hgood)) as (t3 & t4 & w3 & H3 & S3).
    exists c, t, t1, t2, t3, t4, w1, (Err e), w2, w3. split_and!; [done| |done|done].
    rewrite (try_catch_err _ _ _ e w2); [|by apply M_bind_err].
    unfold H. by rewrite H3.
Qed.
End contract.

(** Ports that meet their contract, seen through the list of published probes. *)
Lemma ports_steps_ok {W} `{!ProbeLog W} (deps : GatewayOperationDependencies W) :
  runtime_ok (dep_runtime deps) → publisher_ok (dep_publish deps) →
  steps_ok deps (λ _, True) (λ ps w w', published w' = published w ++ ps).
Proof.
  intros Hrt Hpub. split.
  - intros ps qs w w' w'' H1 H2. by rewrite H2, H1, (assoc_L (++)).
  - intros w. destruct (ok_correlationId _ Hrt w) as (s & w' & H & L).
    exists s, w'. by rewrite app_nil_r.
  - intros w. destruct (ok_traceId _ Hrt w) as (s & w' & H & L). exists s, w'. by rewrite app_nil_r.
  - intros w. destruct (ok_now _ Hrt w) as (s & w' & H & L). exists s, w'. by rewrite app_nil_r.
  - intros p w _. apply Hpub.
Qed.

Lemma run_operation_execute {W T} (deps : GatewayOperationDependencies W)
    (c : GatewayCall T) sg :
  run_operation (createGatewayOperations deps) c sg =
  execute deps (call_action c) sg (run_controlPlane (dep_controlPlane deps) c).
Proof. by destruct c. Qed.

(** * Properties *)


(** A failed call is reported as cancelled exactly when an abort error was
    thrown or the error says so, as conflicted and denied exactly for those
    kinds, and as failed otherwise; the probe tells nothing of the error but its
    kind and its operation id. *)
Theorem failure_probes_classified (a : GatewayAction) (c t t1 t2 : jsstring) (e : thrown) :
  (failureOutcome e = OCancelled ↔
     isCancelled e = true ∨ ∃ g, e = ThrowGateway g ∧ ge_kind g = KCancelled) ∧
  (failureOutcome e = OConflicted ↔ ∃ g, e = ThrowGateway g ∧ ge_kind g = KConflict) ∧
  (failureOutcome e = ODenied ↔ ∃ g, e = ThrowGateway g ∧ ge_kind g = KDenied) ∧
  (failureOutcome e ≠ OStarted ∧ failureOutcome e ≠ OSucceeded) ∧
  (∀ e' (T : Type), failureKind e' = failureKind e → error_operationId e' = error_operationId e →
     end_probes (T := T) a c t t1 t2 (Err e') = end_probes (T := T) a c t t1 t2 (Err e)).
Proof.
  assert (Hg : ∀ g, isCancelled (ThrowGateway g) = false) by done.
  unfold failureOutcome. split_and!.
  - unfold failureKind. destruct (isCancelled e) eqn:E; [by split; auto|].
    destruct e as [|g| | |]; try (split; [done|by intros [?|(? & [=] & ?)]]).
    split; [intros H; right; exists g; by destruct (ge_kind g)|].
    intros [?|(? & [= <-] & ->)]; congruence.
  - unfold failureKind. destruct e as [|g| | |]; rewrite ?Hg;
      try (split; [by repeat case_match|by intros (? & [=] & ?)]).
    split; [intros H; exists g; by destruct (ge_kind g)|by intros (? & [= <-] & ->)].
  - unfold failureKind. destruct e as [|g| | |]; rewrite ?Hg;
      try (split; [by repeat case_match|by intros (? & [=] & ?)]).
    split; [intros H; exists g; by destruct (ge_kind g)|by intros (? & [= <-] & ->)].
  - by case_match.
  - by case_match.
  - intros e' T Hk Ho. unfold end_probes, failureOutcome. by rewrite Hk, Ho.
Qed.

(** * Concrete ports, for the witnesses *)

Module DemoPorts.

Definition world : Type := list GatewayProbe.

#[local] Instance world_log : ProbeLog world := λ w, w.

Definition runtime : GatewayWorkflowRuntime world := {|
  rt_createCorrelationId w := (Ok (js "c-1"), w);
  rt_createTraceId w := (Ok (js "t-1"), w);
  rt_now w := (Ok (js "2026-01-01T00:00:00.000Z"), w) |}.

(** A control plane whose every call is unavailable. *)
Definition down {W} : GatewayControlPlane W := {|
  cp_createServiceAccount _ _ _ := throw_unavailable;
  cp_deleteServiceAccount _ _ _ := throw_unavailable;
  cp_findGatewayPlacements _ _ := throw_unavailable;
  cp_getGatewayPlacement _ _ := throw_unavailable;
  cp_getGatewayPlacements _ _ := throw_unavailable;
  cp_getGateway _ _ := throw_unavailable;
  cp_getServiceAccount _ _ _ := throw_unavailable;
  cp_listGateways _ _ := throw_unavailable;
  cp_listServiceAccounts _ _ _ := throw_unavailable;
  cp_provisionGateway _ _ := throw_unavailable;
  cp_removeGateway _ _ := throw_unavailable;
  cp_renameGateway _ _ _ := throw_unavailable;
  cp_revokeServiceAccount _ _ _ := throw_unavailable |}.

Definition deps : GatewayOperationDependencies world := {|
  dep_controlPlane := down;
  dep_publish p w := (Ok tt, w ++ [p]);
  dep_runtime := runtime |}.


Example unavailable_call_is_observed_as_failed :
  match snd (run_operation (createGatewayOperations deps) (CallGetGateway (js "g")) None []) with
  | [p1; p2; p3; p4] => pb_outcome p3 = OFailed ∧ pb_failureKind p4 = Some KUnavailable
  | _ => False
  end.
Proof. vm_compute. done. Qed.
End DemoPorts.
