(* ===== verification/Observability.v ===== *)
(** The console's observability adapter
    ([adapters/observability/gateway-observability.ts]): bounded lists of recent
    probes and delivery failures, the product-health and performance sinks, and
    the publisher and workflow runtime handed to the use cases. *)
From S2P Require Export GatewayOperations.

Definition recentProbeLimit : nat := 100.
Definition recentFailureLimit : nat := 20.

(** [target.push(value)], then [splice] from the front down to [limit]. *)
Definition appendBounded {T} (target : list T) (value : T) (limit : nat) : list T :=
  let target' := target ++ [value] in
  if decide (limit < length target') then drop (length target' - limit) target'
  else target'.

(** The adapter's arrays and the publisher's private fields; [X] is the rest of
    the world: the performance timeline, the state of other sinks, the server. *)
Record ObsWorld (X : Type) := {
  ow_failures : list ProbeDeliveryFailure;
  ow_recent : list GatewayProbe;
  ow_health : ProbeDeliveryHealthSnapshot;
  ow_ext : X
}.
Arguments ow_failures {X}.
Arguments ow_recent {X}.
Arguments ow_health {X}.
Arguments ow_ext {X}.

#[export] Instance obs_lens X : Lens (ObsWorld X) ProbeDeliveryHealthSnapshot.
Proof.
  refine {| lens_get := ow_health;
            lens_put h w := {| ow_failures := ow_failures w; ow_recent := ow_recent w;
                               ow_health := h; ow_ext := ow_ext w |} |}; done.
Defined.

(** [performance]: a platform object the adapter only calls. *)
Record PerformanceProbeTarget (X : Type) := {
  perf_clearMarks : jsstring → M thrown (ObsWorld X) unit;
  perf_mark : jsstring → GatewayProbe → M thrown (ObsWorld X) unit
}.
Arguments perf_clearMarks {X}.
Arguments perf_mark {X}.

Section observability.
Context {X : Type}.
Abbreviation World := (ObsWorld X).
Abbreviation Sink := (DomainProbeSink thrown World GatewayProbe).

Record GatewayObservabilityOptions := {
  oo_additionalSinks : option (list Sink);
  oo_createCorrelationId : option (M thrown World jsstring);
  oo_createTraceId : option (M thrown World jsstring);
  oo_now : option (M thrown World jsstring);
  oo_performanceTarget : option (PerformanceProbeTarget X)
}.

Record GatewayObservability := {
  go_deliveryHealth : World → ProbeDeliveryHealthSnapshot;
  go_publish : GatewayProbe → M thrown World unit;
  go_recentDeliveryFailures : World → list ProbeDeliveryFailure;
  go_recentProbes : World → list GatewayProbe;
  go_reportDeliveryFailure : ProbeDeliveryFailure → M thrown World unit;
  go_runtime : GatewayWorkflowRuntime World
}.

Definition recentSink : Sink := {|
  sink_id := js "gateway-product-health";
  sink_publish value w :=
    (Ok tt, {| ow_failures := ow_failures w;
               ow_recent := appendBounded (ow_recent w) value recentProbeLimit;
               ow_health := ow_health w; ow_ext := ow_ext w |})
|}.

Definition performanceSink (target : PerformanceProbeTarget X) : Sink := {|
  sink_id := js "gateway-performance";
  sink_publish value :=
    perf_clearMarks target (probeName_str (pb_name value)) ≫= λ _,
    perf_mark target (probeName_str (pb_name value)) value
|}.

Definition failureReporter (failure : ProbeDeliveryFailure) : M thrown World unit := λ w,
  (Ok tt, {| ow_failures := appendBounded (ow_failures w) failure recentFailureLimit;
             ow_recent := ow_recent w; ow_health := ow_health w; ow_ext := ow_ext w |}).

Definition obs_sinks (additional : list Sink) (perf : Sink) : list Sink :=
  match additional with
  | [] => [recentSink; perf]
  | first :: remaining => recentSink :: first :: remaining ++ [perf]
  end.

(** The platform's defaults: [globalThis.performance], [crypto.randomUUID],
    the telemetry runtime's trace-id generator and the clock. *)
Record Platform := {
  pf_performance : PerformanceProbeTarget X;
  pf_randomUUID : M thrown World jsstring;
  pf_generateTraceId : M thrown World jsstring;
  pf_nowISO : M thrown World jsstring
}.

Definition createGatewayObservability (platform : Platform)
    (options : GatewayObservabilityOptions) : result thrown GatewayObservability :=
  let performanceTarget := default (pf_performance platform) (oo_performanceTarget options) in
  let additionalSinks := default [] (oo_additionalSinks options) in
  match newFanOut (ThrowError (js "TypeError")) failureReporter
          (obs_sinks additionalSinks (performanceSink performanceTarget)) with
  | Err e => Err e
  | Ok publisher => Ok {|
      go_deliveryHealth := healthSnapshot;
      go_publish := fanOut_publish publisher;
      go_recentDeliveryFailures := ow_failures;
      go_recentProbes := ow_recent;
      go_reportDeliveryFailure := reportDeliveryFailure publisher;
      go_runtime := {|
        rt_createCorrelationId :=
          default (pf_randomUUID platform) (oo_createCorrelationId options);
        rt_createTraceId := default (pf_generateTraceId platform) (oo_createTraceId options);
        rt_now := default (pf_nowISO platform) (oo_now options) |} |}
  end.

Definition initial_obs (x : X) : World := {|
  ow_failures := []; ow_recent := []; ow_health := initial_health; ow_ext := x |}.

(** * Lemmas *)

Lemma appendBounded_lastn {T} (l : list T) v n : appendBounded l v n = lastn n (l ++ [v]).
Proof.
  unfold appendBounded. case_decide; [done|]. symmetry. apply lastn_all. lia.
Qed.

(** The lists the adapter exposes agree with the publisher's counters: the
    reporter never fails, the failures kept are the most recent ones, the last
    of them is the publisher's last failure. *)
Definition obs_consistent (w : World) : Prop :=
  hs_diagnosticFailureCount (ow_health w) = 0%N ∧
  length (ow_failures w) =
    min recentFailureLimit (N.to_nat (hs_deliveryFailureCount (ow_health w))) ∧
  last (ow_failures w) = hs_lastFailure (ow_health w) ∧
  length (ow_recent w) ≤ recentProbeLimit.

Lemma initial_consistent x : obs_consistent (initial_obs x).
Proof. split_and!; done || (simpl; lia). Qed.

Definition preserves (I : World → Prop) (m : M thrown World unit) : Prop :=
  ∀ w r w', I w → m w = (r, w') → I w'.

Lemma last_lastn_snoc {T} n (l : list T) x : 0 < n → last (lastn n (l ++ [x])) = Some x.
Proof.
  intros. unfold lastn. rewrite length_app, drop_app_le by (simpl; lia). apply last_snoc.
Qed.

Lemma recordFailure_consistent (fo : FanOut thrown World GatewayProbe) f :
  fo_failureReporter fo = failureReporter → preserves obs_consistent (recordFailure fo f).
Proof.
  intros Hr w r w' (Hd & Hlen & Hlast & Hrec). unfold recordFailure. rewrite Hr.
  unfold mbind, M_bind, modify_health, try_catch, failureReporter; simpl.
  intros [= <- <-]. split_and!; cbn -[N.to_nat N.add Nat.min]; [done| | |done].
  - rewrite appendBounded_lastn, length_lastn, length_app; cbn [length].
    rewrite Hlen, N2Nat.inj_add. unfold recentFailureLimit. lia.
  - rewrite appendBounded_lastn. apply last_lastn_snoc; unfold recentFailureLimit; lia.
Qed.

Lemma recordFailure_recent (fo : FanOut thrown World GatewayProbe) f w r w' :
  fo_failureReporter fo = failureReporter →
  recordFailure fo f w = (r, w') → ow_recent w' = ow_recent w.
Proof.
  intros Hr. unfold recordFailure. rewrite Hr.
  unfold mbind, M_bind, modify_health, try_catch, failureReporter; simpl.
  by intros [= <- <-].
Qed.

Lemma recentSink_consistent p : preserves obs_consistent (sink_publish recentSink p).
Proof.
  intros w r w' (Hd & Hlen & Hlast & Hrec) [= <- <-]. split_and!; simpl; try done.
  rewrite appendBounded_lastn, length_lastn. lia.
Qed.

Section publisher.
Context (fo : FanOut thrown World GatewayProbe) (Hr : fo_failureReporter fo = failureReporter).

Lemma deliver_all_consistent p sinks :
  Forall (λ s, ∀ p, preserves obs_consistent (sink_publish s p)) sinks →
  preserves obs_consistent (deliver_all fo p sinks).
Proof using Hr.
  induction 1 as [|s sinks Hs _ IH]; intros w r w' Hw; simpl; [by intros [= <- <-]|].
  destruct (deliver_total fo p s w) as [w1 H1]. rewrite (M_bind_ok _ _ _ _ _ H1).
  apply IH. revert H1. unfold deliver, try_catch.
  destruct (sink_publish s p w) as [[u|e] w2] eqn:E; intros H1.
  - inversion H1; subst. by eapply Hs.
  - eapply recordFailure_consistent; [done| |done]. by eapply Hs.
Qed.

(** Sinks other than the product-health sink, which leave its array alone. *)
Definition leaves_recent (s : Sink) : Prop :=
  ∀ p w r w', sink_publish s p w = (r, w') → ow_recent w' = ow_recent w.

Lemma deliver_recent p s w w' :
  leaves_recent s → deliver fo p s w = (Ok tt, w') → ow_recent w' = ow_recent w.
Proof using Hr.
  intros Hs. unfold deliver, try_catch.
  destruct (sink_publish s p w) as [[u|e] w2] eqn:E; intros H1; simplify_eq.
  - by eapply Hs.
  - rewrite <- (Hs _ _ _ _ E). by eapply recordFailure_recent.
Qed.

Lemma deliver_all_recent p sinks w w' :
  Forall leaves_recent sinks → deliver_all fo p sinks w = (Ok tt, w') →
  ow_recent w' = ow_recent w.
Proof using Hr.
  intros Hs. revert w. induction Hs as [|s sinks Hs _ IH]; intros w; simpl; [by intros [= <-]|].
  destruct (deliver_total fo p s w) as [w1 H1]. rewrite (M_bind_ok _ _ _ _ _ H1).
  intros H2. rewrite (IH _ H2). by eapply deliver_recent.
Qed.

Lemma publish_recent others p w : 
  fo_sinks fo = recentSink :: others → Forall leaves_recent others →
  ∃ w', fanOut_publish fo p w = (Ok tt, w') ∧
    ow_recent w' = lastn recentProbeLimit (ow_recent w ++ [p]).
Proof using Hr.
  intros Hs Ho. unfold fanOut_publish. rewrite Hs; simpl.
  set (w1 := {| ow_failures := ow_failures w;
                ow_recent := appendBounded (ow_recent w) p recentProbeLimit;
                ow_health := ow_health w; ow_ext := ow_ext w |}).
  rewrite (M_bind_ok _ _ w tt w1) by done.
  destruct (deliver_all_total fo p others w1) as [w2 H2]. exists w2. split; [done|].
  rewrite (deliver_all_recent _ _ _ _ Ho H2). apply appendBounded_lastn.
Qed.
End publisher.

(** Publish a sequence of probes, one after the other. *)
Fixpoint publish_seq (pub : GatewayProbe → M thrown World unit) (ps : list GatewayProbe) :
    M thrown World unit :=
  match ps with
  | [] => mret tt
  | p :: ps' => pub p ≫= λ _, publish_seq pub ps'
  end.

Lemma obs_sinks_eq additional perf :
  obs_sinks additional perf = recentSink :: additional ++ [perf].
Proof. by destruct additional. Qed.

(** The publisher inside a successfully built adapter. *)
Lemma createGatewayObservability_inv platform options obs :
  createGatewayObservability platform options = Ok obs →
  ∃ fo, go_publish obs = fanOut_publish fo ∧
    go_reportDeliveryFailure obs = reportDeliveryFailure fo ∧
    go_recentProbes obs = ow_recent ∧
    fo_failureReporter fo = failureReporter ∧
    fo_sinks fo = recentSink :: default [] (oo_additionalSinks options) ++
      [performanceSink (default (pf_performance platform) (oo_performanceTarget options))].
Proof.
  unfold createGatewayObservability. rewrite newFanOut_spec. case_decide; [|done].
  intros [= <-]. eexists; split_and!; try done. simpl. apply obs_sinks_eq.
Qed.
Lemma publish_seq_recent (fo : FanOut thrown World GatewayProbe) others ps w :
  fo_failureReporter fo = failureReporter →
  fo_sinks fo = recentSink :: others → Forall leaves_recent others →
  length (ow_recent w) ≤ recentProbeLimit →
  ∃ w', publish_seq (fanOut_publish fo) ps w = (Ok tt, w') ∧
    ow_recent w' = lastn recentProbeLimit (ow_recent w ++ ps).
Proof.
  intros Hr Hs Ho. revert w. induction ps as [|p ps IH]; intros w Hw; simpl.
  { exists w. by rewrite app_nil_r, lastn_all. }
  destruct (publish_recent fo Hr others p w Hs Ho) as (w1 & H1 & L1).
  rewrite (M_bind_ok _ _ _ _ _ H1). destruct (IH w1) as (w2 & H2 & L2).
  { rewrite L1, length_lastn. lia. }
  exists w2. split; [done|].
  rewrite L2, L1, lastn_lastn_app, <- (assoc_L (++)); [done|unfold recentProbeLimit; lia].
Qed.

Lemma publish_consistent (fo : FanOut thrown World GatewayProbe) others p :
  fo_failureReporter fo = failureReporter →
  fo_sinks fo = recentSink :: others →
  Forall (λ s, ∀ q, preserves obs_consistent (sink_publish s q)) others →
  preserves obs_consistent (fanOut_publish fo p).
Proof.
  intros Hr Hs Ho. unfold fanOut_publish. rewrite Hs. apply deliver_all_consistent; [done|].
  constructor; [apply recentSink_consistent|done].
Qed.
End observability.

Arguments GatewayObservability : clear implicits.
Arguments GatewayObservabilityOptions : clear implicits.
Arguments Platform : clear implicits.

(** * Properties *)

(** When the additional sinks and the performance timeline leave the
    adapter's array of recent probes alone, publishing any sequence of probes,
    whether or not sinks throw, keeps exactly the last hundred of what was kept
    and published, in order. *)
Theorem recent_probes_are_the_last_hundred {X} (platform : Platform X)
    (options : GatewayObservabilityOptions X) (obs : GatewayObservability X)
    (ps : list GatewayProbe) (w : ObsWorld X) :
  createGatewayObservability platform options = Ok obs →
  Forall leaves_recent (default [] (oo_additionalSinks options)) →
  leaves_recent
    (performanceSink (default (pf_performance platform) (oo_performanceTarget options))) →
  length (ow_recent w) ≤ recentProbeLimit →
  ∃ w', publish_seq (go_publish obs) ps w = (Ok tt, w') ∧
    go_recentProbes obs w' = lastn recentProbeLimit (ow_recent w ++ ps).
Proof.
  intros Hobs Ha Hp Hw.
  destruct (createGatewayObservability_inv _ _ _ Hobs) as (fo & Hpub & _ & Hrec & Hr & Hs).
  rewrite Hpub, Hrec. eapply publish_seq_recent; [done|done| |done].
  apply Forall_app; auto.
Qed.

(** Publishing and reporting a delivery failure keep the adapter's view
    consistent: at most a hundred recent probes; the kept failures are the
    publisher's count capped at twenty, the last of them is the publisher's last
    failure, and the reporter itself never fails, so no diagnostic failure is
    ever counted. Additional sinks may report failures of their own meanwhile. *)
Theorem observability_stays_consistent {X} (platform : Platform X)
    (options : GatewayObservabilityOptions X) (obs : GatewayObservability X)
    (p : GatewayProbe) (f : ProbeDeliveryFailure) :
  createGatewayObservability platform options = Ok obs →
  Forall (λ s, ∀ q, preserves obs_consistent (sink_publish s q))
    (default [] (oo_additionalSinks options)) →
  (∀ q, preserves obs_consistent (sink_publish
     (performanceSink (default (pf_performance platform) (oo_performanceTarget options))) q)) →
  preserves obs_consistent (go_publish obs p) ∧
  preserves obs_consistent (go_reportDeliveryFailure obs f).
Proof.
  intros Hobs Ha Hp.
  destruct (createGatewayObservability_inv _ _ _ Hobs) as (fo & Hpub & Hrep & _ & Hr & Hs).
  rewrite Hpub, Hrep. split; [|by apply recordFailure_consistent].
  eapply publish_consistent; [done|done|]. apply Forall_app; auto.
Qed.

(** Building the adapter fails exactly when a sink identifier is blank or
    repeated, among the additional sinks and the two built-in ones. *)
Theorem createGatewayObservability_rejects {X} (platform : Platform X)
    (options : GatewayObservabilityOptions X) :
  let ids := map sink_id (default [] (oo_additionalSinks options)) in
  is_ok (createGatewayObservability platform options) ↔
    Forall (λ i, trim i ≠ []) ids ∧
    NoDup (js "gateway-product-health" :: ids ++ [js "gateway-performance"]).
Proof.
  intros ids. unfold createGatewayObservability.
  rewrite (obs_sinks_eq (default [] (oo_additionalSinks options))).
  set (perf := performanceSink _).
  assert (Hids : map sink_id (recentSink :: default [] (oo_additionalSinks options) ++ [perf]) =
                 js "gateway-product-health" :: ids ++ [js "gateway-performance"])
    by (simpl; by rewrite map_app).
  rewrite <- Hids, newFanOut_spec, Hids. case_decide as H; simpl.
  - split; [intros _|done]. destruct H as (_ & H & Hd). split; [|done].
    apply Forall_cons in H as [_ H]. by apply Forall_app in H as [H _].
  - split; [done|]. intros [Hf Hd]. destruct H. split_and!; [| |done].
    + simpl. rewrite length_app; simpl. lia.
    + constructor; [done|]. apply Forall_app. by split; [|repeat constructor].
Qed.

(** * A concrete platform, for the witnesses *)

Module DemoPlatform.

(** The timeline throws on every mark, as it does when its buffer is full; the
    rest of the world is a log an additional sink writes. *)
Definition X : Type := list GatewayProbe.

Definition performance : PerformanceProbeTarget X := {|
  perf_clearMarks _ := mret tt;
  perf_mark _ _ := throw (ThrowError (js "QuotaExceededError")) |}.

Definition platform : Platform X := {|
  pf_performance := performance;
  pf_randomUUID := mret (js "00000000-0000-4000-8000-000000000000");
  pf_generateTraceId := mret (js "0af7651916cd43dd8448eb211c80319c");
  pf_nowISO := mret (js "2026-01-01T00:00:00.000Z") |}.

Definition logSink : DomainProbeSink thrown (ObsWorld X) GatewayProbe := {|
  sink_id := js "log";
  sink_publish p w :=
    (Ok tt, {| ow_failures := ow_failures w; ow_recent := ow_recent w;
               ow_health := ow_health w; ow_ext := ow_ext w ++ [p] |}) |}.

Definition options : GatewayObservabilityOptions X := {|
  oo_additionalSinks := Some [logSink]; oo_createCorrelationId := None;
  oo_createTraceId := None; oo_now := None; oo_performanceTarget := None |}.

Definition a_probe : GatewayProbe :=
  probe AList (js "c") (js "t") None WorkflowStarted (js "now") OStarted None None.

Lemma performance_throws p w :
  sink_publish (performanceSink performance) p w =
  (Err (ThrowError (js "QuotaExceededError")), w).
Proof. done. Qed.

Lemma recent_probes_are_the_last_hundred_witness : ∃ (obs : GatewayObservability X) w',
  publish_seq (go_publish obs) (repeat a_probe 101) (initial_obs ([] : X)) = (Ok tt, w') ∧
  go_recentProbes obs w' = lastn recentProbeLimit (repeat a_probe 101).
Proof.
  destruct (createGatewayObservability platform options) as [obs|] eqn:E; [|done].
  exists obs.
  refine (recent_probes_are_the_last_hundred platform options obs (repeat a_probe 101)
            (initial_obs ([] : X)) E _ _ _).
  - repeat constructor. by intros p w r w' [= <- <-].
  - intros p w r w'. by intros [= <- <-].
  - simpl; lia.
Defined.

Lemma observability_stays_consistent_witness : ∃ obs : GatewayObservability X,
  preserves obs_consistent (go_publish obs a_probe) ∧
  preserves obs_consistent (go_reportDeliveryFailure obs {|
    df_errorType := js "ExportError"; df_probeName := js "span";
    df_schemaVersion := NInt 1; df_sinkId := js "gateway-trace" |}).
Proof.
  destruct (createGatewayObservability platform options) as [obs|] eqn:E; [|done].
  exists obs.
  refine (observability_stays_consistent platform options obs _ _ E _ _).
  - apply Forall_singleton. intros q w r w' H [= <- <-]. exact H.
  - intros q w r w' H [= <- <-]. exact H.
Defined.

(** The publisher of the adapter meets the contract the use cases rely on,
    although the timeline throws every time. *)
#[local] Instance world_log : ProbeLog (ObsWorld X) := ow_ext.

Lemma adapter_publisher_ok obs :
  createGatewayObservability platform options = Ok obs →
  publisher_ok (go_publish obs) ∧ runtime_ok (go_runtime obs).
Proof.
  intros [= <-]. split; [intros p w; by eexists|]. split; intros w; by eexists _, w.
Qed.
End DemoPlatform.
