(* ===== verification/TraceSink.v ===== *)
(** The trace sink ([adapters/observability/gateway-trace-sink.ts]): gateway
    probes projected onto OpenTelemetry spans, the [traceparent] of the span in
    flight, and the sink that couples the projection with logs and a counter.

    The OpenTelemetry API is not part of the repository: it is the record
    [Otel], and its documented behaviour the hypothesis [otel_ok]. *)
From S2P Require Export GatewayOperations.

Inductive SpanKind := INTERNAL | CLIENT.
Inductive SpanStatusCode := STATUS_OK | STATUS_ERROR.

Record SpanContext := {
  sctx_traceId : jsstring;
  sctx_spanId : jsstring;
  sctx_traceFlags : N;
  sctx_traceState : option jsstring
}.

#[export] Instance SpanContext_eq_dec : EqDecision SpanContext.
Proof. solve_decision. Defined.

Record GatewayTraceContext := {
  tc_traceparent : jsstring;
  tc_tracestate : option jsstring
}.

(** The API the sink calls, over spans [Sp] and contexts [Ctx]. *)
Record Otel (W Sp Ctx : Type) := {
  ot_startSpan : jsstring → list (jsstring * jsstring) → SpanKind → Ctx → M thrown W Sp;
  ot_setAttribute : Sp → jsstring → jsstring → M thrown W unit;
  ot_setStatus : Sp → SpanStatusCode → M thrown W unit;
  ot_end : Sp → M thrown W unit;
  ot_spanContext : W → Sp → SpanContext;
  ot_active : W → Ctx;
  ot_ROOT_CONTEXT : Ctx;
  ot_setSpan : Ctx → Sp → Ctx;
  ot_setSpanContext : Ctx → SpanContext → Ctx;
  ot_isSpanContextValid : SpanContext → bool
}.
Arguments ot_startSpan {W Sp Ctx}.
Arguments ot_setAttribute {W Sp Ctx}.
Arguments ot_setStatus {W Sp Ctx}.
Arguments ot_end {W Sp Ctx}.
Arguments ot_spanContext {W Sp Ctx}.
Arguments ot_active {W Sp Ctx}.
Arguments ot_ROOT_CONTEXT {W Sp Ctx}.
Arguments ot_setSpan {W Sp Ctx}.
Arguments ot_setSpanContext {W Sp Ctx}.
Arguments ot_isSpanContextValid {W Sp Ctx}.

Definition trace_sinkId : jsstring := js "gateway-trace".

Record SpanEntry (Sp : Type) := { se_workflow : Sp; se_dependency : option Sp }.
Arguments se_workflow {Sp}.
Arguments se_dependency {Sp}.

(** The map [spansByCorrelation]. *)
Abbreviation SpanMap Sp := (gmap jsstring (SpanEntry Sp)).

Definition isFailureOutcome (o : GatewayProbeOutcome) : bool :=
  match o with OStarted | OSucceeded => false | _ => true end.

Section sink.
Context {W Sp Ctx : Type} `{!Lens W (SpanMap Sp)} (otel : Otel W Sp Ctx).

Definition get_spans : M thrown W (SpanMap Sp) := λ w, (Ok (lens_get w), w).
Definition put_spans (m : SpanMap Sp) : M thrown W unit := λ w, (Ok tt, lens_put m w).
Definition active : M thrown W Ctx := λ w, (Ok (ot_active otel w), w).
Definition when_some {A} (o : option A) (f : A → M thrown W unit) : M thrown W unit :=
  match o with Some a => f a | None => mret tt end.

Definition applyTerminalOutcome (span : Sp) (p : GatewayProbe) : M thrown W unit :=
  ot_setAttribute otel span (js "gateway.outcome") (outcome_str (pb_outcome p)) ≫= λ _,
  when_some (pb_failureKind p) (λ k,
    ot_setAttribute otel span (js "gateway.failure_kind") (failureKind_str k)) ≫= λ _,
  when_some (pb_operationId p) (ot_setAttribute otel span (js "hypershell.operation_id"))
    ≫= λ _,
  ot_setStatus otel span (if isFailureOutcome (pb_outcome p) then STATUS_ERROR else STATUS_OK).

Definition action_attributes (p : GatewayProbe) : list (jsstring * jsstring) :=
  [(js "gateway.action", action_str (pb_action p))].

Context (beginTrace : jsstring → M thrown W unit).

Definition startWorkflow (p : GatewayProbe) : M thrown W unit :=
  active ≫= λ ambient,
  match pb_traceId p with
  | Some traceId => beginTrace traceId ≫= λ _, mret (ot_ROOT_CONTEXT otel)
  | None => mret ambient
  end ≫= λ parent,
  ot_startSpan otel (js "gateway.workflow." ++ action_str (pb_action p))
    (action_attributes p) INTERNAL parent ≫= λ workflow,
  get_spans ≫= λ m,
  put_spans (<[pb_correlationId p := {| se_workflow := workflow; se_dependency := None |}]> m).

(** [entry.dependency = d] on the object the map holds for the correlation id. *)
Definition set_dependency (c : jsstring) (entry : SpanEntry Sp) (d : option Sp) :
    M thrown W unit :=
  get_spans ≫= λ m,
  put_spans (<[c := {| se_workflow := se_workflow entry; se_dependency := d |}]> m).

Definition startDependency (p : GatewayProbe) : M thrown W unit :=
  get_spans ≫= λ m,
  when_some (m !! pb_correlationId p) (λ entry,
    active ≫= λ ambient,
    let parent := ot_setSpan otel ambient (se_workflow entry) in
    ot_startSpan otel (js "gateway.dependency." ++ action_str (pb_action p))
      (action_attributes p) CLIENT parent ≫= λ dependency,
    set_dependency (pb_correlationId p) entry (Some dependency)).

Definition completeDependency (p : GatewayProbe) : M thrown W unit :=
  get_spans ≫= λ m,
  when_some (m !! pb_correlationId p) (λ entry,
    when_some (se_dependency entry) (λ dependency,
      applyTerminalOutcome dependency p ≫= λ _,
      ot_end otel dependency ≫= λ _,
      set_dependency (pb_correlationId p) entry None)).

Definition completeWorkflow (p : GatewayProbe) : M thrown W unit :=
  get_spans ≫= λ m,
  when_some (m !! pb_correlationId p) (λ entry,
    when_some (se_dependency entry) (ot_end otel) ≫= λ _,
    applyTerminalOutcome (se_workflow entry) p ≫= λ _,
    ot_end otel (se_workflow entry) ≫= λ _,
    get_spans ≫= λ m',
    put_spans (delete (pb_correlationId p) m')).

Definition trace_publish (p : GatewayProbe) : M thrown W unit :=
  match pb_name p with
  | WorkflowStarted => startWorkflow p
  | DependencyAttempted => startDependency p
  | DependencyCompleted => completeDependency p
  | WorkflowCompleted => completeWorkflow p
  end.

(** [traceFlags & TraceFlags.SAMPLED] is zero. *)
Definition flags_str (flags : N) : jsstring :=
  if (N.land flags 1 =? 0)%N then js "00" else js "01".

Definition render_traceparent (sc : SpanContext) : jsstring :=
  js "00-" ++ sctx_traceId sc ++ js "-" ++ sctx_spanId sc ++ js "-" ++
  flags_str (sctx_traceFlags sc).

Definition active_span (m : SpanMap Sp) (correlationId : jsstring) : option Sp :=
  match m !! correlationId with
  | Some entry => Some (default (se_workflow entry) (se_dependency entry))
  | None => None
  end.

Definition traceParentFor (w : W) (correlationId : jsstring) : option GatewayTraceContext :=
  match active_span (lens_get w) correlationId with
  | None => None
  | Some span =>
      let sc := ot_spanContext otel w span in
      if ot_isSpanContextValid otel sc then
        Some {| tc_traceparent := render_traceparent sc;
                tc_tracestate := match sctx_traceState sc with
                                 | None | Some [] => None
                                 | Some s => Some s
                                 end |}
      else None
  end.

Definition createGatewayTraceSink : DomainProbeSink thrown W GatewayProbe := {|
  sink_id := trace_sinkId;
  sink_publish := trace_publish |}.
End sink.

(** * Coupling with logs and metrics: [createGatewayTracing] *)

(** The telemetry runtime's logger and counter. *)
Record Telemetry (W Ctx : Type) := {
  tm_emit : jsstring → N → list (jsstring * jsstring) → Ctx → M thrown W unit;
  tm_add : N → list (jsstring * jsstring) → Ctx → M thrown W unit;
  tm_beginTrace : jsstring → M thrown W unit
}.
Arguments tm_emit {W Ctx}.
Arguments tm_add {W Ctx}.
Arguments tm_beginTrace {W Ctx}.

(** [s.slice(a, b)] for [0 <= a <= b]. *)
Definition slice (a b : nat) (s : jsstring) : jsstring := take (b - a) (drop a s).

Definition endsWith (s suffix : jsstring) : bool :=
  bool_decide (suffix `suffix_of` s).

(** The span context the log record is attached to. *)
Definition log_span_context (parent : jsstring) : SpanContext := {|
  sctx_traceId := slice 3 35 parent;
  sctx_spanId := slice 36 52 parent;
  sctx_traceFlags := if endsWith parent (js "-01") then 1 else 0;
  sctx_traceState := None |}.

Definition starts (p : GatewayProbe) : bool :=
  match pb_name p with WorkflowStarted | DependencyAttempted => true | _ => false end.

Definition probe_attributes (p : GatewayProbe) : list (jsstring * jsstring) :=
  [(js "gateway.action", action_str (pb_action p));
   (js "gateway.outcome", outcome_str (pb_outcome p));
   (js "gateway.probe", probeName_str (pb_name p))].

Section tracing.
Context {W Sp Ctx : Type} `{!Lens W (SpanMap Sp)} (otel : Otel W Sp Ctx)
  (telemetry : Telemetry W Ctx).

Definition log_context (w : W) (p : GatewayProbe) : Ctx :=
  match traceParentFor otel w (pb_correlationId p) with
  | None => ot_ROOT_CONTEXT otel
  | Some tc => ot_setSpanContext otel (ot_ROOT_CONTEXT otel)
                 (log_span_context (tc_traceparent tc))
  end.

Definition tracing_publish (p : GatewayProbe) : M thrown W unit :=
  let project := trace_publish otel (tm_beginTrace telemetry) p in
  (if starts p then project else mret tt) ≫= λ _,
  (λ w, (Ok (log_context w p), w)) ≫= λ ctx,
  tm_emit telemetry (probeName_str (pb_name p))
    (if isFailureOutcome (pb_outcome p) then 17%N else 9%N) (probe_attributes p) ctx ≫= λ _,
  tm_add telemetry 1%N (probe_attributes p) ctx ≫= λ _,
  (if starts p then mret tt else project).

Definition createGatewayTracing : DomainProbeSink thrown W GatewayProbe := {|
  sink_id := trace_sinkId;
  sink_publish := tracing_publish |}.
End tracing.

(** The failure a lost export is reported as. *)
Definition export_failure (reason signal : jsstring) : ProbeDeliveryFailure := {|
  df_errorType := reason;
  df_probeName := js "browser." ++ signal ++ js ".export";
  df_schemaVersion := NInt 0;
  df_sinkId := trace_sinkId |}.

(** * The trace as a log of API calls *)

Inductive TraceEvent (Sp Ctx : Type) :=
| EvStart (s : Sp) (name : jsstring) (attributes : list (jsstring * jsstring))
    (kind : SpanKind) (parent : Ctx)
| EvAttribute (s : Sp) (k v : jsstring)
| EvStatus (s : Sp) (c : SpanStatusCode)
| EvEnd (s : Sp).
Arguments EvStart {Sp Ctx}.
Arguments EvAttribute {Sp Ctx}.
Arguments EvStatus {Sp Ctx}.
Arguments EvEnd {Sp Ctx}.

Section trace_log.
Context {Sp Ctx : Type} `{!EqDecision Sp}.

Definition started (l : list (TraceEvent Sp Ctx)) : list Sp :=
  omap (λ e, match e with EvStart s _ _ _ _ => Some s | _ => None end) l.

Definition ended (l : list (TraceEvent Sp Ctx)) : list Sp :=
  omap (λ e, match e with EvEnd s => Some s | _ => None end) l.

(** Started and not ended. *)
Definition live (l : list (TraceEvent Sp Ctx)) (s : Sp) : Prop :=
  s ∈ started l ∧ s ∉ ended l.

(** A span is started once, used only while live, and ended at most once. *)
Inductive trace_wf : list (TraceEvent Sp Ctx) → Prop :=
| wf_nil : trace_wf []
| wf_start l s n a k c : trace_wf l → s ∉ started l → trace_wf (l ++ [EvStart s n a k c])
| wf_attribute l s k v : trace_wf l → live l s → trace_wf (l ++ [EvAttribute s k v])
| wf_status l s c : trace_wf l → live l s → trace_wf (l ++ [EvStatus s c])
| wf_end l s : trace_wf l → live l s → trace_wf (l ++ [EvEnd s]).

Lemma started_app l k : started (l ++ k) = started l ++ started k.
Proof. apply omap_app. Qed.

Lemma ended_app l k : ended (l ++ k) = ended l ++ ended k.
Proof. apply omap_app. Qed.

Lemma trace_wf_once l : trace_wf l → NoDup (started l) ∧ NoDup (ended l) ∧ ended l ⊆ started l.
Proof.
  induction 1 as [|l s n a k c _ (IH1 & IH2 & IH3) Hs
    |l s k v _ (IH1 & IH2 & IH3) Hl|l s c _ (IH1 & IH2 & IH3) Hl
    |l s _ (IH1 & IH2 & IH3) [Hl1 Hl2]];
    rewrite ?started_app, ?ended_app; simpl; rewrite ?app_nil_r;
    [by split_and!; try constructor| |done|done|].
  - split_and!; [|done|set_solver]. apply NoDup_app. split_and!; [done|set_solver|].
    apply NoDup_singleton.
  - split_and!; [done| |set_solver]. apply NoDup_app. split_and!; [done|set_solver|].
    apply NoDup_singleton.
Qed.
End trace_log.

(** * The contract of the OpenTelemetry API *)

Definition is_lower_hex (c : N) : bool :=
  ((48 <=? c) && (c <=? 57) || (97 <=? c) && (c <=? 102))%N.

(** [n] lower-case hexadecimal digits, not all zero. *)
Definition hex_id (n : nat) (s : jsstring) : Prop :=
  length s = n ∧ forallb is_lower_hex s = true ∧ s ≠ repeat 48%N n.

(** The probe's trace id, if any, is one the runtime accepts. *)
Definition traceable (p : GatewayProbe) : Prop :=
  ∀ t, pb_traceId p = Some t → hex_id 32 t.

(** A span's context never changes; the span is part of the trace [t]. *)
Definition belongs {W Sp Ctx : Type} (otel : Otel W Sp Ctx) (s : Sp) (t : jsstring) : Prop :=
  ∀ w, sctx_traceId (ot_spanContext otel w s) = t.

(** Calls are recorded in order, do not throw, and leave the sink's map alone; a
    started span is a new one. A root that is started right after a trace id was primed
    is part of that trace, and a child is part of its parent's. Only a well-formed trace
    id can be primed: the runtime throws a [TypeError] for any other. *)
Record otel_calls_ok {W Sp Ctx : Type} `{!Lens W (SpanMap Sp)} (tlog : W → list (TraceEvent Sp Ctx))
    (otel : Otel W Sp Ctx) : Prop := {
  ok_startSpan w n a k c : ∃ s w', ot_startSpan otel n a k c w = (Ok s, w') ∧
    (s ∉ started (tlog w)) ∧ tlog w' = tlog w ++ [EvStart s n a k c] ∧
    lens_get (S := SpanMap Sp) w' = lens_get w;
  ok_setAttribute w s k v : ∃ w', ot_setAttribute otel s k v w = (Ok tt, w') ∧
    tlog w' = tlog w ++ [EvAttribute s k v] ∧ lens_get (S := SpanMap Sp) w' = lens_get w;
  ok_setStatus w s c : ∃ w', ot_setStatus otel s c w = (Ok tt, w') ∧
    tlog w' = tlog w ++ [EvStatus s c] ∧ lens_get (S := SpanMap Sp) w' = lens_get w;
  ok_end w s : ∃ w', ot_end otel s w = (Ok tt, w') ∧
    tlog w' = tlog w ++ [EvEnd s] ∧ lens_get (S := SpanMap Sp) w' = lens_get w;
  ok_child w n a k ambient s d w' t : belongs otel s t →
    ot_startSpan otel n a k (ot_setSpan otel ambient s) w = (Ok d, w') → belongs otel d t;
  ok_put (m : SpanMap Sp) w : tlog (lens_put m w) = tlog w
}.

Record otel_ok {W Sp Ctx : Type} `{!Lens W (SpanMap Sp)} (tlog : W → list (TraceEvent Sp Ctx))
    (otel : Otel W Sp Ctx) (beginTrace : jsstring → M thrown W unit) : Prop := {
  ok_calls :> otel_calls_ok tlog otel;
  ok_begin w t : hex_id 32 t → ∃ w', beginTrace t w = (Ok tt, w') ∧
    tlog w' = tlog w ∧ lens_get (S := SpanMap Sp) w' = lens_get w;
  ok_root w t w1 n a k s w2 : hex_id 32 t → beginTrace t w = (Ok tt, w1) →
    ot_startSpan otel n a k (ot_ROOT_CONTEXT otel) w1 = (Ok s, w2) → belongs otel s t
}.

Section events.
Context {W Sp Ctx : Type} `{!Lens W (SpanMap Sp)} (tlog : W → list (TraceEvent Sp Ctx))
  (otel : Otel W Sp Ctx) (beginTrace : jsstring → M thrown W unit)
  (Hok : otel_ok tlog otel beginTrace).

(** [m] returns, appends [evs] to the log and leaves the map alone. *)
Definition does (m : M thrown W unit) (evs : list (TraceEvent Sp Ctx)) : Prop :=
  ∀ w, ∃ w', m w = (Ok tt, w') ∧ tlog w' = tlog w ++ evs ∧
    lens_get (S := SpanMap Sp) w' = lens_get w.

Lemma does_bind m1 m2 e1 e2 :
  does m1 e1 → does m2 e2 → does (m1 ≫= λ _, m2) (e1 ++ e2).
Proof.
  intros H1 H2 w. destruct (H1 w) as (w1 & E1 & L1 & G1).
  destruct (H2 w1) as (w2 & E2 & L2 & G2). exists w2.
  rewrite (M_bind_ok _ _ _ _ _ E1), E2, L2, L1, G2, G1. by rewrite (assoc_L (++)).
Qed.

Lemma does_ret : does (mret tt) [].
Proof. intros w. exists w. by rewrite app_nil_r. Qed.

Lemma does_when_some {A} (o : option A) f (ev : A → TraceEvent Sp Ctx) :
  (∀ a, does (f a) [ev a]) → does (when_some o f) (option_list (ev <$> o)).
Proof. intros H. destruct o; [apply H|apply does_ret]. Qed.

Definition outcome_events (s : Sp) (p : GatewayProbe) : list (TraceEvent Sp Ctx) :=
  [EvAttribute s (js "gateway.outcome") (outcome_str (pb_outcome p))] ++
  option_list ((λ k, EvAttribute s (js "gateway.failure_kind") (failureKind_str k)) <$>
    (pb_failureKind p)) ++
  option_list (EvAttribute s (js "hypershell.operation_id") <$> pb_operationId p) ++
  [EvStatus s (if isFailureOutcome (pb_outcome p) then STATUS_ERROR else STATUS_OK)].

Lemma applyTerminalOutcome_does s p :
  does (applyTerminalOutcome otel s p) (outcome_events s p).
Proof using Hok.
  repeat apply does_bind; try apply does_when_some; intros; intros w;
    apply Hok.
Qed.

Definition workflow_start_event (s : Sp) (p : GatewayProbe) (parent : Ctx) :=
  EvStart s (js "gateway.workflow." ++ action_str (pb_action p)) (action_attributes p)
    INTERNAL parent.

Definition dependency_start_event (s : Sp) (p : GatewayProbe) (parent : Ctx) :=
  EvStart s (js "gateway.dependency." ++ action_str (pb_action p)) (action_attributes p)
    CLIENT parent.

(** What a probe does to the log [l] and the map [m], in an ambient context. *)
Inductive trace_step (p : GatewayProbe) (l : list (TraceEvent Sp Ctx)) (m : SpanMap Sp) :
    list (TraceEvent Sp Ctx) → SpanMap Sp → Prop :=
| ts_workflow s parent :
    pb_name p = WorkflowStarted →
    s ∉ started l → (is_Some (pb_traceId p) → parent = ot_ROOT_CONTEXT otel) →
    (∀ t, pb_traceId p = Some t → belongs otel s t) →
    trace_step p l m (l ++ [workflow_start_event s p parent])
      (<[pb_correlationId p := {| se_workflow := s; se_dependency := None |}]> m)
| ts_ignored : m !! pb_correlationId p = None → pb_name p ≠ WorkflowStarted →
    trace_step p l m l m
| ts_dependency e s ambient :
    pb_name p = DependencyAttempted → m !! pb_correlationId p = Some e → s ∉ started l →
    (∀ t, belongs otel (se_workflow e) t → belongs otel s t) →
    trace_step p l m
      (l ++ [dependency_start_event s p (ot_setSpan otel ambient (se_workflow e))])
      (<[pb_correlationId p :=
          {| se_workflow := se_workflow e; se_dependency := Some s |}]> m)
| ts_no_dependency e :
    pb_name p = DependencyCompleted → m !! pb_correlationId p = Some e →
    se_dependency e = None → trace_step p l m l m
| ts_dependency_done e d :
    pb_name p = DependencyCompleted → m !! pb_correlationId p = Some e →
    se_dependency e = Some d →
    trace_step p l m (l ++ outcome_events d p ++ [EvEnd d])
      (<[pb_correlationId p := {| se_workflow := se_workflow e; se_dependency := None |}]> m)
| ts_workflow_done e :
    pb_name p = WorkflowCompleted → m !! pb_correlationId p = Some e →
    trace_step p l m
      (l ++ option_list (EvEnd <$> se_dependency e) ++ outcome_events (se_workflow e) p ++
         [EvEnd (se_workflow e)])
      (delete (pb_correlationId p) m).

Lemma put_then_get (m : SpanMap Sp) w :
  tlog (lens_put m w) = tlog w ∧ lens_get (lens_put m w) = m.
Proof using Hok. split; [apply Hok|apply lens_get_put]. Qed.

(** Run [m], which does [evs], then replace the map. *)
Lemma does_then_put (m : M thrown W unit) (evs : list (TraceEvent Sp Ctx)) (f : SpanMap Sp → SpanMap Sp) (w : W) :
  does m evs → ∃ w', (m ≫= λ _, get_spans ≫= λ x, put_spans (f x)) w = (Ok tt, w') ∧
    tlog w' = tlog w ++ evs ∧ lens_get w' = f (lens_get w).
Proof using Hok.
  intros Hm. destruct (Hm w) as (w1 & H1 & L1 & G1).
  rewrite (M_bind_ok _ _ _ _ _ H1). unfold mbind, M_bind, get_spans, put_spans.
  eexists; split_and!; [done| |]; [rewrite (ok_put _ _ Hok)|rewrite lens_get_put]; congruence.
Qed.

Lemma startWorkflow_step p w : traceable p → pb_name p = WorkflowStarted → ∃ w',
  startWorkflow otel beginTrace p w = (Ok tt, w') ∧
  trace_step p (tlog w) (lens_get w) (tlog w') (lens_get w').
Proof using Hok.
  intros Hid Hn. unfold startWorkflow.
  match goal with |- context [active _ ≫= λ a, _ ≫= ?k] => set (K := k) end.
  assert (∃ parent w1, (active otel ≫= λ ambient,
      match pb_traceId p with
      | Some traceId => beginTrace traceId ≫= λ _, mret (ot_ROOT_CONTEXT otel)
      | None => mret ambient
      end ≫= K) w = K parent w1 ∧
      tlog w1 = tlog w ∧ lens_get (S := SpanMap Sp) w1 = lens_get w ∧
      ∀ t, pb_traceId p = Some t → parent = ot_ROOT_CONTEXT otel ∧ beginTrace t w = (Ok tt, w1))
    as (parent & w1 & -> & L1 & G1 & Hp).
  { destruct (pb_traceId p) as [t|] eqn:Ht.
    - destruct (ok_begin _ _ _ Hok w t (Hid t Ht)) as (w1 & E1 & L1 & G1).
      exists (ot_ROOT_CONTEXT otel), w1. split_and!; [|done..|by intros ? [= <-]].
      unfold mbind, M_bind, active at 1. by rewrite E1.
    - by exists (ot_active otel w), w. }
  unfold K. set (name := js _ ++ _).
  destruct (ok_startSpan _ _ Hok w1 name (action_attributes p) INTERNAL parent)
    as (s & w2 & E2 & Hs & L2 & G2).
  rewrite (M_bind_ok _ _ _ _ _ E2). unfold mbind, M_bind, get_spans, put_spans.
  eexists. split; [done|]. rewrite (ok_put _ _ Hok), lens_get_put, L2, G2, G1, L1.
  apply ts_workflow; [done|by rewrite <- L1| |].
  - intros [t Ht]. by destruct (Hp t Ht).
  - intros t Ht. destruct (Hp t Ht) as [-> Hb]. eapply (ok_root _ _ _ Hok); [by apply Hid|done|exact E2].
Qed.

Lemma startDependency_step p w : pb_name p = DependencyAttempted → ∃ w',
  startDependency otel p w = (Ok tt, w') ∧
  trace_step p (tlog w) (lens_get w) (tlog w') (lens_get w').
Proof using Hok.
  intros Hn. unfold startDependency, mbind at 1, M_bind at 1, get_spans at 1.
  destruct (lens_get w !! pb_correlationId p) as [e|] eqn:He; cbn [when_some].
  - unfold mbind at 1, M_bind at 1, active. set (name := js _ ++ _).
    destruct (ok_startSpan _ _ Hok w name (action_attributes p) CLIENT
      (ot_setSpan otel (ot_active otel w) (se_workflow e))) as (s & w1 & E1 & Hs & L1 & G1).
    rewrite (M_bind_ok _ _ _ _ _ E1). unfold set_dependency, mbind, M_bind, get_spans, put_spans.
    eexists. split; [done|]. rewrite (ok_put _ _ Hok), lens_get_put, L1, G1.
    eapply ts_dependency; [done..|]. intros t Ht. by eapply (ok_child _ _ Hok).
  - exists w. split; [done|]. apply ts_ignored; congruence.
Qed.

Lemma completeDependency_step p w : pb_name p = DependencyCompleted → ∃ w',
  completeDependency otel p w = (Ok tt, w') ∧
  trace_step p (tlog w) (lens_get w) (tlog w') (lens_get w').
Proof using Hok.
  intros Hn. unfold completeDependency, mbind at 1, M_bind at 1, get_spans at 1.
  destruct (lens_get w !! pb_correlationId p) as [e|] eqn:He; cbn [when_some].
  - destruct (se_dependency e) as [d|] eqn:Hd; simpl.
    + edestruct (does_then_put (applyTerminalOutcome otel d p ≫= λ _, ot_end otel d)
        (outcome_events d p ++ [EvEnd d])) as (w1 & E1 & L1 & G1).
      { apply does_bind; [apply applyTerminalOutcome_does|intros w'; apply Hok]. }
      exists w1. rewrite M_bind_assoc in E1. split; [exact E1|]. rewrite L1, G1.
      by apply ts_dependency_done.
    + exists w. split; [done|]. by eapply ts_no_dependency.
  - exists w. split; [done|]. apply ts_ignored; congruence.
Qed.

Lemma completeWorkflow_step p w : pb_name p = WorkflowCompleted → ∃ w',
  completeWorkflow otel p w = (Ok tt, w') ∧
  trace_step p (tlog w) (lens_get w) (tlog w') (lens_get w').
Proof using Hok.
  intros Hn. unfold completeWorkflow, mbind at 1, M_bind at 1, get_spans at 1.
  destruct (lens_get w !! pb_correlationId p) as [e|] eqn:He; cbn [when_some].
  - edestruct (does_then_put ((when_some (se_dependency e) (ot_end otel) ≫= λ _,
        applyTerminalOutcome otel (se_workflow e) p) ≫= λ _, ot_end otel (se_workflow e))
        ((option_list (EvEnd <$> se_dependency e) ++ outcome_events (se_workflow e) p) ++
         [EvEnd (se_workflow e)]) (delete (pb_correlationId p)) w) as (w1 & E1 & L1 & G1).
    { apply does_bind; [|intros w'; apply Hok].
      apply does_bind; [|apply applyTerminalOutcome_does].
      apply does_when_some; intros d w'; apply Hok. }
    exists w1. rewrite !M_bind_assoc in E1. split; [exact E1|].
    rewrite <- (assoc_L (++)) in L1. rewrite L1, G1.
    by apply ts_workflow_done.
  - exists w. split; [done|]. apply ts_ignored; congruence.
Qed.

(** The program's step refines the abstract one. *)
Lemma trace_publish_step p w : traceable p → ∃ w',
  trace_publish otel beginTrace p w = (Ok tt, w') ∧
  trace_step p (tlog w) (lens_get w) (tlog w') (lens_get w').
Proof using Hok.
  intros Hid. unfold trace_publish. destruct (pb_name p) eqn:Hn.
  - by apply startWorkflow_step.
  - by apply completeWorkflow_step.
  - by apply startDependency_step.
  - by apply completeDependency_step.
Qed.

Fixpoint trace_all (ps : list GatewayProbe) : M thrown W unit :=
  match ps with
  | [] => mret tt
  | p :: ps' => trace_publish otel beginTrace p ≫= λ _, trace_all ps'
  end.

(** Reflexive-transitive closure of [trace_step] along a list of probes. *)
Inductive trace_steps : list GatewayProbe → list (TraceEvent Sp Ctx) → SpanMap Sp →
    list (TraceEvent Sp Ctx) → SpanMap Sp → Prop :=
| tss_nil l m : trace_steps [] l m l m
| tss_cons p ps l m l' m' l'' m'' :
    trace_step p l m l' m' → trace_steps ps l' m' l'' m'' →
    trace_steps (p :: ps) l m l'' m''.

Lemma trace_all_steps ps w : Forall traceable ps → ∃ w', trace_all ps w = (Ok tt, w') ∧
  trace_steps ps (tlog w) (lens_get w) (tlog w') (lens_get w').
Proof using Hok.
  intros Hid. revert w.
  induction Hid as [|p ps Hp _ IH]; intros w; simpl; [eexists; split; [done|constructor]|].
  destruct (trace_publish_step p w Hp) as (w1 & E1 & S1).
  rewrite (M_bind_ok _ _ _ _ _ E1). destruct (IH w1) as (w2 & E2 & S2).
  exists w2. split; [done|]. by econstructor.
Qed.
End events.

(** * Invariants of the trace *)

Section invariants.
Context {W Sp Ctx : Type} `{!EqDecision Sp} (otel : Otel W Sp Ctx).
Implicit Types (l : list (TraceEvent Sp Ctx)) (m : SpanMap Sp).

Definition entry_spans (e : SpanEntry Sp) : list Sp :=
  se_workflow e :: option_list (se_dependency e).

(** The span is held by the map under the correlation id. *)
Definition owns m (c : jsstring) (s : Sp) : Prop :=
  ∃ e, m !! c = Some e ∧ s ∈ entry_spans e.

(** The log is well formed, and the map holds live spans, each of them once. *)
Record trace_inv l m : Prop := {
  inv_wf : trace_wf l;
  inv_live c s : owns m c s → live l s;
  inv_owner c c' s : owns m c s → owns m c' s → c = c';
  inv_NoDup c e : m !! c = Some e → NoDup (entry_spans e)
}.

(** Every live span is held by the map: none has been lost. *)
Definition trace_complete l m : Prop := ∀ s, live l s → ∃ c, owns m c s.

Lemma owns_insert m c e c' s :
  owns (<[c := e]> m) c' s ↔ (c' = c ∧ s ∈ entry_spans e) ∨ (c' ≠ c ∧ owns m c' s).
Proof.
  unfold owns. destruct (decide (c' = c)) as [->|Hc].
  - rewrite lookup_insert_eq. naive_solver.
  - rewrite lookup_insert_ne by done. naive_solver.
Qed.

Lemma owns_delete m c c' s : owns (delete c m) c' s ↔ c' ≠ c ∧ owns m c' s.
Proof.
  unfold owns. destruct (decide (c' = c)) as [->|Hc].
  - rewrite lookup_delete_eq. naive_solver.
  - rewrite lookup_delete_ne by done. naive_solver.
Qed.

Lemma live_app l k s :
  live (l ++ k) s ↔ (s ∈ started l ∨ s ∈ started k) ∧ (s ∉ ended l) ∧ (s ∉ ended k).
Proof. unfold live. rewrite started_app, ended_app. set_solver. Qed.

Lemma live_ended l s : live l s → s ∉ ended l.
Proof. by intros []. Qed.

Lemma wf_outcome l s p : trace_wf l → live l s →
  trace_wf (l ++ outcome_events s p) ∧ ∀ s', live (l ++ outcome_events s p) s' ↔ live l s'.
Proof.
  intros Hl Hs.
  assert (Hq : ∀ l', live l' s → ∀ e, started [e] = [] → ended [e] = [] →
            ∀ s', live (l' ++ [e]) s' ↔ live l' s').
  { intros l' _ e H1 H2 s'. rewrite live_app, H1, H2. unfold live. set_solver. }
  unfold outcome_events. rewrite !(assoc_L (++)).
  assert (Hgo : ∀ l' (o : option (TraceEvent Sp Ctx)),
    (∀ e, o = Some e → ∃ k v, e = EvAttribute s k v) → trace_wf l' → live l' s →
    trace_wf (l' ++ option_list o) ∧ ∀ s', live (l' ++ option_list o) s' ↔ live l' s').
  { intros l' [e|] Ho Hw Hlv; simpl; [|by rewrite app_nil_r].
    destruct (Ho e eq_refl) as (k & v & ->). split; [by constructor|by apply Hq]. }
  destruct (Hgo l (Some (EvAttribute s (js "gateway.outcome") (outcome_str (pb_outcome p)))))
    as [W1 L1]; [naive_solver|done|done|]. simpl in W1, L1.
  destruct (Hgo _ ((λ k, EvAttribute s (js "gateway.failure_kind") (failureKind_str k)) <$>
    pb_failureKind p) ltac:(destruct (pb_failureKind p); naive_solver) W1) as [W2 L2];
    [by rewrite L1|].
  destruct (Hgo _ (EvAttribute s (js "hypershell.operation_id") <$> pb_operationId p)
    ltac:(destruct (pb_operationId p); naive_solver) W2) as [W3 L3];
    [by rewrite L2, L1|].
  assert (live _ s) as Hlv by exact (proj2 (L3 s) (proj2 (L2 s) (proj2 (L1 s) Hs))).
  split; [by constructor|]. intros s'. rewrite Hq, L3, L2, L1 by done. done.
Qed.

(** A span that reports its outcome and ends. *)
Lemma wf_finish l s p : trace_wf l → live l s →
  trace_wf (l ++ outcome_events s p ++ [EvEnd s]) ∧
  ∀ s', live (l ++ outcome_events s p ++ [EvEnd s]) s' ↔ live l s' ∧ s' ≠ s.
Proof.
  intros Hl Hs. destruct (wf_outcome l s p Hl Hs) as [Hw Hlv].
  rewrite (assoc_L (++)). split; [constructor; [done|by apply Hlv]|].
  intros s'. rewrite live_app, <- Hlv. unfold live. simpl. set_solver.
Qed.

Lemma wf_end_opt l (o : option Sp) : trace_wf l → (∀ s, o = Some s → live l s) →
  trace_wf (l ++ option_list (EvEnd <$> o)) ∧
  ∀ s', live (l ++ option_list (EvEnd <$> o)) s' ↔ live l s' ∧ (s' ∉ option_list o).
Proof.
  intros Hl Hs. destruct o as [s|]; simpl.
  - split; [constructor; [done|by apply Hs]|]. intros s'. rewrite live_app. unfold live.
    simpl. set_solver.
  - rewrite app_nil_r. set_solver.
Qed.

Lemma wf_new_span l s n a k c : trace_wf l → s ∉ started l →
  trace_wf (l ++ [EvStart s n a k c]) ∧
  ∀ s', live (l ++ [EvStart s n a k c]) s' ↔ live l s' ∨ s' = s.
Proof.
  intros Hl Hs. assert (s ∉ ended l) as He.
  { intros He. apply Hs. by apply (trace_wf_once _ Hl). }
  split; [by constructor|]. intros s'. rewrite live_app. unfold live. simpl. set_solver.
Qed.

Lemma entry_owns m c e s : m !! c = Some e → s ∈ entry_spans e → owns m c s.
Proof. intros. by exists e. Qed.

(** A span that is not live yet belongs to nobody. *)
Lemma new_not_owned l m c s : trace_inv l m → s ∉ started l → ¬ owns m c s.
Proof. intros Hi Hs Ho. by destruct (inv_live _ _ Hi c s Ho). Qed.

(** Replace the entry of [c]; the log keeps the spans of the others live. *)
Lemma inv_insert l l' m c e' :
  trace_inv l m → trace_wf l' →
  NoDup (entry_spans e') →
  (∀ s, s ∈ entry_spans e' → live l' s ∧ ∀ c', c' ≠ c → ¬ owns m c' s) →
  (∀ c' s, c' ≠ c → owns m c' s → live l' s) →
  trace_inv l' (<[c := e']> m).
Proof.
  intros Hi Hw Hnd Hnew Hold. split; [done| | |].
  - intros c' s [[-> Hs]|[Hc Ho]]%owns_insert; [by apply Hnew|by eapply Hold].
  - intros c1 c2 s [[-> Hs]|[Hc Ho]]%owns_insert [[-> Hs']|[Hc' Ho']]%owns_insert;
      [done|by edestruct (proj2 (Hnew _ Hs) c2)|by edestruct (proj2 (Hnew _ Hs') c1)|].
    by eapply inv_owner.
  - intros c' e. destruct (decide (c' = c)) as [->|]; [rewrite lookup_insert_eq; naive_solver|].
    rewrite lookup_insert_ne by done. apply Hi.
Qed.

(** What the trace must not receive: a start for an open workflow, an attempt
    while another is open. *)
Definition expected (p : GatewayProbe) m : Prop :=
  match pb_name p with
  | WorkflowStarted => m !! pb_correlationId p = None
  | DependencyAttempted =>
      ∀ e, m !! pb_correlationId p = Some e → se_dependency e = None
  | _ => True
  end.

(** The log of a completed workflow: its spans, and only they, stop being live. *)
Lemma workflow_done_live p l m e :
  m !! pb_correlationId p = Some e → trace_inv l m →
  let l' := l ++ option_list (EvEnd <$> se_dependency e) ++
              outcome_events (se_workflow e) p ++ [EvEnd (se_workflow e)] in
  trace_wf l' ∧ ∀ s, live l' s ↔ live l s ∧ s ∉ entry_spans e.
Proof.
  intros He Hi l'.
  assert (∀ s, s ∈ entry_spans e → live l s) as Hall
    by (intros s Hs; by eapply inv_live, entry_owns).
  pose proof (inv_NoDup _ _ Hi _ _ He) as Hnd. unfold entry_spans in *.
  apply NoDup_cons in Hnd as [Hnd _].
  destruct (wf_end_opt l (se_dependency e)) as [W1 L1]; [apply Hi| |].
  { intros s Hs. apply Hall. rewrite Hs. set_solver. }
  destruct (wf_finish _ (se_workflow e) p W1) as [W2 L2].
  { apply L1. split; [apply Hall; set_solver|done]. }
  unfold l'. rewrite (assoc_L (++)). split; [done|]. intros s. rewrite L2, L1. set_solver.
Qed.

Lemma workflow_done_inv p l m e :
  m !! pb_correlationId p = Some e → trace_inv l m →
  trace_inv (l ++ option_list (EvEnd <$> se_dependency e) ++
             outcome_events (se_workflow e) p ++ [EvEnd (se_workflow e)])
    (delete (pb_correlationId p) m).
Proof.
  intros He Hi. destruct (workflow_done_live p l m e He Hi) as [Hw Hlv]. split; [done| | |].
  - intros c s [Hc Ho]%owns_delete. apply Hlv. split; [by eapply inv_live|].
    intros Hs. apply Hc. eapply inv_owner; [done|done|by eapply entry_owns].
  - intros c c' s [_ Ho]%owns_delete [_ Ho']%owns_delete. by eapply inv_owner.
  - intros c e'. rewrite lookup_delete. case_decide; [done|]. apply Hi.
Qed.

Lemma trace_step_inv p l m l' m' :
  trace_step otel p l m l' m' → trace_inv l m → trace_inv l' m'.
Proof.
  intros Hstep Hi. destruct Hstep as [s parent Hn Hs Hp _| |e s ambient Hn He Hs _|
    |e d Hn He Hd|e Hn He]; try done.
  - destruct (wf_new_span l s
      (js "gateway.workflow." ++ action_str (pb_action p)) (action_attributes p) INTERNAL parent)
      as [Hw Hlv]; [apply Hi|done|].
    apply inv_insert with l; [done|done|repeat constructor; set_solver| |].
    + intros s' ->%list_elem_of_singleton. split; [apply Hlv; by right|].
      intros c' _. by eapply new_not_owned.
    + intros c' s' _ Ho. apply Hlv. left. by eapply inv_live.
  - destruct (wf_new_span l s
      (js "gateway.dependency." ++ action_str (pb_action p)) (action_attributes p) CLIENT
      (ot_setSpan otel ambient (se_workflow e))) as [Hw Hlv]; [apply Hi|done|].
    assert (owns m (pb_correlationId p) (se_workflow e)) as Ho
      by (eapply entry_owns; [done|unfold entry_spans; set_solver]).
    apply inv_insert with l; [done|done| | |].
    + unfold entry_spans; simpl. repeat constructor; [|set_solver].
      intros Heq%list_elem_of_singleton. rewrite Heq in Ho. by eapply new_not_owned.
    + intros s' [->| ->%list_elem_of_singleton]%elem_of_cons; (split; [apply Hlv|intros c' Hc]).
      * left. by eapply inv_live.
      * intros Ho'. apply Hc. by eapply inv_owner.
      * by right.
      * by eapply new_not_owned.
    + intros c' s' _ Ho'. apply Hlv. left. by eapply inv_live.
  - assert (owns m (pb_correlationId p) d) as Ho
      by (eapply entry_owns; [done|unfold entry_spans; rewrite Hd; set_solver]).
    assert (owns m (pb_correlationId p) (se_workflow e)) as Ho'
      by (eapply entry_owns; [done|unfold entry_spans; set_solver]).
    pose proof (inv_NoDup _ _ Hi _ _ He) as Hnd. unfold entry_spans in Hnd.
    rewrite Hd in Hnd. apply NoDup_cons in Hnd as [Hnd _].
    destruct (wf_finish l d p) as [Hw Hlv]; [apply Hi|by eapply inv_live|].
    apply inv_insert with l; [done|done|repeat constructor; set_solver| |].
    + intros s' ->%list_elem_of_singleton. split; [apply Hlv; split; [by eapply inv_live|set_solver]|].
      intros c' Hc Ho2. apply Hc. by eapply inv_owner.
    + intros c' s' Hc Ho2. apply Hlv. split; [by eapply inv_live|]. intros ->.
      apply Hc. by eapply inv_owner.
  - by apply workflow_done_inv.
Qed.

Lemma trace_step_complete p l m l' m' :
  trace_step otel p l m l' m' → trace_inv l m → expected p m →
  trace_complete l m → trace_complete l' m'.
Proof.
  unfold expected. intros Hstep Hi Hx Hc. destruct Hstep as [s parent Hn Hs Hp _| |e s ambient Hn He Hs _|
    |e d Hn He Hd|e Hn He]; try done; rewrite Hn in Hx.
  - destruct (wf_new_span l s
      (js "gateway.workflow." ++ action_str (pb_action p)) (action_attributes p) INTERNAL parent)
      as [_ Hlv]; [apply Hi|done|].
    intros s' [[c [e [Hm He]]]%Hc| ->]%Hlv.
    + exists c. apply owns_insert. right. split; [congruence|by exists e].
    + exists (pb_correlationId p). apply owns_insert. left. set_solver.
  - destruct (wf_new_span l s
      (js "gateway.dependency." ++ action_str (pb_action p)) (action_attributes p) CLIENT
      (ot_setSpan otel ambient (se_workflow e))) as [_ Hlv]; [apply Hi|done|].
    intros s' [[c [e' [Hm He']]]%Hc| ->]%Hlv.
    + exists c. apply owns_insert. destruct (decide (c = pb_correlationId p)) as [->|];
        [left|right; split; [done|by exists e']].
      simplify_eq. unfold entry_spans in *. rewrite (Hx e) in He' by done. set_solver.
    + exists (pb_correlationId p). apply owns_insert. left. set_solver.
  - destruct (wf_finish l d p) as [_ Hlv]; [apply Hi| |].
    { eapply inv_live, entry_owns; [done..|unfold entry_spans; rewrite Hd; set_solver]. }
    intros s' [[c [e' [Hm He']]]%Hc Hne]%Hlv. exists c. apply owns_insert.
    destruct (decide (c = pb_correlationId p)) as [->|]; [left|right; split; [done|by exists e']].
    simplify_eq. unfold entry_spans in *. rewrite Hd in He'. set_solver.
  - destruct (workflow_done_live p l m e He Hi) as [_ Hlv].
    intros s' [[c [e' [Hm He']]]%Hc Hne]%Hlv. exists c. apply owns_delete.
    split; [|by exists e']. intros ->. by simplify_eq.
Qed.
End invariants.

(** ** Which trace a span is part of *)

Definition starts_workflow (p : GatewayProbe) : bool :=
  match pb_name p with WorkflowStarted => true | _ => false end.

(** The trace id that the last workflow of a correlation id was started with. *)
Definition chosen (c : jsstring) (acc : option jsstring) (ps : list GatewayProbe) : option jsstring :=
  foldl (λ acc p, if starts_workflow p && bool_decide (pb_correlationId p = c) then pb_traceId p else acc)
    acc ps.

(** The spans held under a correlation id are part of the trace chosen for it. *)
Definition spans_belong {W Sp Ctx} (otel : Otel W Sp Ctx) (m : SpanMap Sp) (traces : jsstring → option jsstring) : Prop :=
  ∀ c s t, owns m c s → traces c = Some t → belongs otel s t.

Section belongs.
Context {W Sp Ctx : Type} (otel : Otel W Sp Ctx).
Implicit Types (l : list (TraceEvent Sp Ctx)) (m : SpanMap Sp).

Lemma trace_step_belong p l m l' m' traces : trace_step otel p l m l' m' → spans_belong otel m traces →
  spans_belong otel m' (λ c, chosen c (traces c) [p]).
Proof.
  intros Hstep Hm c s t. unfold chosen. cbn [foldl].
  assert (Hold : pb_name p ≠ WorkflowStarted → ∀ c' s', owns m c' s' →
    (if starts_workflow p && bool_decide (pb_correlationId p = c') then pb_traceId p else traces c') = Some t →
    belongs otel s' t).
  { intros Hn c' s' Ho. unfold starts_workflow. destruct (pb_name p); [done|..]; by apply Hm. }
  destruct Hstep as [s0 parent Hn _ _ Hb|_ Hn|e d ambient Hn He _ Hb|e Hn _ _|e d Hn He Hd|e Hn He].
  - intros [[-> Hs]|[Hc Ho]]%owns_insert.
    + unfold starts_workflow. rewrite Hn, bool_decide_true by done. apply list_elem_of_singleton in Hs as ->. apply Hb.
    + rewrite bool_decide_false by done. rewrite andb_false_r. by apply Hm.
  - by apply Hold.
  - assert (pb_name p ≠ WorkflowStarted) as Hne by congruence.
    intros [[-> Hs]|[Hc Ho]]%owns_insert; [|by apply Hold]. intros Ht.
    assert (belongs otel (se_workflow e) t) as Hw
      by (eapply Hold; [done|eapply entry_owns; [done|unfold entry_spans; set_solver]|done]).
    apply elem_of_cons in Hs as [->|Hs]; [done|]. apply list_elem_of_singleton in Hs as ->. by apply Hb.
  - apply Hold. congruence.
  - assert (pb_name p ≠ WorkflowStarted) as Hne by congruence.
    intros [[-> Hs]|[Hc Ho]]%owns_insert; [|by apply Hold].
    apply list_elem_of_singleton in Hs as ->. apply Hold; [done|]. eapply entry_owns; [done|unfold entry_spans; set_solver].
  - intros [_ Ho]%owns_delete. apply Hold; [congruence|done].
Qed.

Lemma trace_steps_belong ps l m l' m' traces : trace_steps otel ps l m l' m' → spans_belong otel m traces →
  spans_belong otel m' (λ c, chosen c (traces c) ps).
Proof.
  intros Hs. revert traces. induction Hs as [|p ps l m l1 m1 l' m' Hp _ IH]; intros traces Hm; [done|].
  exact (IH _ (trace_step_belong _ _ _ _ _ _ Hp Hm)).
Qed.
End belongs.

(** * Whole calls *)

(** Where one correlation id stands. *)
Inductive Phase := PhWorkflow | PhDependency.

Definition phase {Sp} (m : SpanMap Sp) (c : jsstring) : option Phase :=
  (λ e : SpanEntry Sp, if se_dependency e is Some _ then PhDependency else PhWorkflow) <$> m !! c.

Definition phase_step (n : GatewayProbeName) (ph : option Phase) : option Phase :=
  match n with
  | WorkflowStarted => Some PhWorkflow
  | DependencyAttempted => if ph is Some _ then Some PhDependency else None
  | DependencyCompleted => if ph is Some _ then Some PhWorkflow else None
  | WorkflowCompleted => None
  end.

(** The probe names a correlation id still has to see to be done. *)
Definition remaining (ph : option Phase) (ns : list GatewayProbeName) : Prop :=
  match ph with
  | None => ns = [] ∨
      ns = [WorkflowStarted; DependencyAttempted; DependencyCompleted; WorkflowCompleted]
  | Some PhWorkflow => ns = [DependencyAttempted; DependencyCompleted; WorkflowCompleted] ∨
      ns = [WorkflowCompleted]
  | Some PhDependency => ns = [DependencyCompleted; WorkflowCompleted]
  end.

(** The names of the probes of one correlation id, in order. *)
Definition names_of (c : jsstring) (ps : list GatewayProbe) : list GatewayProbeName :=
  map pb_name (filter (λ p, pb_correlationId p = c) ps).

(** Every correlation id that occurs is that of one whole call: its four probes,
    in the order a call publishes them, whatever comes between. *)
Definition whole_calls (ps : list GatewayProbe) : Prop :=
  ∀ c, names_of c ps = [] ∨ names_of c ps =
    [WorkflowStarted; DependencyAttempted; DependencyCompleted; WorkflowCompleted].

Section whole_calls.
Context {W Sp Ctx : Type} `{!EqDecision Sp} (otel : Otel W Sp Ctx).
Implicit Types (l : list (TraceEvent Sp Ctx)) (m : SpanMap Sp).

Lemma phase_insert m c e c' :
  phase (<[c := e]> m) c' =
  if decide (c = c') then Some (if se_dependency e is Some _ then PhDependency else PhWorkflow)
  else phase m c'.
Proof. unfold phase. rewrite lookup_insert. by case_decide. Qed.

Lemma phase_delete m c c' :
  phase (delete c m) c' = if decide (c = c') then None else phase m c'.
Proof. unfold phase. rewrite lookup_delete. by case_decide. Qed.

Lemma trace_step_phase p l m l' m' c :
  trace_step otel p l m l' m' →
  phase m' c = if decide (pb_correlationId p = c) then phase_step (pb_name p) (phase m c)
               else phase m c.
Proof.
  intros Hstep. destruct Hstep as [s parent Hn Hs Hp _|Hm Hn|e s ambient Hn He Hs _|
    e Hn He Hd|e d Hn He Hd|e Hn He]; rewrite ?phase_insert, ?phase_delete, ?Hn;
    case_decide as Hc; try done; subst c; unfold phase; rewrite ?He, ?Hm; simpl; try done.
  - by destruct (pb_name p).
  - by rewrite Hd.
Qed.

Lemma names_of_cons c p ps :
  names_of c (p :: ps) =
  if decide (pb_correlationId p = c) then pb_name p :: names_of c ps else names_of c ps.
Proof. unfold names_of. rewrite filter_cons. by case_decide. Qed.

Lemma remaining_cons ph n ns : remaining ph (n :: ns) → remaining (phase_step n ph) ns.
Proof. destruct ph as [[]|]; simpl; naive_solver. Qed.

Lemma remaining_expected p m ns :
  remaining (phase m (pb_correlationId p)) (pb_name p :: ns) → expected p m.
Proof.
  unfold phase, expected. destruct (m !! pb_correlationId p) as [e|]; simpl.
  - destruct (se_dependency e) eqn:Hd; destruct (pb_name p); naive_solver.
  - destruct (pb_name p); naive_solver.
Qed.

Lemma trace_steps_done ps l m l' m' :
  trace_steps otel ps l m l' m' → trace_inv l m → trace_complete l m →
  (∀ c, remaining (phase m c) (names_of c ps)) →
  trace_inv l' m' ∧ trace_complete l' m' ∧ m' = ∅.
Proof.
  induction 1 as [l m|p ps l m l' m' l'' m'' Hs _ IH]; intros Hi Hc Hr.
  - split_and!; [done..|]. apply map_empty. intros c. specialize (Hr c). unfold phase in Hr.
    destruct (m !! c) as [e|]; [|done]. simpl in Hr. destruct (se_dependency e); naive_solver.
  - pose proof (Hr (pb_correlationId p)) as Hp. rewrite names_of_cons, decide_True in Hp by done.
    apply IH; [by eapply trace_step_inv|eapply trace_step_complete; eauto using remaining_expected|].
    intros c. specialize (Hr c). rewrite names_of_cons in Hr.
    rewrite (trace_step_phase _ _ _ _ _ c Hs). case_decide; [|done]. by apply remaining_cons.
Qed.

Lemma trace_steps_inv ps l m l' m' :
  trace_steps otel ps l m l' m' → trace_inv l m → trace_inv l' m'.
Proof. induction 1; eauto using trace_step_inv. Qed.

Lemma initial_trace_inv : trace_inv ([] : list (TraceEvent Sp Ctx)) ∅.
Proof.
  split; [constructor|..]; intros; unfold owns in *; try by destruct_and?; naive_solver.
Qed.

Lemma no_live_all_ended l :
  trace_wf l → (∀ s, ¬ live l s) → started l ≡ₚ ended l.
Proof.
  intros Hw Hn. destruct (trace_wf_once l Hw) as (H1 & H2 & H3).
  apply NoDup_Permutation; [done..|]. intros s. split; [|apply H3].
  intros Hs. destruct (decide (s ∈ ended l)); [done|]. by destruct (Hn s).
Qed.
End whole_calls.

(** * The outbound [traceparent] *)

(** The documented form of the identifiers of a valid span context. *)
Definition valid_ids (sc : SpanContext) : Prop :=
  hex_id 32 (sctx_traceId sc) ∧ hex_id 16 (sctx_spanId sc).

(** The check the generated API client makes on a [traceparent] it is given
    ([out/tssdk/index.js], [run]): length, the regular expression
    [/^00-[0-9a-f]{32}-[0-9a-f]{16}-0[01]$/], and no zero identifier. *)
Definition traceparent_matches (s : jsstring) : bool :=
  bool_decide (slice 0 3 s = js "00-") && forallb is_lower_hex (slice 3 35 s) &&
  bool_decide (slice 35 36 s = js "-") && forallb is_lower_hex (slice 36 52 s) &&
  bool_decide (slice 52 54 s = js "-0") &&
  (bool_decide (slice 54 55 s = js "0") || bool_decide (slice 54 55 s = js "1")).

Definition traceparent_accepted (s : jsstring) : bool :=
  bool_decide (length s = 55) && traceparent_matches s &&
  negb (bool_decide (slice 3 35 s = repeat 48%N 32)) &&
  negb (bool_decide (slice 36 52 s = repeat 48%N 16)).

Lemma slice_app a b n (s t u : jsstring) :
  length s = a → length t = n → b = a + n → slice a b (s ++ t ++ u) = t.
Proof.
  intros <- <- ->. unfold slice.
  rewrite drop_app_length, Nat.add_sub', take_app_length. done.
Qed.

Lemma length_flags f : length (flags_str f) = 2.
Proof. unfold flags_str. by case_match. Qed.

(** The slices of a rendered header. *)
Lemma render_slices sc :
  length (sctx_traceId sc) = 32 → length (sctx_spanId sc) = 16 →
  slice 3 35 (render_traceparent sc) = sctx_traceId sc ∧
  slice 36 52 (render_traceparent sc) = sctx_spanId sc ∧
  length (render_traceparent sc) = 55 ∧
  slice 0 3 (render_traceparent sc) = js "00-" ∧
  slice 35 36 (render_traceparent sc) = js "-" ∧
  slice 52 55 (render_traceparent sc) = js "-" ++ flags_str (sctx_traceFlags sc).
Proof.
  intros Ht Hs. unfold render_traceparent. pose proof (length_flags (sctx_traceFlags sc)) as Hf.
  split_and!.
  - by apply slice_app with 32.
  - rewrite 2!(assoc_L (++)). apply slice_app with 16; [|done..].
    rewrite !length_app, Ht. done.
  - rewrite !length_app, Ht, Hs, Hf. done.
  - by apply (slice_app 0 3 3 []).
  - rewrite (assoc_L (++)). apply slice_app with 1; [|done..]. rewrite !length_app, Ht. done.
  - rewrite 3!(assoc_L (++)), <- (app_nil_r (js "-" ++ _)) at 1. apply slice_app with 3.
    + rewrite !length_app, Ht, Hs. done.
    + by rewrite length_app, Hf.
    + done.
Qed.

Lemma flags_testbit f : flags_str f = if N.testbit f 0 then js "01" else js "00".
Proof.
  unfold flags_str. change 1%N with (N.ones 1). rewrite N.land_ones, N.pow_1_r, <- N.bit0_mod.
  by destruct (N.testbit f 0).
Qed.

Lemma render_tail sc :
  length (sctx_traceId sc) = 32 → length (sctx_spanId sc) = 16 →
  slice 52 54 (render_traceparent sc) = js "-0" ∧
  slice 54 55 (render_traceparent sc) =
    (if N.testbit (sctx_traceFlags sc) 0 then js "1" else js "0").
Proof.
  intros Ht Hs. destruct (render_slices sc Ht Hs) as (_ & _ & _ & _ & _ & H).
  rewrite flags_testbit in H.
  assert (H54 : slice 52 54 (render_traceparent sc) = slice 0 2 (slice 52 55 (render_traceparent sc)))
    by (unfold slice; by rewrite drop_0, take_take).
  assert (H55 : slice 54 55 (render_traceparent sc) = slice 2 3 (slice 52 55 (render_traceparent sc)))
    by (unfold slice; by rewrite skipn_firstn_comm, take_take, drop_drop).
  rewrite H54, H55, H. by case_match.
Qed.

Lemma endsWith_render sc :
  endsWith (render_traceparent sc) (js "-01") = N.testbit (sctx_traceFlags sc) 0.
Proof.
  unfold endsWith, render_traceparent. rewrite flags_testbit, 3!(assoc_L (++)).
  destruct (N.testbit _ 0).
  - apply bool_decide_eq_true_2. by eexists.
  - apply bool_decide_eq_false_2. intros [k Hk]. by apply app_inj_2 in Hk as [_ [=]].
Qed.

(** * Properties *)

(** C10 However probes with well-formed trace ids arrive, complete or not, in any
    order: the sink never throws, starts each span once, sets attributes and status only on spans that
    are live, ends no span twice, and the spans its map holds are live and each
    held once, under one correlation id. *)
Theorem spans_used_safely {W Sp Ctx : Type} `{!EqDecision Sp} `{!Lens W (SpanMap Sp)}
    (tlog : W → list (TraceEvent Sp Ctx)) (otel : Otel W Sp Ctx)
    (beginTrace : jsstring → M thrown W unit) (ps : list GatewayProbe) (w : W) :
  otel_ok tlog otel beginTrace → Forall traceable ps →
  trace_inv (tlog w) (lens_get (S := SpanMap Sp) w) →
  ∃ w', trace_all otel beginTrace ps w = (Ok tt, w') ∧
    trace_inv (tlog w') (lens_get (S := SpanMap Sp) w').
Proof.
  intros Hok Hid Hi. destruct (trace_all_steps tlog otel beginTrace Hok ps w Hid) as (w' & Hw & Hs).
  exists w'. split; [done|]. by eapply trace_steps_inv.
Qed.

(** C22 When the probes are those of whole gateway calls with distinct
    correlation ids, interleaved in any way, every span the sink started has been
    ended, exactly once, and its map is empty again: nothing leaks. *)
Theorem whole_calls_leave_no_span {W Sp Ctx : Type} `{!EqDecision Sp} `{!Lens W (SpanMap Sp)}
    (tlog : W → list (TraceEvent Sp Ctx)) (otel : Otel W Sp Ctx)
    (beginTrace : jsstring → M thrown W unit) (ps : list GatewayProbe) (w : W) :
  otel_ok tlog otel beginTrace → Forall traceable ps →
  tlog w = [] → lens_get (S := SpanMap Sp) w = ∅ → whole_calls ps →
  ∃ w', trace_all otel beginTrace ps w = (Ok tt, w') ∧
    lens_get (S := SpanMap Sp) w' = ∅ ∧ NoDup (started (tlog w')) ∧
    started (tlog w') ≡ₚ ended (tlog w').
Proof.
  intros Hok Hid Hl Hm Hps. destruct (trace_all_steps tlog otel beginTrace Hok ps w Hid) as (w' & Hw & Hs).
  rewrite Hl, Hm in Hs.
  destruct (trace_steps_done otel ps _ _ _ _ Hs) as (Hi & Hc & He).
  - apply initial_trace_inv.
  - intros s [Hin _]. by apply elem_of_nil in Hin.
  - apply Hps.
  - exists w'. split_and!; [done|done|apply (trace_wf_once _ (inv_wf _ _ Hi))|].
    apply no_live_all_ended; [apply Hi|]. intros s (c & e & Hce & _)%Hc.
    rewrite He in Hce. done.
Qed.

(** For a span whose identifiers have their documented form, the header the
    console sends is accepted by the API client's own check, and reading it back
    by position, as the log correlation does, gives the span's trace id, span id
    and sampled flag. *)
Theorem traceparent_roundtrip (sc : SpanContext) :
  valid_ids sc →
  traceparent_accepted (render_traceparent sc) = true ∧
  log_span_context (render_traceparent sc) = {|
    sctx_traceId := sctx_traceId sc; sctx_spanId := sctx_spanId sc;
    sctx_traceFlags := if N.testbit (sctx_traceFlags sc) 0 then 1 else 0;
    sctx_traceState := None |}.
Proof.
  intros [(Ht & Hth & Ht0) (Hs & Hsh & Hs0)].
  destruct (render_slices sc Ht Hs) as (S1 & S2 & S3 & S4 & S5 & S6).
  destruct (render_tail sc Ht Hs) as [S7 S8]. split.
  - unfold traceparent_accepted, traceparent_matches.
    rewrite S1, S2, S3, S4, S5, S7, S8, Hth, Hsh,
      (bool_decide_eq_false_2 _ Ht0), (bool_decide_eq_false_2 _ Hs0).
    by destruct (N.testbit _ 0).
  - unfold log_span_context. rewrite S1, S2. f_equal. rewrite endsWith_render.
    by destruct (N.testbit _ 0).
Qed.

(** * A concrete tracer, for the witnesses *)

Module DemoTracer.

(** A span is its number and its context, a context the span it holds; the world has the
    trace id that was primed. *)
Record Span := { sp_number : nat; sp_context : SpanContext }.

#[export] Instance Span_eq_dec : EqDecision Span.
Proof. solve_decision. Defined.

Record world := {
  tw_log : list (TraceEvent Span (option Span)); tw_spans : SpanMap Span; tw_next : option jsstring }.

#[local] Instance tracer_lens : Lens world (SpanMap Span).
Proof.
  refine {| lens_get := tw_spans;
            lens_put m w := {| tw_log := tw_log w; tw_spans := m; tw_next := tw_next w |} |}; done.
Defined.

Definition emit (e : TraceEvent Span (option Span)) : M thrown world unit := λ w,
  (Ok tt, {| tw_log := tw_log w ++ [e]; tw_spans := tw_spans w; tw_next := tw_next w |}).

(** The number after every one started so far is free. *)
Definition fresh_number {C} (l : list (TraceEvent Span C)) : nat := S (max_list (map sp_number (started l))).

Lemma fresh_number_new {C} (l : list (TraceEvent Span C)) s : sp_number s = fresh_number l → s ∉ started l.
Proof.
  intros Hs H. assert (sp_number s ≤ max_list (map sp_number (started l))).
  { apply max_list_elem_of_le, list_elem_of_fmap. eauto. }
  unfold fresh_number in Hs. lia.
Qed.

(** The context of a new span: its parent's trace, or the one that was primed. *)
Definition context_of (parent : option Span) (next : option jsstring) : SpanContext := {|
  sctx_traceId := match parent with
                  | Some s => sctx_traceId (sp_context s)
                  | None => default (repeat 49%N 32) next
                  end;
  sctx_spanId := js "b7ad6b7169203331"; sctx_traceFlags := 1; sctx_traceState := None |}.

Definition otel : Otel world Span (option Span) := {|
  ot_startSpan n a k c w :=
    let s := {| sp_number := fresh_number (tw_log w); sp_context := context_of c (tw_next w) |} in
    (Ok s, snd (emit (EvStart s n a k c) w));
  ot_setAttribute s k v := emit (EvAttribute s k v);
  ot_setStatus s c := emit (EvStatus s c);
  ot_end s := emit (EvEnd s);
  ot_spanContext _ s := sp_context s;
  ot_active _ := None; ot_ROOT_CONTEXT := None; ot_setSpan _ s := Some s;
  ot_setSpanContext c _ := c; ot_isSpanContextValid _ := true |}.

Definition beginTrace (t : jsstring) : M thrown world unit := λ w,
  (Ok tt, {| tw_log := tw_log w; tw_spans := tw_spans w; tw_next := Some t |}).

Lemma demo_otel_ok : otel_ok tw_log otel beginTrace.
Proof.
  split; [split|..]; try (intros; eexists; split_and!; done); try done.
  - intros w n a k c. eexists _, _. split_and!; try done. by apply fresh_number_new.
  - intros w n a k ambient s d w' t Ht [= <- _] w0. exact (Ht w0).
  - by intros w t w1 n a k s w2 _ [= <-] [= <- _] w0.
Qed.

Definition initial : world := {| tw_log := []; tw_spans := ∅; tw_next := None |}.

(** Two calls whose probes interleave. *)
Definition two_calls : list GatewayProbe :=
  let mk c := λ n o, probe AList c (repeat 49%N 32) None n (js "now") o None None in
  [mk (js "c1") WorkflowStarted OStarted; mk (js "c2") WorkflowStarted OStarted;
   mk (js "c1") DependencyAttempted OStarted; mk (js "c2") DependencyAttempted OStarted;
   mk (js "c2") DependencyCompleted OFailed; mk (js "c1") DependencyCompleted OSucceeded;
   mk (js "c2") WorkflowCompleted OFailed; mk (js "c1") WorkflowCompleted OSucceeded].

Lemma two_calls_traceable : Forall traceable two_calls.
Proof. unfold two_calls. repeat (apply Forall_cons; split; [by intros t [= <-]|]). done. Qed.

Lemma two_calls_whole : whole_calls two_calls.
Proof.
  intros c. unfold two_calls. rewrite !names_of_cons.
  destruct (decide (js "c1" = c)) as [<-|H1]; [by right|].
  destruct (decide (js "c2" = c)) as [<-|H2]; [by right|].
  simpl. rewrite !decide_False by done. by left.
Qed.

Lemma spans_used_safely_witness : ∃ w',
  trace_all otel beginTrace (rev two_calls) initial = (Ok tt, w') ∧
  trace_inv (tw_log w') (tw_spans w').
Proof.
  refine (spans_used_safely tw_log otel beginTrace (rev two_calls) initial _ _ _).
  - apply demo_otel_ok.
  - apply Forall_rev, two_calls_traceable.
  - apply initial_trace_inv.
Defined.

Lemma whole_calls_leave_no_span_witness : ∃ w',
  trace_all otel beginTrace two_calls initial = (Ok tt, w') ∧ tw_spans w' = ∅ ∧
  NoDup (started (tw_log w')) ∧ started (tw_log w') ≡ₚ ended (tw_log w').
Proof.
  refine (whole_calls_leave_no_span tw_log otel beginTrace two_calls initial _ _ _ _ _).
  - apply demo_otel_ok.
  - apply two_calls_traceable.
  - done.
  - done.
  - apply two_calls_whole.
Defined.

Lemma traceparent_roundtrip_witness :
  let sc := {| sctx_traceId := js "0af7651916cd43dd8448eb211c80319c";
               sctx_spanId := js "b7ad6b7169203331"; sctx_traceFlags := 1;
               sctx_traceState := None |} in
  traceparent_accepted (render_traceparent sc) = true ∧ log_span_context (render_traceparent sc) = sc.
Proof.
  refine (traceparent_roundtrip {| sctx_traceId := js "0af7651916cd43dd8448eb211c80319c";
            sctx_spanId := js "b7ad6b7169203331"; sctx_traceFlags := 1;
            sctx_traceState := None |} _).
  split; split_and!; done.
Defined.

Example four_spans :
  length (started (tw_log (snd (trace_all otel beginTrace two_calls initial)))) = 4.
Proof. vm_compute. done. Qed.
End DemoTracer.
