(* ===== verification/GatewaySearch.v ===== *)
(** The filters the API adapter sends ([adapters/api/gateway-operations.ts],
    [escapeIlikeLiteral], [escapeSearchLiteral], [gatewaySearch] and the filters
    built inside the placement operations) with
    [application/gateway-placement.ts], read back by an independent specification
    of SQL string literals, [ilike] patterns and the two shapes of filter. *)
From S2P Require Export GatewayTypes.

(** * The code *)

Definition normalizeGatewayPlacementClusterIds (clusterIds : list jsstring) : list jsstring :=
  js_sort (nub (filter (λ s, is_nonempty s = true) (map trim clusterIds))).

Definition quote : N := 39.
Definition backslash : N := 92.
Definition percent : N := 37.
Definition underscore : N := 95.

Definition escapeSearchLiteral (value : jsstring) : jsstring :=
  replaceAll value quote [quote; quote].

Definition escapeIlikeLiteral (value : jsstring) : jsstring :=
  replaceAll
    (replaceAll
       (replaceAll (escapeSearchLiteral value) backslash [backslash; backslash])
       percent [backslash; percent])
    underscore [backslash; underscore].

(** [`${field} ilike '%${literal}%'`] *)
Definition ilike_clause (literal field : jsstring) : jsstring :=
  field ++ js " ilike '%" ++ literal ++ js "%'".

Definition searchFields : list jsstring :=
  [js "name"; js "cluster_id"; js "status"; js "route_address"; js "external_dns"].

Definition gatewaySearch (value : jsstring) : option jsstring :=
  let query := trim value in
  if is_nonempty query then
    let literal := escapeIlikeLiteral query in
    Some (joinWith (js " or ") (map (ilike_clause literal) searchFields))
  else None.

Definition placementSearch (search : jsstring) : option jsstring :=
  let literal := escapeIlikeLiteral (trim search) in
  if is_nonempty literal then Some (ilike_clause literal (js "name")) else None.

(** [`id in (${ids.map((id) => `'${escapeSearchLiteral(id)}'`).join(", ")})`] *)
Definition idSearch (ids : list jsstring) : jsstring :=
  js "id in (" ++
  joinWith (js ", ") (map (λ i, js "'" ++ escapeSearchLiteral i ++ js "'") ids) ++ js ")".

(** * Reading filters back *)

(** A string literal, its opening quote already read: its value, up to the first
    quote that is not doubled, and what follows. *)
Fixpoint read_literal (s : jsstring) : option (jsstring * jsstring) :=
  match s with
  | [] => None
  | c :: t =>
      if (c =? quote)%N then
        match t with
        | d :: t' =>
            if (d =? quote)%N
            then (λ r, (quote :: r.1, r.2)) <$> read_literal t' else Some ([], t)
        | [] => Some ([], [])
        end
      else (λ r, (c :: r.1, r.2)) <$> read_literal t
  end.

(** A [like] pattern: a wildcard for any text, one for any unit, or a unit that
    stands for itself. A backslash makes the next unit stand for itself. *)
Inductive pattern_item := AnyText | AnyUnit | Unit_ (c : N).

Fixpoint read_pattern (s : jsstring) : option (list pattern_item) :=
  match s with
  | [] => Some []
  | c :: t =>
      if (c =? backslash)%N then
        match t with
        | [] => None
        | d :: t' => cons (Unit_ d) <$> read_pattern t'
        end
      else cons (if (c =? percent)%N then AnyText
                 else if (c =? underscore)%N then AnyUnit else Unit_ c) <$> read_pattern t
  end.

(** Whether a text matches, under a comparison of units (case folding). *)
Section like.
Context (same : N → N → bool).

Fixpoint like (p : list pattern_item) (s : jsstring) : bool :=
  match p with
  | [] => bool_decide (s = [])
  | AnyText :: p' =>
      (fix any (s : jsstring) : bool :=
         like p' s || match s with [] => false | _ :: s' => any s' end) s
  | AnyUnit :: p' => match s with [] => false | _ :: s' => like p' s' end
  | Unit_ c :: p' => match s with [] => false | d :: s' => same c d && like p' s' end
  end.

(** One clause [field ilike '...'], at the start of a text. *)
Definition expect (prefix s : jsstring) : option jsstring :=
  if startsWith s prefix then Some (drop (length prefix) s) else None.

Fixpoint read_word (s : jsstring) : jsstring * jsstring :=
  match s with
  | [] => ([], [])
  | c :: t => if (c =? 32)%N then ([], s) else let r := read_word t in (c :: r.1, r.2)
  end.

Definition read_clause (s : jsstring) : option (jsstring * list pattern_item * jsstring) :=
  let (field, t) := read_word s in
  expect (js " ilike '") t ≫= λ t1,
  read_literal t1 ≫= λ r,
  read_pattern r.1 ≫= λ p,
  Some (field, p, r.2).

(** A disjunction of clauses; [fuel] bounds their number. *)
Fixpoint read_search (fuel : nat) (s : jsstring) : option (list (jsstring * list pattern_item)) :=
  match fuel with
  | O => None
  | S f =>
      read_clause s ≫= λ c,
      match c.2 with
      | [] => Some [c.1]
      | t => expect (js " or ") t ≫= λ t', cons c.1 <$> read_search f t'
      end
  end.

(** A filter selects a row when one of its clauses does. *)
Definition selects (clauses : list (jsstring * list pattern_item)) (row : jsstring → jsstring) :
    bool :=
  existsb (λ c, like c.2 (row c.1)) clauses.
End like.

(** The list of [id in ('...', '...')]. *)
Fixpoint read_ids (fuel : nat) (s : jsstring) : option (list jsstring) :=
  match fuel with
  | O => None
  | S f =>
      expect (js "'") s ≫= λ t,
      read_literal t ≫= λ r,
      if decide (r.2 = js ")") then Some [r.1]
      else expect (js ", ") r.2 ≫= λ t', cons r.1 <$> read_ids f t'
  end.

Definition read_id_search (s : jsstring) : option (list jsstring) :=
  expect (js "id in (") s ≫= λ t, read_ids (length s) t.

(** * Lemmas: escaping *)

(** The pattern escapes alone. *)
Definition like_escape_unit (c : N) : jsstring :=
  if bool_decide (c ∈ [backslash; percent; underscore]) then [backslash; c] else [c].

Definition like_escape (s : jsstring) : jsstring := s ≫= like_escape_unit.

Lemma like_escape_cons c s : like_escape (c :: s) = like_escape_unit c ++ like_escape s.
Proof. done. Qed.

Lemma replaceAll_units s c rep : replaceAll s c rep = s ≫= λ d, if (d =? c)%N then rep else [d].
Proof. done. Qed.

(** Escaping for [ilike] is pattern escaping inside a quoted literal. *)
Lemma escapeIlikeLiteral_split s :
  escapeIlikeLiteral s = escapeSearchLiteral (like_escape s).
Proof.
  unfold escapeIlikeLiteral, escapeSearchLiteral.
  induction s as [|c s IH]; [done|].
  rewrite like_escape_cons. autorewrite with js_simp. rewrite IH. f_equal. clear IH.
  unfold like_escape_unit.
  destruct (decide (c = quote)) as [->|H1]; [done|].
  destruct (decide (c = backslash)) as [->|H2]; [done|].
  destruct (decide (c = percent)) as [->|H3]; [done|].
  destruct (decide (c = underscore)) as [->|H4]; [done|].
  rewrite bool_decide_eq_false_2 by set_solver.
  repeat (simpl; rewrite (proj2 (N.eqb_neq _ _)) by done). done.
Qed.

Lemma read_literal_escape s rest :
  head rest ≠ Some quote →
  read_literal (escapeSearchLiteral s ++ quote :: rest) = Some (s, rest).
Proof.
  intros Hr. unfold escapeSearchLiteral. induction s as [|c s IH].
  - destruct rest as [|d rest]; [done|]. simpl in *.
    rewrite (proj2 (N.eqb_neq d quote)) by congruence. done.
  - rewrite replaceAll_cons. destruct (N.eqb_spec c quote) as [->|Hc]; simpl.
    + by rewrite IH.
    + rewrite (proj2 (N.eqb_neq c quote)) by done. by rewrite IH.
Qed.

Lemma read_pattern_escape s t :
  read_pattern (like_escape s ++ t) = app (map Unit_ s) <$> read_pattern t.
Proof.
  induction s as [|c s IH]; [by simpl; destruct (read_pattern t)|].
  rewrite like_escape_cons, <- (assoc_L (++)). unfold like_escape_unit.
  case_bool_decide as Hc; simpl.
  - rewrite IH. by destruct (read_pattern t).
  - rewrite !(proj2 (N.eqb_neq c _)) by set_solver. rewrite IH. by destruct (read_pattern t).
Qed.

Lemma escape_percent s : escapeSearchLiteral (js "%" ++ s) = js "%" ++ escapeSearchLiteral s.
Proof. done. Qed.

Lemma escape_app s t :
  escapeSearchLiteral (s ++ t) = escapeSearchLiteral s ++ escapeSearchLiteral t.
Proof. apply replaceAll_app. Qed.

(** A field name is one word. *)
Lemma read_word_app w t : (32 ∉ w)%N → head t = Some 32%N → read_word (w ++ t) = (w, t).
Proof.
  intros Hw Ht. induction w as [|c w IH]; simpl.
  - destruct t; simplify_eq/=. done.
  - rewrite (proj2 (N.eqb_neq c 32)) by set_solver. rewrite IH by set_solver. done.
Qed.

Lemma expect_app p t : expect p (p ++ t) = Some t.
Proof. unfold expect. by rewrite startsWith_app, drop_app_length. Qed.

Lemma read_clause_ilike field q rest :
  (32 ∉ field)%N → head rest ≠ Some quote →
  read_clause (ilike_clause (escapeIlikeLiteral q) field ++ rest) =
  Some (field, AnyText :: map Unit_ q ++ [AnyText], rest).
Proof.
  intros Hf Hr. unfold read_clause, ilike_clause.
  rewrite <- !(assoc_L (++)), read_word_app by done.
  change (js " ilike '%") with (js " ilike '" ++ js "%").
  rewrite <- (assoc_L (++)), expect_app. cbn [mbind option_bind].
  rewrite escapeIlikeLiteral_split.
  change (js "%" ++ escapeSearchLiteral (like_escape q) ++ js "%'" ++ rest)
    with (escapeSearchLiteral (js "%" ++ like_escape q) ++ escapeSearchLiteral (js "%") ++ quote :: rest).
  rewrite (assoc_L (++)), <- escape_app, read_literal_escape by done.
  cbn [mbind option_bind fst snd].
  change ((js "%" ++ like_escape q) ++ js "%") with (percent :: (like_escape q ++ js "%")).
  cbn [read_pattern]. rewrite read_pattern_escape. done.
Qed.

(** * Lemmas: matching *)

(** [q] occurs in [s], up to the comparison of units. *)
Definition contains (same : N → N → bool) (q s : jsstring) : Prop :=
  ∃ a m b, s = a ++ m ++ b ∧ Forall2 (λ c d, same c d = true) q m.

Section matching.
Context (same : N → N → bool).

Lemma like_any p s : like same (AnyText :: p) s = true ↔ ∃ a b, s = a ++ b ∧ like same p b = true.
Proof.
  induction s as [|c s IH].
  - cbn. rewrite orb_false_r. split; [by exists [], []|].
    intros (a & b & H & Hb). symmetry in H. by apply app_eq_nil in H as [-> ->].
  - change (like same (AnyText :: p) (c :: s)) with
      (like same p (c :: s) || like same (AnyText :: p) s).
    rewrite orb_true_iff, IH. split.
    + intros [H|(a & b & -> & H)]; [by exists [], (c :: s)|by exists (c :: a), b].
    + intros ([|d a] & b & H & Hb); simplify_eq/=; [by left|right; by exists a, b].
Qed.

Lemma like_units q p s :
  like same (map Unit_ q ++ p) s = true ↔
  ∃ m b, s = m ++ b ∧ Forall2 (λ c d, same c d = true) q m ∧ like same p b = true.
Proof.
  revert s. induction q as [|c q IH]; intros s; simpl.
  - split; [intros H; exists [], s; by repeat constructor|].
    intros (m & b & -> & H & Hb). inversion H; subst. done.
  - destruct s as [|d s]; [split; [done|]|].
    + intros (m & b & H & Hm & _). symmetry in H. apply app_eq_nil in H as [-> ->].
      inversion Hm.
    + rewrite andb_true_iff, IH. split.
      * intros (Hs & m & b & -> & Hm & Hb). exists (d :: m), b. by repeat constructor.
      * intros (m & b & H & Hm & Hb). inversion Hm as [|x y q' m' Hxy Hq]; subst.
        simplify_eq/=. split; [done|]. by exists m', b.
Qed.

Lemma like_contains q s :
  like same (AnyText :: map Unit_ q ++ [AnyText]) s = true ↔ contains same q s.
Proof.
  rewrite like_any. unfold contains. split.
  - intros (a & b & -> & H). apply like_units in H as (m & b' & -> & Hm & _).
    by exists a, m, b'.
  - intros (a & m & b & -> & Hm). exists a, (m ++ b). split; [done|].
    apply like_units. exists m, b. split_and!; [done..|].
    apply like_any. exists b, []. by rewrite app_nil_r.
Qed.
End matching.

Lemma read_ids_escape ids fuel :
  ids ≠ [] → length ids ≤ fuel →
  read_ids fuel (joinWith (js ", ") (map (λ i, js "'" ++ escapeSearchLiteral i ++ js "'") ids)
                 ++ js ")") = Some ids.
Proof.
  revert fuel. induction ids as [|i ids IH]; intros [|fuel] Hne Hf; cbn [length] in Hf; try done; [lia|].
  cbn [read_ids map]. assert (H : ∀ rest, head rest ≠ Some quote →
    (expect (js "'") ((js "'" ++ escapeSearchLiteral i ++ js "'") ++ rest) ≫= λ t,
      read_literal t) = Some (i, rest)).
  { intros rest Hr. rewrite <- !(assoc_L (++)), expect_app. by apply read_literal_escape. }
  destruct ids as [|j ids].
  - specialize (H (js ")") ltac:(done)).
    cbn [joinWith]. destruct (expect _ _) as [t|]; [|done]. cbn in *. by rewrite H.
  - cbn [map]. rewrite joinWith_cons by done. rewrite <- !(assoc_L (++)) in *.
    match goal with |- context [js ", " ++ ?r] => set (rest := r) in * end.
    specialize (H (js ", " ++ rest) ltac:(done)). rewrite <- !(assoc_L (++)) in H.
    destruct (expect _ _) as [t|]; [|done]. cbn [mbind option_bind] in *. rewrite H.
    cbn [mbind option_bind fst snd]. rewrite decide_False by done. rewrite expect_app.
    cbn [mbind option_bind]. unfold rest.
    change (joinWith _ _ ++ _) with (joinWith (js ", ") (map (λ i, js "'" ++ escapeSearchLiteral i ++ js "'") (j :: ids)) ++ js ")").
    rewrite IH; [done|done|cbn [length] in *; lia].
Qed.

Lemma length_joined sep (f : jsstring → jsstring) l :
  (∀ s, 1 ≤ length (f s)) → length l ≤ length (joinWith sep (map f l)).
Proof.
  intros Hf. induction l as [|s l IH]; simpl; [lia|].
  specialize (Hf s). destruct l as [|t l]; simpl in *; [lia|]. rewrite !length_app. lia.
Qed.

(** A disjunction of clauses for one query reads back as its clauses. *)
Lemma read_search_ilike q fields fuel :
  fields ≠ [] → length fields ≤ fuel → Forall (λ f : jsstring, (32 ∉ f)%N) fields →
  read_search fuel (joinWith (js " or ") (map (ilike_clause (escapeIlikeLiteral q)) fields)) =
  Some (map (λ f, (f, AnyText :: map Unit_ q ++ [AnyText])) fields).
Proof.
  revert fuel. induction fields as [|f fields IH]; intros [|fuel] Hne Hl Hf;
    cbn [length] in Hl; try done; [lia|].
  apply Forall_cons in Hf as [Hf Hfs]. cbn [read_search map].
  destruct fields as [|g fields].
  - cbn [map joinWith]. rewrite <- (app_nil_r (ilike_clause _ f)).
    by rewrite read_clause_ilike.
  - cbn [map]. rewrite joinWith_cons by done.
    match goal with |- context [js " or " ++ ?r] => set (rest := r) end.
    rewrite read_clause_ilike by done. cbn [mbind option_bind snd].
    destruct (js " or " ++ rest) as [|c t] eqn:E; [done|]. rewrite <- E, expect_app.
    cbn [mbind option_bind]. unfold rest.
    change (map _ (g :: fields)) with (map (ilike_clause (escapeIlikeLiteral q)) (g :: fields)).
    specialize (IH fuel ltac:(done) ltac:(cbn [length] in *; lia) Hfs).
    cbn [map] in IH. rewrite IH. done.
Qed.

Lemma selects_ilike same q fields row :
  selects same (map (λ f, (f, AnyText :: map Unit_ q ++ [AnyText])) fields) row = true ↔
  ∃ f, f ∈ fields ∧ contains same q (row f).
Proof.
  unfold selects. rewrite existsb_exists. setoid_rewrite <- list_elem_of_In.
  setoid_rewrite list_elem_of_fmap. split.
  - intros (c & (f & -> & Hf) & Hc). exists f. split; [done|]. by apply like_contains in Hc.
  - intros (f & Hf & Hc). eexists. split; [by exists f|]. by apply like_contains.
Qed.

(** * Lemmas: normalised identifiers *)

Lemma normalizeGatewayPlacementClusterIds_elem l i :
  i ∈ normalizeGatewayPlacementClusterIds l ↔ i ≠ [] ∧ ∃ j, j ∈ l ∧ i = trim j.
Proof.
  unfold normalizeGatewayPlacementClusterIds.
  rewrite js_sort_Permutation, elem_of_nub, list_elem_of_filter, list_elem_of_fmap.
  destruct i; naive_solver.
Qed.

Lemma normalizeGatewayPlacementClusterIds_NoDup l : NoDup (normalizeGatewayPlacementClusterIds l).
Proof.
  unfold normalizeGatewayPlacementClusterIds. rewrite js_sort_Permutation. apply NoDup_nub.
Qed.

(** Reading the cluster filter back. *)
Lemma read_idSearch ids : ids ≠ [] → read_id_search (idSearch ids) = Some ids.
Proof.
  intros Hne. unfold read_id_search, idSearch. rewrite expect_app. cbn [mbind option_bind].
  apply read_ids_escape; [done|]. rewrite !length_app.
  pose proof (length_joined (js ", ") (λ i, js "'" ++ escapeSearchLiteral i ++ js "'") ids) as H.
  etransitivity; [apply H; intros s; rewrite !length_app; simpl; lia|]. lia.
Qed.

(** * Properties *)

(** C9 Whatever the user types into the gateway search box, quotes, backslashes
    and wildcards included, the filter the API receives is well formed and
    selects exactly the gateways one of whose five searched fields contains the
    trimmed text, under the server's comparison of letters; a blank text sends
    no filter. *)
Theorem gatewaySearch_means (same : N → N → bool) (value : jsstring) :
  match gatewaySearch value with
  | None => trim value = []
  | Some filter =>
      ∃ clauses, read_search (length searchFields) filter = Some clauses ∧
        ∀ row, selects same clauses row = true ↔
          ∃ f, f ∈ searchFields ∧ contains same (trim value) (row f)
  end.
Proof.
  unfold gatewaySearch. destruct (is_nonempty (trim value)) eqn:E; [|by destruct (trim value)].
  eexists. split; [apply read_search_ilike; [done|done|]|intros row; apply selects_ilike].
  repeat constructor; set_solver.
Qed.

(** The placement filter selects exactly the clusters whose name contains
    the trimmed text, and is left out exactly for a blank text. *)
Theorem placementSearch_means (same : N → N → bool) (search : jsstring) :
  match placementSearch search with
  | None => trim search = []
  | Some filter =>
      ∃ clauses, read_search 1 filter = Some clauses ∧
        ∀ row, selects same clauses row = true ↔ contains same (trim search) (row (js "name"))
  end.
Proof.
  unfold placementSearch. destruct (is_nonempty (escapeIlikeLiteral (trim search))) eqn:E.
  - eexists. split; [apply (read_search_ilike _ [js "name"]); [done|done|repeat constructor; set_solver]|].
    intros row. rewrite selects_ilike. set_solver.
  - destruct (trim search) as [|c t] eqn:Ht; [done|]. exfalso. revert E.
    rewrite escapeIlikeLiteral_split, like_escape_cons, escape_app.
    unfold like_escape_unit. case_bool_decide; unfold escapeSearchLiteral; simpl; [done|].
    by case_match.
Qed.

(** The cluster filter names exactly the requested identifiers, whatever they
    contain. *)
Theorem idSearch_roundtrip (ids : list jsstring) :
  ids ≠ [] → read_id_search (idSearch ids) = Some ids.
Proof.
  apply read_idSearch.
Qed.

Lemma idSearch_roundtrip_witness :
  read_id_search (idSearch [js "it's"; js "') or ('1'='1"]) = Some [js "it's"; js "') or ('1'='1"].
Proof. refine (idSearch_roundtrip [js "it's"; js "') or ('1'='1"] _). done. Defined.

(** Normalised cluster identifiers are sorted, distinct, trimmed and
    non-blank; they are exactly the trimmed non-blank ones given, so neither
    order, repetition nor a second normalisation changes them. *)
Theorem normalizeGatewayPlacementClusterIds_correct (ids : list jsstring) :
  let r := normalizeGatewayPlacementClusterIds ids in
  StronglySorted js_le r ∧ NoDup r ∧
  (∀ i, i ∈ r ↔ i ≠ [] ∧ ∃ j, j ∈ ids ∧ i = trim j) ∧
  (∀ ids', (∀ i, i ∈ ids ↔ i ∈ ids') → normalizeGatewayPlacementClusterIds ids' = r) ∧
  normalizeGatewayPlacementClusterIds r = r.
Proof.
  intros r. pose proof normalizeGatewayPlacementClusterIds_elem as Hin.
  pose proof normalizeGatewayPlacementClusterIds_NoDup as Hnd.
  assert (Hsame : ∀ l l', (∀ i, i ∈ normalizeGatewayPlacementClusterIds l ↔
    i ∈ normalizeGatewayPlacementClusterIds l') →
    normalizeGatewayPlacementClusterIds l = normalizeGatewayPlacementClusterIds l').
  { intros l l' H. apply (StronglySorted_unique js_le); try apply js_sort_sorted.
    by apply NoDup_Permutation. }
  split_and!; [apply js_sort_sorted|apply Hnd|apply Hin| |].
  - intros ids' H. apply Hsame. intros i. rewrite !Hin. by setoid_rewrite H.
  - apply Hsame. intros i. rewrite Hin. unfold r. setoid_rewrite Hin. split.
    + intros (Hi & j & (_ & k & Hk & ->) & ->). rewrite trim_idemp in *. eauto.
    + intros (Hi & k & Hk & ->). split; [done|]. exists (trim k).
      rewrite trim_idemp. naive_solver.
Qed.
