(* ===== verification/ApiAdapter.v ===== *)
(** The control-plane adapter ([adapters/api/gateway-operations.ts]): response
    validation, the mapping of API resources to application records, the mapping
    of SDK failures, and the thirteen control-plane operations over the
    generated client, which is a record of operations here. [JSON.parse] is an
    argument: the adapter only reads string properties of what it returns. *)
From S2P Require Export GatewayOperations GatewaySearch.

(** * The API's resources, as the generated types declare them *)

Record ApiGateway := {
  ag_active_sandbox_count : option num;
  ag_cluster_id : jsstring;
  ag_console_address : option jsstring;
  ag_created_at : option jsstring;
  ag_created_by : option jsstring;
  ag_external_dns : option jsstring;
  ag_id : option jsstring;
  ag_name : jsstring;
  ag_namespace : jsstring;
  ag_oidc : option jsstring;
  ag_phase : option jsstring;
  ag_release_id : jsstring;
  ag_route_address : option jsstring;
  ag_status : option jsstring
}.

Record ManagedCluster := {
  mc_id : option jsstring;
  mc_name : jsstring;
  mc_provider : jsstring;
  mc_region : option jsstring;
  mc_status : option jsstring
}.

Record ApiServiceAccount := {
  aa_client_id : jsstring;
  aa_created_at : jsstring;
  aa_created_by_user_id : jsstring;
  aa_description : option jsstring;
  aa_expires_at : jsstring;
  aa_gateway_id : jsstring;
  aa_id : jsstring;
  aa_last_error : option jsstring;
  aa_name : jsstring;
  aa_revoked_at : option jsstring;
  aa_role : ServiceAccountRole;
  aa_status : ServiceAccountStatus;
  aa_subject : jsstring;
  aa_updated_at : jsstring
}.

Record ApiConnection := {
  ac_access_token_lifetime_seconds : num;
  ac_audience : jsstring;
  ac_client_id : jsstring;
  ac_gateway_endpoint : option jsstring;
  ac_gateway_name : jsstring;
  ac_issuer : jsstring;
  ac_token_endpoint : jsstring
}.

Record ApiCredential := { acr_connection : ApiConnection; acr_client_secret : jsstring }.

Record ApiCapabilities := {
  acap_allowed_roles : list ServiceAccountRole;
  acap_can_create : bool;
  acap_can_manage_all : bool;
  acap_default_seconds : num;
  acap_maximum_seconds : num;
  acap_minimum_seconds : num
}.

(** A list response: the paging fields are optional. *)
Record ApiList (T : Type) := {
  al_items : option (list T);
  al_page : option num;
  al_total : option num
}.
Arguments al_items {T}.
Arguments al_page {T}.
Arguments al_total {T}.

(** A service-account list adds its size and the caller's capabilities. *)
Record ApiServiceAccountList := {
  asl_list : ApiList ApiServiceAccount;
  asl_size : num;
  asl_capabilities : ApiCapabilities
}.

(** * Requests *)

Record RequestOptions := {
  ro_signal : option AbortSignal;
  ro_traceparent : option jsstring
}.

Record ListQuery := {
  lq_orderBy : jsstring;
  lq_page : num;
  lq_search : option jsstring;
  lq_size : num
}.

Record ServiceAccountBody := {
  sb_description : option jsstring;
  sb_expires_at : jsstring;
  sb_name : jsstring;
  sb_role : ServiceAccountRole
}.

Record GatewayBody := {
  gb_cluster_id : jsstring;
  gb_name : jsstring;
  gb_release_id : jsstring;
  gb_route : jsstring
}.

(** The operations of the generated client that the adapter calls. *)
Record GatewayApiClient (W : Type) := {
  api_createGateway : GatewayBody → RequestOptions → M thrown W ApiGateway;
  api_deleteGateway : jsstring → RequestOptions → M thrown W unit;
  api_getGateway : jsstring → RequestOptions → M thrown W ApiGateway;
  api_listGateways : ListQuery → RequestOptions → M thrown W (ApiList ApiGateway);
  api_renameGateway : jsstring → jsstring → RequestOptions → M thrown W ApiGateway;
  api_getManagedCluster : jsstring → RequestOptions → M thrown W ManagedCluster;
  api_listManagedClusters : ListQuery → RequestOptions → M thrown W (ApiList ManagedCluster);
  api_createServiceAccount : jsstring → ServiceAccountBody → RequestOptions →
    M thrown W (ApiServiceAccount * ApiCredential);
  api_deleteServiceAccount : jsstring → jsstring → RequestOptions → M thrown W unit;
  api_getServiceAccount : jsstring → jsstring → RequestOptions →
    M thrown W (ApiServiceAccount * ApiConnection);
  api_listServiceAccounts : jsstring → ServiceAccountListRequest → RequestOptions →
    M thrown W ApiServiceAccountList;
  api_revokeServiceAccount : jsstring → jsstring → RequestOptions → M thrown W ApiServiceAccount
}.
Arguments api_createGateway {W}.
Arguments api_deleteGateway {W}.
Arguments api_getGateway {W}.
Arguments api_listGateways {W}.
Arguments api_renameGateway {W}.
Arguments api_getManagedCluster {W}.
Arguments api_listManagedClusters {W}.
Arguments api_createServiceAccount {W}.
Arguments api_deleteServiceAccount {W}.
Arguments api_getServiceAccount {W}.
Arguments api_listServiceAccounts {W}.
Arguments api_revokeServiceAccount {W}.

(** * Validation and mapping *)

Definition unavailable : thrown :=
  ThrowGateway (gatewayOperationError KUnavailable None None None).

(** [requirePage] narrows the three optional fields. *)
Definition requirePage {T} (v : ApiList T) : result thrown (num * num * list T) :=
  match al_page v, al_total v, al_items v with
  | Some page, Some total, Some items =>
      if negb (is_safe_integer page) || num_lt page (NInt 1) || negb (is_safe_integer total)
         || num_lt total (NInt 0)
      then Err unavailable else Ok (page, total, items)
  | _, _, _ => Err unavailable
  end.

Definition placementPageSize : num := lr_size defaultGatewayListRequest.

Definition gatewaySortFields (f : GatewaySortField) : jsstring :=
  match f with
  | SortCluster => js "cluster_id"
  | SortCreated => js "created_at"
  | SortEndpoint => js "route_address"
  | SortName => js "name"
  | SortOwner => js "created_by"
  | SortStatus => js "status"
  end.

(** An [unknown] value that should be a string. *)
Definition optionalString (v : jsval) : jsstring :=
  match v with VStr s => trim s | _ => [] end.

Definition opt_val (o : option jsstring) : jsval :=
  match o with Some s => VStr s | None => VUndef end.

(** [...(s ? { key: s } : {})] *)
Definition if_nonempty (s : jsstring) : option jsstring :=
  match s with [] => None | _ => Some s end.

Definition endpointFromRouteAddress (routeAddress : option jsstring) : option jsstring :=
  match routeAddress with
  | None | Some [] => None
  | Some s =>
      Some (if startsWith s (js "grpc://") then drop 7 s
            else if startsWith s (js "grpcs://") then drop 8 s else s)
  end.

Section mapping.
Context (JSON_parse : jsstring → option jsval).

Definition jsonObject (value : option jsstring) : option jsval :=
  match JSON_parse (default [] value) with
  | Some (VObj l) => Some (VObj l)
  | _ => None
  end.

(** [oidc?.key] *)
Definition oidc_prop (oidc : option jsval) (k : jsstring) : jsval :=
  match oidc with Some v => val_prop v k | None => VUndef end.

Definition toGatewayRecord (g : ApiGateway) : result thrown GatewayRecord :=
  match ag_id g with
  | None | Some [] => Err unavailable
  | Some id =>
      let oidc := jsonObject (ag_oidc g) in
      let externalDns := optionalString (opt_val (ag_external_dns g)) in
      Ok {|
        gr_activeSandboxCount := ag_active_sandbox_count g;
        gr_clusterId := ag_cluster_id g;
        gr_consoleUrl := if_nonempty (optionalString (opt_val (ag_console_address g)));
        gr_createdAt := ag_created_at g ≫= if_nonempty;
        gr_createdBy := if_nonempty (optionalString (opt_val (ag_created_by g)));
        gr_externalDns := match externalDns with
                          | [] => endpointFromRouteAddress (ag_route_address g)
                          | _ => Some externalDns
                          end;
        gr_id := id;
        gr_name := ag_name g;
        gr_namespace := ag_namespace g;
        gr_oidcAudience := if_nonempty (optionalString (oidc_prop oidc (js "audience")));
        gr_oidcClientId := if_nonempty (optionalString (oidc_prop oidc (js "client_id")));
        gr_oidcIssuer := if_nonempty (optionalString (oidc_prop oidc (js "issuer")));
        gr_phase := ag_phase g;
        gr_releaseId := ag_release_id g;
        gr_status := ag_status g |}
  end.
End mapping.

Definition toServiceAccountRecord (a : ApiServiceAccount) : ServiceAccountRecord := {|
  sa_clientId := aa_client_id a;
  sa_createdAt := aa_created_at a;
  sa_createdByUserId := aa_created_by_user_id a;
  sa_description := if_nonempty (optionalString (opt_val (aa_description a)));
  sa_expiresAt := aa_expires_at a;
  sa_gatewayId := aa_gateway_id a;
  sa_id := aa_id a;
  sa_lastError := if_nonempty (optionalString (opt_val (aa_last_error a)));
  sa_name := aa_name a;
  sa_revokedAt := if_nonempty (optionalString (opt_val (aa_revoked_at a)));
  sa_role := aa_role a;
  sa_status := aa_status a;
  sa_subject := aa_subject a;
  sa_updatedAt := aa_updated_at a
|}.

Definition toServiceAccountConnection (c : ApiConnection) : ServiceAccountConnection := {|
  cn_accessTokenLifetimeSeconds := ac_access_token_lifetime_seconds c;
  cn_audience := ac_audience c;
  cn_clientId := ac_client_id c;
  cn_gatewayEndpoint := ac_gateway_endpoint c ≫= if_nonempty;
  cn_gatewayName := ac_gateway_name c;
  cn_issuer := ac_issuer c;
  cn_tokenEndpoint := ac_token_endpoint c
|}.

Definition toServiceAccountCredential (c : ApiCredential) : ServiceAccountCredential := {|
  cr_connection := toServiceAccountConnection (acr_connection c);
  cr_clientSecret := acr_client_secret c
|}.

Definition toServiceAccountCapabilities (c : ApiCapabilities) : ServiceAccountCapabilities := {|
  cap_allowedRoles := acap_allowed_roles c;
  cap_canCreate := acap_can_create c;
  cap_canManageAll := acap_can_manage_all c;
  cap_expirationPolicy := {|
    ep_defaultSeconds := acap_default_seconds c;
    ep_maximumSeconds := acap_maximum_seconds c;
    ep_minimumSeconds := acap_minimum_seconds c |}
|}.

Definition toGatewayPlacement (c : ManagedCluster) : result thrown GatewayPlacement :=
  match mc_id c with
  | None | Some [] => Err unavailable
  | Some id => Ok {|
      pl_id := id;
      pl_name := mc_name c;
      pl_provider := mc_provider c;
      pl_region := if_nonempty (optionalString (opt_val (mc_region c)));
      pl_status := if_nonempty (optionalString (opt_val (mc_status c))) |}
  end.

(** [items.map(f)] for an [f] that may throw: the first failure is thrown. *)
Fixpoint map_result {A B} (f : A → result thrown B) (l : list A) : result thrown (list B) :=
  match l with
  | [] => Ok []
  | a :: l' =>
      match f a with
      | Err e => Err e
      | Ok b => match map_result f l' with Err e => Err e | Ok bs => Ok (b :: bs) end
      end
  end.

(** * Failures *)

Definition gatewayFailureKind (statusCode : num) : GatewayFailureKind :=
  if num_eqb statusCode (NInt 401) || num_eqb statusCode (NInt 403) then KDenied
  else if num_eqb statusCode (NInt 404) then KNotFound
  else if num_eqb statusCode (NInt 409) then KConflict
  else if num_eqb statusCode (NInt 408) || num_eqb statusCode (NInt 429)
          || num_ge statusCode (NInt 500) then KUnavailable
  else KUnknown.

Definition gatewayFailureCode (code : jsstring) : option GatewayFailureCode :=
  if decide (code = js "service_account_name_exists") then Some ServiceAccountNameExists
  else None.

Definition mapped_error (e : SDKError) : thrown :=
  ThrowGateway (gatewayOperationError (gatewayFailureKind (sdk_status e))
    (gatewayFailureCode (default [] (sdk_apiCode e))) None (Some e)).

Definition length_num {A} (l : list A) : num := NInt (Z.of_nat (length l)).

(** The query for the clusters of given identifiers. *)
Definition placements_query (ids : list jsstring) : ListQuery := {|
  lq_orderBy := js "id asc"; lq_page := NInt 1; lq_search := Some (idSearch ids);
  lq_size := length_num ids |}.

(** The query of one page of gateways. *)
Definition gateway_query (request : GatewayListRequest) : ListQuery := {|
  lq_orderBy := gatewaySortFields (lr_sortField request) ++ js " " ++
                sortDirection_str (lr_sortDirection request);
  lq_page := lr_page request; lq_search := gatewaySearch (lr_search request);
  lq_size := lr_size request |}.

Section adapter.
Context {W : Type} (JSON_parse : jsstring → option jsval)
  (apiFactory : jsstring → M thrown W (GatewayApiClient W))
  (onReauthRequired : option (M thrown W unit))
  (traceParentFor : option (jsstring → M thrown W (option jsstring))).

Definition mapSDKFailure {T} (task : M thrown W T) : M thrown W T :=
  try_catch task (λ error,
    match error with
    | ThrowSDK e =>
        (if decide (sdk_code e = js "reauth_required")
         then match onReauthRequired with Some callback => callback | None => mret tt end
         else mret tt) ≫= λ _, throw (mapped_error e)
    | _ => throw error
    end).

Definition requestOptions (context : GatewayInvocationContext) : M thrown W RequestOptions :=
  match traceParentFor with
  | Some f => f (ctx_correlationId context)
  | None => mret None
  end ≫= λ traceparent,
  mret {| ro_signal := ctx_signal context; ro_traceparent := traceparent |}.

(** A client for the call's correlation id, then the request options, then the call. *)
Definition call_api {T} (context : GatewayInvocationContext)
    (k : GatewayApiClient W → RequestOptions → M thrown W T) : M thrown W T :=
  apiFactory (ctx_correlationId context) ≫= λ client,
  requestOptions context ≫= λ options, k client options.

(** The items a page must hold, from [page], [size] and [total]. *)
Definition expectedItemCount (page size total : num) : num :=
  num_max (NInt 0) (num_min size (num_sub total (num_mul (num_sub page (NInt 1)) size))).

Definition createServiceAccount_task (gatewayId : jsstring) (input : ServiceAccountCreateInput)
    (context : GatewayInvocationContext) : M thrown W ServiceAccountCreateResult :=
  call_api context (λ client, api_createServiceAccount client gatewayId {|
    sb_description := si_description input; sb_expires_at := si_expiresAt input;
    sb_name := si_name input; sb_role := si_role input |}) ≫= λ response,
  mret {| sc_credential := toServiceAccountCredential response.2;
          sc_serviceAccount := toServiceAccountRecord response.1 |}.

Definition findGatewayPlacements_task (search : jsstring) (context : GatewayInvocationContext) :
    M thrown W GatewayPlacementOptions :=
  call_api context (λ client, api_listManagedClusters client {|
    lq_orderBy := js "name asc"; lq_page := NInt 1; lq_search := placementSearch search;
    lq_size := placementPageSize |}) ≫= λ response,
  lift_result (requirePage response) ≫= λ '(page, total, items),
  let expected := num_min placementPageSize total in
  if negb (num_eqb page (NInt 1)) || num_lt total (NInt 0)
     || negb (num_eqb (length_num items) expected)
  then throw unavailable
  else
    lift_result (map_result toGatewayPlacement items) ≫= λ placements,
    mret {| po_hasMore := num_gt total (length_num items); po_items := placements |}.

Definition getGatewayPlacements_task (clusterIds : list jsstring)
    (context : GatewayInvocationContext) : M thrown W (list GatewayPlacement) :=
  let ids := normalizeGatewayPlacementClusterIds clusterIds in
  if decide (length ids = 0) then mret []
  else
    call_api context (λ client, api_listManagedClusters client (placements_query ids))
      ≫= λ response,
    lift_result (requirePage response) ≫= λ '(page, total, items),
    lift_result (map_result toGatewayPlacement items) ≫= λ placements,
    let returned := map pl_id placements in
    if negb (num_eqb page (NInt 1)) || num_lt total (NInt 0)
       || num_gt total (length_num ids) || negb (num_eqb (length_num items) total)
       || negb (num_eqb (length_num (nub returned)) (length_num returned))
       || existsb (λ clusterId, negb (bool_decide (clusterId ∈ ids))) returned
    then throw unavailable
    else lift_result (map_result toGatewayPlacement items).

Definition listGateways_task (request : GatewayListRequest) (context : GatewayInvocationContext) :
    M thrown W (GatewayPage GatewayRecord) :=
  call_api context (λ client, api_listGateways client (gateway_query request)) ≫= λ response,
  lift_result (requirePage response) ≫= λ '(page, total, items),
  if negb (num_eqb page (lr_page request)) || num_lt total (NInt 0)
     || negb (num_eqb (length_num items)
                (expectedItemCount (lr_page request) (lr_size request) total))
  then throw unavailable
  else
    lift_result (map_result (toGatewayRecord JSON_parse) items) ≫= λ records,
    mret {| gp_items := records; gp_page := page; gp_size := lr_size request;
            gp_total := total |}.

Definition listServiceAccounts_task (gatewayId : jsstring) (request : ServiceAccountListRequest)
    (context : GatewayInvocationContext) : M thrown W ServiceAccountPage :=
  call_api context (λ client, api_listServiceAccounts client gatewayId request) ≫= λ response,
  lift_result (requirePage (asl_list response)) ≫= λ '(page, total, items),
  if negb (num_eqb page (sl_page request)) || num_lt total (NInt 0)
     || negb (num_eqb (length_num items)
                (expectedItemCount (sl_page request) (sl_size request) total))
  then throw unavailable
  else mret {| sp_capabilities := toServiceAccountCapabilities (asl_capabilities response);
               sp_items := map toServiceAccountRecord items; sp_page := page;
               sp_size := asl_size response; sp_total := total |}.

(** [JSON.stringify({ enabled: true })] *)
Definition enabled_route : jsstring := js "{" ++ [34%N] ++ js "enabled" ++ [34%N] ++ js ":true}".

Definition deleteServiceAccount_task (gatewayId serviceAccountId : jsstring)
    (context : GatewayInvocationContext) : M thrown W unit :=
  call_api context (λ client, api_deleteServiceAccount client gatewayId serviceAccountId).

Definition getGatewayPlacement_task (clusterId : jsstring) (context : GatewayInvocationContext) :
    M thrown W GatewayPlacement :=
  call_api context (λ client, api_getManagedCluster client clusterId) ≫= λ c,
  lift_result (toGatewayPlacement c).

Definition getGateway_task (gatewayId : jsstring) (context : GatewayInvocationContext) :
    M thrown W GatewayRecord :=
  call_api context (λ client, api_getGateway client gatewayId) ≫= λ g,
  lift_result (toGatewayRecord JSON_parse g).

Definition getServiceAccount_task (gatewayId serviceAccountId : jsstring)
    (context : GatewayInvocationContext) : M thrown W ServiceAccountDetail :=
  call_api context (λ client, api_getServiceAccount client gatewayId serviceAccountId)
    ≫= λ response,
  mret {| sd_connection := toServiceAccountConnection response.2;
          sd_serviceAccount := toServiceAccountRecord response.1 |}.

Definition provisionGateway_task (input : GatewayProvisionInput)
    (context : GatewayInvocationContext) : M thrown W GatewayRecord :=
  call_api context (λ client, api_createGateway client {|
    gb_cluster_id := pi_clusterId input; gb_name := pi_name input; gb_release_id := [];
    gb_route := enabled_route |}) ≫= λ g,
  lift_result (toGatewayRecord JSON_parse g).

Definition removeGateway_task (gatewayId : jsstring) (context : GatewayInvocationContext) :
    M thrown W unit :=
  call_api context (λ client, api_deleteGateway client gatewayId).

Definition renameGateway_task (gatewayId name : jsstring) (context : GatewayInvocationContext) :
    M thrown W GatewayRecord :=
  call_api context (λ client, api_renameGateway client gatewayId name) ≫= λ g,
  lift_result (toGatewayRecord JSON_parse g).

Definition revokeServiceAccount_task (gatewayId serviceAccountId : jsstring)
    (context : GatewayInvocationContext) : M thrown W ServiceAccountRecord :=
  call_api context (λ client, api_revokeServiceAccount client gatewayId serviceAccountId)
    ≫= λ a, mret (toServiceAccountRecord a).

Definition createGatewayControlPlaneAdapter : GatewayControlPlane W := {|
  cp_createServiceAccount gatewayId input context :=
    mapSDKFailure (createServiceAccount_task gatewayId input context);
  cp_deleteServiceAccount gatewayId serviceAccountId context :=
    mapSDKFailure (deleteServiceAccount_task gatewayId serviceAccountId context);
  cp_findGatewayPlacements search context :=
    mapSDKFailure (findGatewayPlacements_task search context);
  cp_getGatewayPlacement clusterId context :=
    mapSDKFailure (getGatewayPlacement_task clusterId context);
  cp_getGatewayPlacements clusterIds context :=
    mapSDKFailure (getGatewayPlacements_task clusterIds context);
  cp_getGateway gatewayId context := mapSDKFailure (getGateway_task gatewayId context);
  cp_getServiceAccount gatewayId serviceAccountId context :=
    mapSDKFailure (getServiceAccount_task gatewayId serviceAccountId context);
  cp_listGateways request context := mapSDKFailure (listGateways_task request context);
  cp_listServiceAccounts gatewayId request context :=
    mapSDKFailure (listServiceAccounts_task gatewayId request context);
  cp_provisionGateway input context := mapSDKFailure (provisionGateway_task input context);
  cp_removeGateway gatewayId context := mapSDKFailure (removeGateway_task gatewayId context);
  cp_renameGateway gatewayId name context :=
    mapSDKFailure (renameGateway_task gatewayId name context);
  cp_revokeServiceAccount gatewayId serviceAccountId context :=
    mapSDKFailure (revokeServiceAccount_task gatewayId serviceAccountId context)
|}.

(** The request, validation and mapping of a control-plane call. *)
Definition adapter_task {T} (call : GatewayCall T) (context : GatewayInvocationContext) :
    M thrown W T :=
  match call in GatewayCall T return M thrown W T with
  | CallCreateServiceAccount g i => createServiceAccount_task g i context
  | CallDeleteServiceAccount g a => deleteServiceAccount_task g a context
  | CallFindGatewayPlacements s => findGatewayPlacements_task (trim s) context
  | CallGetGatewayPlacement c => getGatewayPlacement_task c context
  | CallGetGatewayPlacements cs => getGatewayPlacements_task cs context
  | CallGetGateway g => getGateway_task g context
  | CallGetServiceAccount g a => getServiceAccount_task g a context
  | CallListGateways r => listGateways_task r context
  | CallListServiceAccounts g r => listServiceAccounts_task g r context
  | CallProvisionGateway i => provisionGateway_task i context
  | CallRemoveGateway g => removeGateway_task g context
  | CallRenameGateway g n => renameGateway_task g n context
  | CallRevokeServiceAccount g a => revokeServiceAccount_task g a context
  end.
End adapter.

(** * Lemmas: paging arithmetic *)

(** Clamping a number that is not positive between 0 and a positive size. *)
Lemma max_min_nonpos s n :
  (1 ≤ s)%Z → num_le n (NInt 0) = true → num_max (NInt 0) (num_min (NInt s) n) = NInt 0.
Proof.
  intros Hs Hn. destruct n as [z|m e|[]|]; try done.
  - rewrite num_le_int in Hn. rewrite num_min_int, num_max_int. f_equal. bool_lia.
  - assert (Hm : (m ≤ 0)%Z).
    { unfold num_le, num_compare in Hn. rewrite Z.mul_0_l in Hn.
      destruct (Z.compare_spec m 0); lia || done. }
    assert (Hp : (0 < 2 ^ Z.pos e)%Z) by (by apply Z.pow_pos_nonneg).
    unfold num_min, num_compare. destruct (Z.compare_spec (s * 2 ^ Z.pos e) m); [nia|nia|].
    unfold num_max, num_compare. rewrite Z.mul_0_l. destruct (Z.compare_spec 0 m); done || lia.
Qed.

(** The count computed in doubles is the exact one, also where the product of
    page and size leaves the integers a double can hold. *)
Lemma expectedItemCount_exact p s t :
  (1 ≤ p ≤ max_safe)%Z → (1 ≤ s ≤ max_safe)%Z → (0 ≤ t ≤ max_safe)%Z →
  expectedItemCount (NInt p) (NInt s) (NInt t) =
  NInt (Z.max 0 (Z.min s (t - (p - 1) * s))).
Proof.
  unfold max_safe, expectedItemCount. intros Hp Hs Ht.
  change (num_sub (NInt p) (NInt 1)) with (round_int (p - 1)).
  rewrite (round_int_exact (p - 1)) by lia.
  change (num_mul (NInt (p - 1)) (NInt s)) with (round_int ((p - 1) * s)).
  assert (Hx : (0 ≤ (p - 1) * s)%Z) by nia.
  destruct (Z.leb_spec ((p - 1) * s) (2 ^ 53)) as [Hle|Hgt].
  - rewrite (round_int_exact ((p - 1) * s)) by lia.
    change (num_sub (NInt t) (NInt ((p - 1) * s))) with (round_int (t - (p - 1) * s)).
    rewrite round_int_exact by lia. by rewrite num_min_int, num_max_int.
  - rewrite max_min_nonpos; [f_equal; lia|lia|].
    destruct (round_int_big _ Hgt) as [->|(y & -> & Hy)]; [done|].
    destruct (round_int_nonpos (t - y)) as (n & <- & Hn); [lia|done].
Qed.

(** * Lemmas: validation *)

Lemma requirePage_Ok {T} (v : ApiList T) page total items :
  requirePage v = Ok (page, total, items) ↔
  ∃ p t, page = NInt p ∧ total = NInt t ∧ al_page v = Some (NInt p) ∧
    al_total v = Some (NInt t) ∧ al_items v = Some items ∧
    (1 ≤ p ≤ max_safe)%Z ∧ (0 ≤ t ≤ max_safe)%Z.
Proof.
  unfold requirePage. split.
  - destruct (al_page v) as [pg|], (al_total v) as [tt|], (al_items v) as [l|]; try done.
    destruct (is_safe_integer pg) eqn:Hp; [|done].
    destruct (is_safe_integer tt) eqn:Ht; [|by rewrite orb_true_r].
    apply is_safe_integer_inv in Hp as (p & -> & Hp). apply is_safe_integer_inv in Ht as (t & -> & Ht).
    simpl negb. rewrite !num_lt_int, !orb_false_r, orb_false_l.
    destruct (Z.ltb_spec p 1); [done|]. destruct (Z.ltb_spec t 0); [done|].
    intros [= <- <- <-]. exists p, t. split_and!; done || lia.
  - intros (p & t & -> & -> & -> & -> & -> & Hp & Ht).
    assert (Hs : ∀ z, (0 ≤ z ≤ max_safe)%Z → is_safe_integer (NInt z) = true).
    { intros z Hz. apply Z.leb_le. lia. }
    rewrite !Hs, !num_lt_int by lia. simpl.
    rewrite (proj2 (Z.ltb_ge _ _)), (proj2 (Z.ltb_ge _ _)) by lia. done.
Qed.

Lemma requirePage_Err {T} (v : ApiList T) e : requirePage v = Err e → e = unavailable.
Proof. unfold requirePage. repeat case_match; congruence. Qed.

Lemma map_result_Forall2 {A B} (f : A → result thrown B) l k :
  map_result f l = Ok k ↔ Forall2 (λ a b, f a = Ok b) l k.
Proof.
  revert k. induction l as [|a l IH]; intros k; simpl.
  - split; [by intros [= <-]|by inversion 1].
  - destruct (f a) as [b|e] eqn:Hf.
    + destruct (map_result f l) as [bs|e] eqn:Hl.
      * split; [intros [= <-]; constructor; [done|by apply IH]|].
        inversion 1 as [|? b' ? k' Hb Hk]; subst. apply IH in Hk. congruence.
      * split; [done|]. inversion 1 as [|? b' ? k' Hb Hk]; subst. apply IH in Hk. congruence.
    + split; [done|]. inversion 1; congruence.
Qed.

Lemma map_result_Err {A B} (f : A → result thrown B) l e :
  map_result f l = Err e → ∃ a, a ∈ l ∧ f a = Err e.
Proof.
  induction l as [|a l IH]; simpl; [done|]. destruct (f a) as [b|e'] eqn:Hf.
  - destruct (map_result f l); [done|]. intros [= ->]. destruct IH as (x & ? & ?); [done|].
    exists x. split; [by right|done].
  - intros [= ->]. exists a. split; [by left|done].
Qed.

Lemma toGatewayRecord_Err J g e : toGatewayRecord J g = Err e → e = unavailable.
Proof. unfold toGatewayRecord. by repeat case_match; intros; simplify_eq. Qed.

Lemma toGatewayPlacement_Err c e : toGatewayPlacement c = Err e → e = unavailable.
Proof. unfold toGatewayPlacement. by repeat case_match; intros; simplify_eq. Qed.

Lemma toGatewayPlacement_id c p : toGatewayPlacement c = Ok p → mc_id c = Some (pl_id p).
Proof. unfold toGatewayPlacement. by repeat case_match; intros; simplify_eq. Qed.

Lemma optionalString_trimmed v : trim (optionalString v) = optionalString v.
Proof. destruct v; try done. apply trim_idemp. Qed.

(** A string that is shown: not empty, no white space around it. *)
Definition shown (o : option jsstring) : Prop :=
  ∀ s, o = Some s → s ≠ [] ∧ trim s = s.

Lemma shown_if_nonempty v : shown (if_nonempty (optionalString v)).
Proof.
  intros s. unfold if_nonempty. destruct (optionalString v) as [|c t] eqn:E; [done|].
  intros [= <-]. split; [done|]. rewrite <- E. apply optionalString_trimmed.
Qed.

(** An [unavailable] error passes through the failure mapping. *)
Lemma mapSDKFailure_gateway {W T} (reauth : option (M thrown W unit)) (task : M thrown W T) w g w' :
  task w = (Err (ThrowGateway g), w') → mapSDKFailure reauth task w = (Err (ThrowGateway g), w').
Proof. intros H. unfold mapSDKFailure. by rewrite (try_catch_err _ _ _ _ _ H). Qed.

Lemma adapter_wraps {W T : Type} J apiFactory (reauth : option (M thrown W unit)) tp
    (call : GatewayCall T) ctx :
  run_controlPlane (createGatewayControlPlaneAdapter J apiFactory reauth tp) call ctx =
  mapSDKFailure reauth (adapter_task J apiFactory tp call ctx).
Proof. by destruct call. Qed.

(** What the task does with the response, as a pure function. *)
Definition gateway_page (J : jsstring → option jsval) (request : GatewayListRequest)
    (response : ApiList ApiGateway) : result thrown (GatewayPage GatewayRecord) :=
  match requirePage response with
  | Err e => Err e
  | Ok (page, total, items) =>
      if negb (num_eqb page (lr_page request)) || num_lt total (NInt 0)
         || negb (num_eqb (length_num items)
                    (expectedItemCount (lr_page request) (lr_size request) total))
      then Err unavailable
      else match map_result (toGatewayRecord J) items with
           | Err e => Err e
           | Ok records => Ok {| gp_items := records; gp_page := page;
                                 gp_size := lr_size request; gp_total := total |}
           end
  end.

Lemma gateway_page_Err J request response e :
  gateway_page J request response = Err e → e = unavailable.
Proof.
  unfold gateway_page. destruct (requirePage response) as [[[page total] items]|e'] eqn:E.
  - case_match; [congruence|]. destruct (map_result _ items) eqn:Hm; [done|].
    intros [= <-]. apply map_result_Err in Hm as (g & _ & Hg). by eapply toGatewayRecord_Err.
  - intros [= <-]. by eapply requirePage_Err.
Qed.

Lemma listGateways_runs {W : Type} J (apiFactory : jsstring → M thrown W (GatewayApiClient W))
    reauth tp request ctx response w w' :
  call_api apiFactory tp ctx (λ client, api_listGateways client (gateway_query request)) w =
    (Ok response, w') →
  cp_listGateways (createGatewayControlPlaneAdapter J apiFactory reauth tp) request ctx w =
    (gateway_page J request response, w').
Proof.
  intros Hcall. simpl.
  assert (Ht : listGateways_task J apiFactory tp request ctx w = (gateway_page J request response, w')).
  { unfold listGateways_task. rewrite (M_bind_ok _ _ _ _ _ Hcall).
    unfold gateway_page, mbind, M_bind, lift_result.
    destruct (requirePage response) as [[[page total] items]|]; [|done].
    case_match; [done|]. by destruct (map_result _ items). }
  destruct (gateway_page J request response) as [pg|e] eqn:E.
  - unfold mapSDKFailure. by apply try_catch_ok.
  - rewrite (gateway_page_Err _ _ _ _ E) in *. by apply mapSDKFailure_gateway.
Qed.

(** The same for the placements of a set of clusters. *)
Definition placements_page (ids : list jsstring) (response : ApiList ManagedCluster) :
    result thrown (list GatewayPlacement) :=
  match requirePage response with
  | Err e => Err e
  | Ok (page, total, items) =>
      match map_result toGatewayPlacement items with
      | Err e => Err e
      | Ok placements =>
          let returned := map pl_id placements in
          if negb (num_eqb page (NInt 1)) || num_lt total (NInt 0)
             || num_gt total (length_num ids) || negb (num_eqb (length_num items) total)
             || negb (num_eqb (length_num (nub returned)) (length_num returned))
             || existsb (λ clusterId, negb (bool_decide (clusterId ∈ ids))) returned
          then Err unavailable else Ok placements
      end
  end.

Lemma placements_page_Err ids response e :
  placements_page ids response = Err e → e = unavailable.
Proof.
  unfold placements_page. destruct (requirePage response) as [[[page total] items]|e'] eqn:E.
  - destruct (map_result _ items) eqn:Hm; [by case_match; congruence|].
    intros [= <-]. apply map_result_Err in Hm as (g & _ & Hg). by eapply toGatewayPlacement_Err.
  - intros [= <-]. by eapply requirePage_Err.
Qed.

Lemma getGatewayPlacements_runs {W : Type} J
    (apiFactory : jsstring → M thrown W (GatewayApiClient W)) reauth tp ids ctx response w w' :
  normalizeGatewayPlacementClusterIds ids ≠ [] →
  call_api apiFactory tp ctx (λ client, api_listManagedClusters client
    (placements_query (normalizeGatewayPlacementClusterIds ids))) w = (Ok response, w') →
  cp_getGatewayPlacements (createGatewayControlPlaneAdapter J apiFactory reauth tp) ids ctx w =
    (placements_page (normalizeGatewayPlacementClusterIds ids) response, w').
Proof.
  intros Hne Hcall. simpl.
  assert (Ht : getGatewayPlacements_task apiFactory tp ids ctx w =
    (placements_page (normalizeGatewayPlacementClusterIds ids) response, w')).
  { unfold getGatewayPlacements_task.
    rewrite decide_False by (by intros ?%nil_length_inv).
    rewrite (M_bind_ok _ _ _ _ _ Hcall). unfold placements_page, mbind, M_bind, lift_result.
    destruct (requirePage response) as [[[page total] items]|]; [|done].
    destruct (map_result _ items) eqn:Hm; [|done]. by case_match. }
  destruct (placements_page _ response) as [pg|e] eqn:E.
  - unfold mapSDKFailure. by apply try_catch_ok.
  - rewrite (placements_page_Err _ _ _ E) in *. by apply mapSDKFailure_gateway.
Qed.

(** What the placements of the clusters [ids] must be. *)
Definition placements_consistent (ids : list jsstring) (response : ApiList ManagedCluster)
    (l : list GatewayPlacement) : Prop :=
  ∃ items, al_page response = Some (NInt 1) ∧ al_total response = Some (length_num l) ∧
    al_items response = Some items ∧ Forall2 (λ c p, toGatewayPlacement c = Ok p) items l ∧
    NoDup (map pl_id l) ∧ (∀ p, p ∈ l → pl_id p ∈ ids) ∧
    (Z.of_nat (length l) ≤ max_safe)%Z.

Lemma existsb_not_elem (l ids : list jsstring) :
  existsb (λ i, negb (bool_decide (i ∈ ids))) l = false ↔ (∀ i, i ∈ l → i ∈ ids).
Proof.
  rewrite <- not_true_iff_false, existsb_exists. setoid_rewrite <- list_elem_of_In.
  split.
  - intros H i Hi. destruct (decide (i ∈ ids)) as [|Hn]; [done|]. destruct H. exists i.
    split; [done|]. by rewrite bool_decide_eq_false_2.
  - intros H (i & Hi & Hb). rewrite bool_decide_eq_true_2 in Hb; [done|by apply H].
Qed.

Lemma placements_page_Ok ids response l :
  placements_page ids response = Ok l ↔ placements_consistent ids response l.
Proof.
  unfold placements_page, placements_consistent, length_num. split.
  - destruct (requirePage response) as [[[page total] items]|] eqn:E; [|done].
    apply requirePage_Ok in E as (p & t & -> & -> & E1 & E2 & E3 & Hp & Ht).
    destruct (map_result _ items) as [pls|] eqn:Hm; [|done].
    apply map_result_Forall2 in Hm. pose proof (Forall2_length _ _ _ Hm) as Hlen.
    unfold num_gt. rewrite !num_eqb_int, !num_lt_int.
    destruct (Z.eqb_spec p 1) as [->|]; [|done]. destruct (Z.ltb_spec t 0); [done|].
    destruct (Z.ltb_spec (Z.of_nat (length ids)) t); [done|].
    destruct (Z.eqb_spec (Z.of_nat (length items)) t) as [<-|]; [|done].
    destruct (Z.eqb_spec (Z.of_nat (length (nub (map pl_id pls)))) (Z.of_nat (length (map pl_id pls))))
      as [Hnub|]; [|done].
    destruct (existsb _ _) eqn:Hex; [done|]. intros [= <-]. exists items.
    rewrite E2, Hlen in *. split_and!; try done; [by apply length_nub_NoDup; lia| |lia].
    intros q Hq. apply (proj1 (existsb_not_elem _ _) Hex). by apply list_elem_of_fmap_2.
  - intros (items & E1 & E2 & E3 & Hm & Hnd & Hin & Hmax).
    pose proof (Forall2_length _ _ _ Hm) as Hlen.
    assert (requirePage response = Ok (NInt 1, NInt (Z.of_nat (length l)), items)) as ->.
    { apply requirePage_Ok. eexists 1%Z, _. split_and!; try done; unfold max_safe; lia. }
    apply map_result_Forall2 in Hm. rewrite Hm. unfold num_gt.
    rewrite !num_eqb_int, !num_lt_int, Hlen, Z.eqb_refl.
    assert (Hsub : map pl_id l ⊆+ ids).
    { apply NoDup_submseteq; [done|]. intros i. rewrite list_elem_of_fmap.
      intros (q & -> & Hq). by apply Hin. }
    apply submseteq_length in Hsub as Hle. rewrite length_map in Hle.
    rewrite (proj2 (Z.ltb_ge _ 0)), (proj2 (Z.ltb_ge _ (Z.of_nat (length l)))) by lia.
    rewrite (proj2 (Z.eqb_eq (Z.of_nat (length (nub (map pl_id l)))) _))
      by (f_equal; by apply length_nub_NoDup).
    rewrite (proj2 (existsb_not_elem _ _)); [by rewrite Z.eqb_refl|].
    intros i. rewrite list_elem_of_fmap. intros (q & -> & Hq). by apply Hin.
Qed.

(** What a gateway page must be, in exact arithmetic. *)
Definition page_consistent (J : jsstring → option jsval) (p s : Z)
    (response : ApiList ApiGateway) (pg : GatewayPage GatewayRecord) : Prop :=
  ∃ t items, al_page response = Some (NInt p) ∧ al_total response = Some (NInt t) ∧
    al_items response = Some items ∧ (0 ≤ t ≤ max_safe)%Z ∧
    Z.of_nat (length items) = Z.max 0 (Z.min s (t - (p - 1) * s)) ∧
    Forall2 (λ g r, toGatewayRecord J g = Ok r) items (gp_items pg) ∧
    gp_page pg = NInt p ∧ gp_size pg = NInt s ∧ gp_total pg = NInt t.

Lemma gateway_page_consistent J (request : GatewayListRequest) p s response pg :
  lr_page request = NInt p → lr_size request = NInt s →
  (1 ≤ p ≤ max_safe)%Z → (1 ≤ s ≤ max_safe)%Z →
  gateway_page J request response = Ok pg ↔ page_consistent J p s response pg.
Proof.
  intros Hp Hs Hpb Hsb. unfold gateway_page, page_consistent.
  simpl. rewrite Hp, Hs. split.
  - destruct (requirePage response) as [[[page total] items]|] eqn:E; [|done].
    apply requirePage_Ok in E as (p' & t & -> & -> & E1 & E2 & E3 & Hp' & Ht).
    rewrite num_eqb_int, num_lt_int, expectedItemCount_exact by done.
    unfold length_num. rewrite num_eqb_int.
    destruct (Z.eqb_spec p' p) as [->|]; [|done]. destruct (Z.ltb_spec t 0); [done|].
    destruct (Z.eqb_spec (Z.of_nat (length items)) (Z.max 0 (Z.min s (t - (p - 1) * s))));
      [simpl|done].
    destruct (map_result _ items) as [records|] eqn:Hm; [|done].
    apply map_result_Forall2 in Hm. intros [= <-]. by exists t, items.
  - intros (t & items & E1 & E2 & E3 & Ht & Hlen & Hrec & G1 & G2 & G3).
    assert (requirePage response = Ok (NInt p, NInt t, items)) as ->
      by (apply requirePage_Ok; by exists p, t).
    rewrite num_eqb_int, num_lt_int, expectedItemCount_exact, Z.eqb_refl by done.
    rewrite (proj2 (Z.ltb_ge t 0)) by lia. unfold length_num.
    rewrite num_eqb_int, Hlen, Z.eqb_refl. simpl.
    apply map_result_Forall2 in Hrec. rewrite Hrec. by destruct pg; simplify_eq/=.
Qed.

(** * Properties *)

(** A gateway page is accepted exactly when the response is the requested
    page, its total is a safe non-negative integer, it holds exactly the items
    that page and total leave, computed without rounding error for every safe
    page and size, and every item has an identifier; any other response is
    reported as unavailable. *)
Theorem listGateways_page_checked {W : Type} (J : jsstring → option jsval)
    (apiFactory : jsstring → M thrown W (GatewayApiClient W)) (reauth : option (M thrown W unit))
    (tp : option (jsstring → M thrown W (option jsstring)))
    (request : GatewayListRequest) (ctx : GatewayInvocationContext) (p s : Z)
    (response : ApiList ApiGateway) (w w' : W) :
  lr_page request = NInt p → lr_size request = NInt s →
  (1 ≤ p ≤ max_safe)%Z → (1 ≤ s ≤ max_safe)%Z →
  call_api apiFactory tp ctx (λ client, api_listGateways client (gateway_query request)) w =
    (Ok response, w') →
  let r := cp_listGateways (createGatewayControlPlaneAdapter J apiFactory reauth tp)
             request ctx w in
  r.2 = w' ∧ (∀ pg, r.1 = Ok pg ↔ page_consistent J p s response pg) ∧
  (∀ e, r.1 = Err e → e = unavailable).
Proof.
  intros Hp Hs Hpb Hsb Hcall r. unfold r. rewrite (listGateways_runs _ _ _ _ _ _ _ _ _ Hcall).
  split_and!; [done| |apply gateway_page_Err]. intros pg. by apply gateway_page_consistent.
Qed.

(** When the cluster identifiers given are all blank, no request is made and
    the result is empty. Otherwise one request names exactly the normalised
    identifiers, and its response is accepted exactly when it is one whole page
    of placements with distinct identifiers, each of them asked for; any other
    response is reported as unavailable. *)
Theorem getGatewayPlacements_checked {W : Type} (J : jsstring → option jsval)
    (apiFactory : jsstring → M thrown W (GatewayApiClient W)) (reauth : option (M thrown W unit))
    (tp : option (jsstring → M thrown W (option jsstring)))
    (ids : list jsstring) (ctx : GatewayInvocationContext) (w : W) :
  let ids' := normalizeGatewayPlacementClusterIds ids in
  let r := cp_getGatewayPlacements (createGatewayControlPlaneAdapter J apiFactory reauth tp)
             ids ctx w in
  ((∀ i, i ∈ ids → trim i = []) → r = (Ok [], w)) ∧
  ((∃ i, i ∈ ids ∧ trim i ≠ []) → ∀ response w',
     call_api apiFactory tp ctx (λ client, api_listManagedClusters client (placements_query ids'))
       w = (Ok response, w') →
     r.2 = w' ∧ (∀ l, r.1 = Ok l ↔ placements_consistent ids' response l) ∧
     (∀ e, r.1 = Err e → e = unavailable)).
Proof.
  intros ids' r. pose proof (normalizeGatewayPlacementClusterIds_elem ids) as Hel. split.
  - intros Hb. unfold r; simpl. unfold getGatewayPlacements_task.
    destruct (normalizeGatewayPlacementClusterIds ids) as [|i l] eqn:E; [done|]. exfalso.
    destruct (proj1 (Hel i)) as (Hi & j & Hj & ->); [by left|]. by rewrite (Hb j Hj) in Hi.
  - intros (i & Hi & Ht) response w' Hcall. unfold r.
    assert (Hne : normalizeGatewayPlacementClusterIds ids ≠ []).
    { intros E. specialize (Hel (trim i)). rewrite E in Hel.
      apply (not_elem_of_nil (trim i)), Hel. eauto. }
    rewrite (getGatewayPlacements_runs _ _ _ _ _ _ _ _ _ Hne Hcall). simpl.
    split_and!; [done|intros l; apply placements_page_Ok|apply placements_page_Err].
Qed.

(** C13 Every control-plane call passes its result through, and no SDK error
    leaves the adapter: it is replaced by an application error made from its
    status and code, after the re-authentication callback when, and only when, the
    SDK asks for it; other errors pass unchanged. *)
Theorem adapter_failures_mapped {W T : Type} (J : jsstring → option jsval)
    (apiFactory : jsstring → M thrown W (GatewayApiClient W)) (callback : M thrown W unit)
    (tp : option (jsstring → M thrown W (option jsstring)))
    (call : GatewayCall T) (ctx : GatewayInvocationContext) (w : W) :
  (∀ w1, (callback w1).1 = Ok tt) →
  run_controlPlane (createGatewayControlPlaneAdapter J apiFactory (Some callback) tp) call ctx w =
  match adapter_task J apiFactory tp call ctx w with
  | (Err (ThrowSDK e), w1) =>
      (Err (mapped_error e),
       if decide (sdk_code e = js "reauth_required") then (callback w1).2 else w1)
  | other => other
  end.
Proof.
  intros Hc. rewrite adapter_wraps. unfold mapSDKFailure, try_catch.
  destruct (adapter_task _ _ _ _ _ w) as [[x|[e| | | |]] w1]; try done.
  unfold mbind, M_bind. case_decide; [|done].
  specialize (Hc w1). destruct (callback w1) as [[[]|] w2]; done.
Qed.

(** A failed API request is reported by its status alone: as a conflict for
    409, as denied for 401 and 403, and as failed otherwise, with no operation id.
    It is never reported as cancelled, although the SDK reports an aborted
    request as an SDK error of its own. *)
Theorem sdk_failure_outcome (e : SDKError) (z : Z) :
  sdk_status e = NInt z →
  failureOutcome (mapped_error e) =
    (if decide (z = 409)%Z then OConflicted
     else if decide (z = 401 ∨ z = 403)%Z then ODenied else OFailed) ∧
  (failureKind (mapped_error e) = KUnavailable ↔ z = 408 ∨ z = 429 ∨ 500 ≤ z)%Z ∧
  (failureKind (mapped_error e) = KNotFound ↔ z = 404)%Z ∧
  failureKind (mapped_error e) ≠ KCancelled ∧
  error_operationId (mapped_error e) = None.
Proof.
  intros Hz. unfold failureOutcome, mapped_error, failureKind, gatewayFailureKind; simpl.
  rewrite Hz. unfold num_ge. rewrite !num_eqb_int, num_le_int.
  destruct (Z.eqb_spec z 401), (Z.eqb_spec z 403), (Z.eqb_spec z 404), (Z.eqb_spec z 409),
    (Z.eqb_spec z 408), (Z.eqb_spec z 429), (Z.leb_spec 500 z); simpl; subst;
    repeat case_decide; split_and!; try done; try lia; split; done || lia.
Qed.

(** A gateway shown to the user has an identifier, and its optional texts are
    present only when they have something to show: trimmed and not empty. It is
    refused exactly when it has no identifier. *)
Theorem toGatewayRecord_shown (J : jsstring → option jsval) (g : ApiGateway) :
  ((∃ e, toGatewayRecord J g = Err e) ↔ ag_id g = None ∨ ag_id g = Some []) ∧
  ∀ r, toGatewayRecord J g = Ok r →
    ag_id g = Some (gr_id r) ∧ gr_id r ≠ [] ∧ shown (gr_consoleUrl r) ∧
    shown (gr_createdBy r) ∧ shown (gr_oidcAudience r) ∧ shown (gr_oidcClientId r) ∧
    shown (gr_oidcIssuer r) ∧ gr_createdAt r ≠ Some [].
Proof.
  unfold toGatewayRecord. destruct (ag_id g) as [[|c t]|] eqn:Hid.
  - split; [|done]. split; [by right|by eexists].
  - split; [split; [by intros [? ?]|by intros [|]]|]. intros r [= <-]. cbn.
    split_and!; try done; try apply shown_if_nonempty. by destruct (ag_created_at g) as [[]|].
  - split; [|done]. split; [by left|by eexists].
Qed.

(** * A concrete client, for the witnesses *)

Module DemoClient.

(** The world counts the requests made. *)
Definition world : Type := nat.

Definition J (s : jsstring) : option jsval := None.

Definition reauth_error : SDKError := {|
  sdk_code := js "reauth_required"; sdk_status := NInt 401; sdk_apiCode := None |}.

Definition answer {T} (x : T) : M thrown world T := λ w, (Ok x, S w).
Definition refuse {T} : M thrown world T := λ w, (Err (ThrowSDK reauth_error), S w).

Definition api_gateway (id : jsstring) : ApiGateway := {|
  ag_active_sandbox_count := Some (NInt 2); ag_cluster_id := js "c1";
  ag_console_address := Some (js " https://console "); ag_created_at := None;
  ag_created_by := None; ag_external_dns := None; ag_id := Some id; ag_name := id;
  ag_namespace := js "ns"; ag_oidc := None; ag_phase := None; ag_release_id := [];
  ag_route_address := Some (js "grpcs://gw.example"); ag_status := None |}.

Definition cluster (id : jsstring) : ManagedCluster := {|
  mc_id := Some id; mc_name := id; mc_provider := js "kind"; mc_region := None;
  mc_status := None |}.

(** Page 2 of 21 gateways holds one. *)
Definition gateways : ApiList ApiGateway := {|
  al_items := Some [api_gateway (js "g21")]; al_page := Some (NInt 2);
  al_total := Some (NInt 21) |}.

Definition clusters : ApiList ManagedCluster := {|
  al_items := Some [cluster (js "c1")]; al_page := Some (NInt 1); al_total := Some (NInt 1) |}.

Definition client : GatewayApiClient world := {|
  api_createGateway _ _ := refuse; api_deleteGateway _ _ := refuse;
  api_getGateway _ _ := refuse; api_listGateways _ _ := answer gateways;
  api_renameGateway _ _ _ := refuse; api_getManagedCluster _ _ := refuse;
  api_listManagedClusters _ _ := answer clusters; api_createServiceAccount _ _ _ := refuse;
  api_deleteServiceAccount _ _ _ := refuse; api_getServiceAccount _ _ _ := refuse;
  api_listServiceAccounts _ _ _ := refuse; api_revokeServiceAccount _ _ _ := refuse |}.

Definition factory (_ : jsstring) : M thrown world (GatewayApiClient world) := mret client.

Definition request : GatewayListRequest := {|
  lr_page := NInt 2; lr_search := []; lr_size := NInt 20; lr_sortDirection := Asc;
  lr_sortField := SortName |}.

Definition ctx : GatewayInvocationContext := {| ctx_correlationId := js "c"; ctx_signal := None |}.

Definition callback : M thrown world unit := λ w, (Ok tt, w + 100).

Definition adapter : GatewayControlPlane world :=
  createGatewayControlPlaneAdapter J factory (Some callback) None.

Lemma listGateways_page_checked_witness :
  let r := cp_listGateways adapter request ctx 0 in
  r.2 = 1 ∧ (∀ pg, r.1 = Ok pg ↔ page_consistent J 2 20 gateways pg) ∧
  (∀ e, r.1 = Err e → e = unavailable).
Proof.
  refine (listGateways_page_checked J factory (Some callback) None request ctx 2 20 gateways
            0 1 _ _ _ _ _); done.
Defined.

Example second_page_has_one_gateway :
  match (cp_listGateways adapter request ctx 0).1 with
  | Ok pg => map gr_externalDns (gp_items pg) = [Some (js "gw.example")]
  | Err _ => False
  end.
Proof. vm_compute. done. Qed.

Lemma adapter_failures_mapped_witness :
  run_controlPlane adapter (CallRemoveGateway (js "g")) ctx 0 =
  (Err (mapped_error reauth_error), 101).
Proof.
  refine (adapter_failures_mapped J factory callback None (CallRemoveGateway (js "g")) ctx 0 _).
  done.
Defined.

Lemma sdk_failure_outcome_witness :
  failureOutcome (mapped_error reauth_error) = ODenied ∧
  failureKind (mapped_error reauth_error) ≠ KCancelled.
Proof.
  destruct (sdk_failure_outcome reauth_error 401 eq_refl) as (H & _ & _ & Hk & _).
  split; [exact H|exact Hk].
Defined.

Example blank_cluster_ids_make_no_request :
  cp_getGatewayPlacements adapter [js " "] ctx 0 = (Ok [], 0).
Proof. done. Qed.
End DemoClient.
