(* ===== verification/ShellWords.v ===== *)
(** A reference reader for the shell commands the console shows: the part of the
    POSIX shell grammar they use. It splits a script into simple commands and each
    of these into its argument words, with single and double quotes, backslash
    escapes and line continuations, comments, and variables inside double quotes.
    Anything else that is special to the shell unquoted makes it fail, so a text
    it accepts can run nothing but the commands it returns. *)
From S2P Require Export JsString.

Definition newline : N := 10.

(** The units no shell treats specially anywhere in a word: those of the
    expression [/[A-Za-z0-9_./:@%+=,-]/]. *)
Definition is_alnum (c : N) : bool :=
  ((65 <=? c) && (c <=? 90) || (97 <=? c) && (c <=? 122) || (48 <=? c) && (c <=? 57))%N.

Definition is_plain (c : N) : bool :=
  is_alnum c || bool_decide (c ∈ js "_./:@%+=,-").

Definition is_name_unit (c : N) : bool := is_alnum c || (c =? 95)%N.

(** Where the reader stands: between quotes or not, in a variable name, in a
    comment. *)
Inductive shell_mode := Unquoted | Single | Double | Variable_ (name : jsstring) | Comment_.

(** Add a finished word to the first command of those that follow. *)
Definition push_word (w : jsstring) (cs : list (list jsstring)) : list (list jsstring) :=
  match cs with
  | [] => [[w]]
  | c :: cs' => (w :: c) :: cs'
  end.

Definition push_opt (w : option jsstring) (cs : list (list jsstring)) : list (list jsstring) :=
  match w with Some w => push_word w cs | None => cs end.

Definition grow (w : option jsstring) (s : jsstring) : option jsstring := Some (default [] w ++ s).

Section reader.
Context (env : jsstring → jsstring).

Fixpoint read_shell (m : shell_mode) (w : option jsstring) (s : jsstring) :
    option (list (list jsstring)) :=
  match m, s with
  | Unquoted, [] => Some (push_opt w [[]])
  | Unquoted, c :: t =>
      if is_plain c then read_shell Unquoted (grow w [c]) t
      else if ((c =? 32) || (c =? 9))%N then push_opt w <$> read_shell Unquoted None t
      else if (c =? newline)%N then (λ cs, push_opt w ([] :: cs)) <$> read_shell Unquoted None t
      else if (c =? 39)%N then read_shell Single (grow w []) t
      else if (c =? 34)%N then read_shell Double (grow w []) t
      else if (c =? 92)%N then
        match t with
        | [] => None
        | d :: t' => if (d =? newline)%N then read_shell Unquoted w t'
                     else read_shell Unquoted (grow w [d]) t'
        end
      else if (c =? 35)%N then
        match w with None => read_shell Comment_ None t | Some _ => None end
      else None
  | Single, [] => None
  | Single, c :: t =>
      if (c =? 39)%N then read_shell Unquoted w t else read_shell Single (grow w [c]) t
  | Double, [] => None
  | Double, c :: t =>
      if (c =? 34)%N then read_shell Unquoted w t
      else if (c =? 36)%N then read_shell (Variable_ []) w t
      else if ((c =? 92) || (c =? 96))%N then None
      else read_shell Double (grow w [c]) t
  | Variable_ _, [] => None
  | Variable_ n, c :: t =>
      if is_name_unit c then read_shell (Variable_ (n ++ [c])) w t
      else match n with
           | [] => None
           | _ => if (c =? 34)%N then read_shell Unquoted (grow w (env n)) t
                  else if ((c =? 36) || (c =? 92) || (c =? 96) || (c =? 39))%N then None
                  else read_shell Double (grow w (env n ++ [c])) t
           end
  | Comment_, [] => Some [[]]
  | Comment_, c :: t =>
      if (c =? newline)%N then cons [] <$> read_shell Unquoted None t
      else read_shell Comment_ None t
  end.

(** The commands of a script: their argument vectors, in order. *)
Definition shell_commands (s : jsstring) : option (list (list jsstring)) :=
  filter (λ c, is_nonempty c = true) <$> read_shell Unquoted None s.

(** * Lemmas *)

Lemma grow_Some u s : grow (Some u) s = Some (u ++ s).
Proof. done. Qed.

Lemma read_plain_some v u rest :
  Forall (λ c, is_plain c = true) v →
  read_shell Unquoted (Some u) (v ++ rest) = read_shell Unquoted (Some (u ++ v)) rest.
Proof.
  intros Hv. revert u. induction Hv as [|c v Hc _ IH]; intros u; [by rewrite app_nil_r|].
  cbn [app read_shell]. rewrite Hc, grow_Some, IH. by rewrite <- (assoc_L (++)).
Qed.

(** A non-empty run of plain units is read as a word in progress. *)
Lemma read_plain v rest :
  v ≠ [] → Forall (λ c, is_plain c = true) v →
  read_shell Unquoted None (v ++ rest) = read_shell Unquoted (Some v) rest.
Proof.
  destruct v as [|c v]; [done|]. intros _ [Hc Hv]%Forall_cons.
  cbn [app read_shell]. rewrite Hc. change (grow None [c]) with (Some [c]).
  by rewrite read_plain_some.
Qed.

Lemma read_single v u rest :
  (39 ∉ v)%N →
  read_shell Single (Some u) (v ++ 39%N :: rest) = read_shell Unquoted (Some (u ++ v)) rest.
Proof.
  revert u. induction v as [|c v IH]; intros u Hv; cbn [app read_shell].
  - by rewrite app_nil_r.
  - rewrite (proj2 (N.eqb_neq c 39)) by set_solver. rewrite grow_Some, IH by set_solver.
    by rewrite <- (assoc_L (++)).
Qed.

(** A space between words, a continued line, the end of a line. *)
Lemma read_space u rest :
  read_shell Unquoted (Some u) (32%N :: rest) = push_word u <$> read_shell Unquoted None rest.
Proof. done. Qed.

Lemma read_continued u rest :
  read_shell Unquoted (Some u) (js " \" ++ newline :: js "  " ++ rest) =
  push_word u <$> read_shell Unquoted None rest.
Proof.
  change (js " \" ++ newline :: js "  " ++ rest) with
    (32%N :: 92%N :: newline :: 32%N :: 32%N :: rest).
  rewrite read_space. cbn. by destruct (read_shell Unquoted None rest).
Qed.

Lemma read_eol u rest :
  read_shell Unquoted (Some u) (newline :: rest) =
  (λ cs, [u] :: cs) <$> read_shell Unquoted None rest.
Proof. done. Qed.

Lemma read_end u : read_shell Unquoted (Some u) [] = Some [[u]].
Proof. done. Qed.

(** * Reading a text as words *)

Fixpoint pushes (ws : list jsstring) (k : option (list (list jsstring))) :
    option (list (list jsstring)) :=
  match ws with [] => k | w :: ws' => push_word w <$> pushes ws' k end.

(** [p] reads as the words [ws], the last of which may still grow. *)
Definition reads (p : jsstring) (ws : list jsstring) : Prop :=
  ∃ pre last, ws = pre ++ option_list last ∧
    ∀ rest, read_shell Unquoted None (p ++ rest) = pushes pre (read_shell Unquoted last rest).

Lemma pushes_app ws vs k : pushes (ws ++ vs) k = pushes ws (pushes vs k).
Proof. induction ws; simpl; congruence. Qed.

Lemma push_opt_None (o : option (list (list jsstring))) : push_opt None <$> o = o.
Proof. by destruct o. Qed.

Lemma push_opt_pushes last k : push_opt last <$> k = pushes (option_list last) k.
Proof. destruct last; [done|apply push_opt_None]. Qed.

(** Words apart by a space, or by a continued line. *)
Lemma reads_space p ws rest : reads p ws →
  read_shell Unquoted None (p ++ 32%N :: rest) = pushes ws (read_shell Unquoted None rest).
Proof.
  intros (pre & last & -> & Hp). rewrite Hp, pushes_app. f_equal. apply push_opt_pushes.
Qed.

Lemma reads_app p ws q vs : reads p ws → reads q vs → reads (p ++ 32%N :: q) (ws ++ vs).
Proof.
  intros Hp (pre & last & -> & Hq). exists (ws ++ pre), last. split; [by rewrite (assoc_L (++))|].
  intros rest. rewrite <- (assoc_L (++)). cbn [app].
  by rewrite (reads_space p ws) , Hq, pushes_app.
Qed.

Lemma reads_continued p ws rest : reads p ws →
  read_shell Unquoted None (p ++ js " \" ++ newline :: js "  " ++ rest) =
  pushes ws (read_shell Unquoted None rest).
Proof.
  intros Hp. change (js " \" ++ newline :: js "  " ++ rest) with
    (32%N :: [92%N; newline; 32%N; 32%N] ++ rest).
  rewrite (reads_space _ _ _ Hp). f_equal.
  change (push_opt None <$> (push_opt None <$> read_shell Unquoted None rest) =
          read_shell Unquoted None rest).
  by rewrite !push_opt_None.
Qed.

(** The end of the line, and of the text. *)
Lemma reads_eol p ws rest : reads p ws →
  read_shell Unquoted None (p ++ newline :: rest) = cons ws <$> read_shell Unquoted None rest.
Proof.
  intros (pre & last & -> & Hp). rewrite Hp. clear Hp. cbn.
  destruct (read_shell Unquoted None rest) as [cs|]; simpl.
  - induction pre as [|w pre IH]; simpl; [by destruct last|]. by rewrite IH.
  - induction pre as [|w pre IH]; simpl; [done|]. by rewrite IH.
Qed.

Lemma reads_end p ws : reads p ws → read_shell Unquoted None p = Some [ws].
Proof.
  intros (pre & last & -> & Hp). rewrite <- (app_nil_r p), Hp. clear Hp. cbn.
  induction pre as [|w pre IH]; simpl; [by destruct last|]. by rewrite IH.
Qed.

(** A run of plain units is one word, or none when it is empty. *)
Definition word_if_any (v : jsstring) : list jsstring :=
  match v with [] => [] | _ => [v] end.

Lemma reads_plain v : Forall (λ c, is_plain c = true) v → reads v (word_if_any v).
Proof.
  intros Hv. destruct v as [|c v]; [by exists [], None|].
  exists [], (Some (c :: v)). split; [done|]. intros rest. by apply read_plain.
Qed.

Lemma reads_join ps wss :
  Forall2 reads ps wss → ps ≠ [] →
  reads (joinWith (js " \" ++ newline :: js "  ") ps) (concat wss).
Proof.
  induction 1 as [|p ws ps wss Hp Hps IH]; [done|]. intros _.
  destruct Hps as [|q vs ps wss Hq Hps].
  - simpl. by rewrite app_nil_r.
  - rewrite joinWith_cons by done. destruct IH as (pre & last & Hws & Hr); [done|].
    exists (ws ++ pre), last. split; [cbn [concat] in *; rewrite Hws; by rewrite (assoc_L (++))|].
    intros rest. rewrite <- !(assoc_L (++)). cbn [app].
    rewrite (reads_continued p ws) by done. by rewrite Hr, pushes_app.
Qed.

Lemma read_comment c rest : newline ∉ c →
  read_shell Comment_ None (c ++ newline :: rest) = cons [] <$> read_shell Unquoted None rest.
Proof.
  induction c as [|d c IH]; intros Hc; [done|]. cbn [app read_shell].
  rewrite (proj2 (N.eqb_neq d newline)) by set_solver. apply IH. set_solver.
Qed.

Lemma read_comment_line c rest : newline ∉ c →
  read_shell Unquoted None ((35%N :: c) ++ [newline] ++ rest) =
  cons [] <$> read_shell Unquoted None rest.
Proof. apply read_comment. Qed.

Lemma read_blank_line rest :
  read_shell Unquoted None (newline :: rest) = cons [] <$> read_shell Unquoted None rest.
Proof. done. Qed.

Lemma shell_commands_reads p ws : ws ≠ [] → reads p ws → shell_commands p = Some [ws].
Proof.
  intros Hne Hp. unfold shell_commands. rewrite (reads_end _ _ Hp). simpl.
  by destruct ws.
Qed.
End reader.

(** A fixed text whose words are computed. *)
Ltac fixed pre last := exists pre, (Some last); split; [done|reflexivity].
