(* ===== verification/GatewayConnections.v ===== *)
(** Connecting to a gateway ([gateways/gateway-connections.ts]): readiness, the
    shell commands shown to the operator, and the appearance of a status; with
    the field sanitiser of [gateways/editable-command.tsx] and the edit markers of
    [gateways/gateway-connection-steps.tsx]. Lower-casing depends on the browser's
    locale and is an argument. *)
From S2P Require Export ShellWords JsNumber.

Record GatewayConnection := {
  gc_activeSandboxCount : option num;
  gc_clusterId : option jsstring;
  gc_clusterName : jsstring;
  gc_consoleUrl : option jsstring;
  gc_createdAt : option jsstring;
  gc_createdBy : option jsstring;
  gc_endpoint : option jsstring;
  gc_id : jsstring;
  gc_name : jsstring;
  gc_oidcAudience : option jsstring;
  gc_oidcClientId : option jsstring;
  gc_oidcIssuer : option jsstring;
  gc_phase : option jsstring;
  gc_status : jsstring
}.

(** [Boolean(s)] of an optional string. *)
Definition truthy (o : option jsstring) : option jsstring :=
  match o with Some (c :: t) => Some (c :: t) | _ => None end.

Section phase.
Context (toLocaleLowerCase : jsstring → jsstring).

Definition phase_is (g : GatewayConnection) (p : jsstring) : bool :=
  match gc_phase g with
  | Some phase => bool_decide (toLocaleLowerCase (trim phase) = p)
  | None => false
  end.

Definition isGatewayReadyToConnect (g : GatewayConnection) : bool :=
  phase_is g (js "running") && bool_decide (is_Some (truthy (gc_endpoint g))).

Definition isGatewayDeleting (g : GatewayConnection) : bool := phase_is g (js "deleting").
End phase.

(** * Commands *)

(** [/^[A-Za-z0-9_./:@%+=,-]+$/.test(value)] *)
Definition safeShellArgument (value : jsstring) : bool :=
  is_nonempty value && forallb is_plain value.

Definition single_quote : jsstring := [39%N].
Definition double_quote : jsstring := [34%N].

(** The replacement of a single quote: close, a quoted quote, open. *)
Definition quoted_quote : jsstring :=
  single_quote ++ double_quote ++ single_quote ++ double_quote ++ single_quote.

Definition shellArgument (value : jsstring) : jsstring :=
  if safeShellArgument value then value
  else single_quote ++ replaceAll value 39 quoted_quote ++ single_quote.

(** The separator [" \\\n  "] of a command's lines. *)
Definition continued : jsstring := js " \" ++ newline :: js "  ".

Definition add_command_parts (g : GatewayConnection) (endpoint : jsstring) : list jsstring :=
  [js "openshell gateway add"; js "--name " ++ shellArgument (gc_name g)] ++
  match truthy (gc_oidcIssuer g), truthy (gc_oidcClientId g), truthy (gc_oidcAudience g) with
  | Some issuer, Some clientId, Some audience =>
      [js "--oidc-issuer " ++ shellArgument issuer;
       js "--oidc-client-id " ++ shellArgument clientId;
       js "--oidc-audience " ++ shellArgument audience]
  | _, _, _ => []
  end ++
  [shellArgument endpoint].

Section commands.
Context (toLocaleLowerCase : jsstring → jsstring).

Definition buildGatewayAddCommand (g : GatewayConnection) : option jsstring :=
  if isGatewayReadyToConnect toLocaleLowerCase g then
    match truthy (gc_endpoint g) with
    | Some endpoint => Some (joinWith continued (add_command_parts g endpoint))
    | None => None
    end
  else None.

Definition vertexProviderName : jsstring := js "my-gcp".
Definition sandboxName : jsstring := js "mysand".
Definition claudeModel : jsstring := js "claude-haiku-4-5".

Definition buildProviderCreateCommand (providerName : jsstring) : jsstring :=
  joinWith continued
    [js "openshell provider create";
     js "--name " ++ providerName;
     js "--type google-vertex-ai";
     js "--from-gcloud-adc";
     js "--config VERTEX_AI_PROJECT_ID=" ++ double_quote ++
       js "$ANTHROPIC_VERTEX_PROJECT_ID" ++ double_quote;
     js "--config VERTEX_AI_REGION=global"].

Definition buildInferenceSetCommand (providerName model : jsstring) : jsstring :=
  js "openshell inference set --provider " ++ providerName ++ js " --model " ++ model.

Definition buildSandboxCreateCommand (name model : jsstring) : jsstring :=
  joinWith continued
    [js "openshell sandbox create";
     js "--name " ++ name;
     js "--env=ANTHROPIC_BASE_URL=https://inference.local";
     js "--env=ANTHROPIC_API_KEY=unused";
     js "--no-auto-providers";
     js "-- claude --bare --model " ++ model].

Definition buildSetupScript (g : GatewayConnection) (model providerName : option jsstring) :
    option jsstring :=
  match buildGatewayAddCommand g with
  | None => None
  | Some gatewayAdd =>
      let model := default claudeModel model in
      let providerName := default vertexProviderName providerName in
      Some (joinWith [newline]
        [js "# 1. Log in to the gateway";
         gatewayAdd;
         [];
         js "# 2. Add the Claude on Vertex AI provider";
         buildProviderCreateCommand providerName;
         [];
         js "# 3. Select the model";
         buildInferenceSetCommand providerName model])
  end.
End commands.

(** [value.replace(/[^A-Za-z0-9_./:@%+=,-]+/g, "")] *)
Definition sanitizeFieldValue (value : jsstring) : jsstring :=
  filter (λ c, is_plain c = true) value.

(** * Status *)

Inductive GatewayStatusAppearance :=
| Danger | Inactive | PendingAppearance | Progress | Success | UnknownAppearance | Warning.

Definition gatewayStatusAppearance (toLocaleLowerCase : jsstring → jsstring)
    (status : jsstring) : GatewayStatusAppearance :=
  let s := toLocaleLowerCase (trim status) in
  let among l := bool_decide (s ∈ (map js l)) in
  if among ["active"; "available"; "healthy"; "ready"; "running"; "succeeded"]%string then Success
  else if among ["degraded"; "warning"]%string then Warning
  else if among ["expired"; "revoked"]%string then Inactive
  else if among ["pending"]%string then PendingAppearance
  else if among ["provisioning"; "reconciling"; "revoking"; "deleting"; "updating"]%string
  then Progress
  else if among ["error"; "failed"]%string then Danger
  else UnknownAppearance.

(** * Lemmas *)

Lemma shellArgument_quoted v u env rest :
  read_shell env Single (Some u) (replaceAll v 39 quoted_quote ++ 39%N :: rest) =
  read_shell env Unquoted (Some (u ++ v)) rest.
Proof.
  revert u. induction v as [|c v IH]; intros u; [by rewrite app_nil_r|].
  rewrite replaceAll_cons, <- (assoc_L (++)). destruct (N.eqb_spec c 39) as [->|Hc].
  - change (read_shell env Single (Some u) (quoted_quote ++ ?r)) with
      (read_shell env Single (Some (((u ++ []) ++ [39%N]) ++ [])) r).
    rewrite IH, !app_nil_r. by rewrite <- (assoc_L (++)).
  - cbn [app read_shell]. rewrite (proj2 (N.eqb_neq c 39)) by done.
    rewrite grow_Some, IH. by rewrite <- (assoc_L (++)).
Qed.

(** Whatever a value contains, its argument is read back as the value. *)
Lemma read_shellArgument env v rest :
  read_shell env Unquoted None (shellArgument v ++ rest) = read_shell env Unquoted (Some v) rest.
Proof.
  unfold shellArgument, safeShellArgument. destruct (is_nonempty v && forallb is_plain v) eqn:E.
  - apply andb_prop in E as [Hne Hv]. apply read_plain; [by destruct v|].
    apply Forall_forall. intros c Hc. eapply forallb_forall in Hv; [done|].
    by apply list_elem_of_In.
  - rewrite <- !(assoc_L (++)).
    exact (shellArgument_quoted v [] env rest).
Qed.

Lemma sanitize_plain v : Forall (λ c, is_plain c = true) (sanitizeFieldValue v).
Proof. apply Forall_forall. intros c. unfold sanitizeFieldValue. rewrite list_elem_of_filter. tauto. Qed.

Section argv.
Context (env : jsstring → jsstring).
Abbreviation reads := (reads env).

Lemma reads_argument v : reads (shellArgument v) [v].
Proof. exists [], (Some v). split; [done|]. apply read_shellArgument. Qed.

Lemma reads_name : reads (js "--name") [js "--name"].
Proof. fixed (@nil jsstring) (js "--name"). Qed.

Lemma reads_flag f v :
  f ≠ [] → forallb is_plain f = true → reads (f ++ 32%N :: shellArgument v) [f; v].
Proof.
  intros Hne Hf. apply (reads_app env f [f]); [|apply reads_argument].
  assert (word_if_any f = [f]) as <- by (by destruct f).
  apply reads_plain, Forall_forall. intros c Hc.
  eapply forallb_forall in Hf; [done|by apply list_elem_of_In].
Qed.

Lemma reads_flag_plain f v :
  f ≠ [] → forallb is_plain f = true → Forall (λ c, is_plain c = true) v →
  reads (f ++ 32%N :: v) (f :: word_if_any v).
Proof.
  intros Hne Hf Hv. apply (reads_app env f [f]); [|by apply reads_plain].
  assert (word_if_any f = [f]) as <- by (by destruct f).
  apply reads_plain, Forall_forall. intros c Hc.
  eapply forallb_forall in Hf; [done|by apply list_elem_of_In].
Qed.

(** The argument vector of the command that registers the gateway. *)
Definition add_argv (g : GatewayConnection) (endpoint : jsstring) : list jsstring :=
  [js "openshell"; js "gateway"; js "add"; js "--name"; gc_name g] ++
  match truthy (gc_oidcIssuer g), truthy (gc_oidcClientId g), truthy (gc_oidcAudience g) with
  | Some issuer, Some clientId, Some audience =>
      [js "--oidc-issuer"; issuer; js "--oidc-client-id"; clientId;
       js "--oidc-audience"; audience]
  | _, _, _ => []
  end ++
  [endpoint].

Lemma reads_add_command g endpoint :
  reads (joinWith continued (add_command_parts g endpoint)) (add_argv g endpoint).
Proof.
  assert (H1 : reads (js "openshell gateway add") [js "openshell"; js "gateway"; js "add"])
    by fixed [js "openshell"; js "gateway"] (js "add").
  pose proof (reads_flag (js "--name") (gc_name g) ltac:(done) eq_refl) as H2.
  pose proof (reads_argument endpoint) as H3.
  unfold add_command_parts, add_argv.
  destruct (truthy (gc_oidcIssuer g)) as [issuer|], (truthy (gc_oidcClientId g)) as [clientId|],
    (truthy (gc_oidcAudience g)) as [audience|];
    try (refine (reads_join env [_; _; _] [[js "openshell"; js "gateway"; js "add"];
      [js "--name"; gc_name g]; [endpoint]] _ _); [|done];
      repeat (constructor; [assumption|]); constructor).
  pose proof (reads_flag (js "--oidc-issuer") issuer ltac:(done) eq_refl) as H4.
  pose proof (reads_flag (js "--oidc-client-id") clientId ltac:(done) eq_refl) as H5.
  pose proof (reads_flag (js "--oidc-audience") audience ltac:(done) eq_refl) as H6.
  refine (reads_join env [_; _; _; _; _; _]
    [[js "openshell"; js "gateway"; js "add"]; [js "--name"; gc_name g];
     [js "--oidc-issuer"; issuer]; [js "--oidc-client-id"; clientId];
     [js "--oidc-audience"; audience]; [endpoint]] _ _); [|done].
  repeat (constructor; [assumption|]). constructor.
Qed.

(** The argument vectors of the editable commands, for plain values. *)
Definition provider_argv (provider : jsstring) : list jsstring :=
  [js "openshell"; js "provider"; js "create"; js "--name"] ++ word_if_any provider ++
  [js "--type"; js "google-vertex-ai"; js "--from-gcloud-adc";
   js "--config"; js "VERTEX_AI_PROJECT_ID=" ++ env (js "ANTHROPIC_VERTEX_PROJECT_ID");
   js "--config"; js "VERTEX_AI_REGION=global"].

Definition inference_argv (provider model : jsstring) : list jsstring :=
  [js "openshell"; js "inference"; js "set"; js "--provider"] ++ word_if_any provider ++
  [js "--model"] ++ word_if_any model.

Definition sandbox_argv (name model : jsstring) : list jsstring :=
  [js "openshell"; js "sandbox"; js "create"; js "--name"] ++ word_if_any name ++
  [js "--env=ANTHROPIC_BASE_URL=https://inference.local"; js "--env=ANTHROPIC_API_KEY=unused";
   js "--no-auto-providers"; js "--"; js "claude"; js "--bare"; js "--model"] ++
  word_if_any model.

Lemma reads_provider provider : Forall (λ c, is_plain c = true) provider →
  reads (buildProviderCreateCommand provider) (provider_argv provider).
Proof.
  intros Hp.
  assert (H1 : reads (js "openshell provider create")
    [js "openshell"; js "provider"; js "create"])
    by fixed [js "openshell"; js "provider"] (js "create").
  pose proof (reads_flag_plain (js "--name") provider ltac:(done) eq_refl Hp) as H2.
  assert (H3 : reads (js "--type google-vertex-ai") [js "--type"; js "google-vertex-ai"])
    by fixed [js "--type"] (js "google-vertex-ai").
  assert (H4 : reads (js "--from-gcloud-adc") [js "--from-gcloud-adc"])
    by fixed (@nil jsstring) (js "--from-gcloud-adc").
  assert (H5 : reads (js "--config VERTEX_AI_PROJECT_ID=" ++ double_quote ++
       js "$ANTHROPIC_VERTEX_PROJECT_ID" ++ double_quote)
    [js "--config"; js "VERTEX_AI_PROJECT_ID=" ++ env (js "ANTHROPIC_VERTEX_PROJECT_ID")])
    by fixed [js "--config"] (js "VERTEX_AI_PROJECT_ID=" ++ env (js "ANTHROPIC_VERTEX_PROJECT_ID")).
  assert (H6 : reads (js "--config VERTEX_AI_REGION=global")
    [js "--config"; js "VERTEX_AI_REGION=global"])
    by fixed [js "--config"] (js "VERTEX_AI_REGION=global").
  assert (Hw : provider_argv provider = concat
    [[js "openshell"; js "provider"; js "create"]; js "--name" :: word_if_any provider;
     [js "--type"; js "google-vertex-ai"]; [js "--from-gcloud-adc"];
     [js "--config"; js "VERTEX_AI_PROJECT_ID=" ++ env (js "ANTHROPIC_VERTEX_PROJECT_ID")];
     [js "--config"; js "VERTEX_AI_REGION=global"]]) by (by destruct provider).
  rewrite Hw. apply (reads_join env [_; _; _; _; _; _]); [|done].
  repeat (constructor; [assumption|]). constructor.
Qed.

Lemma reads_inference provider model :
  Forall (λ c, is_plain c = true) provider → Forall (λ c, is_plain c = true) model →
  reads (buildInferenceSetCommand provider model) (inference_argv provider model).
Proof.
  intros Hp Hm.
  assert (H1 : reads (js "openshell inference set") [js "openshell"; js "inference"; js "set"])
    by fixed [js "openshell"; js "inference"] (js "set").
  pose proof (reads_flag_plain (js "--provider") provider ltac:(done) eq_refl Hp) as H2.
  pose proof (reads_flag_plain (js "--model") model ltac:(done) eq_refl Hm) as H3.
  pose proof (reads_app env _ _ _ _ (reads_app env _ _ _ _ H1 H2) H3) as H.
  assert (Ht : buildInferenceSetCommand provider model =
    (js "openshell inference set" ++ 32%N :: js "--provider" ++ 32%N :: provider) ++
    32%N :: js "--model" ++ 32%N :: model)
    by (rewrite <- (assoc_L (++)); reflexivity).
  rewrite Ht. unfold inference_argv.
  by replace (_ ++ word_if_any provider ++ _) with
    (([js "openshell"; js "inference"; js "set"] ++ js "--provider" :: word_if_any provider) ++
      js "--model" :: word_if_any model) by (by destruct provider).
Qed.

Lemma reads_sandbox name model :
  Forall (λ c, is_plain c = true) name → Forall (λ c, is_plain c = true) model →
  reads (buildSandboxCreateCommand name model) (sandbox_argv name model).
Proof.
  intros Hn Hm.
  assert (H1 : reads (js "openshell sandbox create") [js "openshell"; js "sandbox"; js "create"])
    by fixed [js "openshell"; js "sandbox"] (js "create").
  pose proof (reads_flag_plain (js "--name") name ltac:(done) eq_refl Hn) as H2.
  assert (H3 : reads (js "--env=ANTHROPIC_BASE_URL=https://inference.local")
    [js "--env=ANTHROPIC_BASE_URL=https://inference.local"])
    by fixed (@nil jsstring) (js "--env=ANTHROPIC_BASE_URL=https://inference.local").
  assert (H4 : reads (js "--env=ANTHROPIC_API_KEY=unused") [js "--env=ANTHROPIC_API_KEY=unused"])
    by fixed (@nil jsstring) (js "--env=ANTHROPIC_API_KEY=unused").
  assert (H5 : reads (js "--no-auto-providers") [js "--no-auto-providers"])
    by fixed (@nil jsstring) (js "--no-auto-providers").
  assert (H6 : reads (js "-- claude --bare") [js "--"; js "claude"; js "--bare"])
    by fixed [js "--"; js "claude"] (js "--bare").
  pose proof (reads_app env _ _ _ _ H6
    (reads_flag_plain (js "--model") model ltac:(done) eq_refl Hm)) as H7.
  assert (Hw : sandbox_argv name model = concat
    [[js "openshell"; js "sandbox"; js "create"]; js "--name" :: word_if_any name;
     [js "--env=ANTHROPIC_BASE_URL=https://inference.local"];
     [js "--env=ANTHROPIC_API_KEY=unused"]; [js "--no-auto-providers"];
     [js "--"; js "claude"; js "--bare"] ++ js "--model" :: word_if_any model])
    by (destruct name, model; done).
  rewrite Hw. apply (reads_join env [_; _; _; _; _; _]); [|done].
  repeat (constructor; [assumption|]). constructor.
Qed.
End argv.

(** * Properties *)

(** Whatever text is turned into a shell argument, quotes, newlines and
    expansions included, a shell reads it back as that one word. *)
Theorem shellArgument_is_one_word (env : jsstring → jsstring) (v : jsstring) :
  shell_commands env (shellArgument v) = Some [[v]].
Proof. by apply shell_commands_reads, reads_argument. Qed.

(** C20 The registration command exists exactly for a running gateway with an
    endpoint, and a shell runs it as one command whose arguments are the gateway's
    own texts, unchanged: its name, its three OIDC settings when it has all of
    them, and its endpoint. *)
Theorem buildGatewayAddCommand_argv (lower env : jsstring → jsstring) (g : GatewayConnection) :
  match buildGatewayAddCommand lower g with
  | None => isGatewayReadyToConnect lower g = false
  | Some command =>
      isGatewayReadyToConnect lower g = true ∧
      ∃ endpoint, gc_endpoint g = Some endpoint ∧ endpoint ≠ [] ∧
        shell_commands env command = Some [add_argv g endpoint]
  end.
Proof.
  unfold buildGatewayAddCommand. destruct (isGatewayReadyToConnect lower g) eqn:E; [|done].
  destruct (gc_endpoint g) as [[|c t]|] eqn:He; simpl.
  - exfalso. revert E. unfold isGatewayReadyToConnect. rewrite He. by rewrite andb_false_r.
  - split; [done|]. exists (c :: t). split_and!; [done|done|].
    apply shell_commands_reads; [done|apply reads_add_command].
  - exfalso. revert E. unfold isGatewayReadyToConnect. rewrite He. by rewrite andb_false_r.
Qed.

(** Whatever the operator types into the fields, a shell runs the copied
    sandbox command as one command, with the sanitised name and model each as one
    word. An emptied field leaves no word at all, so that [--name] takes the next
    flag as its value. *)
Theorem buildSandboxCreateCommand_argv (env : jsstring → jsstring) (name model : jsstring) :
  shell_commands env
    (buildSandboxCreateCommand (sanitizeFieldValue name) (sanitizeFieldValue model)) =
  Some [sandbox_argv (sanitizeFieldValue name) (sanitizeFieldValue model)] ∧
  (sanitizeFieldValue name = [] →
     sandbox_argv (sanitizeFieldValue name) (sanitizeFieldValue model) !! 4 =
     Some (js "--env=ANTHROPIC_BASE_URL=https://inference.local")).
Proof.
  split; [|by intros ->]. apply shell_commands_reads; [done|].
  apply reads_sandbox; apply sanitize_plain.
Qed.

(** What a shell reads of the setup script. *)
Lemma setup_script_reads (lower env : jsstring → jsstring) (g : GatewayConnection)
    (model provider : jsstring) :
  match buildSetupScript lower g (Some (sanitizeFieldValue model))
          (Some (sanitizeFieldValue provider)) with
  | None => isGatewayReadyToConnect lower g = false
  | Some script =>
      ∃ endpoint, gc_endpoint g = Some endpoint ∧ endpoint ≠ [] ∧
        shell_commands env script =
          Some [add_argv g endpoint; provider_argv env (sanitizeFieldValue provider);
                inference_argv (sanitizeFieldValue provider) (sanitizeFieldValue model)]
  end.
Proof.
  unfold buildSetupScript, buildGatewayAddCommand.
  destruct (isGatewayReadyToConnect lower g) eqn:E; [|done].
  destruct (gc_endpoint g) as [[|c t]|] eqn:He; simpl truthy; cbv match;
    try (exfalso; revert E; unfold isGatewayReadyToConnect; rewrite He; by rewrite andb_false_r).
  exists (c :: t). split_and!; [done|done|].
  set (endpoint := c :: t). set (pr := sanitizeFieldValue provider).
  set (mo := sanitizeFieldValue model). cbn [default joinWith].
  unfold shell_commands.
  pose proof (reads_add_command env g endpoint) as H1.
  pose proof (reads_provider env pr (sanitize_plain provider)) as H2.
  pose proof (reads_inference env pr mo (sanitize_plain provider) (sanitize_plain model)) as H3.
  set (add := joinWith continued _) in *. set (create := buildProviderCreateCommand pr) in *.
  set (select := buildInferenceSetCommand pr mo) in *.
  change (id pr) with pr. change (id mo) with mo. fold create select.
  change (js "# 1. Log in to the gateway") with (35%N :: js " 1. Log in to the gateway").
  rewrite (read_comment_line env) by decide_fact.
  cbn [app]. rewrite (reads_eol env _ _ _ H1), read_blank_line.
  change (js "# 2. Add the Claude on Vertex AI provider" ++ newline :: ?r) with
    ((35%N :: js " 2. Add the Claude on Vertex AI provider") ++ [newline] ++ r).
  rewrite (read_comment_line env) by decide_fact.
  rewrite (reads_eol env _ _ _ H2), read_blank_line.
  change (js "# 3. Select the model" ++ newline :: ?r) with
    ((35%N :: js " 3. Select the model") ++ [newline] ++ r).
  rewrite (read_comment_line env) by decide_fact.
  rewrite (reads_end env _ _ H3). simpl fmap. by destruct (gc_name g).
Qed.

