(* ===== verification/CommandHighlight.v ===== *)
(** Highlighted, editable commands ([gateways/command-highlight.ts]): the class
    names made from token colours, the split of a token's text at the edit
    markers, and the parts of a whole command. The tokeniser is a library: it is
    an argument, with the text of its tokens as the only thing relied on. *)
From S2P Require Export JsCore.

Inductive CommandPart :=
| TextPart (className value : jsstring)
| FieldPart (className marker : jsstring).

Definition is_hex (c : N) : bool :=
  ((48 <=? c) && (c <=? 57) || (97 <=? c) && (c <=? 102) || (65 <=? c) && (c <=? 70))%N.

(** The match of [/^#([0-9a-fA-F]{3,8})$/], its group. *)
Definition hex_color (s : jsstring) : option jsstring :=
  match s with
  | c :: t => if ((c =? 35)%N && (3 <=? length t) && (length t <=? 8) && forallb is_hex t)%nat
              then Some t else None
  | [] => None
  end.

Definition colorClass (prefix : jsstring) (value : option jsstring) : option jsstring :=
  (λ hex, prefix ++ js "-" ++ ascii_lower hex) <$> hex_color (trim (default [] value)).

Definition tokenClassName (style : option (list (jsstring * jsstring))) : jsstring :=
  match style with
  | None => []
  | Some st =>
      let classes :=
        option_list (colorClass (js "hl-fg") (prop_get st (js "color"))) ++
        option_list (colorClass (js "hl-dfg") (prop_get st (js "--shiki-dark"))) ++
        (if includes (default [] (prop_get st (js "font-weight"))) (js "bold")
         then [js "hl-bold"] else []) ++
        (if includes (default [] (prop_get st (js "font-style"))) (js "italic")
         then [js "hl-italic"] else []) in
      joinWith (js " ") classes
  end.

(** The inner loop: the first marker with the smallest index. *)
Fixpoint earliest_marker (rest : jsstring) (markers : list jsstring)
    (best : option (nat * jsstring)) : option (nat * jsstring) :=
  match markers with
  | [] => best
  | marker :: markers' =>
      earliest_marker rest markers'
        (match indexOf rest marker with
         | None => best
         | Some index =>
             match best with
             | None => Some (index, marker)
             | Some (earliest, _) => if decide (index < earliest) then Some (index, marker) else best
             end
         end)
  end.

(** The outer loop, [fuel] rounds of it; [None] when they are used up. *)
Fixpoint split_loop (fuel : nat) (rest : jsstring) (markers : list jsstring)
    (className : jsstring) : option (list CommandPart) :=
  match rest with
  | [] => Some []
  | _ =>
      match fuel with
      | O => None
      | S f =>
          match earliest_marker rest markers None with
          | None => Some [TextPart className rest]
          | Some (earliest, matched) =>
              let before := if decide (0 < earliest)
                            then [TextPart className (take earliest rest)] else [] in
              (λ parts, before ++ FieldPart className matched :: parts) <$>
              split_loop f (drop (earliest + length matched) rest) markers className
          end
      end
  end.

Definition splitOnMarkers (content : jsstring) (markers : list jsstring) (className : jsstring) :
    option (list CommandPart) :=
  split_loop (length content) content markers className.

Record Token := { tk_content : jsstring; tk_style : option (list (jsstring * jsstring)) }.

(** One line's parts; [None] when a split does not end. *)
Fixpoint line_parts (line : list Token) (markers : list jsstring) : option (list CommandPart) :=
  match line with
  | [] => Some []
  | t :: line' =>
      splitOnMarkers (tk_content t) markers (tokenClassName (tk_style t)) ≫= λ p,
      app p <$> line_parts line' markers
  end.

Fixpoint lines_parts (index : nat) (lines : list (list Token)) (markers : list jsstring) :
    option (list CommandPart) :=
  match lines with
  | [] => Some []
  | line :: lines' =>
      line_parts line markers ≫= λ p,
      app ((if decide (0 < index) then [TextPart [] [10%N]] else []) ++ p) <$>
      lines_parts (S index) lines' markers
  end.

Definition highlightTemplate (codeToTokens : jsstring → list (list Token))
    (command : jsstring) (markers : list jsstring) : option (list CommandPart) :=
  lines_parts 0 (codeToTokens command) markers.

(** * What the user sees *)

(** A part's text when each field shows [show marker]. *)
Definition part_text (show : jsstring → jsstring) (p : CommandPart) : jsstring :=
  match p with TextPart _ v => v | FieldPart _ m => show m end.

Definition parts_text (show : jsstring → jsstring) (ps : list CommandPart) : jsstring :=
  ps ≫= part_text show.

(** The text of the lines of tokens. *)
Definition tokens_text (lines : list (list Token)) : jsstring :=
  joinWith [10%N] (map (λ line, line ≫= tk_content) lines).

(** * Lemmas *)

(** The chosen marker occurs at the chosen index, and no marker occurs earlier. *)
Lemma earliest_marker_spec rest markers best r :
  (∀ i m, best = Some (i, m) → indexOf rest m = Some i) →
  earliest_marker rest markers best = r →
  match r with
  | None => best = None ∧ ∀ m, m ∈ markers → indexOf rest m = None
  | Some (i, m) =>
      indexOf rest m = Some i ∧ (m ∈ markers ∨ best = Some (i, m)) ∧
      (∀ j m', best = Some (j, m') → i ≤ j) ∧
      (∀ m' j, m' ∈ markers → indexOf rest m' = Some j → i ≤ j)
  end.
Proof.
  revert best. induction markers as [|m0 markers IH]; intros best Hb; simpl.
  - intros <-. destruct best as [[i m]|]; [|set_solver].
    split_and!; [by apply Hb|by right| |set_solver]. intros j m' [= -> ->]. done.
  - match goal with |- context [earliest_marker rest markers ?b] => set (best' := b) end.
    assert (Hb' : ∀ i m, best' = Some (i, m) → indexOf rest m = Some i).
    { intros i m. unfold best'. destruct (indexOf rest m0) eqn:E0; [|apply Hb].
      destruct best as [[j m']|]; [case_decide; [|apply Hb]|]; by intros [= <- <-]. }
    intros Hr. specialize (IH best' Hb' Hr). destruct r as [[i m]|].
    + destruct IH as (Hi & Hin & Hle & Hmin). split_and!; [done| | |].
      * destruct Hin as [Hin|Hin]; [left; by right|]. unfold best' in Hin.
        destruct (indexOf rest m0) eqn:E0; [|by right].
        destruct best as [[j m']|]; [case_decide; [|by right]|];
          simplify_eq; left; by left.
      * intros j m' ->. unfold best' in Hle. destruct (indexOf rest m0) as [k|] eqn:E0;
          [|by eapply Hle]. case_decide; [|by eapply Hle].
        specialize (Hle k m0 eq_refl). lia.
      * intros m' j [->|Hm']%elem_of_cons Hj; [|by eapply Hmin].
        unfold best' in Hle. rewrite Hj in Hle. destruct best as [[k m'']|];
          [case_decide|]; [by eapply Hle| |by eapply Hle].
        specialize (Hle k m'' eq_refl). lia.
    + destruct IH as [Hnone Hall]. unfold best' in Hnone.
      destruct (indexOf rest m0) eqn:E0.
      { destruct best as [[j m']|]; [case_decide|]; done. }
      split; [done|]. intros m [->|Hm]%elem_of_cons; [done|by apply Hall].
Qed.

Lemma earliest_marker_start rest markers :
  match earliest_marker rest markers None with
  | None => ∀ m, m ∈ markers → indexOf rest m = None
  | Some (i, m) => indexOf rest m = Some i ∧ m ∈ markers ∧
      ∀ m' j, m' ∈ markers → indexOf rest m' = Some j → i ≤ j
  end.
Proof.
  pose proof (earliest_marker_spec rest markers None _ ltac:(done) eq_refl) as H.
  destruct (earliest_marker rest markers None) as [[i m]|]; naive_solver.
Qed.

(** A text without any of the markers. *)
Definition marker_free (markers : list jsstring) (s : jsstring) : Prop :=
  ∀ m, m ∈ markers → includes s m = false.

Lemma includes_None s m : indexOf s m = None ↔ includes s m = false.
Proof. unfold includes. by destruct (indexOf s m). Qed.

(** An occurrence inside a prefix is an occurrence at the same index. *)
Lemma indexOf_app_le a b p i : indexOf a p = Some i → ∃ j, indexOf (a ++ b) p = Some j ∧ j ≤ i.
Proof.
  revert i. induction a as [|c a IH]; intros i Hi; cbn [indexOf app] in *.
  - destruct (startsWith [] p) eqn:E; [|done]. destruct p; [|done].
    exists 0. split; [by destruct b|lia].
  - destruct (startsWith (c :: a) p) eqn:E.
    + apply startsWith_spec in E as [t E]. exists 0. split; [|lia].
      assert (startsWith (c :: a ++ b) p = true) as ->; [|done].
      apply startsWith_spec. exists (t ++ b). change (c :: a ++ b) with ((c :: a) ++ b).
      by rewrite E, (assoc_L (++)).
    + destruct (indexOf a p) as [k|] eqn:Ek; [|done]. injection Hi as <-.
      destruct (startsWith (c :: a ++ b) p); [exists 0; split; [done|lia]|].
      destruct (IH k eq_refl) as (j & -> & Hj). exists (S j). split; [done|lia].
Qed.

Lemma take_marker_free rest markers e m :
  [] ∉ markers → earliest_marker rest markers None = Some (e, m) →
  marker_free markers (take e rest).
Proof.
  intros Hne He m' Hm'. apply includes_None.
  destruct (indexOf (take e rest) m') as [j|] eqn:Hj; [|done]. exfalso.
  pose proof (earliest_marker_start rest markers) as Hs. rewrite He in Hs.
  destruct Hs as (_ & _ & Hmin).
  pose proof (indexOf_bound _ _ _ Hj) as Hb. rewrite length_take in Hb.
  destruct (indexOf_app_le _ (drop e rest) _ _ Hj) as (k & Hk & Hkj).
  rewrite take_drop in Hk. specialize (Hmin _ _ Hm' Hk).
  assert (length m' ≠ 0) by (intros ?%nil_length_inv; by subst). lia.
Qed.

Lemma parts_text_app show ps qs : parts_text show (ps ++ qs) = parts_text show ps ++ parts_text show qs.
Proof. apply bind_app. Qed.

(** What each part of a split is. *)
Definition part_ok (markers : list jsstring) (className : jsstring) (p : CommandPart) : Prop :=
  match p with
  | TextPart c v => c = className ∧ v ≠ [] ∧ marker_free markers v
  | FieldPart c m => c = className ∧ m ∈ markers
  end.

Lemma split_loop_spec fuel rest markers cls :
  [] ∉ markers → length rest ≤ fuel →
  ∃ parts, split_loop fuel rest markers cls = Some parts ∧
    parts_text id parts = rest ∧ Forall (part_ok markers cls) parts.
Proof.
  intros Hne. revert rest. induction fuel as [|f IH]; intros rest Hl.
  { destruct rest; [|simpl in Hl; lia]. exists []. done. }
  destruct rest as [|c rest]; [by exists []|]. cbn [split_loop].
  set (s := c :: rest) in *. pose proof (earliest_marker_start s markers) as Hst.
  destruct (earliest_marker s markers None) as [[e m]|] eqn:He.
  - destruct Hst as (Hi & Hin & _).
    pose proof (indexOf_bound _ _ _ Hi) as Hb.
    assert (length m ≠ 0) by (intros ?%nil_length_inv; by subst).
    destruct (indexOf_Some _ _ _ Hi) as (a & b & Hs & Ha).
    assert (Hd : drop (e + length m) s = b)
      by (rewrite Hs, <- Ha, <- length_app, (assoc_L (++)); apply drop_app_length).
    assert (Hta : take e s = a) by (rewrite Hs, <- Ha; apply take_app_length).
    assert (Hf : marker_free markers a) by (rewrite <- Hta; by eapply take_marker_free).
    destruct (IH (drop (e + length m) s)) as (parts & -> & Ht & Hok).
    { rewrite length_drop. lia. }
    eexists. split; [done|]. rewrite parts_text_app, Hta, Hs.
    change (parts_text id (FieldPart cls m :: parts)) with (m ++ parts_text id parts).
    rewrite Ht, Hd. split.
    + f_equal. destruct a; simpl in Ha; subst e; [done|]. simpl. by rewrite app_nil_r.
    + apply Forall_app. split; [|by constructor].
      case_decide; constructor; [|constructor]. split_and!; [done| |done].
      intros ->. simpl in Ha. lia.
  - exists [TextPart cls s]. split; [done|]. split; [simpl; by rewrite app_nil_r|].
    repeat constructor; [done|]. intros m Hm. apply includes_None.
    by apply Hst.
Qed.

(** A part shows static text or one of the edit fields. *)
Definition part_known (markers : list jsstring) (p : CommandPart) : Prop :=
  match p with TextPart _ _ => True | FieldPart _ m => m ∈ markers end.

Lemma part_ok_known markers cls ps : Forall (part_ok markers cls) ps → Forall (part_known markers) ps.
Proof. intros H. eapply Forall_impl; [exact H|]. intros [|]; simpl; tauto. Qed.

Lemma line_parts_spec line markers : [] ∉ markers →
  ∃ ps, line_parts line markers = Some ps ∧ parts_text id ps = line ≫= tk_content ∧
    Forall (part_known markers) ps.
Proof.
  intros Hne. induction line as [|t line (ps & IH & Ht & Hk)]; [by exists []|]. simpl.
  destruct (split_loop_spec (length (tk_content t)) (tk_content t) markers
    (tokenClassName (tk_style t)) Hne (le_n _)) as (qs & Hq & Hqt & Hqk).
  unfold splitOnMarkers. rewrite Hq, IH. simpl. eexists. split; [done|].
  rewrite parts_text_app, Hqt, Ht. split; [done|].
  apply Forall_app. split; [by eapply part_ok_known|done].
Qed.

Lemma lines_parts_spec index lines markers : [] ∉ markers →
  ∃ ps, lines_parts index lines markers = Some ps ∧
    parts_text id ps = (if decide (0 < index ∧ lines ≠ []) then [10%N] else []) ++ tokens_text lines ∧
    Forall (part_known markers) ps.
Proof.
  intros Hne. revert index. induction lines as [|line lines IH]; intros index.
  { exists []. rewrite decide_False by tauto. done. }
  destruct (line_parts_spec line markers Hne) as (ps & Hp & Ht & Hk).
  destruct (IH (S index)) as (qs & Hq & Hqt & Hqk). simpl. rewrite Hp, Hq. simpl.
  eexists. split; [done|]. rewrite !parts_text_app, Ht, Hqt. unfold tokens_text. split.
  - rewrite <- !(assoc_L (++)). f_equal.
    + repeat case_decide; try done; naive_solver lia.
    + destruct lines as [|l lines].
      * rewrite decide_False by tauto. simpl. by rewrite !app_nil_r.
      * rewrite decide_True by (split; [lia|done]). done.
  - apply Forall_app. split; [|done]. apply Forall_app. split; [|done].
    destruct (decide (0 < index)); [apply Forall_singleton; exact I|constructor].
Qed.

(** * Properties *)

(** Splitting at non-empty markers ends, loses no text and puts it in the
    original order; its text parts are not empty and hold no marker, its fields
    are markers of the list. *)
Theorem splitOnMarkers_correct (content : jsstring) (markers : list jsstring)
    (className : jsstring) :
  [] ∉ markers →
  ∃ parts, splitOnMarkers content markers className = Some parts ∧
    parts_text id parts = content ∧ Forall (part_ok markers className) parts.
Proof. intros. by apply split_loop_spec. Qed.

Lemma splitOnMarkers_correct_witness :
  ∃ parts, splitOnMarkers (js "run A and AB") [js "A"; js "AB"] [] = Some parts ∧
    parts_text id parts = js "run A and AB" ∧ Forall (part_ok [js "A"; js "AB"] []) parts.
Proof.
  refine (splitOnMarkers_correct (js "run A and AB") [js "A"; js "AB"] [] _).
  decide_fact.
Defined.

(** When the tokens carry the whole text of the command, the highlighted
    parts do too, line by line, and every field is one of the markers, so what is
    displayed is the command with its markers replaced. *)
Theorem highlightTemplate_text (codeToTokens : jsstring → list (list Token))
    (command : jsstring) (markers : list jsstring) :
  [] ∉ markers → tokens_text (codeToTokens command) = command →
  ∃ parts, highlightTemplate codeToTokens command markers = Some parts ∧
    parts_text id parts = command ∧ Forall (part_known markers) parts.
Proof.
  intros Hne Ht. destruct (lines_parts_spec 0 (codeToTokens command) markers Hne)
    as (ps & Hp & Hpt & Hk).
  exists ps. split_and!; [done| |done]. rewrite Hpt, decide_False by lia. done.
Qed.

(** A tokenizer that cuts a one-line command after its first word. *)
Definition plain_tokens (s : jsstring) : list (list Token) :=
  [map (λ l, {| tk_content := l; tk_style := None |}) [take 7 s; drop 7 s]].

Lemma highlightTemplate_text_witness :
  ∃ parts, highlightTemplate plain_tokens (js "sandbox create NAME") [js "NAME"] = Some parts ∧
    parts_text id parts = js "sandbox create NAME" ∧ Forall (part_known [js "NAME"]) parts.
Proof.
  refine (highlightTemplate_text plain_tokens (js "sandbox create NAME") [js "NAME"] _ _).
  - decide_fact.
  - reflexivity.
Defined.
