(* ===== verification/GatewayData.v ===== *)
(** Gateway data shared by the pages ([gateways/gateway-data.ts] and
    [gateways/console-wait-tracker.ts]): lifecycle states, how long a gateway is
    polled and since when it has been waiting for its console, query keys, and the
    record the pages show. *)
From S2P Require Export GatewaySearch GatewayConnections.

Definition gatewayPlacementStaleMilliseconds : num := NInt 60000.
Definition gatewaySearchDebounceMilliseconds : num := NInt 250.
Definition gatewayStatusPollMilliseconds : num := NInt 5000.
Definition gatewayConsoleReadyDeadlineMilliseconds : num := NInt 600000.

Definition gatewayPollingStates : list jsstring :=
  [js "pending"; js "provisioning"; js "reconciling"; js "updating"; js "degraded";
   js "deleting"].
Definition gatewayFailedLifecycleStates : list jsstring := [js "error"; js "failed"].

Section lifecycle.
Context (toLocaleLowerCase : jsstring → jsstring).

Definition gatewayLifecycleStates (g : GatewayRecord) : list jsstring :=
  filter (λ s, is_nonempty s = true)
    (map (λ v, match v with Some s => toLocaleLowerCase (trim s) | None => [] end)
       [gr_phase g; gr_status g]).

(** [Boolean(s?.trim())] *)
Definition has_text (o : option jsstring) : bool :=
  match o with Some s => is_nonempty (trim s) | None => false end.

Definition some_in (states set : list jsstring) : bool :=
  existsb (λ s, bool_decide (s ∈ set)) states.

Definition transitional (states : list jsstring) : bool :=
  bool_decide (length states = 0) || some_in states gatewayPollingStates.

Definition gatewayAwaitingConsoleEligible (g : GatewayRecord) (states : list jsstring) : bool :=
  let routed := has_text (gr_externalDns g) in
  let consolePublished := has_text (gr_consoleUrl g) in
  let failed := some_in states gatewayFailedLifecycleStates in
  routed && negb consolePublished && negb (transitional states) && negb failed.

Definition resolveConsoleWaitStart (g : GatewayRecord) (now : num) (previousStart : option num) :
    option num :=
  if negb (gatewayAwaitingConsoleEligible g (gatewayLifecycleStates g)) then None
  else Some (default now previousStart).

Definition withinConsoleReadyDeadline (consoleWaitStartedAt : option num) (now : num) : bool :=
  match consoleWaitStartedAt with
  | None => false
  | Some start =>
      if is_nan start then false
      else num_lt (num_sub now start) gatewayConsoleReadyDeadlineMilliseconds
  end.

Definition gatewayNeedsStatusPolling (g : GatewayRecord) (consoleWaitStartedAt : option num)
    (now : num) : bool :=
  let states := gatewayLifecycleStates g in
  if transitional states then true
  else gatewayAwaitingConsoleEligible g states &&
       withinConsoleReadyDeadline consoleWaitStartedAt now.

Definition isGatewayConsolePastDeadline (consoleWaitStartedAt : option num) (now : num) : bool :=
  match consoleWaitStartedAt with
  | None => false
  | Some _ => negb (withinConsoleReadyDeadline consoleWaitStartedAt now)
  end.

Definition gatewayConsoleUnavailable (g : GatewayRecord) (consoleWaitStartedAt : option num)
    (now : num) : bool :=
  let states := gatewayLifecycleStates g in
  if negb (gatewayAwaitingConsoleEligible g states) then false
  else negb (withinConsoleReadyDeadline consoleWaitStartedAt now).

(** The tracker's map, [starts], and one call of the tracker. *)
Definition trackConsoleWait (starts : gmap jsstring num) (gatewayId : jsstring)
    (g : GatewayRecord) (now : num) : option num * gmap jsstring num :=
  let next := resolveConsoleWaitStart g now (starts !! gatewayId) in
  (next, match next with
         | None => delete gatewayId starts
         | Some t => <[gatewayId := t]> starts
         end).
End lifecycle.

(** * Query keys *)

Definition gatewayListQueryRoot : list jsval := [VStr (js "gateways"); VStr (js "list")].
Definition gatewayPlacementQueryRoot : list jsval :=
  [VStr (js "gateways"); VStr (js "placements")].

Definition gatewayListQueryKey (r : GatewayListRequest) : list jsval :=
  gatewayListQueryRoot ++
  [VNum (lr_page r); VNum (lr_size r); VStr (lr_search r);
   VStr (sortField_str (lr_sortField r)); VStr (sortDirection_str (lr_sortDirection r))].

Definition gatewayQueryKey (gatewayId : jsstring) : list jsval :=
  [VStr (js "gateways"); VStr (js "detail"); VStr gatewayId].

Definition gatewayPlacementQueryKey (search : jsstring) : list jsval :=
  gatewayPlacementQueryRoot ++ [VStr (js "search"); VStr (trim search)].

Definition gatewayPlacementDetailQueryKey (clusterId : jsstring) : list jsval :=
  gatewayPlacementQueryRoot ++ [VStr (js "detail"); VStr clusterId].

Definition gatewayPlacementBatchQueryKey (clusterIds : list jsstring) : list jsval :=
  gatewayPlacementQueryRoot ++ VStr (js "batch") ::
  map VStr (normalizeGatewayPlacementClusterIds clusterIds).

(** * The record the pages show *)

(** Case folding of the units of [https], as the [iu] flags do it: the long s
    folds to s. *)
Definition fold_unit (c : N) : N :=
  if ((65 <=? c) && (c <=? 90))%N then (c + 32)%N else if (c =? 383)%N then 115%N else c.

(** [/^https?:\/\//iu.test(s)] *)
Definition has_http_scheme (s : jsstring) : bool :=
  let f := map fold_unit s in
  startsWith f (js "http://") || startsWith f (js "https://").

Definition gatewayEndpoint (g : GatewayRecord) : option jsstring :=
  let externalDns := match gr_externalDns g with Some s => trim s | None => [] end in
  match externalDns with
  | [] => None
  | _ =>
      if has_http_scheme externalDns then Some externalDns
      else Some (js "https://" ++ externalDns ++
                 if includes externalDns (js ":") then [] else js ":443")
  end.

(** [a || b] on strings. *)
Definition or_else (a b : jsstring) : jsstring := match a with [] => b | _ => a end.

Definition toGatewayConnection (toLocaleLowerCase : jsstring → jsstring) (g : GatewayRecord)
    (hubClusterName : jsstring) : GatewayConnection :=
  let clusterId := trim (gr_clusterId g) in
  let phase := match gr_phase g with Some s => trim s | None => [] end in
  let healthStatus := match gr_status g with Some s => trim s | None => [] end in
  let normalizedPhase := toLocaleLowerCase phase in
  let status :=
    if is_nonempty phase &&
       (bool_decide (normalizedPhase ∈ gatewayPollingStates) ||
        bool_decide (normalizedPhase ∈ gatewayFailedLifecycleStates))
    then phase else or_else healthStatus phase in
  {| gc_activeSandboxCount := gr_activeSandboxCount g;
     gc_clusterId := if is_nonempty clusterId then Some clusterId else None;
     gc_clusterName := if is_nonempty clusterId then [] else hubClusterName;
     gc_consoleUrl := truthy (gr_consoleUrl g);
     gc_createdAt := truthy (gr_createdAt g);
     gc_createdBy := truthy (gr_createdBy g);
     gc_endpoint := gatewayEndpoint g;
     gc_id := gr_id g;
     gc_name := gr_name g;
     gc_oidcAudience := truthy (gr_oidcAudience g);
     gc_oidcClientId := truthy (gr_oidcClientId g);
     gc_oidcIssuer := truthy (gr_oidcIssuer g);
     gc_phase := if is_nonempty phase then Some phase else None;
     gc_status := or_else status (js "Unknown") |}.

(** * Lemmas *)

Section tracking.
Context (lower : jsstring → jsstring).

Definition eligible (g : GatewayRecord) : bool :=
  gatewayAwaitingConsoleEligible g (gatewayLifecycleStates lower g).

(** What the tracker is shown: a gateway's record at a time. *)
Record Observation := { ob_id : jsstring; ob_gateway : GatewayRecord; ob_now : num }.

Fixpoint track_all (obs : list Observation) (starts : gmap jsstring num) : gmap jsstring num :=
  match obs with
  | [] => starts
  | o :: obs' =>
      track_all obs' (trackConsoleWait lower starts (ob_id o) (ob_gateway o) (ob_now o)).2
  end.

(** The observations of one gateway. *)
Definition observations_of (i : jsstring) (obs : list Observation) : list Observation :=
  filter (λ o, ob_id o = i) obs.

(** The current spell of waiting began at [t]: the gateway has been eligible in
    every observation since then, and not in the one before. *)
Definition waiting_since (obs : list Observation) (t : num) : Prop :=
  ∃ pre o post, obs = pre ++ o :: post ∧ ob_now o = t ∧
    Forall (λ o, eligible (ob_gateway o) = true) (o :: post) ∧
    (∀ o', last pre = Some o' → eligible (ob_gateway o') = false).

Lemma track_all_snoc obs o starts :
  track_all (obs ++ [o]) starts =
  (trackConsoleWait lower (track_all obs starts) (ob_id o) (ob_gateway o) (ob_now o)).2.
Proof. revert starts. induction obs as [|o' obs IH]; intros starts; [done|]. apply IH. Qed.

Lemma trackConsoleWait_lookup starts i g now j :
  (trackConsoleWait lower starts i g now).2 !! j =
  if decide (j = i) then (if eligible g then Some (default now (starts !! i)) else None)
  else starts !! j.
Proof.
  unfold trackConsoleWait, resolveConsoleWaitStart, eligible; simpl.
  destruct (gatewayAwaitingConsoleEligible g _); simpl; case_decide as Hj; subst.
  - by rewrite lookup_insert_eq.
  - by rewrite lookup_insert_ne.
  - by rewrite lookup_delete_eq.
  - by rewrite lookup_delete_ne.
Qed.

Lemma waiting_since_snoc obs o t :
  waiting_since (obs ++ [o]) t ↔
  eligible (ob_gateway o) = true ∧
  (waiting_since obs t ∨ ob_now o = t ∧ ∀ o', last obs = Some o' → eligible (ob_gateway o') = false).
Proof.
  unfold waiting_since. split.
  - intros (pre & o1 & post & Heq & Ht & Hall & Hpre).
    destruct post as [|o2 post _] using rev_ind.
    + apply app_inj_tail in Heq as [-> ->]. inversion Hall; subst. auto.
    + rewrite app_comm_cons, (assoc_L (++)) in Heq. apply app_inj_tail in Heq as [-> ->].
      rewrite app_comm_cons in Hall. apply Forall_app in Hall as [Hall Ho].
      inversion Ho; subst. split; [done|]. left. by exists pre, o1, post.
  - intros [Ho [(pre & o1 & post & -> & Ht & Hall & Hpre)|[Ht Hpre]]].
    + exists pre, o1, (post ++ [o]). rewrite <- (assoc_L (++)). split_and!; try done.
      rewrite app_comm_cons. apply Forall_app. split; [done|]. by repeat constructor.
    + exists obs, o, []. split_and!; try done. by repeat constructor.
Qed.

Lemma waiting_since_last obs t o :
  waiting_since obs t → last obs = Some o → eligible (ob_gateway o) = true.
Proof.
  intros (pre & o1 & post & -> & _ & Hall & _) Hl. rewrite last_app_cons in Hl.
  rewrite Forall_forall in Hall. by apply Hall, last_Some_elem_of.
Qed.

Lemma eligible_waits obs o :
  last obs = Some o → eligible (ob_gateway o) = true → ∃ t, waiting_since obs t.
Proof.
  revert o. induction obs as [|o' obs IH] using rev_ind; intros o Ho He; [done|].
  rewrite last_snoc in Ho. simplify_eq. setoid_rewrite waiting_since_snoc.
  destruct (last obs) as [o'|] eqn:Hl; [destruct (eligible (ob_gateway o')) eqn:E|].
  - destruct (IH o' eq_refl E) as [t Ht]. exists t. auto.
  - exists (ob_now o). split; [done|]. right. split; [done|]. by intros ? [= <-].
  - exists (ob_now o). split; [done|]. right. done.
Qed.

(** The map holds, for each gateway, when its current spell of waiting began. *)
Lemma track_all_since obs i t :
  track_all obs ∅ !! i = Some t ↔ waiting_since (observations_of i obs) t.
Proof.
  revert t. induction obs as [|o obs IH] using rev_ind; intros t.
  { split; [done|]. intros (pre & o & post & Heq & _). by destruct pre. }
  unfold observations_of in *. rewrite track_all_snoc, trackConsoleWait_lookup, filter_app.
  rewrite filter_cons, filter_nil. destruct (decide (ob_id o = i)) as [<-|Hi].
  - rewrite decide_True, waiting_since_snoc by done.
    destruct (eligible (ob_gateway o)) eqn:E; [|naive_solver].
    destruct (track_all obs ∅ !! ob_id o) as [s|] eqn:Hs.
    + pose proof (proj1 (IH s) eq_refl) as Hw. simpl. split; [intros [= <-]; auto|].
      intros [_ [Ht|[_ Hno]]]; [apply IH in Ht; congruence|]. exfalso.
      destruct (last (filter (λ x, ob_id x = ob_id o) obs)) as [o'|] eqn:Hl.
      * specialize (Hno o' eq_refl). by rewrite (waiting_since_last _ _ _ Hw Hl) in Hno.
      * apply last_None in Hl. rewrite Hl in Hw. destruct Hw as (pre & ? & ? & Heq & _).
        by destruct pre.
    + simpl. split; [|intros [_ [Ht|[<- _]]]; [apply IH in Ht; congruence|done]].
      intros [= <-]. split; [done|]. right. split; [done|]. intros o' Ho'.
      destruct (eligible (ob_gateway o')) eqn:E'; [|done].
      destruct (eligible_waits _ _ Ho' E') as [s Hw]. apply IH in Hw. congruence.
  - rewrite decide_False by congruence. rewrite app_nil_r. apply IH.
Qed.
End tracking.

Lemma https_has_scheme s : has_http_scheme (js "https://" ++ s) = true.
Proof.
  unfold has_http_scheme. rewrite map_app. apply orb_true_iff. right. apply startsWith_app.
Qed.

(** The endpoint is there, and not empty, exactly when there is an external name. *)
Lemma gatewayEndpoint_truthy g :
  bool_decide (is_Some (truthy (gatewayEndpoint g))) = has_text (gr_externalDns g).
Proof.
  unfold gatewayEndpoint, has_text. destruct (gr_externalDns g) as [s|]; [|done].
  destruct (trim s) as [|d t]; [done|]. by destruct (has_http_scheme _).
Qed.

(** * Properties *)

(** Whatever the order in which gateways are refreshed, the tracker's clock
    for a gateway is the time of the first observation of its current unbroken
    spell of waiting for a console, and it has none while the gateway is not
    waiting: later polls never move it, other gateways never touch it. *)
Theorem console_wait_clock (lower : jsstring → jsstring) (obs : list Observation)
    (i : jsstring) (t : num) :
  track_all lower obs ∅ !! i = Some t ↔ waiting_since lower (observations_of i obs) t.
Proof. apply track_all_since. Qed.

(** A gateway that is not waiting for its console is polled exactly while its
    state is transitional and never reported as unavailable; one that is waiting
    is polled for ten minutes from the start of its clock, not longer, and is
    reported as unavailable from then on: always one of the two. *)
Theorem console_polling_bounded (lower : jsstring → jsstring) (g : GatewayRecord) (start now : Z) :
  (Z.abs start ≤ 2 ^ 52)%Z → (Z.abs now ≤ 2 ^ 52)%Z →
  let polled := gatewayNeedsStatusPolling lower g (Some (NInt start)) (NInt now) in
  let unavailable := gatewayConsoleUnavailable lower g (Some (NInt start)) (NInt now) in
  if eligible lower g
  then polled = (now - start <? 600000)%Z ∧ unavailable = negb polled
  else polled = transitional (gatewayLifecycleStates lower g) ∧ unavailable = false.
Proof.
  intros Hs Hn. unfold gatewayNeedsStatusPolling, gatewayConsoleUnavailable.
  change (gatewayAwaitingConsoleEligible g (gatewayLifecycleStates lower g)) with (eligible lower g).
  assert (Hw : withinConsoleReadyDeadline (Some (NInt start)) (NInt now) = (now - start <? 600000)%Z).
  { unfold withinConsoleReadyDeadline; simpl is_nan; cbv iota. cbn [num_sub].
    rewrite round_int_exact by lia. apply num_lt_int. }
  cbv zeta. rewrite Hw. destruct (eligible lower g) eqn:E; cbn [negb andb].
  - assert (transitional (gatewayLifecycleStates lower g) = false) as ->; [|done].
    unfold eligible, gatewayAwaitingConsoleEligible in E. by destruct (transitional _); rewrite ?andb_false_r in E.
  - by destruct (transitional _).
Qed.

(** Query keys tell apart everything a query depends on: two list keys are
    equal only for the same request, two batch keys exactly for the same set of
    clusters, and no two kinds of key coincide. *)
Theorem query_keys_distinct :
  (∀ r r', gatewayListQueryKey r = gatewayListQueryKey r' → r = r') ∧
  (∀ l l', gatewayPlacementBatchQueryKey l = gatewayPlacementBatchQueryKey l' ↔
     normalizeGatewayPlacementClusterIds l = normalizeGatewayPlacementClusterIds l') ∧
  (∀ r i s c l,
     NoDup [gatewayListQueryKey r; gatewayQueryKey i; gatewayPlacementQueryKey s;
            gatewayPlacementDetailQueryKey c; gatewayPlacementBatchQueryKey l]).
Proof.
  split_and!.
  - intros [p s z d f] [p' s' z' d' f'] [= <- <- <- Hf Hd]. f_equal.
    + by destruct d, d'.
    + by destruct f, f'.
  - intros l l'. unfold gatewayPlacementBatchQueryKey. split; [|by intros ->].
    intros Heq. apply app_inv_head in Heq. injection Heq as Heq.
    assert (Inj (=) (=) VStr) by (by intros ?? [=]).
    by apply (inj (fmap (M := list) VStr)) in Heq.
  - intros r i s c l. repeat (constructor; [rewrite ?not_elem_of_cons; split_and?; try done; try apply not_elem_of_nil|]).
    constructor.
Qed.

(** The record the pages show never has an empty status, names the hub
    cluster exactly when it has no cluster of its own, and has an endpoint exactly
    when the gateway has an external name: an absolute URL, with a port unless the
    name brings a port or a scheme. It is ready to connect exactly when its phase
    says running and it has an endpoint. *)
Theorem toGatewayConnection_correct (lower : jsstring → jsstring) (g : GatewayRecord)
    (hub : jsstring) :
  let c := toGatewayConnection lower g hub in
  gc_status c ≠ [] ∧
  (gc_clusterId c = None ↔ trim (gr_clusterId g) = []) ∧
  gc_clusterName c = (if gc_clusterId c is Some _ then [] else hub) ∧
  (∀ e, gc_endpoint c = Some e → has_http_scheme e = true) ∧
  (is_Some (gc_endpoint c) ↔ has_text (gr_externalDns g) = true) ∧
  (isGatewayReadyToConnect lower c = true ↔
     (∃ p, gr_phase g = Some p ∧ trim p ≠ [] ∧ lower (trim p) = js "running") ∧
     has_text (gr_externalDns g) = true).
Proof.
  intros c. unfold c, toGatewayConnection. cbn [gc_status gc_clusterId gc_clusterName gc_endpoint].
  split_and!.
  - by match goal with |- or_else ?s _ ≠ [] => destruct s end.
  - by destruct (trim (gr_clusterId g)).
  - by destruct (trim (gr_clusterId g)).
  - unfold gatewayEndpoint. destruct (gr_externalDns g) as [s|]; [|done].
    destruct (trim s) as [|d t] eqn:Ht; [done|].
    destruct (has_http_scheme (d :: t)) eqn:Hs; intros e [= <-]; [done|].
    apply https_has_scheme.
  - unfold gatewayEndpoint, has_text. destruct (gr_externalDns g) as [s|]; [|by split; [intros [? ?]|]].
    destruct (trim s) as [|d t]; [by split; [intros [? ?]|]|].
    split; [done|]. intros _. destruct (has_http_scheme _); by eexists.
  - unfold isGatewayReadyToConnect, phase_is. cbn [gc_phase gc_endpoint].
    rewrite gatewayEndpoint_truthy, andb_true_iff. f_equiv.
    destruct (gr_phase g) as [p|]; [|by split; [|intros (? & ? & _)]].
    destruct (trim p) as [|d t] eqn:Ht; cbn [is_nonempty].
    { split; [done|]. intros (q & [= <-] & Hq & _). by rewrite Ht in Hq. }
    rewrite <- Ht, trim_idemp, bool_decide_eq_true. split.
    + intros Hl. exists p. by rewrite Ht in *.
    + by intros (q & [= <-] & _ & Hl).
Qed.

Lemma console_polling_bounded_witness :
  let g := {| gr_activeSandboxCount := None; gr_clusterId := []; gr_consoleUrl := None;
              gr_createdAt := None; gr_createdBy := None; gr_externalDns := Some (js "gw");
              gr_id := js "g"; gr_name := js "g"; gr_namespace := []; gr_oidcAudience := None;
              gr_oidcClientId := None; gr_oidcIssuer := None; gr_phase := Some (js "Running");
              gr_releaseId := []; gr_status := None |} in
  gatewayNeedsStatusPolling ascii_lower g (Some (NInt 1000)) (NInt 600999) = true ∧
  gatewayConsoleUnavailable ascii_lower g (Some (NInt 1000)) (NInt 601000) = true.
Proof.
  intros g.
  destruct (console_polling_bounded ascii_lower g 1000 600999 ltac:(lia) ltac:(lia)) as [H1 _].
  destruct (console_polling_bounded ascii_lower g 1000 601000 ltac:(lia) ltac:(lia)) as [H2 H3].
  split; [exact H1|]. etransitivity; [exact H3|]. by rewrite H2.
Defined.
