(* ===== verification/UrlState.v ===== *)
(** State kept in the address bar: [features/gateways/gateway-list-state.ts] and
    the service-account part of [routes/gateway.tsx], over [URLSearchParams] and
    the conversions [Number(string)] and [String(number)]. *)
From S2P Require Export GatewayTypes.

(** * [Number(string)] *)

(** The longest prefix of digits of a kind, and the rest. *)
Fixpoint span (f : N → bool) (s : jsstring) : jsstring * jsstring :=
  match s with
  | [] => ([], [])
  | c :: t => if f c then let r := span f t in (c :: r.1, r.2) else ([], s)
  end.

(** [m * 10^e] rounded to a double, for [m >= 0]. *)
Definition num_of_decimal (m e : Z) : num :=
  if (m =? 0)%Z then NInt 0
  else if (0 <=? e)%Z then round_int (m * 10 ^ e)
  else match m with
       | Zpos p =>
           let '(q, e', l) := SpecFloat.SFdiv_core_binary 53 1024 (Zpos p) 0 (10 ^ (- e)) 0 in
           num_of_sf (SpecFloat.binary_round_aux 53 1024 false q e' l)
       | _ => NNaN
       end.

(** The exponent part of a decimal literal, which must end the text. *)
Definition read_exponent (s : jsstring) : option Z :=
  match s with
  | [] => Some 0%Z
  | c :: t =>
      if ((c =? 101) || (c =? 69))%N then
        let '(sg, t') := match t with
                         | d :: t' => if (d =? 45)%N then ((-1)%Z, t')
                                      else if (d =? 43)%N then (1%Z, t') else (1%Z, t)
                         | [] => (1%Z, [])
                         end in
        if is_nonempty t' && forallb is_digit t' then Some (sg * digits_value t')%Z else None
      else None
  end.

Definition read_decimal (s : jsstring) : num :=
  let '(ip, r) := span is_digit s in
  let '(fp, r') := match r with
                   | c :: t => if (c =? 46)%N then span is_digit t else ([], r)
                   | [] => ([], [])
                   end in
  if is_nonempty (ip ++ fp) then
    match read_exponent r' with
    | Some e => num_of_decimal (digits_value (ip ++ fp)) (e - Z.of_nat (length fp))
    | None => NNaN
    end
  else NNaN.

Definition num_opp (n : num) : num :=
  match n with
  | NInt z => NInt (- z) | NFrac m e => NFrac (- m) e | NInf b => NInf (negb b) | NNaN => NNaN
  end.

Definition hex_value (c : N) : option Z :=
  if is_digit c then Some (Z.of_N c - 48)%Z
  else if ((97 <=? c) && (c <=? 102))%N then Some (Z.of_N c - 87)%Z
  else if ((65 <=? c) && (c <=? 70))%N then Some (Z.of_N c - 55)%Z
  else None.

(** Digits after [0x], [0o] or [0b]. *)
Definition read_radix (radix : Z) (s : jsstring) : num :=
  if is_nonempty s then
    match foldl (λ acc c, acc ≫= λ a, hex_value c ≫= λ d,
                   if (d <? radix)%Z then Some (a * radix + d)%Z else None) (Some 0%Z) s with
    | Some z => round_int z
    | None => NNaN
    end
  else NNaN.

Definition unsigned_number (s : jsstring) : num :=
  if decide (s = js "Infinity") then NInf false else read_decimal s.

Definition string_to_number (s : jsstring) : num :=
  match trim s with
  | [] => NInt 0
  | c :: t =>
      if (c =? 45)%N then num_opp (unsigned_number t)
      else if (c =? 43)%N then unsigned_number t
      else match t with
           | d :: t' =>
               if ((c =? 48) && ((d =? 120) || (d =? 88)))%N then read_radix 16 t'
               else if ((c =? 48) && ((d =? 111) || (d =? 79)))%N then read_radix 8 t'
               else if ((c =? 48) && ((d =? 98) || (d =? 66)))%N then read_radix 2 t'
               else unsigned_number (c :: t)
           | [] => unsigned_number (c :: t)
           end
  end.

(** [String(n)] for an integer below 10^21. *)
Definition number_to_string (n : num) : jsstring :=
  match n with NInt z => string_of_Z z | _ => js "NaN" end.

(** * [URLSearchParams] *)

Definition params : Type := list (jsstring * jsstring).

Definition is_high (c : N) : bool := ((55296 <=? c) && (c <=? 56319))%N.
Definition is_low (c : N) : bool := ((56320 <=? c) && (c <=? 57343))%N.

(** Conversion to scalar values: a lone surrogate becomes U+FFFD. *)
Fixpoint to_usv (s : jsstring) : jsstring :=
  match s with
  | [] => []
  | c :: t =>
      if is_high c then
        match t with
        | d :: t' => if is_low d then c :: d :: to_usv t' else 65533%N :: to_usv t
        | [] => [65533%N]
        end
      else (if is_low c then 65533%N else c) :: to_usv t
  end.

(** The first value of a name; replacing keeps its place and drops the others. *)
Definition url_get (p : params) (k : jsstring) : option jsstring := prop_get p k.

Fixpoint url_set_usv (p : params) (k v : jsstring) : params :=
  match p with
  | [] => [(k, v)]
  | (k', v') :: p' =>
      if decide (k = k') then (k, v) :: prop_delete p' k else (k', v') :: url_set_usv p' k v
  end.

Definition url_set (p : params) (k v : jsstring) : params := url_set_usv p (to_usv k) (to_usv v).
Definition url_delete (p : params) (k : jsstring) : params := prop_delete p k.

(** * Gateway list state *)

(** [/^[1-9][0-9]*$/u.test(value)] *)
Definition is_page_number (s : jsstring) : bool :=
  match s with
  | c :: t => ((49 <=? c) && (c <=? 57))%N && forallb is_digit t
  | [] => false
  end.

Definition pageFrom (value : option jsstring) : num :=
  match value with
  | Some v =>
      if is_page_number v then
        let page := string_to_number v in
        if is_safe_integer page then page else lr_page defaultGatewayListRequest
      else lr_page defaultGatewayListRequest
  | None => lr_page defaultGatewayListRequest
  end.

Definition sortDirectionFrom (value : option jsstring) : GatewaySortDirection :=
  if decide (value = Some (js "asc")) then Asc
  else if decide (value = Some (js "desc")) then Desc
  else lr_sortDirection defaultGatewayListRequest.

Definition sizeFrom (value : option jsstring) : num :=
  match value with
  | Some v =>
      if is_page_number v then
        let size := string_to_number v in
        if existsb (λ candidate, num_eqb candidate size) gatewayListPageSizes then size
        else lr_size defaultGatewayListRequest
      else lr_size defaultGatewayListRequest
  | None => lr_size defaultGatewayListRequest
  end.

Definition gatewaySortFieldLiterals : list GatewaySortField :=
  [SortCluster; SortCreated; SortEndpoint; SortName; SortOwner; SortStatus].

Definition sortFieldFrom (value : option jsstring) : GatewaySortField :=
  match value with
  | Some v => match filter (λ f, sortField_str f = v) gatewaySortFieldLiterals with
              | f :: _ => f
              | [] => lr_sortField defaultGatewayListRequest
              end
  | None => lr_sortField defaultGatewayListRequest
  end.

Definition parseGatewayListState (p : params) : GatewayListRequest := {|
  lr_page := pageFrom (url_get p (js "page"));
  lr_search := default (lr_search defaultGatewayListRequest) (url_get p (js "q"));
  lr_size := sizeFrom (url_get p (js "size"));
  lr_sortDirection := sortDirectionFrom (url_get p (js "direction"));
  lr_sortField := sortFieldFrom (url_get p (js "sort"))
|}.

Definition set_if (b : bool) (k v : jsstring) (p : params) : params :=
  if b then url_set p k v else p.

Definition serializeGatewayListState (s : GatewayListRequest) : params :=
  let d := defaultGatewayListRequest in
  set_if (negb (bool_decide (lr_sortDirection s = lr_sortDirection d))) (js "direction")
    (sortDirection_str (lr_sortDirection s))
  (set_if (negb (bool_decide (lr_sortField s = lr_sortField d))) (js "sort")
    (sortField_str (lr_sortField s))
  (set_if (negb (num_eqb (lr_size s) (lr_size d))) (js "size") (number_to_string (lr_size s))
  (set_if (negb (num_eqb (lr_page s) (lr_page d))) (js "page") (number_to_string (lr_page s))
  (set_if (is_nonempty (lr_search s)) (js "q") (lr_search s) [])))).

(** * Service-account collection state *)

Definition positiveInteger (value : option jsstring) (fallback : num) : num :=
  let parsed := match value with Some v => string_to_number v | None => NInt 0 end in
  if is_integer parsed && num_gt parsed (NInt 0) then parsed else fallback.

Definition serviceAccountStatuses : list ServiceAccountStatus :=
  [Degraded; Deleting; StatusError; Expired; Provisioning; Ready; Revoked; Revoking].
Definition serviceAccountSortFields : list ServiceAccountSortField :=
  [SaCreatedAt; SaExpiresAt; SaName; SaRole; SaStatus].

(** The member of a set of literals that a text is. *)
Definition literal_of {A} (str : A → jsstring) (l : list A) (v : option jsstring) : option A :=
  match v with
  | Some s => head (filter (λ a, str a = s) l)
  | None => None
  end.

Definition serviceAccountCollectionState (p : params) : ServiceAccountListRequest :=
  let defaults := defaultServiceAccountListRequest in {|
  sl_order := if decide (url_get p (js "sa-order") = Some (js "asc")) then Asc
              else sl_order defaults;
  sl_page := positiveInteger (url_get p (js "sa-page")) (sl_page defaults);
  sl_search := default (sl_search defaults) (url_get p (js "sa-search"));
  sl_size := num_min (NInt 100) (positiveInteger (url_get p (js "sa-size")) (sl_size defaults));
  sl_sort := default (sl_sort defaults)
    (literal_of saSortField_str serviceAccountSortFields (url_get p (js "sa-sort")));
  sl_status := literal_of status_str serviceAccountStatuses (url_get p (js "sa-status"))
|}.

Definition setOrDelete (p : params) (name value defaultValue : jsstring) : params :=
  if decide (value = defaultValue) then url_delete p name else url_set p name value.

(** [onServiceAccountCollectionStateChange] *)
Definition updateServiceAccountParams (previous : params) (s : ServiceAccountListRequest) : params :=
  let d := defaultServiceAccountListRequest in
  let p := setOrDelete previous (js "sa-page") (number_to_string (sl_page s))
             (number_to_string (sl_page d)) in
  let p := setOrDelete p (js "sa-size") (number_to_string (sl_size s))
             (number_to_string (sl_size d)) in
  let p := setOrDelete p (js "sa-search") (sl_search s) (sl_search d) in
  let p := setOrDelete p (js "sa-sort") (saSortField_str (sl_sort s)) (saSortField_str (sl_sort d)) in
  let p := setOrDelete p (js "sa-order") (sortDirection_str (sl_order s))
             (sortDirection_str (sl_order d)) in
  setOrDelete p (js "sa-status")
    (match sl_status s with Some st => status_str st | None => [] end) [].

(** * Lemmas *)

Lemma prop_get_delete_ne {V} (l : list (jsstring * V)) k k' :
  k' ≠ k → prop_get (prop_delete l k) k' = prop_get l k'.
Proof. intros. rewrite prop_get_delete. by rewrite decide_False. Qed.

Lemma url_get_set_usv p k v k' :
  url_get (url_set_usv p k v) k' = if decide (k' = k) then Some v else url_get p k'.
Proof.
  unfold url_get. induction p as [|[j w] p IH]; simpl; [done|].
  destruct (decide (k = j)) as [->|Hk]; simpl.
  - case_decide; [done|]. by apply prop_get_delete_ne.
  - rewrite IH. repeat case_decide; congruence.
Qed.

Lemma to_usv_low s : Forall (λ c, (c < 55296)%N) s → to_usv s = s.
Proof.
  induction 1 as [|c s Hc _ IH]; [done|]. simpl. unfold is_high, is_low.
  rewrite (proj2 (N.leb_gt 55296 c)), (proj2 (N.leb_gt 56320 c)) by lia. simpl. by rewrite IH.
Qed.

Lemma to_usv_pair c d s :
  is_high c = true → is_low d = true → to_usv (c :: d :: s) = c :: d :: to_usv s.
Proof. simpl. by intros -> ->. Qed.

Lemma to_usv_lone c d s :
  is_high c = true → is_low d = false → to_usv (c :: d :: s) = 65533%N :: to_usv (d :: s).
Proof. intros Hc Hd. cbn [to_usv]. by rewrite Hc, Hd. Qed.

Lemma to_usv_single c s :
  is_high c = false → to_usv (c :: s) = (if is_low c then 65533%N else c) :: to_usv s.
Proof. simpl. by intros ->. Qed.

Lemma to_usv_idemp s : to_usv (to_usv s) = to_usv s.
Proof.
  remember (length s) as n eqn:Hn. assert (Hl : length s ≤ n) by lia. clear Hn.
  revert s Hl. induction n as [|n IH]; intros [|c s] Hl; simpl in Hl; try done; [lia|].
  assert (Hs : to_usv (to_usv s) = to_usv s) by (apply IH; lia).
  destruct (is_high c) eqn:Hc; [destruct s as [|d s]|].
  - simpl. by rewrite Hc.
  - destruct (is_low d) eqn:Hd.
    + rewrite to_usv_pair by done. rewrite to_usv_pair by done. rewrite IH; [done|simpl in Hl; lia].
    + rewrite to_usv_lone by done. rewrite to_usv_single by done. by rewrite Hs.
  - rewrite to_usv_single by done. destruct (is_low c) eqn:Hlc; rewrite to_usv_single by done.
    + by rewrite Hs.
    + by rewrite Hlc, Hs.
Qed.

(** A name or literal of the program holds no surrogate. *)
Definition plain_text (s : jsstring) : bool := forallb (λ c, (c <? 55296)%N) s.

Lemma to_usv_plain s : plain_text s = true → to_usv s = s.
Proof.
  intros H. apply to_usv_low, Forall_forall. intros c Hc.
  apply N.ltb_lt. eapply forallb_forall in H; [done|by apply list_elem_of_In].
Qed.

Lemma url_get_set p k v k' :
  plain_text k = true →
  url_get (url_set p k v) k' = if decide (k' = k) then Some (to_usv v) else url_get p k'.
Proof. intros Hk. unfold url_set. by rewrite (to_usv_plain k Hk), url_get_set_usv. Qed.

Lemma url_get_set_if b p k v k' :
  plain_text k = true →
  url_get (set_if b k v p) k' =
  if decide (k' = k ∧ b = true) then Some (to_usv v) else url_get p k'.
Proof.
  intros Hk. unfold set_if. destruct b; [rewrite url_get_set by done|];
    repeat case_decide; naive_solver.
Qed.

Lemma url_get_delete p k k' :
  url_get (url_delete p k) k' = if decide (k' = k) then None else url_get p k'.
Proof. apply prop_get_delete. Qed.

Lemma url_get_setOrDelete p name v d k :
  plain_text name = true →
  url_get (setOrDelete p name v d) k =
  if decide (k = name) then (if decide (v = d) then None else Some (to_usv v))
  else url_get p k.
Proof.
  intros Hn. unfold setOrDelete. destruct (decide (v = d)).
  - apply url_get_delete.
  - by apply url_get_set.
Qed.

Lemma span_all f s : forallb f s = true → span f s = (s, []).
Proof.
  induction s as [|c s IH]; [done|]. simpl. intros [-> H]%andb_prop. by rewrite IH.
Qed.

Lemma digit_not_white c : is_digit c = true → is_white c = false.
Proof.
  unfold is_digit, is_white. intros [H1%N.leb_le H2%N.leb_le]%andb_prop.
  repeat rewrite ?orb_false_iff, ?andb_false_iff, ?N.eqb_neq, ?N.leb_gt. lia.
Qed.

Lemma digits_value_pos c t :
  (49 <= c <= 57)%N → forallb is_digit t = true → (1 ≤ digits_value (c :: t))%Z.
Proof.
  intros Hc. unfold digits_value; cbn [foldl].
  assert (Hacc : (1 ≤ 0 * 10 + (Z.of_N c - 48))%Z) by lia. revert Hacc.
  generalize (0 * 10 + (Z.of_N c - 48))%Z as acc.
  induction t as [|d t IH]; intros acc Hacc Ht; [done|].
  apply andb_prop in Ht as [Hd Ht]. apply IH; [|done].
  apply andb_prop in Hd as [Hd%N.leb_le _]. lia.
Qed.

Lemma round_int_shape z : (∃ y, round_int z = NInt y) ∨ (∃ b, round_int z = NInf b).
Proof. unfold round_int. repeat case_match; eauto. Qed.

(** A number written in digits reads as its rounded value. *)
Lemma string_to_number_digits c t :
  (49 <= c <= 57)%N → forallb is_digit t = true →
  string_to_number (c :: t) = round_int (digits_value (c :: t)).
Proof.
  intros Hc Ht.
  assert (Hd : is_digit c = true) by (unfold is_digit; apply andb_true_iff; rewrite !N.leb_le; lia).
  assert (Hall : forallb is_digit (c :: t) = true) by (simpl; by rewrite Hd).
  assert (Htrim : trim (c :: t) = c :: t).
  { apply trim_no_white, Forall_forall. intros d Hin. apply digit_not_white.
    eapply forallb_forall in Hall; [done|by apply list_elem_of_In]. }
  assert (Hu : unsigned_number (c :: t) = round_int (digits_value (c :: t))).
  { unfold unsigned_number. rewrite decide_False by (intros [= ->]; lia).
    unfold read_decimal. rewrite span_all by done. rewrite app_nil_r.
    cbn [is_nonempty read_exponent length]. unfold num_of_decimal.
    change (0 - Z.of_nat 0)%Z with 0%Z. rewrite Z.pow_0_r, Z.mul_1_r.
    destruct (Z.eqb_spec (digits_value (c :: t)) 0) as [->|]; done. }
  unfold string_to_number. rewrite Htrim.
  rewrite (proj2 (N.eqb_neq c 45)), (proj2 (N.eqb_neq c 43)), (proj2 (N.eqb_neq c 48)) by lia.
  destruct t; [done|]. by rewrite !andb_false_l.
Qed.

(** What a page number reads as. *)
Lemma page_number_value v :
  is_page_number v = true →
  string_to_number v = round_int (digits_value v) ∧ (1 ≤ digits_value v)%Z.
Proof.
  destruct v as [|c t]; [done|]. intros [Hc Ht]%andb_prop.
  apply andb_prop in Hc as [Hc1%N.leb_le Hc2%N.leb_le].
  split; [apply string_to_number_digits|apply digits_value_pos]; done || lia.
Qed.

Lemma number_to_string_roundtrip z :
  (1 ≤ z)%Z → string_to_number (number_to_string (NInt z)) = round_int z ∧
    is_page_number (number_to_string (NInt z)) = true ∧
    to_usv (number_to_string (NInt z)) = number_to_string (NInt z).
Proof.
  intros Hz. cbn [number_to_string]. unfold string_of_Z.
  rewrite (proj2 (Z.ltb_ge z 0)) by lia.
  destruct (digits_of_head z Hz) as (c & t & E & Hc & Ht). rewrite E.
  assert (Hf : forallb is_digit t = true).
  { apply forallb_forall. intros d Hd. rewrite Forall_forall in Ht.
    apply Ht. by apply list_elem_of_In. }
  split_and!.
  - rewrite string_to_number_digits by done. by rewrite <- E, digits_of_value by lia.
  - simpl. rewrite Hf. rewrite (proj2 (N.leb_le 49 c)), (proj2 (N.leb_le c 57)) by lia. done.
  - apply to_usv_low. constructor; [lia|]. eapply Forall_impl; [exact Ht|].
    unfold is_digit. intros d [_ Hd%N.leb_le]%andb_prop. lia.
Qed.

(** * Lemmas: the two states *)

(** A request the gateway list can be in. *)
Definition valid_list_request (r : GatewayListRequest) : Prop :=
  (∃ z, lr_page r = NInt z ∧ (1 ≤ z ≤ max_safe)%Z) ∧ lr_size r ∈ gatewayListPageSizes ∧
  to_usv (lr_search r) = lr_search r.

Lemma pageFrom_valid o : ∃ z, pageFrom o = NInt z ∧ (1 ≤ z ≤ max_safe)%Z.
Proof.
  assert (H1 : ∃ z, lr_page defaultGatewayListRequest = NInt z ∧ (1 ≤ z ≤ max_safe)%Z)
    by (by exists 1%Z).
  unfold pageFrom. destruct o as [v|]; [|done]. destruct (is_page_number v) eqn:Hp; [|done].
  destruct (is_safe_integer (string_to_number v)) eqn:Hs; [|done].
  destruct (is_safe_integer_inv _ Hs) as (z & Hz & Hb). exists z. split; [done|].
  destruct (page_number_value v Hp) as [Hr Hv]. rewrite Hr in Hz.
  destruct (Z.leb_spec (digits_value v) (2 ^ 53)).
  - rewrite round_int_exact in Hz by lia. simplify_eq. unfold max_safe in *. lia.
  - destruct (round_int_big (digits_value v)) as [E|(y & E & Hy)]; [done|congruence|].
    rewrite E in Hz. simplify_eq. unfold max_safe in Hb. lia.
Qed.

Lemma sizeFrom_valid o : sizeFrom o ∈ gatewayListPageSizes.
Proof.
  assert (H1 : lr_size defaultGatewayListRequest ∈ gatewayListPageSizes) by decide_fact.
  unfold sizeFrom. destruct o as [v|]; [|done]. destruct (is_page_number v) eqn:Hp; [|done].
  destruct (existsb _ _) eqn:E; [|done].
  apply existsb_exists in E as (x & Hx & E). apply list_elem_of_In in Hx.
  assert (Hi : ∃ z, x = NInt z) by (unfold gatewayListPageSizes in Hx; set_unfold; naive_solver).
  destruct Hi as [z ->]. destruct (page_number_value v Hp) as [Hr _]. rewrite Hr in *.
  destruct (round_int_shape (digits_value v)) as [[y Hy]|[b Hy]]; rewrite Hy in *; [|by destruct b].
  rewrite num_eqb_int in E. apply Z.eqb_eq in E. by subst.
Qed.

Lemma pageFrom_print z : (1 ≤ z ≤ max_safe)%Z → pageFrom (Some (number_to_string (NInt z))) = NInt z.
Proof.
  intros Hz. destruct (number_to_string_roundtrip z) as (Hn & Hp & _); [lia|].
  unfold pageFrom. rewrite Hp, Hn, round_int_exact by (unfold max_safe in Hz; lia).
  unfold is_safe_integer. rewrite (proj2 (Z.leb_le _ _)) by lia. done.
Qed.

Lemma sizeFrom_print n : n ∈ gatewayListPageSizes → sizeFrom (Some (number_to_string n)) = n.
Proof.
  unfold gatewayListPageSizes. rewrite !elem_of_cons, elem_of_nil.
  intros [-> |[-> |[-> |[-> |[]]]]]; by vm_compute.
Qed.

Lemma sortFieldFrom_print f : sortFieldFrom (Some (sortField_str f)) = f.
Proof. by destruct f. Qed.

(** Reading a parameter of a serialised state. *)
Lemma serialize_get s k :
  url_get (serializeGatewayListState s) k =
  if decide (k = js "direction" ∧ negb (bool_decide (lr_sortDirection s = Asc)) = true)
  then Some (to_usv (sortDirection_str (lr_sortDirection s)))
  else if decide (k = js "sort" ∧ negb (bool_decide (lr_sortField s = SortName)) = true)
  then Some (to_usv (sortField_str (lr_sortField s)))
  else if decide (k = js "size" ∧ negb (num_eqb (lr_size s) (NInt 20)) = true)
  then Some (to_usv (number_to_string (lr_size s)))
  else if decide (k = js "page" ∧ negb (num_eqb (lr_page s) (NInt 1)) = true)
  then Some (to_usv (number_to_string (lr_page s)))
  else if decide (k = js "q" ∧ is_nonempty (lr_search s) = true)
  then Some (to_usv (lr_search s)) else None.
Proof. unfold serializeGatewayListState. by rewrite !url_get_set_if by done. Qed.

(** Two literals differ. *)
Ltac js_differ :=
  let H := fresh in (intros [H _] || intros H); vm_compute in H; discriminate H.

(** Parsing what was serialised. *)
Lemma parse_serialize r :
  valid_list_request r → parseGatewayListState (serializeGatewayListState r) = r.
Proof.
  intros ((z & Hz & Hzb) & Hsize & Hsearch). unfold parseGatewayListState.
  rewrite !serialize_get. destruct r as [page search size dir field]; simpl in *. subst page. f_equal.
  - rewrite num_eqb_int. destruct (Z.eqb_spec z 1) as [->|Hne]; [done|].
    rewrite decide_True by done.
    destruct (number_to_string_roundtrip z) as (_ & _ & Hu); [lia|]. rewrite Hu.
    by apply pageFrom_print.
  - rewrite Hsearch. by destruct search.
  - revert Hsize. unfold gatewayListPageSizes. rewrite !elem_of_cons, elem_of_nil.
    by intros [-> |[-> |[-> |[-> |[]]]]]; vm_compute.
  - by destruct dir.
  - by destruct field.
Qed.

Lemma parse_valid p :
  (∀ k v, url_get p k = Some v → to_usv v = v) → valid_list_request (parseGatewayListState p).
Proof.
  intros Hp. split_and!; [apply pageFrom_valid|apply sizeFrom_valid|]. simpl.
  destruct (url_get p (js "q")) as [v|] eqn:E; [by eapply Hp|done].
Qed.

(** A service-account request the page can be in. *)
Definition valid_collection_state (s : ServiceAccountListRequest) : Prop :=
  (∃ z, sl_page s = NInt z ∧ (1 ≤ z ≤ 2 ^ 53)%Z) ∧
  (∃ z, sl_size s = NInt z ∧ (1 ≤ z ≤ 100)%Z) ∧ to_usv (sl_search s) = sl_search s.

Lemma positiveInteger_print z d :
  (1 ≤ z ≤ 2 ^ 53)%Z → positiveInteger (Some (number_to_string (NInt z))) d = NInt z.
Proof.
  intros Hz. destruct (number_to_string_roundtrip z) as (Hn & _ & _); [lia|].
  unfold positiveInteger. rewrite Hn, round_int_exact by lia. unfold num_gt. rewrite num_lt_int.
  by rewrite (proj2 (Z.ltb_lt 0 z)) by lia.
Qed.

Lemma number_to_string_inj z y :
  (1 ≤ z ≤ 2 ^ 53)%Z → (1 ≤ y ≤ 2 ^ 53)%Z →
  number_to_string (NInt z) = number_to_string (NInt y) → z = y.
Proof.
  intros Hz Hy H. pose proof (positiveInteger_print z NNaN Hz) as H1.
  rewrite H, positiveInteger_print in H1 by done. congruence.
Qed.

(** The parameters the update writes. *)
Definition collection_names : list jsstring :=
  map js ["sa-page"; "sa-size"; "sa-search"; "sa-sort"; "sa-order"; "sa-status"]%string.

Lemma update_get p s k :
  url_get (updateServiceAccountParams p s) k =
  let pick (k' v d : jsstring) (rest : option jsstring) :=
    if decide (k = k') then (if decide (v = d) then None else Some (to_usv v)) else rest in
  pick (js "sa-status") (match sl_status s with Some st => status_str st | None => [] end) []
  (pick (js "sa-order") (sortDirection_str (sl_order s)) (js "desc")
  (pick (js "sa-sort") (saSortField_str (sl_sort s)) (js "created_at")
  (pick (js "sa-search") (sl_search s) []
  (pick (js "sa-size") (number_to_string (sl_size s)) (js "20")
  (pick (js "sa-page") (number_to_string (sl_page s)) (js "1") (url_get p k)))))).
Proof. unfold updateServiceAccountParams. by rewrite !url_get_setOrDelete by done. Qed.

(** A positive integer that is left out when it is the default. *)
Lemma positiveInteger_default z d :
  (1 ≤ z ≤ 2 ^ 53)%Z → (1 ≤ d ≤ 2 ^ 53)%Z →
  positiveInteger (if decide (number_to_string (NInt z) = number_to_string (NInt d)) then None
                   else Some (to_usv (number_to_string (NInt z)))) (NInt d) = NInt z.
Proof.
  intros Hz Hd. case_decide as H.
  - by rewrite (number_to_string_inj z d Hz Hd H).
  - destruct (number_to_string_roundtrip z) as (_ & _ & ->); [lia|]. by apply positiveInteger_print.
Qed.

Lemma collection_roundtrip p s :
  valid_collection_state s →
  serviceAccountCollectionState (updateServiceAccountParams p s) = s.
Proof.
  intros ((z & Hz & Hzb) & (y & Hy & Hyb) & Hsearch). unfold serviceAccountCollectionState.
  rewrite !update_get. destruct s as [order page search size sort status]; simpl in *.
  subst page size. f_equal.
  - by destruct order.
  - apply (positiveInteger_default z 1); lia.
  - case_decide as H; subst; [done|]. simpl. by rewrite Hsearch.
  - etransitivity; [apply (f_equal (num_min (NInt 100))), (positiveInteger_default y 20); lia|].
    rewrite num_min_int. f_equal. lia.
  - by destruct sort.
  - by destruct status as [[]|].
Qed.

(** * Properties *)

(** C28 Every gateway-list state the page can be in survives the address bar, and
    whatever the address bar holds is read as such a state, so that reading,
    writing and reading again changes nothing. *)
Theorem list_state_roundtrip :
  (∀ r, valid_list_request r → parseGatewayListState (serializeGatewayListState r) = r) ∧
  (∀ p, (∀ k v, url_get p k = Some v → to_usv v = v) →
     valid_list_request (parseGatewayListState p) ∧
     parseGatewayListState (serializeGatewayListState (parseGatewayListState p)) =
       parseGatewayListState p).
Proof.
  split; [apply parse_serialize|]. intros p Hp. pose proof (parse_valid p Hp).
  split; [done|]. by apply parse_serialize.
Qed.

(** Every service-account state the page can be in survives the address bar,
    whatever was there before, and writing it leaves every other parameter alone. *)
Theorem collection_state_roundtrip (p : params) (s : ServiceAccountListRequest) (k : jsstring) :
  valid_collection_state s →
  serviceAccountCollectionState (updateServiceAccountParams p s) = s ∧
  (k ∉ collection_names → url_get (updateServiceAccountParams p s) k = url_get p k).
Proof.
  intros Hs. split; [by apply collection_roundtrip|]. intros Hk. rewrite update_get.
  unfold collection_names in Hk. cbn [map] in Hk. rewrite !not_elem_of_cons in Hk.
  cbv beta zeta. by rewrite !decide_False by tauto.
Qed.

Lemma collection_state_roundtrip_witness :
  let s := {| sl_order := Asc; sl_page := NInt 3; sl_search := js "ci"; sl_size := NInt 50;
              sl_sort := SaName; sl_status := Some Ready |} in
  serviceAccountCollectionState (updateServiceAccountParams [(js "tab", js "access")] s) = s.
Proof.
  apply (collection_state_roundtrip [(js "tab", js "access")] {| sl_order := Asc; sl_page := NInt 3;
    sl_search := js "ci"; sl_size := NInt 50; sl_sort := SaName; sl_status := Some Ready |} []).
  split_and!; [by exists 3%Z|by exists 50%Z|done].
Defined.
