(* ===== verification/StateMachine.v ===== *)
(** Components as state machines: a step takes an event to a new state and the
    calls made on the outside, or is not offered. Runs, and invariants by
    induction on them. *)
From S2P Require Export JsCore.

(** * Counting *)

Definition count {A} (f : A → bool) (l : list A) : nat := length (filter (λ x, f x = true) l).

Lemma count_app {A} (f : A → bool) l1 l2 : count f (l1 ++ l2) = count f l1 + count f l2.
Proof. unfold count. by rewrite filter_app, length_app. Qed.

Lemma count_cons {A} (f : A → bool) x l :
  count f (x :: l) = (if f x then 1 else 0) + count f l.
Proof.
  unfold count. rewrite filter_cons. destruct (f x); [by rewrite decide_True|].
  by rewrite decide_False.
Qed.

Section machine.
Context {S E O : Type} (step : S → E → option (S * list O)).

(** A run: the events taken, the state reached and everything that was output. *)
Inductive run : S → list E → S → list O → Prop :=
| run_nil s : run s [] s []
| run_cons s ev s' out evs s'' out' :
    step s ev = Some (s', out) → run s' evs s'' out' → run s (ev :: evs) s'' (out ++ out').

(** The same, computed. *)
Fixpoint play (s : S) (evs : list E) : option (S * list O) :=
  match evs with
  | [] => Some (s, [])
  | ev :: evs => r ← step s ev; r' ← play r.1 evs; Some (r'.1, r.2 ++ r'.2)
  end.

Lemma play_run s evs s' out : play s evs = Some (s', out) ↔ run s evs s' out.
Proof.
  split.
  - revert s s' out. induction evs as [|ev evs IH]; intros s s' out; simpl.
    + intros [= <- <-]. constructor.
    + intros ([s1 o1] & H1 & ([s2 o2] & H2 & [= <- <-])%bind_Some)%bind_Some.
      econstructor; eauto.
  - induction 1 as [|s ev s' out evs s'' out' Hs _ IH]; [done|].
    simpl. rewrite Hs. simpl. by rewrite IH.
Qed.

Lemma run_invariant (P : S → Prop) :
  (∀ s ev s' out, step s ev = Some (s', out) → P s → P s') →
  ∀ s evs s' out, run s evs s' out → P s → P s'.
Proof. intros HP. induction 1; eauto. Qed.

(** An invariant of the states, and what holds of every output made from one. *)
Lemma run_outputs (P : S → Prop) (Q : O → Prop) :
  (∀ s ev s' out, step s ev = Some (s', out) → P s → P s' ∧ Forall Q out) →
  ∀ s evs s' out, run s evs s' out → P s → P s' ∧ Forall Q out.
Proof.
  intros HP. induction 1 as [|s ev s' out evs s'' out' Hs _ IH]; intros H; [done|].
  destruct (HP _ _ _ _ Hs H) as [H' Ho]. destruct (IH H'). split; [done|].
  by apply Forall_app.
Qed.

Definition reachable_from (initial : S → Prop) (s : S) : Prop :=
  ∃ s0 evs out, initial s0 ∧ run s0 evs s out.

Lemma reachable_invariant (P initial : S → Prop) :
  (∀ s, initial s → P s) →
  (∀ s ev s' out, step s ev = Some (s', out) → P s → P s') →
  ∀ s, reachable_from initial s → P s.
Proof. intros H0 HP s (s0 & evs & out & Hi & Hr). eapply run_invariant; eauto. Qed.

(** Requests and answers balance: what was requested has been answered or is in
    flight. *)
Lemma run_balance (request : O → bool) (answer : E → bool) (in_flight : S → nat) :
  (∀ s ev s' out, step s ev = Some (s', out) →
     count request out + in_flight s = count answer [ev] + in_flight s') →
  ∀ s evs s' out, run s evs s' out →
    count request out + in_flight s = count answer evs + in_flight s'.
Proof.
  intros HP. induction 1 as [|s ev s' out evs s'' out' Hs _ IH]; [done|].
  specialize (HP _ _ _ _ Hs). rewrite count_app, count_cons.
  rewrite count_cons in HP. unfold count at 2 in HP. simpl in HP. lia.
Qed.
End machine.
