(* ===== verification/ServiceAccountDialog.v ===== *)
(** The service-account creation dialog
    ([service-accounts/service-account-create-dialog.tsx]) with the code that may
    take it away: the tab switch of [pages/gateway-pages.tsx] and the route blocker
    of [routes/gateway.tsx]. The form's values and validation first, then the
    dialog as a state machine: events are the user's clicks, the settling of the
    request and the router's questions; outputs are the calls the code makes on
    its host. A step is an event handler followed by the commit of its state. *)
From S2P Require Export UrlState StateMachine.

(** * The form *)

Definition expirationDays : list Z := [30; 60; 90]%Z.

Record ExpirationOption := { eo_days : Z; eo_seconds : num }.

Definition expirationOptions (c : ServiceAccountCapabilities) : list ExpirationOption :=
  filter (λ o, num_ge (eo_seconds o) (ep_minimumSeconds (cap_expirationPolicy c)) &&
               num_le (eo_seconds o) (ep_maximumSeconds (cap_expirationPolicy c)) = true)
    (map (λ days, {| eo_days := days; eo_seconds := num_mul (NInt days) (NInt 86400) |})
       expirationDays).

Definition defaultExpirationSeconds (c : ServiceAccountCapabilities) : option num :=
  let options := expirationOptions c in
  match head (filter (λ o, num_eqb (eo_seconds o)
                (ep_defaultSeconds (cap_expirationPolicy c)) = true) options) with
  | Some o => Some (eo_seconds o)
  | None => eo_seconds <$> last options
  end.

Record FormValues := {
  fv_description : jsstring;
  fv_expirationSeconds : jsstring;
  fv_name : jsstring;
  fv_role : jsstring
}.

Definition defaultValues (c : ServiceAccountCapabilities) : FormValues := {|
  fv_description := [];
  fv_expirationSeconds := match defaultExpirationSeconds c with
                          | Some n => if num_eqb n (NInt 0) then [] else number_to_string n
                          | None => []
                          end;
  fv_name := [];
  fv_role := if decide (OpenshellUser ∈ cap_allowedRoles c) then role_str OpenshellUser
             else role_str (default OpenshellUser (head (cap_allowedRoles c)))
|}.

(** The schema: an option of the policy, a non-blank name, an allowed role. *)
Definition validate_form (c : ServiceAccountCapabilities) (v : FormValues) :
    option (jsstring * num * jsstring * ServiceAccountRole) :=
  let seconds := string_to_number (fv_expirationSeconds v) in
  let name := trim (fv_name v) in
  match literal_of role_str (cap_allowedRoles c) (Some (fv_role v)) with
  | Some role =>
      if existsb (λ o, num_eqb (eo_seconds o) seconds) (expirationOptions c) && is_nonempty name
      then Some (fv_description v, seconds, name, role) else None
  | None => None
  end.

(** The request the mutation sends; the clock and [toISOString] are arguments. *)
Definition create_input (toISOString : num → jsstring) (now : num)
    (v : jsstring * num * jsstring * ServiceAccountRole) : ServiceAccountCreateInput :=
  let '(description, seconds, name, role) := v in {|
  si_description := match trim description with [] => None | d => Some d end;
  si_expiresAt := toISOString (num_add now (num_mul seconds (NInt 1000)));
  si_name := name;
  si_role := role
|}.

(** * The dialog *)

Inductive GatewayDetailTab := TabConnection | TabServiceAccounts | TabDetails.

#[export] Instance tab_eq_dec : EqDecision GatewayDetailTab.
Proof. solve_decision. Defined.

(** A deferred navigation: what its two callbacks do. *)
Inductive LeaveDecision :=
| LeaveForTab (tab : GatewayDetailTab)
| LeaveRoute.

(** Calls on the host: the tab applied, the blocker's methods, the close. *)
Inductive Output :=
| ApplyTab (tab : GatewayDetailTab)
| BlockerProceed
| BlockerReset
| Closed.

Definition onConfirm (d : LeaveDecision) : list Output :=
  match d with LeaveForTab t => [ApplyTab t] | LeaveRoute => [BlockerProceed] end.

Definition onCancel (d : LeaveDecision) : list Output :=
  match d with LeaveForTab _ => [] | LeaveRoute => [BlockerReset] end.

Record Dialog := {
  dg_handoff : option ServiceAccountCreateResult;
  dg_isAcknowledged : bool;
  dg_isConfirmingLoss : bool;
  dg_isPending : bool;
  dg_error : option thrown;
  dg_isProtectedRef : bool;
  dg_pendingLeave : option LeaveDecision
}.

Definition isProtected (d : Dialog) : bool :=
  dg_isPending d || (bool_decide (is_Some (dg_handoff d)) && negb (dg_isAcknowledged d)).

Definition new_dialog : Dialog := {|
  dg_handoff := None; dg_isAcknowledged := false; dg_isConfirmingLoss := false;
  dg_isPending := false; dg_error := None; dg_isProtectedRef := false; dg_pendingLeave := None |}.

(** The alert shown for a failed creation. *)
Inductive CreateFailure := FailureUncertain | FailureNameExists | FailureOther.

Definition create_failure (e : thrown) : CreateFailure :=
  let uncertain := match e with
                   | ThrowGateway g => bool_decide (ge_kind g ∈ [KUnavailable; KUnknown])
                   | _ => true
                   end in
  if uncertain then FailureUncertain
  else match e with
       | ThrowGateway g => if ge_code g is Some ServiceAccountNameExists
                           then FailureNameExists else FailureOther
       | _ => FailureOther
       end.

(** The page: the tab, whether its gateway is shown as deleting, and the dialog
    while it is mounted. The dialog's guard is registered exactly then. *)
Record Page := { pg_tab : GatewayDetailTab; pg_deleting : bool; pg_dialog : option Dialog }.

Definition set_dialog (s : Page) (d : option Dialog) : Page :=
  {| pg_tab := pg_tab s; pg_deleting := pg_deleting s; pg_dialog := d |}.

Definition shouldBlock (s : Page) : bool :=
  match pg_dialog s with Some d => dg_isProtectedRef d | None => false end.

(** The browser's own prompt, for what bypasses the page: reloading it or closing it. The
    effect listens to [beforeunload] exactly while the dialog is protected. *)
Definition handleBeforeUnload (s : Page) : bool :=
  match pg_dialog s with Some d => isProtected d | None => false end.

(** The state setters. *)
Definition setHandoff (h : option ServiceAccountCreateResult) (d : Dialog) : Dialog :=
  {| dg_handoff := h; dg_isAcknowledged := dg_isAcknowledged d;
     dg_isConfirmingLoss := dg_isConfirmingLoss d; dg_isPending := dg_isPending d;
     dg_error := dg_error d; dg_isProtectedRef := dg_isProtectedRef d;
     dg_pendingLeave := dg_pendingLeave d |}.
Definition setIsAcknowledged (b : bool) (d : Dialog) : Dialog :=
  {| dg_handoff := dg_handoff d; dg_isAcknowledged := b;
     dg_isConfirmingLoss := dg_isConfirmingLoss d; dg_isPending := dg_isPending d;
     dg_error := dg_error d; dg_isProtectedRef := dg_isProtectedRef d;
     dg_pendingLeave := dg_pendingLeave d |}.
Definition setIsConfirmingLoss (b : bool) (d : Dialog) : Dialog :=
  {| dg_handoff := dg_handoff d; dg_isAcknowledged := dg_isAcknowledged d;
     dg_isConfirmingLoss := b; dg_isPending := dg_isPending d;
     dg_error := dg_error d; dg_isProtectedRef := dg_isProtectedRef d;
     dg_pendingLeave := dg_pendingLeave d |}.
(** The mutation's status: in flight, or settled with or without an error. *)
Definition setMutation (pending : bool) (e : option thrown) (d : Dialog) : Dialog :=
  {| dg_handoff := dg_handoff d; dg_isAcknowledged := dg_isAcknowledged d;
     dg_isConfirmingLoss := dg_isConfirmingLoss d; dg_isPending := pending;
     dg_error := e; dg_isProtectedRef := dg_isProtectedRef d;
     dg_pendingLeave := dg_pendingLeave d |}.
Definition setProtectedRef (b : bool) (d : Dialog) : Dialog :=
  {| dg_handoff := dg_handoff d; dg_isAcknowledged := dg_isAcknowledged d;
     dg_isConfirmingLoss := dg_isConfirmingLoss d; dg_isPending := dg_isPending d;
     dg_error := dg_error d; dg_isProtectedRef := b; dg_pendingLeave := dg_pendingLeave d |}.
Definition setPendingLeave (l : option LeaveDecision) (d : Dialog) : Dialog :=
  {| dg_handoff := dg_handoff d; dg_isAcknowledged := dg_isAcknowledged d;
     dg_isConfirmingLoss := dg_isConfirmingLoss d; dg_isPending := dg_isPending d;
     dg_error := dg_error d; dg_isProtectedRef := dg_isProtectedRef d; dg_pendingLeave := l |}.

Definition confirmLeave (d : Dialog) (decision : LeaveDecision) : Dialog :=
  setIsConfirmingLoss true (setPendingLeave (Some decision) d).

Inductive Event :=
| EvOpen                                   (* the create button *)
| EvSubmit                                 (* a valid form is submitted *)
| EvCreated (r : ServiceAccountCreateResult)  (* the request resolved: [setHandoff] *)
| EvSettled                                (* [onSuccess] is done: no longer pending *)
| EvFailed (e : thrown)
| EvAcknowledge (b : bool)
| EvRequestClose                           (* close button, Escape, cancel *)
| EvFinish
| EvLeave                                  (* "leave setup" *)
| EvReturn                                 (* "return to setup" *)
| EvTab (tab : GatewayDetailTab)           (* a tab is selected *)
| EvGateway (deleting : bool)              (* the gateway's record is refetched *)
| EvBlocked.                               (* the route blocker has blocked *)

(** [clearAndClose]: the page unmounts the dialog. *)
Definition clearAndClose (s : Page) : Page * list Output := (set_dialog s None, [Closed]).

Definition has_secret (d : Dialog) : bool := bool_decide (is_Some (dg_handoff d)).

Definition update (s : Page) (d : Dialog) : Page * list Output := (set_dialog s (Some d), []).

Definition requestClose (s : Page) (d : Dialog) : Page * list Output :=
  if has_secret d && negb (dg_isAcknowledged d)
  then update s (setIsConfirmingLoss true d)
  else clearAndClose s.

Definition leave (s : Page) (d : Dialog) : Page * list Output :=
  let (s', out) := clearAndClose s in
  (s', out ++ match dg_pendingLeave d with Some decision => onConfirm decision | None => [] end).

Definition return_to_setup (s : Page) (d : Dialog) : Page * list Output :=
  (set_dialog s (Some (setIsConfirmingLoss false (setPendingLeave None d))),
   match dg_pendingLeave d with Some decision => onCancel decision | None => [] end).

Definition changeTab (s : Page) (tab : GatewayDetailTab) : Page * list Output :=
  match pg_dialog s with
  | Some d =>
      if negb (bool_decide (tab = pg_tab s)) && shouldBlock s
      then update s (confirmLeave d (LeaveForTab tab))
      else (s, [ApplyTab tab])
  | None => (s, [ApplyTab tab])
  end.

(** The route's effect, run when its blocker has blocked a navigation. *)
Definition blocked_effect (s : Page) : Page * list Output :=
  match pg_dialog s with
  | Some d =>
      if shouldBlock s then update s (confirmLeave d LeaveRoute) else (s, [BlockerProceed])
  | None => (s, [BlockerProceed])
  end.

(** The handler of an event; [None] when the page does not offer it. *)
Definition handle (s : Page) (ev : Event) : option (Page * list Output) :=
  match ev with
  | EvTab tab =>
      if pg_deleting s && bool_decide (tab = TabServiceAccounts) then None
      else Some (changeTab s tab)
  | EvGateway deleting =>
      (* a deleting gateway's accounts are not rendered: the dialog unmounts *)
      Some ({| pg_tab := pg_tab s; pg_deleting := deleting;
               pg_dialog := if deleting then None else pg_dialog s |}, [])
  | EvBlocked => Some (blocked_effect s)
  | EvOpen =>
      match pg_dialog s with
      | None => if bool_decide (pg_tab s = TabServiceAccounts) && negb (pg_deleting s)
                then Some (set_dialog s (Some new_dialog), []) else None
      | Some _ => None
      end
  | _ =>
      d ← pg_dialog s;
      match ev with
      | EvSubmit =>
          if dg_isPending d || dg_isConfirmingLoss d || has_secret d then None
          else Some (update s (setMutation true None d))
      | EvCreated r =>
          if dg_isPending d && negb (has_secret d) then Some (update s (setHandoff (Some r) d))
          else None
      | EvSettled =>
          if dg_isPending d && has_secret d then Some (update s (setMutation false None d))
          else None
      | EvFailed e =>
          if dg_isPending d && negb (has_secret d)
          then Some (update s (setMutation false (Some e) d)) else None
      | EvAcknowledge b =>
          (* the checkbox is shown with a secret that is not empty *)
          match dg_handoff d with
          | Some r =>
              if is_nonempty (cr_clientSecret (sc_credential r)) && negb (dg_isConfirmingLoss d)
              then Some (update s (setIsAcknowledged b d)) else None
          | None => None
          end
      | EvRequestClose => if dg_isPending d then None else Some (requestClose s d)
      | EvFinish =>
          if has_secret d && dg_isAcknowledged d && negb (dg_isConfirmingLoss d)
          then Some (clearAndClose s) else None
      | EvLeave => if dg_isConfirmingLoss d then Some (leave s d) else None
      | EvReturn => if dg_isConfirmingLoss d then Some (return_to_setup s d) else None
      | _ => None
      end
  end.

(** The commit that follows a handler: the effect copies [isProtected] into the ref. *)
Definition commit (s : Page) : Page :=
  set_dialog s ((λ d, setProtectedRef (isProtected d) d) <$> pg_dialog s).

Definition step (s : Page) (ev : Event) : option (Page * list Output) :=
  (λ r, (commit r.1, r.2)) <$> handle s ev.

(** The page opens on some tab, without the dialog. *)
Definition opened (s : Page) : Prop := pg_dialog s = None.

Definition reachable : Page → Prop := reachable_from step opened.

(** What would be lost if the dialog went away: a creation in flight that has not
    handed over its secret, or a secret not acknowledged. *)
Definition at_risk (s : Page) : bool :=
  match pg_dialog s with
  | Some d => if dg_handoff d is Some _ then negb (dg_isAcknowledged d) else dg_isPending d
  | None => false
  end.

(** A navigation is let through: another tab, or the route. *)
Definition navigates (s : Page) (out : list Output) : Prop :=
  BlockerProceed ∈ out ∨ ∃ tab, ApplyTab tab ∈ out ∧ tab ≠ pg_tab s.

(** * The invariant *)

Record dialog_ok (d : Dialog) : Prop := {
  ok_ref : dg_isProtectedRef d = isProtected d;
  ok_leave : is_Some (dg_pendingLeave d) → dg_isConfirmingLoss d = true;
  ok_ack : dg_isAcknowledged d = true → is_Some (dg_handoff d)
}.

Definition page_ok (s : Page) : Prop := ∀ d, pg_dialog s = Some d → dialog_ok d.

(** Unfold a step by cases on the event and the conditions of its handler. *)
Ltac step_cases H :=
  unfold step, handle, changeTab, blocked_effect, requestClose, leave, return_to_setup,
    clearAndClose, update, has_secret, commit, set_dialog in H; simpl in H;
  repeat (case_match; simplify_eq/=); simplify_eq/=.

Lemma step_dialog_ok s ev s' out d' :
  step s ev = Some (s', out) → page_ok s → pg_dialog s' = Some d' → dialog_ok d'.
Proof.
  intros Hstep Hs Hd'. destruct s as [tab del [d|]].
  - destruct (Hs d eq_refl) as [H1 H2 H3]. destruct d as [h a c p e r l]; simpl in *.
    destruct ev; step_cases Hstep; split; simpl in *; try done; try (by intros [? ?]);
      try (by destruct a, p, c, h; simpl in *; intuition congruence).
  - destruct ev; step_cases Hstep; split; simpl in *; try done; try (by intros [? ?]).
Qed.

Lemma step_ok s ev s' out : step s ev = Some (s', out) → page_ok s → page_ok s'.
Proof. intros Hstep Hs d Hd. by eapply step_dialog_ok. Qed.

Lemma reachable_ok s : reachable s → page_ok s.
Proof.
  apply reachable_invariant; [intros s0 H d Hd; unfold opened in H; congruence|apply step_ok].
Qed.

Lemma at_risk_shouldBlock s : page_ok s → at_risk s = true → shouldBlock s = true.
Proof.
  intros Hs. unfold shouldBlock, at_risk. destruct (pg_dialog s) as [d|] eqn:E; [|done].
  destruct (Hs d E) as [-> _ _]. unfold isProtected.
  destruct (dg_handoff d); simpl; [intros ->; apply orb_true_r|by intros ->].
Qed.

Lemma shouldBlock_prompts s : page_ok s → handleBeforeUnload s = shouldBlock s.
Proof.
  intros Hs. unfold handleBeforeUnload, shouldBlock. destruct (pg_dialog s) as [d|] eqn:E; [|done].
  by destruct (Hs d E) as [-> _ _].
Qed.

Lemma navigates_nil s : ¬ navigates s [].
Proof. intros [H|(? & H & _)]; by apply elem_of_nil in H. Qed.

Lemma navigates_onCancel s l : ¬ navigates s (onCancel l).
Proof.
  destruct l; [apply navigates_nil|].
  intros [H|(? & H & _)]; by apply list_elem_of_singleton in H.
Qed.

(** The tab already shown is applied without a question. *)
Lemma navigates_same s tab :
  negb (bool_decide (tab = pg_tab s)) && true = false → ¬ navigates s [ApplyTab tab].
Proof.
  rewrite andb_true_r, negb_false_iff, bool_decide_eq_true. intros ->.
  intros [H|(? & H & Hne)]; apply list_elem_of_singleton in H; congruence.
Qed.

(** While something is at risk, nothing but the confirmed leave lets it go. *)
Lemma step_keeps s ev s' out :
  page_ok s → step s ev = Some (s', out) → at_risk s = true →
  ev ≠ EvLeave → ev ≠ EvGateway true →
  ∃ d d', pg_dialog s = Some d ∧ pg_dialog s' = Some d' ∧
    (∀ r, dg_handoff d = Some r → dg_handoff d' = Some r) ∧ ¬ navigates s out.
Proof.
  intros Hs Hstep Hr Hev Hev'. unfold at_risk in Hr. destruct s as [tab del [d|]]; [|done].
  destruct (Hs d eq_refl) as [H1 H2 H3]. destruct d as [h a c p e r l]; simpl in *.
  unfold isProtected in *; simpl in *.
  destruct p, h as [r0|], a; simpl in *; try done;
    destruct ev; step_cases Hstep; try done; eexists _, _;
    (split_and!; [done|done|first [done|by intros ? [=]]|
                  auto using navigates_nil, navigates_onCancel, navigates_same]).
Qed.

(** * Properties of the dialog *)

Section properties.
Context (s s' : Page) (ev : Event) (out : list Output).
Context (Hreach : reachable s) (Hstep : step s ev = Some (s', out)).


(** A deferred navigation is answered by the two buttons of the confirmation,
    both of which are offered as long as it is pending: "leave setup" closes the
    dialog and then resumes exactly that navigation, "return to setup" abandons
    exactly it and keeps the dialog. Every other event leaves a decision pending,
    or closes the dialog by the close button, which only happens with nothing
    at risk, or reports the gateway deleting. *)
Theorem deferred_leave_resolved d l :
  pg_dialog s = Some d → dg_pendingLeave d = Some l →
  is_Some (step s EvLeave) ∧ is_Some (step s EvReturn) ∧
  match ev with
  | EvLeave => out = Closed :: onConfirm l ∧ pg_dialog s' = None
  | EvReturn => out = onCancel l ∧ ∃ d', pg_dialog s' = Some d' ∧
      dg_pendingLeave d' = None ∧ dg_isConfirmingLoss d' = false ∧
      dg_handoff d' = dg_handoff d
  | _ =>
      (∃ d', pg_dialog s' = Some d' ∧ is_Some (dg_pendingLeave d') ∧
         dg_isConfirmingLoss d' = true) ∨
      (ev = EvRequestClose ∧ at_risk s = false ∧ pg_dialog s' = None ∧ out = [Closed]) ∨
      ev = EvGateway true
  end.
Proof using Hreach Hstep.
  intros Hd Hl. destruct (reachable_ok s Hreach d Hd) as [_ Hc _].
  rewrite Hl in Hc. specialize (Hc (mk_is_Some _ _ eq_refl)).
  destruct s as [tab del od]; simpl in *; subst od.
  split_and!; [by unfold step; simpl; rewrite Hc; eexists..|].
  unfold step in Hstep; simpl in Hstep.
  destruct d as [h a c p e r l']; simpl in *; subst c l'.
  destruct ev; step_cases Hstep;
    first [by split; [|eexists]|by left; eexists; split_and!
          |by right; right|idtac].
  - right; left. split_and!; [done| |done..]. simpl. by destruct h, a.
  - by rewrite andb_false_r in H.
Qed.
End properties.

(** * Properties of the form *)

Definition with_name (name : jsstring) (v : FormValues) : FormValues := {|
  fv_description := fv_description v;
  fv_expirationSeconds := fv_expirationSeconds v;
  fv_name := name;
  fv_role := fv_role v
|}.

Lemma expirationOptions_spec c o :
  o ∈ expirationOptions c →
  (eo_seconds o ∈ [NInt 2592000; NInt 5184000; NInt 7776000]) ∧
  num_le (ep_minimumSeconds (cap_expirationPolicy c)) (eo_seconds o) = true ∧
  num_le (eo_seconds o) (ep_maximumSeconds (cap_expirationPolicy c)) = true.
Proof.
  unfold expirationOptions. intros [[H1 H2]%andb_prop H]%list_elem_of_filter.
  split_and!; [|done..]. apply list_elem_of_fmap in H as (days & -> & Hd).
  unfold expirationDays in Hd. rewrite !elem_of_cons in Hd.
  destruct Hd as [->|[->|[->|[]%elem_of_nil]]];
    (vm_compute eo_seconds; set_solver).
Qed.

(** An offered number of seconds is recovered from its text. *)
Lemma offered_seconds_text c o :
  o ∈ expirationOptions c →
  num_eqb (eo_seconds o) (NInt 0) = false ∧
  string_to_number (number_to_string (eo_seconds o)) = eo_seconds o.
Proof.
  intros [H _]%expirationOptions_spec. rewrite !elem_of_cons in H.
  destruct H as [->|[->|[->|[]%elem_of_nil]]]; by vm_compute.
Qed.

(** The option first selected is one of those offered. *)
Lemma defaultExpirationSeconds_offered c n :
  defaultExpirationSeconds c = Some n →
  ∃ o, o ∈ expirationOptions c ∧ eo_seconds o = n.
Proof.
  unfold defaultExpirationSeconds. destruct (filter _ (expirationOptions c)) as [|o l] eqn:E; simpl.
  - intros (o & Ho & ->)%fmap_Some. exists o. split; [|done]. apply last_Some in Ho as [l ->]. set_solver.
  - intros [= <-]. exists o. split; [|done].
    assert (o ∈ o :: l) as Ho by left. rewrite <- E in Ho.
    by apply list_elem_of_filter in Ho as [_ ?].
Qed.

Lemma defaultExpirationSeconds_None c :
  defaultExpirationSeconds c = None ↔ expirationOptions c = [].
Proof.
  unfold defaultExpirationSeconds. split.
  - destruct (filter _ _); [|done]. simpl. intros H%fmap_None. by apply last_None.
  - by intros ->.
Qed.

Lemma literal_of_Some {A} (str : A → jsstring) l v a :
  literal_of str l (Some v) = Some a → a ∈ l ∧ str a = v.
Proof.
  unfold literal_of. destruct (filter _ _) as [|b t] eqn:E; simpl; [done|]. intros [= ->].
  assert (a ∈ a :: t) as H by left. rewrite <- E in H. by apply list_elem_of_filter in H as [? ?].
Qed.

Lemma literal_of_role (l : list ServiceAccountRole) r :
  r ∈ l → literal_of role_str l (Some (role_str r)) = Some r.
Proof.
  unfold literal_of. induction l as [|b l IH]; [by intros ?%elem_of_nil|].
  intros H. rewrite filter_cons. destruct (decide _) as [Hb|Hb]; simpl.
  - by destruct b, r.
  - apply IH. apply elem_of_cons in H as [->|]; done.
Qed.

Lemma num_eqb_refl_int z : num_eqb (NInt z) (NInt z) = true.
Proof. unfold num_eqb; simpl. by rewrite Z.compare_refl. Qed.

(** The creation form sends only what the gateway's policy allows, and opens
    ready to be sent. An accepted form yields an expiration of 30, 60 or 90 days
    within the policy's minimum and maximum, a role the caller may grant, and a
    trimmed name that is not empty. The untouched form with any non-blank name
    is accepted as soon as the policy leaves an option and a role is allowed; it
    asks for the policy's default when that is on offer, and never asks for a role
    other than [openshell-user] when that one is allowed. *)
Theorem create_form_policy (c : ServiceAccountCapabilities) :
  (∀ v description seconds name role,
     validate_form c v = Some (description, seconds, name, role) →
     (∃ o, o ∈ expirationOptions c ∧ num_eqb (eo_seconds o) seconds = true) ∧
     role ∈ cap_allowedRoles c ∧ name ≠ [] ∧ trim name = name) ∧
  (∀ o, o ∈ expirationOptions c →
     (eo_seconds o ∈ [NInt 2592000; NInt 5184000; NInt 7776000]) ∧
     num_le (ep_minimumSeconds (cap_expirationPolicy c)) (eo_seconds o) = true ∧
     num_le (eo_seconds o) (ep_maximumSeconds (cap_expirationPolicy c)) = true) ∧
  (∀ name, expirationOptions c ≠ [] → cap_allowedRoles c ≠ [] → trim name ≠ [] →
     ∃ seconds role,
       validate_form c (with_name name (defaultValues c)) = Some ([], seconds, trim name, role) ∧
       (OpenshellUser ∈ cap_allowedRoles c → role = OpenshellUser) ∧
       (∀ o, o ∈ expirationOptions c →
          num_eqb (eo_seconds o) (ep_defaultSeconds (cap_expirationPolicy c)) = true →
          num_eqb seconds (ep_defaultSeconds (cap_expirationPolicy c)) = true)).
Proof.
  split_and!; [|apply expirationOptions_spec|].
  - intros v description seconds name role. unfold validate_form.
    destruct (literal_of _ _ _) as [r|] eqn:Hr; [|done].
    apply literal_of_Some in Hr as [Hr _].
    destruct (_ && _) eqn:H; [|done]. intros [= <- <- <- <-].
    apply andb_prop in H as [[o [Ho He]]%existsb_exists Hn].
    split_and!; [exists o; by rewrite list_elem_of_In|done| |apply trim_idemp].
    by destruct (trim (fv_name v)).
  - intros name Ho Hroles Hname.
    destruct (defaultExpirationSeconds c) as [n|] eqn:Hn;
      [|by apply defaultExpirationSeconds_None in Hn].
    destruct (defaultExpirationSeconds_offered c n Hn) as (o & Hoin & <-).
    destruct (offered_seconds_text c o Hoin) as [Hz Htext].
    set (role := if decide (OpenshellUser ∈ cap_allowedRoles c) then OpenshellUser
                 else default OpenshellUser (head (cap_allowedRoles c))).
    exists (eo_seconds o), role.
    assert (role ∈ cap_allowedRoles c) as Hrole.
    { unfold role. case_decide; [done|]. destruct (cap_allowedRoles c); [done|left]. }
    split_and!.
    + assert (fv_role (defaultValues c) = role_str role) as Hfr
        by (unfold role; simpl; by case_decide).
      assert (string_to_number (fv_expirationSeconds (defaultValues c)) = eo_seconds o) as Hfs
        by (simpl; by rewrite Hn, Hz, Htext).
      unfold validate_form, with_name. cbn [fv_role fv_expirationSeconds fv_name fv_description].
      rewrite Hfs, Hfr, literal_of_role by done.
      replace (existsb _ _) with true.
      { by destruct (trim name). }
      symmetry. apply existsb_exists. exists o. rewrite <- list_elem_of_In. split; [done|].
      apply expirationOptions_spec in Hoin as [H _]. rewrite !elem_of_cons in H.
      destruct H as [->|[->|[->|[]%elem_of_nil]]]; apply num_eqb_refl_int.
    + unfold role. by case_decide.
    + intros o' Ho' Hd. unfold defaultExpirationSeconds in Hn.
      destruct (filter _ _) as [|b l] eqn:E.
      * assert (o' ∈ @nil ExpirationOption) as []%elem_of_nil. rewrite <- E.
        by apply list_elem_of_filter.
      * simpl in Hn. injection Hn as <-. assert (b ∈ b :: l) as Hb by left.
        rewrite <- E in Hb. by apply list_elem_of_filter in Hb as [? _].
Qed.

(** * Concrete runs *)

(** * Concrete runs *)

Module Demo.
Definition account : ServiceAccountRecord := {|
  sa_clientId := js "c"; sa_createdAt := js "2026-01-01"; sa_createdByUserId := js "u";
  sa_description := None; sa_expiresAt := js "2026-02-01"; sa_gatewayId := js "g";
  sa_id := js "a"; sa_lastError := None; sa_name := js "ci"; sa_revokedAt := None;
  sa_role := OpenshellUser; sa_status := Ready; sa_subject := js "s";
  sa_updatedAt := js "2026-01-01" |}.

Definition result : ServiceAccountCreateResult := {|
  sc_credential := {|
    cr_connection := {| cn_accessTokenLifetimeSeconds := NInt 300; cn_audience := js "gw";
      cn_clientId := js "c"; cn_gatewayEndpoint := None; cn_gatewayName := js "alpha";
      cn_issuer := js "https://sso"; cn_tokenEndpoint := js "https://sso/token" |};
    cr_clientSecret := js "secret" |};
  sc_serviceAccount := account |}.

Definition start : Page := {| pg_tab := TabServiceAccounts; pg_deleting := false; pg_dialog := None |}.

(** The page after some events. *)
Definition at_events (evs : list Event) : Page := (default (start, []) (play step start evs)).1.

Lemma reachable_play evs s out : play step start evs = Some (s, out) → reachable s.
Proof. intros H%play_run. by exists start, evs, out. Qed.

(** A secret is on display; the user then asks for the connection tab. *)
Definition shown : Page := at_events [EvOpen; EvSubmit; EvCreated result; EvSettled].
Definition asked : Page :=
  at_events [EvOpen; EvSubmit; EvCreated result; EvSettled; EvTab TabConnection].


Definition asked_dialog : Dialog := default new_dialog (pg_dialog asked).
Definition left_page : Page := {| pg_tab := TabServiceAccounts; pg_deleting := false; pg_dialog := None |}.

Lemma deferred_leave_resolved_witness :
  is_Some (step asked EvLeave) ∧ is_Some (step asked EvReturn) ∧
  ([Closed; ApplyTab TabConnection] = Closed :: onConfirm (LeaveForTab TabConnection) ∧
   pg_dialog left_page = None).
Proof.
  refine (deferred_leave_resolved asked left_page EvLeave [Closed; ApplyTab TabConnection]
            _ _ asked_dialog (LeaveForTab TabConnection) _ _); [|reflexivity..].
  apply (reachable_play [EvOpen; EvSubmit; EvCreated result; EvSettled; EvTab TabConnection]
           _ []). reflexivity.
Defined.
End Demo.

(** The confirmation that holds a blocked route change can go away unanswered.
    When the navigation was blocked by a creation in flight and the creation
    then fails, the confirmation stays on display, and dismissing it closes the
    dialog without telling the route's blocker to proceed or to reset. *)
Theorem blocked_route_left_unanswered (e : thrown) :
  ∃ s out,
    run step Demo.start [EvOpen; EvSubmit; EvBlocked; EvFailed e; EvRequestClose] s out ∧
    pg_dialog s = None ∧ (BlockerProceed ∉ out) ∧ (BlockerReset ∉ out).
Proof.
  eexists _, _. split_and!; [by apply play_run|done|set_solver..].
Qed.
