(* ===== verification/Debounce.v ===== *)
(** [useDebouncedValue] ([shared/use-debounced-value.ts]): the value a search
    field has kept for the whole delay. The hook as a timed state machine, and
    what it shows in terms of the value rendered at each instant. *)
From S2P Require Export JsCore.

Section debounce.
Context {V : Type} `{!EqDecision V} (delay : Z).

(** The state, the value the effect last ran with, and its pending timeout. *)
Record Debounce := {
  db_value : V;
  db_dependency : V;
  db_timeout : option Z
}.

(** The effect's run at [now]: the old timeout is cleared, a new one is set. *)
Definition start_timeout (now : Z) (v : V) (s : Debounce) : Debounce :=
  {| db_value := db_value s; db_dependency := v; db_timeout := Some (now + delay)%Z |}.

Definition mount (now : Z) (v : V) : Debounce :=
  start_timeout now v {| db_value := v; db_dependency := v; db_timeout := None |}.

(** The timeout's callback, once its time has come. *)
Definition fire (now : Z) (s : Debounce) : Debounce :=
  match db_timeout s with
  | Some d => if (d <=? now)%Z
              then {| db_value := db_dependency s; db_dependency := db_dependency s;
                      db_timeout := None |}
              else s
  | None => s
  end.

(** A render with [v] at [now]: the effect runs when its dependency changed. *)
Definition useDebouncedValue (s : Debounce) (r : Z * V) : Debounce :=
  let s := fire r.1 s in
  if decide (r.2 = db_dependency s) then s else start_timeout r.1 r.2 s.

Definition shown (t0 : Z) (v0 : V) (renders : list (Z * V)) (now : Z) : V :=
  db_value (fire now (foldl useDebouncedValue (mount t0 v0) renders)).

(** The value rendered at an instant: by the last render not after it. *)
Definition rendered_at (v0 : V) (renders : list (Z * V)) (t : Z) : V :=
  foldl (λ v r, if (r.1 <=? t)%Z then r.2 else v) v0 renders.

(** Renders happen in order, from the mount to [now]. *)
Definition ordered (t0 : Z) (renders : list (Z * V)) (now : Z) : Prop :=
  StronglySorted (λ a b, a.1 ≤ b.1)%Z renders ∧ (t0 ≤ now)%Z ∧
  Forall (λ r, t0 ≤ r.1 ≤ now)%Z renders.

(** * Lemmas *)

Lemma ordered_snoc t0 rs r now :
  ordered t0 (rs ++ [r]) now → ordered t0 rs r.1 ∧ (t0 ≤ r.1 ≤ now)%Z.
Proof.
  intros (Hs & Ht & [Hf [Hr _]%Forall_cons]%Forall_app). split; [|done].
  split_and!; [by eapply StronglySorted_app_1_l|lia|].
  apply Forall_forall. intros a Ha. rewrite Forall_forall in Hf. specialize (Hf a Ha).
  apply StronglySorted_app in Hs as (Hs & _ & _).
  specialize (Hs a r Ha ltac:(left)). lia.
Qed.

Lemma rendered_at_snoc v0 rs r t :
  rendered_at v0 (rs ++ [r]) t = if (r.1 <=? t)%Z then r.2 else rendered_at v0 rs t.
Proof. unfold rendered_at. by rewrite foldl_app. Qed.

(** What holds of a state reached by [now]. *)
Record debounce_ok (t0 : Z) (v0 : V) (rs : list (Z * V)) (now : Z) (s : Debounce) : Prop := {
  ok_dep : ∀ y, (now ≤ y)%Z → rendered_at v0 rs y = db_dependency s;
  ok_some : ∀ d, db_timeout s = Some d → (t0 + delay ≤ d ≤ now + delay)%Z ∧
    ∀ y, (d - delay ≤ y)%Z → rendered_at v0 rs y = db_dependency s;
  ok_none : db_timeout s = None → db_value s = db_dependency s;
  ok_held : db_value s = v0 ∨ ∃ x, (t0 ≤ x ∧ x + delay ≤ now)%Z ∧
    ∀ y, (x ≤ y < x + delay)%Z → rendered_at v0 rs y = db_value s
}.

Lemma mount_ok t0 v0 now : (t0 ≤ now)%Z → debounce_ok t0 v0 [] now (mount t0 v0).
Proof. intros. split; simpl; [done| |done|by left]. intros d [= <-]. split; [lia|done]. Qed.

Lemma fire_ok t0 v0 rs T now s :
  (T ≤ now)%Z → debounce_ok t0 v0 rs T s → debounce_ok t0 v0 rs now (fire now s).
Proof.
  intros HT [H1 H2 H3 H4]. unfold fire. destruct (db_timeout s) as [d|] eqn:Ed.
  - destruct (H2 d eq_refl) as [Hd Hy]. destruct (Z.leb_spec d now).
    + split; simpl; [intros; apply Hy; lia|done|done|].
      right. exists (d - delay)%Z. split; [lia|]. intros y ?. apply Hy. lia.
    + split; [intros; apply Hy; lia| |congruence|].
      * rewrite Ed. intros ? [= <-]. split; [lia|done].
      * destruct H4 as [|(x & ? & ?)]; [by left|right; exists x; split; [lia|done]].
  - split; [intros; apply H1; lia|congruence|intros; by apply H3|].
    destruct H4 as [|(x & ? & ?)]; [by left|right; exists x; split; [lia|done]].
Qed.

Lemma useDebouncedValue_ok t0 v0 rs r s :
  (t0 ≤ r.1)%Z → debounce_ok t0 v0 rs r.1 (fire r.1 s) →
  debounce_ok t0 v0 (rs ++ [r]) r.1 (useDebouncedValue s r).
Proof.
  intros Ht Hs. unfold useDebouncedValue. set (s' := fire r.1 s) in *. clearbody s'.
  destruct Hs as [H1 H2 H3 H4]. case_decide as Hd.
  - split.
    + intros y ?. rewrite rendered_at_snoc. destruct (Z.leb_spec r.1 y); [done|lia].
    + intros d Ed. destruct (H2 d Ed) as [? Hy]. split; [done|]. intros y ?.
      rewrite rendered_at_snoc. destruct (Z.leb_spec r.1 y); auto.
    + done.
    + destruct H4 as [|(x & ? & Hx)]; [by left|right]. exists x. split; [done|]. intros y ?.
      rewrite rendered_at_snoc. destruct (Z.leb_spec r.1 y); [lia|auto].
  - split; simpl.
    + intros y ?. rewrite rendered_at_snoc. destruct (Z.leb_spec r.1 y); [done|lia].
    + intros d [= <-]. split; [lia|]. intros y ?. rewrite rendered_at_snoc.
      destruct (Z.leb_spec r.1 y); [done|lia].
    + done.
    + destruct H4 as [|(x & ? & Hx)]; [by left|right]. exists x. split; [done|]. intros y ?.
      rewrite rendered_at_snoc. destruct (Z.leb_spec r.1 y); [lia|auto].
Qed.

Lemma renders_ok t0 v0 rs now :
  ordered t0 rs now → debounce_ok t0 v0 rs now (fire now (foldl useDebouncedValue (mount t0 v0) rs)).
Proof.
  revert now. induction rs as [|r rs IH] using rev_ind; intros now Ho.
  - simpl. eapply fire_ok; [|apply (mount_ok _ _ t0); lia]. apply Ho.
  - destruct (ordered_snoc _ _ _ _ Ho) as [Hrs Hr]. rewrite foldl_app. simpl.
    eapply (fire_ok _ _ _ r.1); [lia|]. apply useDebouncedValue_ok; [lia|auto].
Qed.

(** A value kept since [c] restarts no timeout after [c]. *)
Lemma quiet_timeout t0 v0 rs now c v :
  ordered t0 rs now → (t0 ≤ c)%Z → rendered_at v0 rs c = v →
  (∀ r, r ∈ rs → (c < r.1)%Z → r.2 = v) →
  (∀ y, (c ≤ y)%Z → rendered_at v0 rs y = v) ∧
  (∀ d, db_timeout (foldl useDebouncedValue (mount t0 v0) rs) = Some d → (d ≤ c + delay)%Z).
Proof.
  revert now. induction rs as [|r rs IH] using rev_ind; intros now Ho Hc Hv Hq.
  - split; [done|]. simpl. intros d [= <-]. lia.
  - destruct (ordered_snoc _ _ _ _ Ho) as [Hrs Hr]. rewrite foldl_app. simpl.
    pose proof (renders_ok _ v0 _ _ Hrs) as Hok. unfold useDebouncedValue.
    set (s := fire r.1 _) in *. rewrite rendered_at_snoc in Hv.
    assert (∀ y d, fire y (foldl useDebouncedValue (mount t0 v0) rs) = s →
              db_timeout s = Some d →
              db_timeout (foldl useDebouncedValue (mount t0 v0) rs) = Some d) as Hfire.
    { intros y d <-. unfold fire. destruct (db_timeout (foldl _ _ _)) as [e|] eqn:E; [|congruence].
      destruct (e <=? y)%Z; simpl; congruence. }
    destruct (Z.leb_spec r.1 c) as [Hrc|Hrc].
    + split.
      * intros y ?. rewrite rendered_at_snoc. destruct (Z.leb_spec r.1 y); [done|lia].
      * intros d. case_decide; simpl; [|intros [= <-]; lia].
        intros Hd. apply (ok_some _ _ _ _ _ Hok) in Hd. lia.
    + assert (r.2 = v) as Hrv by (apply Hq; [set_solver|done]).
      destruct (IH _ Hrs Hc Hv) as [Hy Hd]; [set_solver|]. split.
      * intros y ?. rewrite rendered_at_snoc. destruct (r.1 <=? y)%Z; [done|auto].
      * rewrite decide_True; [|rewrite Hrv, <- (ok_dep _ _ _ _ _ Hok r.1) by lia; symmetry; apply Hy; lia].
        intros d Hs. eapply Hd, Hfire; [done|done].
Qed.

(** * Properties *)

(** The debounced value is a value the field has held. It is the initial value
    or one that was rendered without interruption for the whole delay; and once
    the field has kept a value for the delay, it is that value. *)
Theorem debounced_value_was_kept t0 v0 rs now :
  (0 ≤ delay)%Z → ordered t0 rs now →
  (shown t0 v0 rs now = v0 ∨
   ∃ x, (t0 ≤ x ∧ x + delay ≤ now)%Z ∧
     ∀ y, (x ≤ y < x + delay)%Z → rendered_at v0 rs y = shown t0 v0 rs now) ∧
  (∀ v, (t0 ≤ now - delay)%Z → rendered_at v0 rs (now - delay) = v →
     (∀ r, r ∈ rs → (now - delay < r.1)%Z → r.2 = v) → shown t0 v0 rs now = v).
Proof.
  intros Hdelay Ho. pose proof (renders_ok t0 v0 rs now Ho) as Hok. split; [apply Hok|].
  intros v Hc Hv Hq. destruct (quiet_timeout _ _ _ _ _ _ Ho Hc Hv Hq) as [Hy Hd].
  pose proof (ok_dep _ _ _ _ _ Hok now ltac:(lia)) as Hdep.
  pose proof (ok_none _ _ _ _ _ Hok) as Hnone. rewrite Hy in Hdep by lia.
  unfold shown, fire in *. set (s := foldl _ _ _) in *.
  destruct (db_timeout s) as [d|] eqn:Ed.
  - specialize (Hd d eq_refl). destruct (Z.leb_spec d now); [done|lia].
  - by rewrite Hnone.
Qed.
End debounce.

(** A search typed quickly, then left alone: only the whole text is searched. *)
Lemma debounced_value_was_kept_witness :
  ordered 0 [(100, 1); (200, 2)]%Z 600 ∧
  shown 300 0 0%Z [(100, 1); (200, 2)]%Z 499 = 0%Z ∧
  ((shown 300 0 0%Z [(100, 1); (200, 2)]%Z 600 = 0%Z ∨
    ∃ x, (0 ≤ x ∧ x + 300 ≤ 600)%Z ∧ ∀ y, (x ≤ y < x + 300)%Z →
      rendered_at 0%Z [(100, 1); (200, 2)]%Z y = shown 300 0 0%Z [(100, 1); (200, 2)]%Z 600) ∧
   (∀ v, (0 ≤ 600 - 300)%Z → rendered_at 0%Z [(100, 1); (200, 2)]%Z (600 - 300) = v →
      (∀ r, r ∈ [(100, 1); (200, 2)]%Z → (600 - 300 < r.1)%Z → r.2 = v) →
      shown 300 0 0%Z [(100, 1); (200, 2)]%Z 600 = v)).
Proof.
  assert (ordered 0 [(100, 1); (200, 2)]%Z 600) as Ho.
  { split_and!; [repeat constructor; simpl; lia|lia|repeat constructor; simpl; lia]. }
  split; [exact Ho|]. split; [reflexivity|].
  refine (debounced_value_was_kept 300 0 0%Z [(100, 1); (200, 2)]%Z 600 _ Ho). lia.
Defined.
