(* ===== verification/GatewayPlacementSelect.v ===== *)
(** The cluster field of the provisioning form
    ([gateways/gateway-placement-select.tsx]): the options it offers for a search,
    its keyboard navigation, and its handlers as a state machine over the
    field's display state and the form's value. *)
From S2P Require Export GatewayTypes Debounce.

(** The second line of an option. *)
Inductive PlacementDescription :=
| ClusterProviderAndRegion (provider region : jsstring)
| ClusterProvider (provider : jsstring)
| ClusterRegion (region : jsstring).

(** A cluster's id, the empty string for the hub, or one of the two symbols. *)
Inductive OptionValue := ClusterValue (id : jsstring) | loadingValue | noResultsValue.

#[export] Instance OptionValue_eq_dec : EqDecision OptionValue.
Proof. solve_decision. Defined.

Record PlacementOption := {
  po_description : option PlacementDescription;
  po_isDisabled : bool;
  po_key : jsstring;
  po_label : jsstring;
  po_value : OptionValue
}.

Definition placementDescription (p : GatewayPlacement) : option PlacementDescription :=
  let provider := trim (pl_provider p) in
  let region := default [] (trim <$> pl_region p) in
  if is_nonempty provider && is_nonempty region
  then Some (ClusterProviderAndRegion provider region)
  else if is_nonempty provider then Some (ClusterProvider provider)
  else if is_nonempty region then Some (ClusterRegion region)
  else None.

(** The query for the debounced search: its data and whether it has none yet. *)
Record PlacementQuery := { pq_items : option (list GatewayPlacement); pq_isPending : bool }.

Section select.
(** The texts and the locale's lower case. *)
Context (hubLabel loadingLabel noResultsLabel : jsstring) (toLocaleLowerCase : jsstring → jsstring).

Definition hubOption : PlacementOption := {|
  po_description := None; po_isDisabled := false; po_key := js "hub"; po_label := hubLabel;
  po_value := ClusterValue [] |}.

Definition clusterOption (p : GatewayPlacement) : PlacementOption := {|
  po_description := placementDescription p; po_isDisabled := false;
  po_key := js "cluster:" ++ pl_id p;
  po_label := pl_name p; po_value := ClusterValue (pl_id p) |}.

Definition isSearchPending (searchValue debouncedSearch : jsstring) : bool :=
  negb (bool_decide (trim searchValue = debouncedSearch)).

(** The hub and the clusters on offer. *)
Definition offered (searchValue debouncedSearch : jsstring) (q : PlacementQuery) :
    list PlacementOption :=
  let normalizedSearch := trim searchValue in
  let hubMatches := includes (toLocaleLowerCase hubLabel) (toLocaleLowerCase normalizedSearch) in
  (if hubMatches then [hubOption] else []) ++
  (if negb (isSearchPending searchValue debouncedSearch)
   then map clusterOption (default [] (pq_items q)) else []).

Definition loadingOption : PlacementOption := {|
  po_description := None; po_isDisabled := true; po_key := js "loading";
  po_label := loadingLabel; po_value := loadingValue |}.

Definition noResultsOption : PlacementOption := {|
  po_description := None; po_isDisabled := true; po_key := js "no-results";
  po_label := noResultsLabel; po_value := noResultsValue |}.

Definition options (searchValue debouncedSearch : jsstring) (q : PlacementQuery) :
    list PlacementOption :=
  let l := offered searchValue debouncedSearch q in
  if isSearchPending searchValue debouncedSearch || pq_isPending q then l ++ [loadingOption]
  else if negb (is_nonempty l) then l ++ [noResultsOption]
  else l.

(** The component's state, and [ps_value], the form's. *)
Record PlacementSelect := {
  ps_isOpen : bool;
  ps_inputValue : jsstring;
  ps_searchValue : jsstring;
  ps_focusedItemIndex : option Z;
  ps_activeItemId : option jsstring;
  ps_lastAccepted : jsstring * jsstring;
  ps_value : option jsstring
}.

Definition initialSelect : PlacementSelect := {|
  ps_isOpen := false; ps_inputValue := hubLabel; ps_searchValue := [];
  ps_focusedItemIndex := None; ps_activeItemId := None;
  ps_lastAccepted := (hubLabel, []); ps_value := Some [] |}.

Definition set_open (b : bool) (s : PlacementSelect) : PlacementSelect :=
  {| ps_isOpen := b; ps_inputValue := ps_inputValue s; ps_searchValue := ps_searchValue s;
     ps_focusedItemIndex := ps_focusedItemIndex s; ps_activeItemId := ps_activeItemId s;
     ps_lastAccepted := ps_lastAccepted s; ps_value := ps_value s |}.
Definition set_focus (i : option Z) (item : option jsstring) (s : PlacementSelect) :
    PlacementSelect :=
  {| ps_isOpen := ps_isOpen s; ps_inputValue := ps_inputValue s;
     ps_searchValue := ps_searchValue s; ps_focusedItemIndex := i; ps_activeItemId := item;
     ps_lastAccepted := ps_lastAccepted s; ps_value := ps_value s |}.
(** [setInputValue], [setSearchValue] and the form's [onChange]. *)
Definition set_text (input search : jsstring) (value : option jsstring) (s : PlacementSelect) :
    PlacementSelect :=
  {| ps_isOpen := ps_isOpen s; ps_inputValue := input; ps_searchValue := search;
     ps_focusedItemIndex := ps_focusedItemIndex s; ps_activeItemId := ps_activeItemId s;
     ps_lastAccepted := ps_lastAccepted s; ps_value := value |}.
Definition set_accepted (a : jsstring * jsstring) (s : PlacementSelect) : PlacementSelect :=
  {| ps_isOpen := ps_isOpen s; ps_inputValue := ps_inputValue s;
     ps_searchValue := ps_searchValue s; ps_focusedItemIndex := ps_focusedItemIndex s;
     ps_activeItemId := ps_activeItemId s; ps_lastAccepted := a; ps_value := ps_value s |}.

Definition resetFocus : PlacementSelect → PlacementSelect := set_focus None None.
Definition closeMenu (s : PlacementSelect) : PlacementSelect := resetFocus (set_open false s).

Definition chooseOption (o : PlacementOption) (s : PlacementSelect) : PlacementSelect :=
  match po_value o with
  | ClusterValue id =>
      if po_isDisabled o then s
      else closeMenu (set_text (po_label o) [] (Some id) (set_accepted (po_label o, id) s))
  | _ => s
  end.

Definition focusOption (i : Z) : PlacementSelect → PlacementSelect :=
  set_focus (Some i) (Some (js "gateway-cluster-option-" ++ string_of_Z i)).

(** [options[i]?.isDisabled]. *)
Definition disabled_at (opts : list PlacementOption) (i : Z) : bool :=
  match opts !! Z.to_nat i with Some o => po_isDisabled o | None => false end.

(** The loop of [moveFocus]; [None] when the fuel runs out. *)
Fixpoint next_index (fuel : nat) (opts : list PlacementOption) (direction i : Z) : option Z :=
  match fuel with
  | O => None
  | S fuel =>
      let i' := Z.rem (i + direction + Z.of_nat (length opts)) (Z.of_nat (length opts)) in
      if disabled_at opts i' then next_index fuel opts direction i' else Some i'
  end.

Definition moveFocus (opts : list PlacementOption) (direction : Z) (s : PlacementSelect) :
    option PlacementSelect :=
  let s := if ps_isOpen s then s else set_open true s in
  if forallb po_isDisabled opts then Some s
  else
    let i := default (if decide (direction = 1)%Z then -1 else 0)%Z (ps_focusedItemIndex s) in
    (λ i', focusOption i' s) <$> next_index (length opts) opts direction i.

Inductive Key := ArrowDown | ArrowUp | Enter | Escape | OtherKey.

Inductive SelectEvent :=
| InputChange (text : jsstring)
| InputClick
| KeyDown (k : Key)
| ClearClick
| ToggleClick
| OpenChange (open : bool)
| OptionSelect (v : OptionValue).

Definition onKeyDown (opts : list PlacementOption) (k : Key) (s : PlacementSelect) :
    option PlacementSelect :=
  match k with
  | ArrowDown => moveFocus opts 1 s
  | ArrowUp => moveFocus opts (-1) s
  | Enter =>
      match ps_isOpen s, ps_focusedItemIndex s with
      | true, Some i =>
          Some (match opts !! Z.to_nat i with Some o => chooseOption o s | None => s end)
      | false, _ => Some (set_open true s)
      | true, None => Some s
      end
  | Escape =>
      if ps_isOpen s
      then let (label, value) := ps_lastAccepted s in
           Some (closeMenu (set_text label [] (Some value) s))
      else Some s
  | OtherKey => Some s
  end.

Definition handleSelect (opts : list PlacementOption) (s : PlacementSelect) (ev : SelectEvent) :
    option PlacementSelect :=
  match ev with
  | InputChange text => Some (set_open true (resetFocus (set_text text text None s)))
  | InputClick => Some (set_open true s)
  | KeyDown k => onKeyDown opts k s
  | ClearClick => Some (resetFocus (set_text [] [] None s))
  | ToggleClick => Some (set_open (negb (ps_isOpen s)) s)
  | OpenChange open => Some (if open then s else closeMenu s)
  | OptionSelect v =>
      Some (match list_find (λ o, po_value o = v) opts with
            | Some (_, o) => chooseOption o s
            | None => s
            end)
  end.

(** A session: each event comes with what the debounce and the query show then. *)
Fixpoint session (s : PlacementSelect) (evs : list (jsstring * PlacementQuery * SelectEvent)) :
    option PlacementSelect :=
  match evs with
  | [] => Some s
  | (debounced, q, ev) :: evs =>
      s' ← handleSelect (options (ps_searchValue s) debounced q) s ev; session s' evs
  end.

(** * Lemmas *)

(** What the form holds is what the field displays. *)
Definition select_ok (s : PlacementSelect) : Prop :=
  ∀ v, ps_value s = Some v → ps_lastAccepted s = (ps_inputValue s, v).

Lemma chooseOption_ok o s : select_ok s → select_ok (chooseOption o s).
Proof. unfold chooseOption. destruct (po_value o); [|done..]. destruct (po_isDisabled o); [done|]. by intros _ v [= <-]. Qed.

Lemma moveFocus_keeps opts direction s s' :
  moveFocus opts direction s = Some s' →
  ps_value s' = ps_value s ∧ ps_inputValue s' = ps_inputValue s ∧
  ps_lastAccepted s' = ps_lastAccepted s.
Proof.
  unfold moveFocus. destruct (forallb _ _); [by intros [= <-]; destruct (ps_isOpen s)|].
  intros (i & _ & ->)%fmap_Some. simpl. by destruct (ps_isOpen s).
Qed.

Lemma handleSelect_ok opts s ev s' :
  handleSelect opts s ev = Some s' → select_ok s → select_ok s'.
Proof.
  intros H Hs. destruct ev as [text| |k| | |open|v]; simpl in H; simplify_eq; try done.
  - destruct k; simpl in H; simplify_eq; try done.
    + apply moveFocus_keeps in H as (Hv & Hi & Ha). intros v. rewrite Hv, Hi, Ha. apply Hs.
    + apply moveFocus_keeps in H as (Hv & Hi & Ha). intros v. rewrite Hv, Hi, Ha. apply Hs.
    + repeat case_match; simplify_eq/=; try done; by apply chooseOption_ok.
    + destruct (ps_isOpen s); simplify_eq; [|done].
      destruct (ps_lastAccepted s) as [label value] eqn:E. simplify_eq.
      intros v; simpl. intros [= <-]. by rewrite E.
  - by destruct open.
  - destruct (list_find _ _) as [[n o]|]; [by apply chooseOption_ok|done].
Qed.

(** What an option chooses, when it can be chosen. *)
Definition choice (o : PlacementOption) : option jsstring :=
  if po_isDisabled o then None
  else match po_value o with ClusterValue id => Some id | _ => None end.

Lemma offered_values search debounced q o :
  o ∈ offered search debounced q → ∃ id, po_value o = ClusterValue id.
Proof.
  unfold offered. intros [H|H]%elem_of_app.
  - destruct (includes _ _); [|by apply elem_of_nil in H].
    apply list_elem_of_singleton in H as ->. by eexists.
  - destruct (negb _); [|by apply elem_of_nil in H].
    apply list_elem_of_fmap in H as (p & -> & _). by eexists.
Qed.

Lemma offered_choices search debounced q :
  omap choice (offered search debounced q) =
  (if includes (toLocaleLowerCase hubLabel) (toLocaleLowerCase (trim search)) then [[]] else []) ++
  (if isSearchPending search debounced then [] else map pl_id (default [] (pq_items q))).
Proof.
  unfold offered. rewrite omap_app. f_equal; [by case_match|].
  destruct (isSearchPending _ _); simpl; [done|].
  induction (default [] (pq_items q)) as [|p l IH]; simpl; [done|by f_equal].
Qed.

Lemma options_cases search debounced q :
  options search debounced q =
  offered search debounced q ++
  (if isSearchPending search debounced || pq_isPending q then [loadingOption]
   else if is_nonempty (offered search debounced q) then [] else [noResultsOption]).
Proof.
  unfold options. destruct (_ || _); [done|]. destruct (offered _ _ _); simpl; by rewrite ?app_nil_r.
Qed.

(** The search loop from [i]: the first index, going in the direction, that is enabled. *)
Lemma next_index_spec opts direction fuel i k :
  (0 < length opts)%nat → (direction = 1 ∨ direction = -1)%Z → (direction = 1 → -1 ≤ i)%Z →
  (direction = -1 → 0 ≤ i)%Z → (1 ≤ k ≤ Z.of_nat fuel)%Z →
  disabled_at opts ((i + k * direction) mod Z.of_nat (length opts)) = false →
  ∃ k', (1 ≤ k' ≤ k)%Z ∧
    next_index fuel opts direction i = Some ((i + k' * direction) mod Z.of_nat (length opts))%Z ∧
    disabled_at opts ((i + k' * direction) mod Z.of_nat (length opts)) = false ∧
    ∀ j, (1 ≤ j < k')%Z →
      disabled_at opts ((i + j * direction) mod Z.of_nat (length opts)) = true.
Proof.
  intros Hn Hd. revert i k. induction fuel as [|fuel IH]; intros i k H1 H2 Hk Hen; [lia|].
  set (n := Z.of_nat (length opts)) in *. assert (0 < n)%Z as Hpos by lia.
  simpl. fold n.
  assert (Z.rem (i + direction + n) n = (i + 1 * direction) mod n)%Z as Hrem.
  { rewrite Z.rem_mod_nonneg by lia.
    replace (i + direction + n)%Z with (i + 1 * direction + 1 * n)%Z by lia.
    by rewrite Z.mod_add by lia. }
  rewrite Hrem. destruct (disabled_at opts ((i + 1 * direction) mod n)) eqn:E.
  - assert (k ≠ 1)%Z by (intros ->; congruence).
    pose proof (Z.mod_pos_bound (i + 1 * direction) n Hpos) as Hb.
    assert (∀ j, ((i + 1 * direction) mod n + j * direction) mod n =
                 (i + (j + 1) * direction) mod n)%Z as Hshift.
    { intros j. rewrite Zplus_mod_idemp_l. f_equal. lia. }
    destruct (IH ((i + 1 * direction) mod n)%Z (k - 1)%Z) as (k' & Hk' & Hr & He & Hj);
      [lia|lia|lia|by rewrite Hshift, Z.sub_add|].
    exists (k' + 1)%Z. rewrite Hshift in Hr, He. split_and!; [lia|lia|done|done|].
    intros j Hj'. destruct (decide (j = 1)%Z) as [->|]; [done|].
    specialize (Hj (j - 1)%Z ltac:(lia)). rewrite Hshift, Z.sub_add in Hj. done.
  - exists 1%Z. split_and!; [lia|lia|done|done|]. intros; lia.
Qed.

(** An enabled option lies within one turn. *)
Lemma turn_reaches (n e i direction : Z) :
  (0 ≤ e < n)%Z → (direction = 1 ∨ direction = -1)%Z →
  ∃ k, (1 ≤ k ≤ n)%Z ∧ ((i + k * direction) mod n = e)%Z.
Proof.
  intros He Hd. pose proof (Z.mod_pos_bound (direction * (e - i)) n ltac:(lia)) as Hb.
  set (k := ((direction * (e - i)) mod n)%Z) in *.
  assert (∀ m, (i + (k + m * n) * direction) mod n = e)%Z as Hk.
  { intros m. unfold k. rewrite (Z.mod_eq (direction * (e - i)) n) by lia.
    set (q := (direction * (e - i) / n)%Z).
    replace (i + (direction * (e - i) - n * q + m * n) * direction)%Z
      with (e + (direction * (m - q)) * n)%Z by (destruct Hd as [-> | ->]; lia).
    rewrite Z.mod_add by lia. by apply Z.mod_small. }
  destruct (decide (k = 0)%Z) as [Hz|].
  - exists n. split; [lia|]. specialize (Hk 1%Z). rewrite Hz in Hk.
    by replace (0 + 1 * n)%Z with n in Hk by lia.
  - exists k. split; [lia|]. specialize (Hk 0%Z). by replace (k + 0 * n)%Z with k in Hk by lia.
Qed.

Lemma enabled_index opts :
  forallb po_isDisabled opts = false →
  ∃ e, (0 ≤ e < Z.of_nat (length opts))%Z ∧ disabled_at opts e = false.
Proof.
  intros H. induction opts as [|o opts IH]; simpl in H; [done|].
  destruct (po_isDisabled o) eqn:E.
  - destruct (IH H) as (e & He & Hd). exists (e + 1)%Z. simpl. split; [lia|].
    unfold disabled_at in *. by replace (Z.to_nat (e + 1)) with (S (Z.to_nat e)) by lia.
  - exists 0%Z. simpl. split; [lia|]. by unfold disabled_at.
Qed.

(** * Properties *)

(** C29 The arrow keys always land. When an option is enabled, the key's loop ends
    and moves the focus to the first enabled option in its direction, turning
    over at the ends, whatever the focus was, even past the end of a list that
    has shrunk; when none is enabled the menu opens and the focus stays. *)
Theorem moveFocus_lands opts direction s :
  (direction = 1 ∨ direction = -1)%Z →
  (∀ i, ps_focusedItemIndex s = Some i → (0 ≤ i)%Z) →
  ∃ s', moveFocus opts direction s = Some s' ∧ ps_isOpen s' = true ∧
    (forallb po_isDisabled opts = true → ps_focusedItemIndex s' = ps_focusedItemIndex s) ∧
    (forallb po_isDisabled opts = false →
     let i := default (if decide (direction = 1)%Z then -1 else 0)%Z (ps_focusedItemIndex s) in
     let n := Z.of_nat (length opts) in
     ∃ k, (1 ≤ k ≤ n)%Z ∧
       ps_focusedItemIndex s' = Some ((i + k * direction) mod n)%Z ∧
       disabled_at opts ((i + k * direction) mod n) = false ∧
       (0 ≤ (i + k * direction) mod n < n)%Z ∧
       ∀ j, (1 ≤ j < k)%Z → disabled_at opts ((i + j * direction) mod n) = true).
Proof.
  intros Hd Hf. unfold moveFocus. destruct (forallb po_isDisabled opts) eqn:E.
  { eexists. split; [done|]. by destruct (ps_isOpen s) eqn:Ho. }
  destruct (enabled_index opts E) as (e & He & Hen).
  replace (ps_focusedItemIndex (if ps_isOpen s then s else set_open true s))
    with (ps_focusedItemIndex s) by (by destruct (ps_isOpen s)).
  set (i := default _ (ps_focusedItemIndex s)).
  assert ((direction = 1 → -1 ≤ i) ∧ (direction = -1 → 0 ≤ i))%Z as [H1 H2].
  { unfold i. destruct (ps_focusedItemIndex s) as [f|]; simpl.
    - specialize (Hf f eq_refl). lia.
    - case_decide; lia. }
  destruct (turn_reaches (Z.of_nat (length opts)) e i direction He Hd) as (k & Hk & Hek).
  destruct (next_index_spec opts direction (length opts) i k) as (k' & Hk' & Hr & Hdis & Hj);
    [lia|done|done|done|lia|by rewrite Hek|].
  rewrite Hr. eexists. split; [done|]. split; [by destruct (ps_isOpen s) eqn:Ho|].
  split; [done|]. intros _. exists k'. pose proof (Z.mod_pos_bound (i + k' * direction) (Z.of_nat (length opts)) ltac:(lia)).
  split_and!; try done; lia.
Qed.

(** The form never holds a cluster other than the one on display. Through any
    session of typing, keys, clicks and query results, as long as the form has a
    value the field displays the label of the option that was accepted with
    that very value; text that was only typed leaves the form without one. *)
Theorem placement_value_is_displayed evs s :
  session initialSelect evs = Some s →
  ∀ v, ps_value s = Some v → ps_lastAccepted s = (ps_inputValue s, v).
Proof.
  assert (∀ s0, select_ok s0 → session s0 evs = Some s → select_ok s) as H.
  { induction evs as [|[[d q] ev] evs IH]; intros s0 Hs0; simpl; [by intros [= <-]|].
    intros (s1 & H1 & H2)%bind_Some. eapply IH; [by eapply handleSelect_ok|done]. }
  apply H. by intros v [= <-].
Qed.

(** The menu never offers results of another search. It is never empty. The hub
    is offered when its label matches the text; clusters are offered only once
    the debounce has caught up, and then exactly the query's items in order;
    while results are due the last entry is the disabled loading entry, and
    the no-results entry only ever stands alone. *)
Theorem options_follow_search search debounced q :
  let opts := options search debounced q in
  opts ≠ [] ∧
  omap choice opts =
    (if includes (toLocaleLowerCase hubLabel) (toLocaleLowerCase (trim search))
     then [[]] else []) ++
    (if decide (trim search = debounced) then map pl_id (default [] (pq_items q)) else []) ∧
  ((trim search ≠ debounced ∨ pq_isPending q = true) ↔ last opts = Some loadingOption) ∧
  (∀ o, o ∈ opts → po_value o = noResultsValue → opts = [noResultsOption]).
Proof.
  cbv zeta. rewrite options_cases.
  assert (isSearchPending search debounced = false ↔ trim search = debounced) as Hp.
  { unfold isSearchPending. by rewrite negb_false_iff, bool_decide_eq_true. }
  assert (∀ o, o ∈ offered search debounced q → po_value o ≠ noResultsValue ∧
            po_value o ≠ loadingValue) as Hv.
  { intros o [id ->]%offered_values. done. }
  split_and!.
  - destruct (_ || _); [by destruct (offered _ _ _)|]. by destruct (offered _ _ _).
  - rewrite omap_app, offered_choices. rewrite <- (app_assoc _ _ (omap choice _)). f_equal.
    replace (omap choice _) with (@nil jsstring)
      by (destruct (_ || _); [done|by destruct (is_nonempty _)]).
    rewrite app_nil_r. case_decide as Hd; [by rewrite (proj2 Hp)|].
    destruct (isSearchPending search debounced); [done|by destruct Hd; apply Hp].
  - destruct (isSearchPending search debounced || pq_isPending q) eqn:E.
    + rewrite last_snoc. split; [done|intros _]. apply orb_prop in E as [E|E]; [left|by right].
      intros Hd. apply Hp in Hd. congruence.
    + apply orb_false_elim in E as [E1 E2]. split; [intros [H|H]; [by destruct H; apply Hp|congruence]|].
      intros H. apply last_Some in H as [l H].
      assert (loadingOption ∈ offered search debounced q ++
        (if is_nonempty (offered search debounced q) then [] else [noResultsOption])) as Hin
        by (rewrite H; set_solver).
      apply elem_of_app in Hin as [Hin|Hin]; [by destruct (Hv _ Hin)|].
      destruct (is_nonempty _); [by apply elem_of_nil in Hin|].
      by apply list_elem_of_singleton in Hin.
  - intros o Hin Ho. apply elem_of_app in Hin as [Hin|Hin]; [by destruct (Hv _ Hin)|].
    destruct (_ || _); [by apply list_elem_of_singleton in Hin as ->|].
    by destruct (offered search debounced q); simpl in Hin; [|apply elem_of_nil in Hin].
Qed.
End select.

(** * Concrete inputs *)

Module Demo.
Definition cluster (id name : string) : GatewayPlacement := {|
  pl_id := js id; pl_name := js name; pl_provider := js "aws"; pl_region := None;
  pl_status := None |}.
Definition hub : jsstring := js "Hub cluster".
Definition answered : PlacementQuery := {|
  pq_items := Some [cluster "c1" "east"; cluster "c2" "west"]; pq_isPending := false |}.

(** The hub and the loading entry; the focus is on the hub. *)
Definition waiting_options : list PlacementOption :=
  options hub (js "Loading") (js "No results") id [] (js "old") answered.
Definition on_hub : PlacementSelect := focusOption 0 (initialSelect hub).

Lemma moveFocus_lands_witness :
  map po_isDisabled waiting_options = [false; true] ∧
  ∃ s', moveFocus waiting_options 1 on_hub = Some s' ∧ ps_isOpen s' = true ∧
    (forallb po_isDisabled waiting_options = true →
       ps_focusedItemIndex s' = ps_focusedItemIndex on_hub) ∧
    (forallb po_isDisabled waiting_options = false →
     let i := default (if decide (1 = 1)%Z then -1 else 0)%Z (ps_focusedItemIndex on_hub) in
     let n := Z.of_nat (length waiting_options) in
     ∃ k, (1 ≤ k ≤ n)%Z ∧
       ps_focusedItemIndex s' = Some ((i + k * 1) mod n)%Z ∧
       disabled_at waiting_options ((i + k * 1) mod n) = false ∧
       (0 ≤ (i + k * 1) mod n < n)%Z ∧
       ∀ j, (1 ≤ j < k)%Z → disabled_at waiting_options ((i + j * 1) mod n) = true).
Proof.
  split; [reflexivity|].
  refine (moveFocus_lands waiting_options 1 on_hub _ _).
  - left. reflexivity.
  - intros i [= <-]. reflexivity.
Defined.

(** Typing, waiting, choosing with the keyboard, then typing again and leaving. *)
Definition typed : list (jsstring * PlacementQuery * SelectEvent) :=
  [([], answered, InputChange (js "ea")); (js "ea", answered, KeyDown ArrowDown);
   (js "ea", answered, KeyDown Enter); ([], answered, InputChange (js "we"));
   ([], answered, KeyDown Escape)].

Definition chosen : PlacementSelect :=
  default (initialSelect hub)
    (session hub (js "Loading") (js "No results") id (initialSelect hub) typed).

Lemma placement_value_is_displayed_witness :
  ps_value chosen = Some (js "c1") ∧ ps_lastAccepted chosen = (ps_inputValue chosen, js "c1").
Proof.
  split; [reflexivity|].
  refine (placement_value_is_displayed hub (js "Loading") (js "No results") id typed chosen
            _ (js "c1") _); reflexivity.
Defined.
End Demo.
