(* ===== verification/GatewayDialogs.v ===== *)
(** The actions on a gateway: the provisioning form ([gateways/gateway-create.tsx]),
    the rename and delete dialogs ([gateways/gateway-rename-dialog.tsx],
    [gateways/gateway-delete-dialog.tsx]) and the two places that mount them,
    a row's menu ([gateways/gateway-row-actions.tsx]) and the detail page's
    ([gateways/gateway-detail-header.tsx]), as one state machine whose events are
    the user's and the settling of requests and whose outputs are the calls made. *)
From S2P Require Export GatewayData StateMachine.

(** * The provisioning form *)

Record GatewayFormValues := { gf_clusterId : option jsstring; gf_name : jsstring }.

Definition gateway_form_defaults : GatewayFormValues := {| gf_clusterId := Some []; gf_name := [] |}.

(** The schema: a cluster that is chosen, the hub being the empty id, and a name. *)
Definition validate_gateway_form (v : GatewayFormValues) : option GatewayProvisionInput :=
  match gf_clusterId v, trim (gf_name v) with
  | Some clusterId, _ :: _ => Some {| pi_clusterId := clusterId; pi_name := trim (gf_name v) |}
  | _, _ => None
  end.

(** * Mutations *)

(** A mutation's status; a pending one has been answered when its request has
    resolved and [onSuccess] is still awaited. *)
Inductive Mutation := MIdle | MPending (answered : bool) | MError | MSuccess.

Definition isPending (m : Mutation) : bool := match m with MPending _ => true | _ => false end.
Definition isError (m : Mutation) : bool := match m with MError => true | _ => false end.
Definition in_flight (m : Mutation) : nat := match m with MPending false => 1 | _ => 0 end.

(** * The calls *)

Inductive Call :=
| CallProvision (input : GatewayProvisionInput)
| CallRename (gatewayId name : jsstring)
| CallRemove (gatewayId : jsstring)
| SetQueryData (key : list jsval) (g : GatewayRecord)
| InvalidateQueries (exact : bool) (key : list jsval)
| ParentRenamed (name : jsstring)
| ParentDeletionAccepted
| ParentCreated (gatewayId : jsstring)
| ParentCancelled
| WriteClipboard (text : jsstring).

(** * The provisioning page *)

Inductive CreateEvent :=
| CreateSubmit (v : GatewayFormValues) | CreateDone (g : GatewayRecord) | CreateSettled
| CreateFailed | CreateCancel.

Definition handleCreate (m : Mutation) (ev : CreateEvent) : option (Mutation * list Call) :=
  match ev with
  | CreateSubmit v =>
      if isPending m then None
      else match validate_gateway_form v with
           | Some input => Some (MPending false, [CallProvision input])
           | None => Some (m, [])
           end
  | CreateDone g => (* each call awaits the one before *)
      match m with
      | MPending false =>
          Some (MPending true, [SetQueryData (gatewayQueryKey (gr_id g)) g;
                                InvalidateQueries false gatewayListQueryRoot; ParentCreated (gr_id g)])
      | _ => None
      end
  | CreateSettled => match m with MPending true => Some (MSuccess, []) | _ => None end
  | CreateFailed => match m with MPending false => Some (MError, []) | _ => None end
  | CreateCancel => if isPending m then None else Some (m, [ParentCancelled])
  end.

(** * The rename dialog *)

Record RenameDialog := {
  rn_name : jsstring;
  rn_showRequired : bool;
  rn_mutation : Mutation
}.

Definition new_rename (gatewayName : jsstring) : RenameDialog :=
  {| rn_name := gatewayName; rn_showRequired := false; rn_mutation := MIdle |}.

Definition rename_change (v : jsstring) (d : RenameDialog) : RenameDialog :=
  {| rn_name := v; rn_showRequired := false;
     rn_mutation := if isError (rn_mutation d) then MIdle else rn_mutation d |}.

(** [submit], with the request it starts. *)
Definition rename_submit (gatewayId : jsstring) (d : RenameDialog) : RenameDialog * list Call :=
  match trim (rn_name d) with
  | [] => ({| rn_name := rn_name d; rn_showRequired := true; rn_mutation := rn_mutation d |}, [])
  | _ :: _ => ({| rn_name := rn_name d; rn_showRequired := rn_showRequired d;
                  rn_mutation := MPending false |}, [CallRename gatewayId (trim (rn_name d))])
  end.

(** The submit button, and with it the form's submission by Enter. *)
Definition rename_disabled (gatewayName : jsstring) (d : RenameDialog) : bool :=
  isPending (rn_mutation d) || bool_decide (trim (rn_name d) = gatewayName).

(** * The actions *)

Section actions.
Context (toLocaleLowerCase : jsstring → jsstring).

Abbreviation isGatewayDeleting := (isGatewayDeleting toLocaleLowerCase).
Abbreviation buildGatewayAddCommand := (buildGatewayAddCommand toLocaleLowerCase).

Record Actions := {
  ac_gateway : GatewayConnection;
  ac_isMenuOpen : bool;
  ac_isDeleteOpen : bool;
  ac_deletion : Mutation;
  ac_rename : option RenameDialog;
  ac_copyResult : option bool
}.

Definition new_actions (g : GatewayConnection) : Actions := {|
  ac_gateway := g; ac_isMenuOpen := false; ac_isDeleteOpen := false; ac_deletion := MIdle;
  ac_rename := None; ac_copyResult := None |}.

Definition set_gateway (g : GatewayConnection) (s : Actions) : Actions :=
  {| ac_gateway := g; ac_isMenuOpen := ac_isMenuOpen s; ac_isDeleteOpen := ac_isDeleteOpen s;
     ac_deletion := ac_deletion s; ac_rename := ac_rename s; ac_copyResult := ac_copyResult s |}.
Definition set_menu (b : bool) (s : Actions) : Actions :=
  {| ac_gateway := ac_gateway s; ac_isMenuOpen := b; ac_isDeleteOpen := ac_isDeleteOpen s;
     ac_deletion := ac_deletion s; ac_rename := ac_rename s; ac_copyResult := ac_copyResult s |}.
Definition set_delete (b : bool) (m : Mutation) (s : Actions) : Actions :=
  {| ac_gateway := ac_gateway s; ac_isMenuOpen := ac_isMenuOpen s; ac_isDeleteOpen := b;
     ac_deletion := m; ac_rename := ac_rename s; ac_copyResult := ac_copyResult s |}.
Definition set_rename (r : option RenameDialog) (s : Actions) : Actions :=
  {| ac_gateway := ac_gateway s; ac_isMenuOpen := ac_isMenuOpen s;
     ac_isDeleteOpen := ac_isDeleteOpen s; ac_deletion := ac_deletion s; ac_rename := r;
     ac_copyResult := ac_copyResult s |}.
Definition set_copy (c : option bool) (s : Actions) : Actions :=
  {| ac_gateway := ac_gateway s; ac_isMenuOpen := ac_isMenuOpen s;
     ac_isDeleteOpen := ac_isDeleteOpen s; ac_deletion := ac_deletion s;
     ac_rename := ac_rename s; ac_copyResult := c |}.

Inductive ActionEvent :=
| MenuToggle | MenuOpenChange (open : bool)
| SelectCopy | SelectRename | SelectDelete
| CopyDone (ok : bool) | CopyDismiss
| RenameChange (v : jsstring) | RenameSubmit | RenameClose
| RenameDone (g : GatewayRecord) | RenameFailed
| DeleteConfirm | DeleteClose | DeleteDone | DeleteSettled | DeleteFailed
| GatewayChange (g : GatewayConnection).

Definition menu_shown (s : Actions) : bool :=
  ac_isMenuOpen s && negb (isGatewayDeleting (ac_gateway s)).
Definition delete_shown (s : Actions) : bool :=
  ac_isDeleteOpen s && negb (isGatewayDeleting (ac_gateway s)).

(** The rename dialog's events, while it is mounted. *)
Definition handleRename (s : Actions) (ev : ActionEvent) : option (Actions * list Call) :=
  let g := ac_gateway s in
  d ← ac_rename s;
  match ev with
  | RenameChange v =>
      if isPending (rn_mutation d) then None
      else Some (set_rename (Some (rename_change v d)) s, [])
  | RenameSubmit =>
      if rename_disabled (gc_name g) d then None
      else let (d', out) := rename_submit (gc_id g) d in Some (set_rename (Some d') s, out)
  | RenameClose => if isPending (rn_mutation d) then None else Some (set_rename None s, [])
  | RenameDone g' =>
      if in_flight (rn_mutation d) is 1
      then Some (set_rename None s,
                 [SetQueryData (gatewayQueryKey (gc_id g)) g'; ParentRenamed (gr_name g');
                  InvalidateQueries false gatewayListQueryRoot])
      else None
  | RenameFailed =>
      if in_flight (rn_mutation d) is 1
      then Some (set_rename (Some {| rn_name := rn_name d; rn_showRequired := rn_showRequired d;
                                     rn_mutation := MError |}) s, [])
      else None
  | _ => None
  end.

(** The delete dialog's events; the dialog stays mounted when it is hidden. *)
Definition handleDelete (s : Actions) (ev : ActionEvent) : option (Actions * list Call) :=
  let g := ac_gateway s in
  match ev with
  | DeleteConfirm =>
      if delete_shown s && negb (isPending (ac_deletion s))
      then Some (set_delete (ac_isDeleteOpen s) (MPending false) s, [CallRemove (gc_id g)])
      else None
  | DeleteClose =>
      if delete_shown s && negb (isPending (ac_deletion s))
      then Some (set_delete false MIdle s, []) else None
  | DeleteDone =>
      if in_flight (ac_deletion s) is 1
      then Some (set_delete false (MPending true) s,
                 [ParentDeletionAccepted; InvalidateQueries true (gatewayQueryKey (gc_id g));
                  InvalidateQueries false gatewayListQueryRoot])
      else None
  | DeleteSettled =>
      match ac_deletion s with
      | MPending true => Some (set_delete (ac_isDeleteOpen s) MSuccess s, [])
      | _ => None
      end
  | DeleteFailed =>
      if in_flight (ac_deletion s) is 1
      then Some (set_delete (ac_isDeleteOpen s) MError s, []) else None
  | _ => None
  end.

(** The row's menu. *)
Definition handleRow (s : Actions) (ev : ActionEvent) : option (Actions * list Call) :=
  let g := ac_gateway s in
  match ev with
  | MenuToggle =>
      if isGatewayDeleting g then None else Some (set_menu (negb (ac_isMenuOpen s)) s, [])
  | MenuOpenChange open => Some (set_menu open s, [])
  | SelectCopy =>
      if menu_shown s
      then command ← buildGatewayAddCommand g; Some (set_menu false s, [WriteClipboard command])
      else None
  | SelectRename =>
      if menu_shown s
      then Some (set_rename (Some (default (new_rename (gc_name g)) (ac_rename s)))
                   (set_menu false s), [])
      else None
  | SelectDelete =>
      if menu_shown s
      then Some (set_delete true (ac_deletion s) (set_menu false s), []) else None
  | CopyDone ok => Some (set_copy (Some ok) s, [])
  | CopyDismiss => Some (set_copy None s, [])
  | GatewayChange g' =>
      if decide (gc_id g' = gc_id g) then Some (set_gateway g' s, []) else None
  | RenameChange _ | RenameSubmit | RenameClose | RenameDone _ | RenameFailed => handleRename s ev
  | _ => handleDelete s ev
  end.

(** The detail page's menu has no copy action. *)
Definition handleDetail (s : Actions) (ev : ActionEvent) : option (Actions * list Call) :=
  match ev with
  | SelectCopy | CopyDone _ | CopyDismiss => None
  | _ => handleRow s ev
  end.

(** The detail page's console button: a link, or disabled with a reason. *)
Inductive ConsoleButton := ConsoleLink (url : jsstring) | ConsoleUnavailable | ConsoleProvisioning.

Definition console_button (g : GatewayConnection) (consoleWaitStartedAt : option num) (now : num) :
    option ConsoleButton :=
  if isGatewayReadyToConnect toLocaleLowerCase g then
    Some (match truthy (gc_consoleUrl g) with
          | Some url => ConsoleLink url
          | None => if isGatewayConsolePastDeadline consoleWaitStartedAt now
                    then ConsoleUnavailable else ConsoleProvisioning
          end)
  else None.

(** * Lemmas *)

(** The requests among calls, and the answers among events. *)
Definition is_rename_call (c : Call) : bool := if c is CallRename _ _ then true else false.
Definition is_remove_call (c : Call) : bool := if c is CallRemove _ then true else false.
Definition is_rename_answer (ev : ActionEvent) : bool :=
  match ev with RenameDone _ | RenameFailed => true | _ => false end.
Definition is_remove_answer (ev : ActionEvent) : bool :=
  match ev with DeleteDone | DeleteFailed => true | _ => false end.

(** Requests of the component that are in flight. *)
Definition renames_in_flight (s : Actions) : nat :=
  match ac_rename s with Some d => in_flight (rn_mutation d) | None => 0 end.
Definition removes_in_flight (s : Actions) : nat := in_flight (ac_deletion s).

Ltac row_cases H :=
  unfold handleRow, handleRename, handleDelete, rename_submit, mbind, option_bind in H;
  repeat (case_match; simplify_eq/=); simplify_eq/=.

(** A step adds a request exactly when it adds one in flight, or answers one. *)
Lemma handleRow_balance s ev s' out :
  handleRow s ev = Some (s', out) →
  count is_rename_call out + renames_in_flight s =
    count is_rename_answer [ev] + renames_in_flight s' ∧
  count is_remove_call out + removes_in_flight s =
    count is_remove_answer [ev] + removes_in_flight s'.
Proof.
  intros H. unfold renames_in_flight, removes_in_flight.
  destruct ev; row_cases H; rewrite ?count_cons; simpl; split; try reflexivity;
    unfold rename_disabled in *;
    repeat match goal with
           | |- context [in_flight ?m] => destruct m as [|[]| |] eqn:?; simpl in *
           end;
    rewrite ?andb_false_r in *; simplify_eq/=; done.
Qed.

(** * Properties *)

(** The menu's requests are the ones the user can mean. A rename is only sent
    by submitting the dialog, for this gateway, with the trimmed text of the
    field, which is not empty and not the name the gateway already has; a removal
    only by confirming the dialog that names it, while the gateway is not already
    deleting; and what is copied is the gateway's connection command. *)
Theorem row_requests_meant s ev s' out :
  handleRow s ev = Some (s', out) →
  (∀ i n, CallRename i n ∈ out →
     ev = RenameSubmit ∧ i = gc_id (ac_gateway s) ∧ n ≠ [] ∧ n ≠ gc_name (ac_gateway s) ∧
     ∃ d, ac_rename s = Some d ∧ n = trim (rn_name d) ∧ isPending (rn_mutation d) = false) ∧
  (∀ i, CallRemove i ∈ out →
     ev = DeleteConfirm ∧ i = gc_id (ac_gateway s) ∧ delete_shown s = true ∧
     isGatewayDeleting (ac_gateway s) = false ∧ isPending (ac_deletion s) = false) ∧
  (∀ t, WriteClipboard t ∈ out →
     ev = SelectCopy ∧ buildGatewayAddCommand (ac_gateway s) = Some t).
Proof.
  intros H. assert (∀ d, rename_disabled (gc_name (ac_gateway s)) d = false →
    isPending (rn_mutation d) = false ∧ trim (rn_name d) ≠ gc_name (ac_gateway s)) as Hdis.
  { intros d. unfold rename_disabled. intros [? ?%bool_decide_eq_false]%orb_false_elim. done. }
  destruct ev; row_cases H; split_and!;
    try (by intros * Hin; repeat (apply elem_of_cons in Hin as [[=]|Hin]);
         apply elem_of_nil in Hin).
  - intros t Hin. apply list_elem_of_singleton in Hin as [= ->]. done.
  - intros i n0 Hin. apply list_elem_of_singleton in Hin as [= -> ->].
    match goal with E : trim _ = _ :: _, D : rename_disabled _ _ = false |- _ =>
      destruct (Hdis _ D) as [Hp Hn]; rewrite E in * end.
    split_and!; try done. eexists. split_and!; [done|congruence|done].
  - intros i Hin. apply list_elem_of_singleton in Hin as [= ->].
    match goal with E : delete_shown s && _ = true |- _ =>
      apply andb_prop in E as [Hs Hp%negb_true_iff] end.
    split_and!; try done. unfold delete_shown in Hs.
    by apply andb_prop in Hs as [_ ?%negb_true_iff].
Qed.

(** C26 No request is sent twice. In any run of a gateway's actions, the renames and
    the removals sent are those answered, plus the one in flight if there is one:
    neither dialog can send again, or be closed and reopened, before the answer. *)
Theorem one_request_at_a_time g evs s out :
  run handleRow (new_actions g) evs s out →
  count is_rename_call out = count is_rename_answer evs + renames_in_flight s ∧
  count is_remove_call out = count is_remove_answer evs + removes_in_flight s ∧
  renames_in_flight s ≤ 1 ∧ removes_in_flight s ≤ 1.
Proof.
  intros H.
  pose proof (run_balance handleRow is_rename_call is_rename_answer renames_in_flight
    (λ s ev s' out H, proj1 (handleRow_balance s ev s' out H)) _ _ _ _ H) as H1.
  pose proof (run_balance handleRow is_remove_call is_remove_answer removes_in_flight
    (λ s ev s' out H, proj2 (handleRow_balance s ev s' out H)) _ _ _ _ H) as H2.
  split_and!; [cbn in H1; lia|cbn in H2; lia| |].
  - unfold renames_in_flight. destruct (ac_rename s) as [d|]; [|lia].
    destruct (rn_mutation d) as [|[]| |]; simpl; lia.
  - unfold removes_in_flight. destruct (ac_deletion s) as [|[]| |]; simpl; lia.
Qed.
End actions.

(** The provisioning page's requests. *)
Definition is_provision_call (c : Call) : bool := if c is CallProvision _ then true else false.
Definition is_provision_answer (ev : CreateEvent) : bool :=
  match ev with CreateDone _ | CreateFailed => true | _ => false end.

Lemma handleCreate_balance m ev m' out :
  handleCreate m ev = Some (m', out) →
  count is_provision_call out + in_flight m = count is_provision_answer [ev] + in_flight m'.
Proof.
  intros H. unfold handleCreate in H. rewrite count_cons.
  destruct ev; repeat (case_match; simplify_eq/=); try reflexivity; match goal with x : Mutation |- _ => by destruct x as [|[]| |] end.
Qed.

(** The provisioning page sends one request at a time, with a chosen cluster,
    the empty id being the hub, and a name that is trimmed and not empty; a form
    without either sends nothing. *)
Theorem provision_requests_sound evs m out :
  run handleCreate MIdle evs m out →
  count is_provision_call out = count is_provision_answer evs + in_flight m ∧
  Forall (λ c, match c with
               | CallProvision i => pi_name i ≠ [] ∧ trim (pi_name i) = pi_name i ∧
                   ∃ v, CreateSubmit v ∈ evs ∧ gf_clusterId v = Some (pi_clusterId i) ∧
                        trim (gf_name v) = pi_name i
               | _ => True
               end) out.
Proof.
  intros H. split.
  - pose proof (run_balance handleCreate _ _ _ handleCreate_balance _ _ _ _ H). simpl in *. lia.
  - induction H as [|m ev m' out evs m'' out' Hs _ IH]; [done|]. apply Forall_app. split.
    + destruct ev as [v| | | |]; simpl in Hs; repeat (case_match; simplify_eq/=);
        try (by repeat constructor). apply Forall_singleton. unfold validate_gateway_form in *.
      destruct (gf_clusterId v) as [c|] eqn:Ec; [|done].
      destruct (trim (gf_name v)) eqn:Et; simplify_eq/=. rewrite <- Et.
      split_and!; [by rewrite Et|apply trim_idemp|]. exists v. split_and!; [set_solver|done|done].
    + eapply Forall_impl; [exact IH|]. intros [] Hc; try done.
      destruct Hc as (? & ? & v & ? & ?). split_and!; [done..|]. exists v. set_solver.
Qed.

(** * Concrete inputs *)

Module Demo.
Definition gateway : GatewayConnection := {|
  gc_activeSandboxCount := None; gc_clusterId := None; gc_clusterName := js "hub";
  gc_consoleUrl := None; gc_createdAt := None; gc_createdBy := None;
  gc_endpoint := Some (js "https://gw.example"); gc_id := js "g1"; gc_name := js "alpha";
  gc_oidcAudience := None; gc_oidcClientId := None; gc_oidcIssuer := None;
  gc_phase := Some (js "running"); gc_status := js "Running" |}.

Definition record (name : string) : GatewayRecord := {|
  gr_activeSandboxCount := None; gr_clusterId := []; gr_consoleUrl := None;
  gr_createdAt := None; gr_createdBy := None; gr_externalDns := None; gr_id := js "g1";
  gr_name := js name; gr_namespace := []; gr_oidcAudience := None; gr_oidcClientId := None;
  gr_oidcIssuer := None; gr_phase := None; gr_releaseId := []; gr_status := None |}.

Definition renaming : list ActionEvent :=
  [MenuToggle; SelectRename; RenameChange (js " beta ")].
Definition at_events (evs : list ActionEvent) : Actions :=
  (default (new_actions gateway, []) (play (handleRow id) (new_actions gateway) evs)).1.

Lemma row_requests_meant_witness :
  let out := [CallRename (js "g1") (js "beta")] in
  (∀ i n, CallRename i n ∈ out →
     RenameSubmit = RenameSubmit ∧ i = gc_id (ac_gateway (at_events renaming)) ∧ n ≠ [] ∧
     n ≠ gc_name (ac_gateway (at_events renaming)) ∧
     ∃ d, ac_rename (at_events renaming) = Some d ∧ n = trim (rn_name d) ∧
          isPending (rn_mutation d) = false) ∧
  (∀ i, CallRemove i ∈ out →
     RenameSubmit = DeleteConfirm ∧ i = gc_id (ac_gateway (at_events renaming)) ∧
     delete_shown id (at_events renaming) = true ∧
     isGatewayDeleting id (ac_gateway (at_events renaming)) = false ∧
     isPending (ac_deletion (at_events renaming)) = false) ∧
  (∀ t, WriteClipboard t ∈ out →
     RenameSubmit = SelectCopy ∧
     buildGatewayAddCommand id (ac_gateway (at_events renaming)) = Some t).
Proof.
  refine (row_requests_meant id (at_events renaming) RenameSubmit
            (at_events (renaming ++ [RenameSubmit])) _ _). reflexivity.
Defined.

Definition whole : list ActionEvent :=
  renaming ++ [RenameSubmit; RenameFailed; RenameSubmit; RenameDone (record "beta"); MenuToggle;
               SelectDelete; DeleteConfirm].
Definition whole_out : list Call :=
  (default (new_actions gateway, []) (play (handleRow id) (new_actions gateway) whole)).2.

Lemma one_request_at_a_time_witness :
  count is_rename_call whole_out = 2 ∧ count is_remove_call whole_out = 1 ∧
  (count is_rename_call whole_out =
     count is_rename_answer whole + renames_in_flight (at_events whole) ∧
   count is_remove_call whole_out =
     count is_remove_answer whole + removes_in_flight (at_events whole) ∧
   renames_in_flight (at_events whole) ≤ 1 ∧ removes_in_flight (at_events whole) ≤ 1).
Proof.
  split; [reflexivity|]. split; [reflexivity|].
  refine (one_request_at_a_time id gateway whole (at_events whole) whole_out _).
  apply play_run. vm_compute. reflexivity.
Defined.

Lemma provision_requests_sound_witness :
  let v := {| gf_clusterId := Some (js "c1"); gf_name := js " gw " |} in
  let out := [CallProvision {| pi_clusterId := js "c1"; pi_name := js "gw" |}] in
  count is_provision_call out =
    count is_provision_answer [CreateSubmit gateway_form_defaults; CreateSubmit v] +
    in_flight (MPending false) ∧
  Forall (λ c, match c with
               | CallProvision i => pi_name i ≠ [] ∧ trim (pi_name i) = pi_name i ∧
                   ∃ w, CreateSubmit w ∈ [CreateSubmit gateway_form_defaults; CreateSubmit v] ∧
                        gf_clusterId w = Some (pi_clusterId i) ∧ trim (gf_name w) = pi_name i
               | _ => True
               end) out.
Proof.
  intros v out.
  refine (provision_requests_sound [CreateSubmit gateway_form_defaults; CreateSubmit v]
            (MPending false) out _).
  apply play_run. vm_compute. reflexivity.
Defined.
End Demo.
