(* ===== verification/ServiceAccountData.v ===== *)
(** The service accounts of a gateway, apart from their creation: polling and query
    keys ([service-accounts/service-account-data.ts]), the scripts shown to the
    operator ([service-accounts/service-account-commands.ts]) and a row's actions
    ([service-accounts/service-account-row-actions.tsx]) as a state machine. *)
From S2P Require Export GatewayData StateMachine.

(** * Polling and query keys *)

Definition serviceAccountNeedsPolling (s : ServiceAccountStatus) : bool :=
  bool_decide (s ∈ [Degraded; Deleting; Provisioning; Revoking]).

Definition serviceAccountListQueryRoot (gatewayId : jsstring) : list jsval :=
  [VStr (js "gateways"); VStr (js "detail"); VStr gatewayId; VStr (js "service-accounts");
   VStr (js "list")].

Definition serviceAccountListQueryKey (gatewayId : jsstring) (r : ServiceAccountListRequest) :
    list jsval :=
  [VStr (js "gateways"); VStr (js "detail"); VStr gatewayId; VStr (js "service-accounts");
   VStr (js "list"); VNum (sl_page r); VNum (sl_size r); VStr (sl_search r);
   VStr (match sl_status r with Some s => status_str s | None => js "all" end);
   VStr (saSortField_str (sl_sort r)); VStr (sortDirection_str (sl_order r))].

Definition serviceAccountQueryKey (gatewayId serviceAccountId : jsstring) : list jsval :=
  [VStr (js "gateways"); VStr (js "detail"); VStr gatewayId; VStr (js "service-accounts");
   VStr (js "detail"); VStr serviceAccountId].

(** * Scripts *)

Definition secretEnvironmentVariable : jsstring := js "OPENSHELL_OIDC_CLIENT_SECRET".

Definition hasRequiredConnectionValues (c : ServiceAccountConnection) : bool :=
  forallb (λ v, match v with Some v => is_nonempty (trim v) | None => false end)
    [Some (cn_audience c); Some (cn_clientId c); cn_gatewayEndpoint c; Some (cn_gatewayName c);
     Some (cn_issuer c); Some (cn_tokenEndpoint c)].

Definition secretPrompt : list jsstring :=
  [js "if [ -z " ++ double_quote ++ js "${" ++ secretEnvironmentVariable ++ js ":-}" ++
     double_quote ++ js " ]; then";
   js "  read -rsp 'OpenShell OIDC client secret: ' " ++ secretEnvironmentVariable;
   js "  printf '\n'";
   js "  export " ++ secretEnvironmentVariable;
   js "fi"].

Definition serviceAccountGatewayAlias (gatewayName serviceAccountName : jsstring) : jsstring :=
  gatewayName ++ js "-" ++ serviceAccountName.

Definition buildWorkspaceMembershipCommand (subject : jsstring) : option jsstring :=
  if negb (is_nonempty (trim subject)) then None
  else Some (joinWith [newline]
    [js "WORKSPACE_NAME='replace-with-workspace-name'";
     [];
     js "openshell workspace member add \";
     js "  --workspace " ++ double_quote ++ js "$WORKSPACE_NAME" ++ double_quote ++ js " \";
     js "  --subject " ++ shellArgument subject ++ js " \";
     js "  --role user"]).

Definition buildOpenShellServiceAccountScript (serviceAccountName : jsstring)
    (c : ServiceAccountConnection) : option jsstring :=
  if negb (hasRequiredConnectionValues c) || negb (is_nonempty (trim serviceAccountName))
  then None
  else
    let alias := serviceAccountGatewayAlias (cn_gatewayName c) serviceAccountName in
    Some (joinWith [newline] (secretPrompt ++
      [[];
       joinWith continued
         [js "openshell gateway add";
          js "--name " ++ shellArgument alias;
          js "--oidc-issuer " ++ shellArgument (cn_issuer c);
          js "--oidc-client-id " ++ shellArgument (cn_clientId c);
          js "--oidc-audience " ++ shellArgument (cn_audience c);
          shellArgument (default [] (cn_gatewayEndpoint c))];
       [];
       js "openshell -g " ++ shellArgument alias ++ js " whoami --output json"])).

Definition buildClientCredentialsScript (c : ServiceAccountConnection) : option jsstring :=
  if negb (hasRequiredConnectionValues c) then None
  else Some (joinWith [newline] (secretPrompt ++
    [[];
     js "ACCESS_TOKEN=$(printf '%s' " ++ double_quote ++ js "$OPENSHELL_OIDC_CLIENT_SECRET" ++
       double_quote ++ js " | \";
     js "  curl --fail --silent --show-error --request POST " ++
       shellArgument (cn_tokenEndpoint c) ++ js " \";
     js "    --header 'Content-Type: application/x-www-form-urlencoded' \";
     js "    --data-urlencode 'grant_type=client_credentials' \";
     js "    --data-urlencode " ++ shellArgument (js "client_id=" ++ cn_clientId c) ++ js " \";
     js "    --data-urlencode client_secret@- | \";
     js "  python3 -c " ++
       shellArgument (js "import json,sys; print(json.load(sys.stdin)[" ++ double_quote ++
         js "access_token" ++ double_quote ++ js "])") ++ js ")"])).

(** * A row's actions *)

Inductive LifecycleAction := ActionDelete | ActionRevoke.

#[export] Instance LifecycleAction_eq_dec : EqDecision LifecycleAction.
Proof. solve_decision. Defined.

(** The dialog's request: not sent, in flight, failed. A success closes it. *)
Inductive Request := NotSent | InFlight | FailedRequest.

Record AccountRow := {
  ar_account : ServiceAccountRecord;
  ar_isMenuOpen : bool;
  ar_isSetupOpen : bool;
  ar_action : option (LifecycleAction * Request)
}.

Definition new_row (a : ServiceAccountRecord) : AccountRow :=
  {| ar_account := a; ar_isMenuOpen := false; ar_isSetupOpen := false; ar_action := None |}.

Definition canRevoke (s : ServiceAccountStatus) : bool :=
  bool_decide (s ∉ [Deleting; Expired; Revoked; Revoking]).

Inductive RowEvent :=
| RowMenu (open : bool) | RowSetup | RowSetupClose | RowAction (a : LifecycleAction)
| RowConfirm | RowClose | RowDone | RowFailed | RowAccount (a : ServiceAccountRecord).

Inductive RowCall :=
| CallRevoke (gatewayId serviceAccountId : jsstring)
| CallDelete (gatewayId serviceAccountId : jsstring)
| InvalidateAccounts (key : list jsval).

(** The items of the menu. *)
Definition offers (s : ServiceAccountStatus) (a : LifecycleAction) : bool :=
  match a with
  | ActionRevoke => canRevoke s
  | ActionDelete => negb (bool_decide (s = Deleting))
  end.

Definition set_action (a : option (LifecycleAction * Request)) (r : AccountRow) : AccountRow :=
  {| ar_account := ar_account r; ar_isMenuOpen := ar_isMenuOpen r;
     ar_isSetupOpen := ar_isSetupOpen r; ar_action := a |}.
Definition set_row (menu setup : bool) (a : ServiceAccountRecord) (r : AccountRow) : AccountRow :=
  {| ar_account := a; ar_isMenuOpen := menu; ar_isSetupOpen := setup; ar_action := ar_action r |}.

Definition lifecycle_call (gatewayId : jsstring) (a : LifecycleAction) (r : AccountRow) : RowCall :=
  match a with
  | ActionRevoke => CallRevoke gatewayId (sa_id (ar_account r))
  | ActionDelete => CallDelete gatewayId (sa_id (ar_account r))
  end.

Definition handleAccountRow (gatewayId : jsstring) (r : AccountRow) (ev : RowEvent) :
    option (AccountRow * list RowCall) :=
  match ev with
  | RowMenu open => Some (set_row open (ar_isSetupOpen r) (ar_account r) r, [])
  | RowSetup =>
      if ar_isMenuOpen r && bool_decide (sa_status (ar_account r) = Ready)
      then Some (set_row false true (ar_account r) r, []) else None
  | RowSetupClose => Some (set_row (ar_isMenuOpen r) false (ar_account r) r, [])
  | RowAction a =>
      (* the menu cannot be reached behind an open dialog *)
      match ar_action r with
      | None => if ar_isMenuOpen r && offers (sa_status (ar_account r)) a
                then Some (set_action (Some (a, NotSent))
                             (set_row false (ar_isSetupOpen r) (ar_account r) r), [])
                else None
      | Some _ => None
      end
  | RowConfirm =>
      match ar_action r with
      | Some (a, NotSent) | Some (a, FailedRequest) =>
          Some (set_action (Some (a, InFlight)) r, [lifecycle_call gatewayId a r])
      | _ => None
      end
  | RowClose =>
      match ar_action r with
      | Some (_, NotSent) | Some (_, FailedRequest) => Some (set_action None r, [])
      | _ => None
      end
  | RowDone =>
      match ar_action r with
      | Some (_, InFlight) =>
          Some (set_action None r, [InvalidateAccounts (serviceAccountListQueryRoot gatewayId)])
      | _ => None
      end
  | RowFailed =>
      match ar_action r with
      | Some (a, InFlight) => Some (set_action (Some (a, FailedRequest)) r, [])
      | _ => None
      end
  | RowAccount a =>
      if decide (sa_id a = sa_id (ar_account r))
      then Some (set_row (ar_isMenuOpen r) (ar_isSetupOpen r) a r, []) else None
  end.

(** * Lemmas *)

Section argv.
Context (env : jsstring → jsstring).
Abbreviation reads := (reads env).

Definition service_account_argv (alias : jsstring) (c : ServiceAccountConnection)
    (endpoint : jsstring) : list jsstring :=
  [js "openshell"; js "gateway"; js "add"; js "--name"; alias; js "--oidc-issuer"; cn_issuer c;
   js "--oidc-client-id"; cn_clientId c; js "--oidc-audience"; cn_audience c; endpoint].

Definition whoami_argv (alias : jsstring) : list jsstring :=
  [js "openshell"; js "-g"; alias; js "whoami"; js "--output"; js "json"].

Definition membership_argv (subject : jsstring) : list jsstring :=
  [js "openshell"; js "workspace"; js "member"; js "add"; js "--workspace";
   env (js "WORKSPACE_NAME"); js "--subject"; subject; js "--role"; js "user"].

Lemma reads_service_account alias c endpoint :
  reads (joinWith continued
           [js "openshell gateway add"; js "--name " ++ shellArgument alias;
            js "--oidc-issuer " ++ shellArgument (cn_issuer c);
            js "--oidc-client-id " ++ shellArgument (cn_clientId c);
            js "--oidc-audience " ++ shellArgument (cn_audience c); shellArgument endpoint])
    (service_account_argv alias c endpoint).
Proof.
  assert (H1 : reads (js "openshell gateway add") [js "openshell"; js "gateway"; js "add"])
    by fixed [js "openshell"; js "gateway"] (js "add").
  pose proof (reads_flag env (js "--name") alias ltac:(done) eq_refl) as H2.
  pose proof (reads_flag env (js "--oidc-issuer") (cn_issuer c) ltac:(done) eq_refl) as H3.
  pose proof (reads_flag env (js "--oidc-client-id") (cn_clientId c) ltac:(done) eq_refl) as H4.
  pose proof (reads_flag env (js "--oidc-audience") (cn_audience c) ltac:(done) eq_refl) as H5.
  pose proof (reads_argument env endpoint) as H6.
  refine (reads_join env [_; _; _; _; _; _]
    [[js "openshell"; js "gateway"; js "add"]; [js "--name"; alias];
     [js "--oidc-issuer"; cn_issuer c]; [js "--oidc-client-id"; cn_clientId c];
     [js "--oidc-audience"; cn_audience c]; [endpoint]] _ _); [|done].
  repeat (constructor; [assumption|]). constructor.
Qed.

Lemma reads_whoami alias :
  reads (js "openshell -g " ++ shellArgument alias ++ js " whoami --output json")
    (whoami_argv alias).
Proof.
  assert (H1 : reads (js "openshell") [js "openshell"]) by fixed (@nil jsstring) (js "openshell").
  pose proof (reads_flag env (js "-g") alias ltac:(done) eq_refl) as H2.
  assert (H3 : reads (js "whoami --output json") [js "whoami"; js "--output"; js "json"])
    by fixed [js "whoami"; js "--output"] (js "json").
  pose proof (reads_app env _ _ _ _ (reads_app env _ _ _ _ H1 H2) H3) as H.
  replace (js "openshell -g " ++ shellArgument alias ++ js " whoami --output json") with
    ((js "openshell" ++ 32%N :: js "-g" ++ 32%N :: shellArgument alias) ++
     32%N :: js "whoami --output json") by (rewrite <- (assoc_L (++)); reflexivity).
  exact H.
Qed.

Lemma reads_membership subject :
  reads (joinWith continued
           [js "openshell workspace member add";
            js "--workspace " ++ double_quote ++ js "$WORKSPACE_NAME" ++ double_quote;
            js "--subject " ++ shellArgument subject; js "--role user"])
    (membership_argv subject).
Proof.
  assert (H1 : reads (js "openshell workspace member add")
    [js "openshell"; js "workspace"; js "member"; js "add"])
    by fixed [js "openshell"; js "workspace"; js "member"] (js "add").
  assert (H2 : reads (js "--workspace " ++ double_quote ++ js "$WORKSPACE_NAME" ++ double_quote)
    [js "--workspace"; env (js "WORKSPACE_NAME")])
    by fixed [js "--workspace"] (env (js "WORKSPACE_NAME")).
  pose proof (reads_flag env (js "--subject") subject ltac:(done) eq_refl) as H3.
  assert (H4 : reads (js "--role user") [js "--role"; js "user"])
    by fixed [js "--role"] (js "user").
  refine (reads_join env [_; _; _; _]
    [[js "openshell"; js "workspace"; js "member"; js "add"];
     [js "--workspace"; env (js "WORKSPACE_NAME")]; [js "--subject"; subject];
     [js "--role"; js "user"]] _ _); [|done].
  repeat (constructor; [assumption|]). constructor.
Qed.
End argv.

(** * Properties of the scripts *)

(** C21 The setup script exists exactly when every required value and the name are
    not blank. It is the fixed prompt for the secret, which holds none of the
    account's texts, followed by lines a shell runs as exactly two commands: the
    gateway is added under the alias with the account's own texts as words, and the
    identity is checked under the same alias. The secret is in neither. *)
Theorem service_account_script_commands (env : jsstring → jsstring) (name : jsstring)
    (c : ServiceAccountConnection) :
  match buildOpenShellServiceAccountScript name c with
  | None => hasRequiredConnectionValues c = false ∨ trim name = []
  | Some script =>
      hasRequiredConnectionValues c = true ∧ trim name ≠ [] ∧
      ∃ endpoint rest, cn_gatewayEndpoint c = Some endpoint ∧
        script = joinWith [newline] secretPrompt ++ [newline] ++ rest ∧
        shell_commands env rest =
          Some [service_account_argv (serviceAccountGatewayAlias (cn_gatewayName c) name) c endpoint;
                whoami_argv (serviceAccountGatewayAlias (cn_gatewayName c) name)]
  end.
Proof.
  unfold buildOpenShellServiceAccountScript.
  destruct (hasRequiredConnectionValues c) eqn:Hc; [|by left].
  destruct (trim name) eqn:Hn; [by right|]. cbn [negb orb is_nonempty].
  split_and!; [done..|].
  destruct (cn_gatewayEndpoint c) as [endpoint|] eqn:He.
  2:{ exfalso. revert Hc. unfold hasRequiredConnectionValues. rewrite He. simpl.
      by rewrite !andb_false_r. }
  set (alias := serviceAccountGatewayAlias _ _).
  pose proof (reads_service_account env alias c endpoint) as H1.
  pose proof (reads_whoami env alias) as H2. cbn [default]. change (id endpoint) with endpoint.
  set (add := joinWith continued _) in *. set (who := js "openshell -g " ++ _) in *.
  exists endpoint, ([newline] ++ add ++ [newline] ++ [newline] ++ who). split_and!; [done| |].
  - clearbody add who. unfold joinWith, secretPrompt. reflexivity.
  - unfold shell_commands. cbn [app]. rewrite read_blank_line, (reads_eol env _ _ _ H1),
      read_blank_line, (reads_end env _ _ H2). reflexivity.
Qed.

(** The membership command exists exactly for a subject that is not blank; a
    shell runs it as the assignment of the workspace's name and one command, in
    which the subject is one word, whatever it holds. *)
Theorem membership_command (env : jsstring → jsstring) (subject : jsstring) :
  match buildWorkspaceMembershipCommand subject with
  | None => trim subject = []
  | Some script =>
      trim subject ≠ [] ∧
      shell_commands env script =
        Some [[js "WORKSPACE_NAME=replace-with-workspace-name"]; membership_argv env subject]
  end.
Proof.
  unfold buildWorkspaceMembershipCommand. destruct (trim subject) eqn:Hs; [done|]. cbn [negb is_nonempty].
  split; [done|]. pose proof (reads_membership env subject) as H.
  assert (Ha : reads env (js "WORKSPACE_NAME='replace-with-workspace-name'")
    [js "WORKSPACE_NAME=replace-with-workspace-name"])
    by fixed (@nil jsstring) (js "WORKSPACE_NAME=replace-with-workspace-name").
  set (command := joinWith continued _) in *.
  assert (joinWith [newline]
    [js "WORKSPACE_NAME='replace-with-workspace-name'"; [];
     js "openshell workspace member add \";
     js "  --workspace " ++ double_quote ++ js "$WORKSPACE_NAME" ++ double_quote ++ js " \";
     js "  --subject " ++ shellArgument subject ++ js " \"; js "  --role user"] =
    js "WORKSPACE_NAME='replace-with-workspace-name'" ++ newline :: newline :: command) as ->.
  { unfold command, continued. cbn [joinWith]. rewrite <- !(assoc_L (++)). reflexivity. }
  unfold shell_commands. rewrite (reads_eol env _ _ _ Ha), read_blank_line, (reads_end env _ _ H).
  reflexivity.
Qed.

(** * Properties of the cache's keys *)

(** What [invalidateQueries] refreshes: the queries whose key starts with the given
    one, or is it when the match is exact. *)
Definition invalidates (exact : bool) (key query : list jsval) : Prop :=
  if exact then query = key else key `prefix_of` query.

Lemma status_str_all s : status_str s ≠ js "all".
Proof. by destruct s. Qed.

Lemma saSortField_str_inj f f' : saSortField_str f = saSortField_str f' → f = f'.
Proof. by destruct f, f'. Qed.

Lemma status_str_inj s s' : status_str s = status_str s' → s = s'.
Proof. by destruct s, s'. Qed.

Lemma sortDirection_str_inj d d' : sortDirection_str d = sortDirection_str d' → d = d'.
Proof. by destruct d, d'. Qed.

(** Refreshing after a change reaches the right queries. Every service-account list
    of a gateway has its own key, different for different requests; refreshing the
    accounts of a gateway reaches exactly its lists, not its accounts' details or
    another gateway's; refreshing the gateway list reaches every page of it and
    nothing of a gateway's own; and the exact refresh of a deleted gateway leaves
    its accounts' queries alone, which the inexact one would reach. *)
Theorem invalidations_reach (i j a : jsstring) (r : GatewayListRequest)
    (q q' : ServiceAccountListRequest) :
  (serviceAccountListQueryKey i q = serviceAccountListQueryKey j q' ↔ i = j ∧ q = q') ∧
  (invalidates false (serviceAccountListQueryRoot i) (serviceAccountListQueryKey j q) ↔ i = j) ∧
  (¬ invalidates false (serviceAccountListQueryRoot i) (serviceAccountQueryKey j a)) ∧
  invalidates false gatewayListQueryRoot (gatewayListQueryKey r) ∧
  (¬ invalidates false gatewayListQueryRoot (gatewayQueryKey i)) ∧
  (¬ invalidates false gatewayListQueryRoot (serviceAccountListQueryKey i q)) ∧
  (¬ invalidates true (gatewayQueryKey i) (serviceAccountListQueryKey i q)) ∧
  invalidates false (gatewayQueryKey i) (serviceAccountListQueryKey i q).
Proof.
  unfold invalidates. split_and!.
  - split; [|by intros [-> ->]]. unfold serviceAccountListQueryKey. intros [= -> Hp Hs Hsearch Hst Hso Ho].
    split; [done|]. destruct q as [o p s z f st], q' as [o' p' s' z' f' st']; simpl in *.
    apply saSortField_str_inj in Hso. apply sortDirection_str_inj in Ho. subst. f_equal.
    destruct st as [st|], st' as [st'|]; [f_equal; by apply status_str_inj| | |done].
    + by apply status_str_all in Hst.
    + symmetry in Hst. by apply status_str_all in Hst.
  - split; [by intros [k [=]]|]. intros ->. by eexists.
  - intros [k [=]].
  - by eexists.
  - intros [k [=]].
  - intros [k [=]].
  - done.
  - by eexists.
Qed.

(** * Properties of a row *)

Definition is_lifecycle_call (c : RowCall) : bool :=
  match c with CallRevoke _ _ | CallDelete _ _ => true | _ => false end.
Definition is_lifecycle_answer (ev : RowEvent) : bool :=
  match ev with RowDone | RowFailed => true | _ => false end.
Definition lifecycle_in_flight (r : AccountRow) : nat :=
  match ar_action r with Some (_, InFlight) => 1 | _ => 0 end.

Ltac account_cases H :=
  unfold handleAccountRow in H; repeat (case_match; simplify_eq/=); simplify_eq/=.

Lemma handleAccountRow_balance gatewayId r ev r' out :
  handleAccountRow gatewayId r ev = Some (r', out) →
  count is_lifecycle_call out + lifecycle_in_flight r =
    count is_lifecycle_answer [ev] + lifecycle_in_flight r'.
Proof.
  intros H. unfold lifecycle_in_flight. rewrite count_cons.
  destruct ev; account_cases H; try done; by destruct l.
Qed.

(** The row stays about its account. *)
Lemma handleAccountRow_id gatewayId r ev r' out :
  handleAccountRow gatewayId r ev = Some (r', out) →
  sa_id (ar_account r') = sa_id (ar_account r) ∧
  Forall (λ c, match c with
               | CallRevoke g i | CallDelete g i => g = gatewayId ∧ i = sa_id (ar_account r)
               | InvalidateAccounts k => k = serviceAccountListQueryRoot gatewayId
               end) out.
Proof.
  intros H. destruct ev; account_cases H; (split; [done|]); repeat constructor;
    try done; match goal with x : LifecycleAction |- _ => by destruct x end.
Qed.

(** An action that is not offered is not taken, as long as it is not offered. *)
Lemma handleAccountRow_offers gatewayId act r ev r' out :
  handleAccountRow gatewayId r ev = Some (r', out) →
  offers (sa_status (ar_account r)) act = false →
  (∀ q, ar_action r ≠ Some (act, q)) →
  (if ev is RowAccount a then offers (sa_status a) act = false else True) →
  offers (sa_status (ar_account r')) act = false ∧ (∀ q, ar_action r' ≠ Some (act, q)) ∧
  Forall (λ c, match act, c with
               | ActionRevoke, CallRevoke _ _ | ActionDelete, CallDelete _ _ => False
               | _, _ => True
               end) out.
Proof.
  intros H Ho Ha Hev. destruct ev; account_cases H;
    (split_and!; [done|try done|]); repeat constructor; try congruence; try naive_solver.
  1,2: intros q Hq; injection Hq as -> _; apply andb_prop in H1 as [_ H1]; simpl in H1; congruence.
  all: destruct l; simpl; try done; by eapply Ha.
Qed.

(** A row asks for what its menu offered, once. In any run of a row's actions, every
    revocation or deletion is for the row's account, those sent are those answered
    plus the one in flight, and as long as the account's status rules an action
    out, an account that has expired, been revoked or is being deleted cannot be
    revoked, and one that is being deleted cannot be deleted again. *)
Theorem account_row_requests gatewayId a evs r out :
  run (handleAccountRow gatewayId) (new_row a) evs r out →
  count is_lifecycle_call out = count is_lifecycle_answer evs + lifecycle_in_flight r ∧
  Forall (λ c, match c with
               | CallRevoke g i | CallDelete g i => g = gatewayId ∧ i = sa_id a
               | InvalidateAccounts k => k = serviceAccountListQueryRoot gatewayId
               end) out ∧
  (∀ act, offers (sa_status a) act = false →
     Forall (λ ev, if ev is RowAccount a' then offers (sa_status a') act = false else True) evs →
     Forall (λ c, match act, c with
                  | ActionRevoke, CallRevoke _ _ | ActionDelete, CallDelete _ _ => False
                  | _, _ => True
                  end) out).
Proof.
  intros H. split_and!.
  - pose proof (run_balance _ _ _ _ (handleAccountRow_balance gatewayId) _ _ _ _ H) as Hb.
    change (lifecycle_in_flight (new_row a)) with 0 in Hb. lia.
  - eapply (run_outputs _ (λ r, sa_id (ar_account r) = sa_id a)); [|exact H|done].
    intros r1 ev r2 o Hs Hid. apply handleAccountRow_id in Hs as [Hs Hc]. by rewrite Hs, <- Hid.
  - intros act Ho.
    assert (∀ q, ar_action (new_row a) ≠ Some (act, q)) as Ha by done.
    change (offers (sa_status (ar_account (new_row a))) act = false) in Ho.
    induction H as [|r1 ev r2 o evs r3 o' Hs _ IH]; [constructor|].
    intros [Hev Hevs]%Forall_cons.
    destruct (handleAccountRow_offers _ _ _ _ _ _ Hs Ho Ha Hev) as (Ho' & Ha' & Hout).
    apply Forall_app. split; [exact Hout|]. by apply IH.
Qed.

(** * Concrete inputs *)

Module Demo.
Definition account (s : ServiceAccountStatus) : ServiceAccountRecord := {|
  sa_clientId := js "c"; sa_createdAt := js "2026-01-01"; sa_createdByUserId := js "u";
  sa_description := None; sa_expiresAt := js "2026-02-01"; sa_gatewayId := js "g";
  sa_id := js "a"; sa_lastError := None; sa_name := js "ci"; sa_revokedAt := None;
  sa_role := OpenshellUser; sa_status := s; sa_subject := js "s";
  sa_updatedAt := js "2026-01-01" |}.

(** A failed revocation tried again; then only deletion is left. *)
Definition events : list RowEvent :=
  [RowMenu true; RowAction ActionRevoke; RowConfirm; RowFailed; RowConfirm; RowDone;
   RowAccount (account Revoked); RowMenu true; RowAction ActionDelete; RowConfirm].
Definition played : AccountRow * list RowCall :=
  default (new_row (account Ready), [])
    (play (handleAccountRow (js "g")) (new_row (account Ready)) events).

Lemma account_row_requests_witness :
  count is_lifecycle_call played.2 = 3 ∧
  (count is_lifecycle_call played.2 =
     count is_lifecycle_answer events + lifecycle_in_flight played.1 ∧
   Forall (λ c, match c with
                | CallRevoke g i | CallDelete g i => g = js "g" ∧ i = sa_id (account Ready)
                | InvalidateAccounts k => k = serviceAccountListQueryRoot (js "g")
                end) played.2 ∧
   (∀ act, offers (sa_status (account Ready)) act = false →
      Forall (λ ev, if ev is RowAccount a' then offers (sa_status a') act = false else True)
        events →
      Forall (λ c, match act, c with
                   | ActionRevoke, CallRevoke _ _ | ActionDelete, CallDelete _ _ => False
                   | _, _ => True
                   end) played.2)).
Proof.
  split; [reflexivity|].
  refine (account_row_requests (js "g") (account Ready) events played.1 played.2 _).
  apply play_run. vm_compute. reflexivity.
Defined.
End Demo.
