(* ===== verification/CommandViews.v ===== *)
(** The views that show a command and copy it: the connection steps of a gateway
    ([gateways/gateway-connection-steps.tsx]) with their inline editor
    ([gateways/editable-command.tsx]).

    What a view shows is the text of its parts, with what its fields hold; what it
    copies is built from the values. The theorems say that they are the same. *)
From S2P Require Export CommandHighlight ServiceAccountData.

(** * Reading the parts of a split *)

(** A unit of a marker. *)
Definition is_upper (c : N) : bool := ((65 <=? c) && (c <=? 90))%N.

(** The two texts do not meet inside a word of such units. *)
Definition apart (a b : jsstring) : Prop :=
  ∀ x y, last a = Some x → head b = Some y → is_upper x = false ∨ is_upper y = false.

Section shown.
Context (markers : list jsstring) (show : jsstring → jsstring).
Context (Hmarkers : Forall (λ m, m ≠ [] ∧ Forall (λ c, is_upper c = true) m) markers).

(** What a text shows, split at the markers. *)
Definition shown_text (s : jsstring) : jsstring :=
  default [] (parts_text show <$> split_loop (length s) s markers []).

Lemma markers_nonempty : [] ∉ markers.
Proof. intros Hin. rewrite Forall_forall in Hmarkers. by destruct (Hmarkers _ Hin) as [? _]. Qed.

Lemma marker_length m : m ∈ markers → 0 < length m.
Proof. intros Hin. rewrite Forall_forall in Hmarkers. destruct (Hmarkers _ Hin) as [? _]. destruct m; [done|cbn; lia]. Qed.

Lemma split_text_fuel fuel fuel' cls cls' s : length s ≤ fuel → length s ≤ fuel' →
  parts_text show <$> split_loop fuel s markers cls = parts_text show <$> split_loop fuel' s markers cls'.
Proof.
  revert fuel' s. induction fuel as [|f IH]; intros fuel' s Hf Hf'.
  { destruct s; [|cbn in Hf; lia]. by destruct fuel'. }
  destruct s as [|c s]; [by destruct fuel'|]. destruct fuel' as [|f']; [cbn in Hf'; lia|].
  cbn [split_loop]. set (t := c :: s) in *. pose proof (earliest_marker_start t markers) as Hst.
  destruct (earliest_marker t markers None) as [[e m]|] eqn:He; [|done]. destruct Hst as (_ & Hm & _).
  apply marker_length in Hm.
  assert (Hd : length (drop (e + length m) t) ≤ f ∧ length (drop (e + length m) t) ≤ f').
  { rewrite length_drop. lia. }
  specialize (IH f' _ (proj1 Hd) (proj2 Hd)).
  destruct (split_loop f _ _ cls) as [p|], (split_loop f' _ _ cls') as [p'|]; try done.
  cbn [fmap option_fmap option_map] in IH |- *. injection IH as IH. f_equal. rewrite !parts_text_app.
  change (parts_text show (FieldPart cls m :: p)) with (show m ++ parts_text show p).
  change (parts_text show (FieldPart cls' m :: p')) with (show m ++ parts_text show p'). rewrite IH.
  by case_decide.
Qed.

Lemma split_shows cls s : ∃ ps, splitOnMarkers s markers cls = Some ps ∧ parts_text show ps = shown_text s.
Proof.
  destruct (split_loop_spec (length s) s markers cls markers_nonempty (le_n _)) as (ps & Hp & _).
  exists ps. split; [exact Hp|]. unfold shown_text.
  rewrite (split_text_fuel (length s) (length s) [] cls) by done. by rewrite Hp.
Qed.

Lemma shown_step s : shown_text s =
  match earliest_marker s markers None with
  | Some (i, m) => take i s ++ show m ++ shown_text (drop (i + length m) s)
  | None => s
  end.
Proof.
  destruct s as [|c s].
  { pose proof (earliest_marker_start [] markers) as Hst. destruct (earliest_marker [] markers None) as [[i m]|]; [|done].
    destruct Hst as (Hi & Hm & _). apply indexOf_bound in Hi. apply marker_length in Hm. cbn in Hi. lia. }
  unfold shown_text at 1. cbn [length split_loop]. set (t := c :: s).
  pose proof (earliest_marker_start t markers) as Hst.
  destruct (earliest_marker t markers None) as [[e m]|] eqn:He; [|cbn; by rewrite app_nil_r].
  destruct Hst as (_ & Hm & _). apply marker_length in Hm.
  assert (Hd : length (drop (e + length m) t) ≤ length s) by (rewrite length_drop; cbn; lia).
  unfold shown_text. rewrite <- (split_text_fuel (length s) _ [] []) by done.
  destruct (split_loop (length s) _ markers []) as [p|] eqn:Hp.
  - cbn [fmap option_fmap option_map default]. rewrite parts_text_app.
    change (parts_text show (FieldPart [] m :: p)) with (show m ++ parts_text show p). f_equal.
    case_decide; [cbn; by rewrite app_nil_r|]. by destruct e; [|lia].
  - destruct (split_loop_spec (length s) (drop (e + length m) t) markers [] markers_nonempty Hd) as (ps & Hps & _).
    congruence.
Qed.

Lemma apart_cons c a b : apart (c :: a) b → apart a b.
Proof. intros H x y Hx Hy. apply (H x y); [|done]. by destruct a. Qed.

Lemma apart_drop n a b : apart a b → apart (drop n a) b.
Proof. revert a. induction n as [|n IH]; intros [|c a] H; try done. apply IH. by eapply apart_cons. Qed.

(** No marker lies across two texts that are apart. *)
Lemma startsWith_apart a b m : Forall (λ c, is_upper c = true) m → a ≠ [] → apart a b →
  startsWith (a ++ b) m = startsWith a m.
Proof.
  intros Hm. revert a. induction Hm as [|c m Hc Hm IH]; intros a Hne Ha; [by destruct a, b|].
  destruct a as [|d a]; [done|]. cbn [app startsWith]. destruct (N.eqb_spec c d) as [<-|]; [|done]. cbn [andb].
  destruct a as [|d' a].
  - destruct m as [|c' m]; [by destruct b|]. destruct b as [|y b]; [done|]. cbn [app startsWith].
    destruct (N.eqb_spec c' y) as [<-|]; [|done]. exfalso. inversion Hm as [|? ? Hc' _]; subst.
    destruct (Ha c c' eq_refl eq_refl); congruence.
  - apply IH; [done|]. by eapply apart_cons.
Qed.

Lemma indexOf_apart a b m : m ≠ [] → Forall (λ c, is_upper c = true) m → apart a b →
  indexOf (a ++ b) m = match indexOf a m with
                       | Some i => Some i
                       | None => (λ k, length a + k) <$> indexOf b m
                       end.
Proof.
  intros Hne Hm. induction a as [|c a IH]; intros Ha.
  - cbn [app length]. assert (indexOf [] m = None) as -> by (by destruct m).
    by destruct (indexOf b m).
  - pose proof (startsWith_apart (c :: a) b m Hm ltac:(done) Ha) as Hs.
    change ((c :: a) ++ b) with (c :: (a ++ b)) in Hs |- *. cbn [indexOf]. rewrite Hs.
    destruct (startsWith (c :: a) m); [done|]. rewrite IH by (by eapply apart_cons).
    destruct (indexOf a m); [done|]. by destruct (indexOf b m).
Qed.

Definition shift (n : nat) (r : nat * jsstring) : nat * jsstring := (n + r.1, r.2).

(** The earliest marker of two texts: that of the first, if it has one. *)
Lemma earliest_apart_gen a b ms bestA bestB bestAB :
  apart a b → Forall (λ m, m ≠ [] ∧ Forall (λ c, is_upper c = true) m) ms →
  (∀ i m, bestA = Some (i, m) → i < length a) →
  bestAB = match bestA with Some r => Some r | None => shift (length a) <$> bestB end →
  earliest_marker (a ++ b) ms bestAB =
    match earliest_marker a ms bestA with
    | Some r => Some r
    | None => shift (length a) <$> earliest_marker b ms bestB
    end.
Proof.
  intros Ha Hms. revert bestA bestB bestAB.
  induction Hms as [|m ms [Hne Hm] _ IH]; intros bestA bestB bestAB HA HAB; [done|]. cbn [earliest_marker].
  rewrite indexOf_apart by done. destruct (indexOf a m) as [i|] eqn:Hi.
  - assert (Hlt : i < length a).
    { apply indexOf_bound in Hi. assert (0 < length m) by (destruct m; [done|cbn; lia]). lia. }
    destruct bestA as [[e m']|]; subst bestAB.
    + specialize (HA e m' eq_refl). case_decide; apply IH; try done; by intros ? ? [= <- <-].
    + apply IH; [by intros ? ? [= <- <-]|].
      destruct bestB as [[e m']|]; cbn; [|done]. rewrite decide_True by lia. done.
  - destruct (indexOf b m) as [j|] eqn:Hj; cbn [fmap option_fmap option_map].
    + destruct bestA as [[e m']|]; subst bestAB.
      * specialize (HA e m' eq_refl). rewrite decide_False by lia. apply IH; [by intros ? ? [= <- <-]|done].
      * apply IH; [done|]. destruct bestB as [[e m']|]; cbn; [|done].
        destruct (decide (j < e)); [rewrite decide_True by lia|rewrite decide_False by lia]; done.
    + by apply IH.
Qed.

Lemma earliest_apart a b : apart a b →
  earliest_marker (a ++ b) markers None =
    match earliest_marker a markers None with
    | Some r => Some r
    | None => shift (length a) <$> earliest_marker b markers None
    end.
Proof. intros Ha. by apply earliest_apart_gen. Qed.

Lemma shown_app a b : apart a b → shown_text (a ++ b) = shown_text a ++ shown_text b.
Proof.
  remember (length a) as n eqn:Hn. revert a Hn. induction (lt_wf n) as [n _ IH]. intros a -> Ha.
  rewrite (shown_step (a ++ b)), (shown_step a), earliest_apart by done.
  pose proof (earliest_marker_start a markers) as Hst.
  destruct (earliest_marker a markers None) as [[i m]|].
  - destruct Hst as (Hi%indexOf_bound & Hm%marker_length & _).
    rewrite take_app_le, drop_app_le by lia.
    rewrite (IH (length (drop (i + length m) a))); [by rewrite <- !app_assoc|rewrite length_drop; lia|done|].
    by apply apart_drop.
  - rewrite (shown_step b). destruct (earliest_marker b markers None) as [[k m]|]; cbn; [|done].
    rewrite take_app_ge, drop_app_ge by lia. rewrite <- app_assoc.
    replace (length a + k - length a) with k by lia.
    by replace (length a + k + length m - length a) with (k + length m) by lia.
Qed.

Lemma shown_free s : marker_free markers s → shown_text s = s.
Proof.
  intros Hf. rewrite shown_step. pose proof (earliest_marker_start s markers) as Hst.
  destruct (earliest_marker s markers None) as [[i m]|]; [|done]. destruct Hst as (Hi & Hm & _).
  apply Hf, includes_None in Hm. congruence.
Qed.
End shown.

(** ** Tokens *)

Lemma apart_app a b c : apart (a ++ b) c → apart b c.
Proof. induction a as [|x a IH]; [done|]. intros H. apply IH. by eapply apart_cons. Qed.

Lemma apart_last a c b : is_upper c = false → apart (a ++ [c]) b.
Proof. intros Hc x y Hx _. rewrite last_snoc in Hx. injection Hx as <-. by left. Qed.

Lemma apart_head a c b : is_upper c = false → apart a (c :: b).
Proof. intros Hc x y _ Hy. injection Hy as <-. by right. Qed.

(** The tokens of a line are cut between words. *)
Definition line_keeps_words (line : list Token) : Prop :=
  ∀ l1 l2, line = l1 ++ l2 → apart (l1 ≫= tk_content) (l2 ≫= tk_content).

(** The documented behaviour of the tokenizer: its tokens carry the whole text, and
    a word of letters is in one token. *)
Definition tokens_ok (codeToTokens : jsstring → list (list Token)) (command : jsstring) : Prop :=
  tokens_text (codeToTokens command) = command ∧ Forall line_keeps_words (codeToTokens command).

Section highlight.
Context (markers : list jsstring) (show : jsstring → jsstring).
Context (Hmarkers : Forall (λ m, m ≠ [] ∧ Forall (λ c, is_upper c = true) m) markers).

Abbreviation shown_text := (shown_text markers show).

(** A text without such units has no marker. *)
Lemma shown_lower s : Forall (λ c, is_upper c = false) s → shown_text s = s.
Proof.
  intros Hs. apply shown_free; [exact Hmarkers|]. intros m Hm. destruct (includes s m) eqn:Hi; [|done]. exfalso.
  apply includes_spec in Hi as (a & b & ->). rewrite Forall_forall in Hmarkers.
  destruct (Hmarkers _ Hm) as [Hne Hu]. destruct m as [|c m]; [done|]. inversion Hu as [|? ? Hc _]; subst.
  rewrite !Forall_app in Hs. destruct Hs as (_ & Hs & _). inversion Hs. congruence.
Qed.

Lemma line_shows line : line_keeps_words line →
  ∃ ps, line_parts line markers = Some ps ∧ parts_text show ps = shown_text (line ≫= tk_content).
Proof.
  induction line as [|t line IH]; intros Hk; [exists []; split; [done|]; symmetry; by apply shown_lower|].
  destruct IH as (ps & Hp & Ht).
  { intros l1 l2 ->. specialize (Hk (t :: l1) l2 eq_refl). by apply apart_app in Hk. }
  destruct (split_shows markers show Hmarkers (tokenClassName (tk_style t)) (tk_content t)) as (qs & Hq & Hqt).
  exists (qs ++ ps). cbn [line_parts]. rewrite Hq, Hp. split; [done|].
  rewrite parts_text_app, Hqt, Ht. change ((t :: line) ≫= tk_content) with (tk_content t ++ (line ≫= tk_content)).
  rewrite shown_app; [done|exact Hmarkers|]. specialize (Hk [t] line eq_refl). cbn in Hk. by rewrite app_nil_r in Hk.
Qed.

Lemma lines_show index lines : Forall line_keeps_words lines →
  ∃ ps, lines_parts index lines markers = Some ps ∧
    parts_text show ps =
      (if decide (0 < index ∧ lines ≠ []) then [10%N] else []) ++ shown_text (tokens_text lines).
Proof.
  intros Hk. revert index. induction Hk as [|line lines Hl _ IH]; intros index.
  { exists []. rewrite decide_False by tauto. split; [done|]. symmetry. by apply shown_lower. }
  destruct (line_shows line Hl) as (ps & Hp & Ht). destruct (IH (S index)) as (qs & Hq & Hqt).
  cbn [lines_parts]. rewrite Hp, Hq. eexists. split; [done|]. rewrite !parts_text_app, Ht, Hqt.
  rewrite <- (assoc_L (++)). f_equal; [repeat case_decide; try done; naive_solver lia|].
  unfold tokens_text. destruct lines as [|line' lines].
  - rewrite decide_False by tauto. cbn [map joinWith]. rewrite (shown_lower []) by constructor. by rewrite !app_nil_r.
  - rewrite decide_True by (split; [lia|done]). cbn [map joinWith].
    rewrite shown_app; [|exact Hmarkers|by apply apart_head].
    change ([10%N] ++ ?x) with ([10%N] ++ x). f_equal.
    rewrite (shown_app _ _ Hmarkers [10%N]); [|by apply (apart_last [] 10)].
    rewrite (shown_lower [10%N]); [done|by repeat constructor].
Qed.

Lemma highlight_shows codeToTokens command : tokens_ok codeToTokens command →
  ∃ ps, highlightTemplate codeToTokens command markers = Some ps ∧ parts_text show ps = shown_text command.
Proof.
  intros [Ht Hk]. destruct (lines_show 0 _ Hk) as (ps & Hp & Hs). exists ps. split; [exact Hp|].
  rewrite Hs, decide_False by lia. by rewrite Ht.
Qed.
End highlight.

(** * The connection steps *)

Definition providerMarker : jsstring := js "OSPROVIDERNAMEZ".
Definition modelMarker : jsstring := js "OSMODELNAMEZ".
Definition sandboxMarker : jsstring := js "OSSANDBOXNAMEZ".
Definition setupMarkers : list jsstring := [providerMarker; modelMarker].
Definition sandboxMarkers : list jsstring := [sandboxMarker; modelMarker].

(** A rendered part: a span, or a field with the text the document holds for it. *)
Inductive ShownPart := Span (value : jsstring) | Field (marker text : jsstring).

(** One editable command: its highlighted parts once they are there, and [copied]. *)
Record CommandView := { cv_parts : option (list ShownPart); cv_copied : bool }.

Inductive Command := Setup | Sandbox.

#[export] Instance Command_eq_dec : EqDecision Command.
Proof. solve_decision. Defined.

(** The state of the steps, and the field that has the focus of the document. *)
Record StepsState := {
  sp_providerName : jsstring;
  sp_model : jsstring;
  sp_sandboxName : jsstring;
  sp_setup : CommandView;
  sp_sandbox : CommandView;
  sp_focus : option (Command * nat)
}.

Definition new_view : CommandView := {| cv_parts := None; cv_copied := false |}.

Definition initial_steps : StepsState := {|
  sp_providerName := vertexProviderName; sp_model := claudeModel; sp_sandboxName := sandboxName;
  sp_setup := new_view; sp_sandbox := new_view; sp_focus := None |}.

Inductive StepsEvent :=
| HighlightResolved (c : Command)
| FocusField (c : Command) (index : nat)
| BlurField
| InputField (raw : jsstring)
| CopyCommand (c : Command)
| TooltipHidden (c : Command).

Inductive StepsOutput := ClipboardWrite (text : jsstring).

Definition view_of (s : StepsState) (c : Command) : CommandView :=
  match c with Setup => sp_setup s | Sandbox => sp_sandbox s end.

Definition set_view (s : StepsState) (c : Command) (v : CommandView) : StepsState := {|
  sp_providerName := sp_providerName s; sp_model := sp_model s; sp_sandboxName := sp_sandboxName s;
  sp_setup := match c with Setup => v | Sandbox => sp_setup s end;
  sp_sandbox := match c with Setup => sp_sandbox s | Sandbox => v end;
  sp_focus := sp_focus s |}.

Definition set_focus (s : StepsState) (f : option (Command * nat)) : StepsState := {|
  sp_providerName := sp_providerName s; sp_model := sp_model s; sp_sandboxName := sp_sandboxName s;
  sp_setup := sp_setup s; sp_sandbox := sp_sandbox s; sp_focus := f |}.

(** The [values] of a command. *)
Definition values (s : StepsState) (c : Command) : list (jsstring * jsstring) :=
  match c with
  | Setup => [(modelMarker, sp_model s); (providerMarker, sp_providerName s)]
  | Sandbox => [(modelMarker, sp_model s); (sandboxMarker, sp_sandboxName s)]
  end.

(** [values[marker] ?? ""] *)
Definition value_of (s : StepsState) (c : Command) (marker : jsstring) : jsstring :=
  default [] (prop_get (values s c) marker).

(** [onFieldChange] *)
Definition onFieldChange (c : Command) (marker value : jsstring) (s : StepsState) : StepsState :=
  let set p m n := {| sp_providerName := p; sp_model := m; sp_sandboxName := n; sp_setup := sp_setup s;
                      sp_sandbox := sp_sandbox s; sp_focus := sp_focus s |} in
  match c with
  | Setup =>
      if decide (marker = providerMarker) then set value (sp_model s) (sp_sandboxName s)
      else if decide (marker = modelMarker) then set (sp_providerName s) value (sp_sandboxName s)
      else s
  | Sandbox =>
      if decide (marker = sandboxMarker) then set (sp_providerName s) (sp_model s) value
      else if decide (marker = modelMarker) then set (sp_providerName s) value (sp_sandboxName s)
      else s
  end.

Section steps.
Context (toLocaleLowerCase : jsstring → jsstring) (codeToTokens : jsstring → list (list Token))
  (gateway : GatewayConnection).

(** The text that is copied, [None] while the gateway is not ready; and the template
    that is highlighted, with its markers. *)
Definition copy_text (s : StepsState) (c : Command) : option jsstring :=
  match c with
  | Setup => buildSetupScript toLocaleLowerCase gateway (Some (sp_model s)) (Some (sp_providerName s))
  | Sandbox => Some (buildSandboxCreateCommand (sp_sandboxName s) (sp_model s))
  end.

Definition template (c : Command) : option jsstring :=
  match c with
  | Setup => buildSetupScript toLocaleLowerCase gateway (Some modelMarker) (Some providerMarker)
  | Sandbox => Some (buildSandboxCreateCommand sandboxMarker modelMarker)
  end.

Definition markers_of (c : Command) : list jsstring :=
  match c with Setup => setupMarkers | Sandbox => sandboxMarkers end.

(** A part when it is first rendered: a field holds its value. *)
Definition mount_part (s : StepsState) (c : Command) (p : CommandPart) : ShownPart :=
  match p with
  | TextPart _ v => Span v
  | FieldPart _ m => Field m (value_of s c m)
  end.

(** The effect of a field whose [value] changed: the new one is put into its text,
    unless it has the focus or holds it already. *)
Definition push_value (old new : StepsState) (c : Command) (index : nat) (p : ShownPart) : ShownPart :=
  match p with
  | Span v => Span v
  | Field m text =>
      if decide (value_of old c m = value_of new c m) then p
      else if decide (sp_focus new = Some (c, index)) then p
      else Field m (value_of new c m)
  end.

Definition push_values (old new : StepsState) (c : Command) : CommandView := {|
  cv_parts := imap (push_value old new c) <$> cv_parts (view_of new c);
  cv_copied := cv_copied (view_of new c) |}.

(** The text of the focused field replaced. *)
Definition set_text (index : nat) (text : jsstring) (parts : list ShownPart) : list ShownPart :=
  imap (λ i p, match p with
               | Field m t => if decide (i = index) then Field m text else p
               | Span v => p
               end) parts.

(** [handleInput] of the field [index], the document holding [raw] for it, and the
    effects of the values it changes. *)
Definition handleInput (c : Command) (index : nat) (raw : jsstring) (s : StepsState) : option StepsState :=
  parts ← cv_parts (view_of s c);
  match parts !! index with
  | Some (Field m _) =>
      let clean := sanitizeFieldValue raw in
      let s1 := set_view s c {| cv_parts := Some (set_text index clean parts);
                                cv_copied := cv_copied (view_of s c) |} in
      let s2 := onFieldChange c m clean s1 in
      Some (set_view (set_view s2 Setup (push_values s s2 Setup)) Sandbox (push_values s s2 Sandbox))
  | _ => None
  end.

Definition is_field (p : ShownPart) : bool := match p with Field _ _ => true | Span _ => false end.

Definition steps_step (s : StepsState) (ev : StepsEvent) : option (StepsState * list StepsOutput) :=
  match ev with
  | HighlightResolved c =>
      t ← template c;
      match cv_parts (view_of s c) with
      | Some _ => None
      | None =>
          parts ← highlightTemplate codeToTokens t (markers_of c);
          Some (set_view s c {| cv_parts := Some (map (mount_part s c) parts);
                                cv_copied := cv_copied (view_of s c) |}, [])
      end
  | FocusField c index =>
      parts ← cv_parts (view_of s c);
      p ← parts !! index;
      if is_field p then Some (set_focus s (Some (c, index)), []) else None
  | BlurField => Some (set_focus s None, [])
  | InputField raw =>
      f ← sp_focus s; s' ← handleInput f.1 f.2 raw s; Some (s', [])
  | CopyCommand c =>
      t ← copy_text s c;
      Some (set_view s c {| cv_parts := cv_parts (view_of s c); cv_copied := true |}, [ClipboardWrite t])
  | TooltipHidden c =>
      Some (set_view s c {| cv_parts := cv_parts (view_of s c); cv_copied := false |}, [])
  end.

(** ** What a command shows *)

Definition shown_part (p : ShownPart) : jsstring := match p with Span v => v | Field _ t => t end.

(** The text of the block: the plain command until the parts are there; nothing
    while the gateway is not ready. *)
Definition shown (s : StepsState) (c : Command) : option jsstring :=
  t ← copy_text s c;
  Some (match cv_parts (view_of s c) with Some parts => parts ≫= shown_part | None => t end).
End steps.

(** * Lemmas: the templates *)

Lemma setup_markers_upper : Forall (λ m, m ≠ [] ∧ Forall (λ c, is_upper c = true) m) setupMarkers.
Proof. repeat constructor; done. Qed.

Lemma sandbox_markers_upper : Forall (λ m, m ≠ [] ∧ Forall (λ c, is_upper c = true) m) sandboxMarkers.
Proof. repeat constructor; done. Qed.

(** The pieces of the commands around their values; each ends in a space, as
    [spaced] writes it. *)
Definition spaced (s : jsstring) : jsstring := s ++ [32%N].

Definition login_piece : jsstring := js "# 1. Log in to the gateway" ++ [newline].

Definition provider_piece : jsstring :=
  newline :: newline :: js "# 2. Add the Claude on Vertex AI provider" ++
  newline :: js "openshell provider create" ++ continued ++ js "--name".

Definition inference_piece : jsstring :=
  continued ++ js "--type google-vertex-ai" ++ continued ++ js "--from-gcloud-adc" ++ continued ++
  js "--config VERTEX_AI_PROJECT_ID=" ++ double_quote ++ js "$ANTHROPIC_VERTEX_PROJECT_ID" ++ double_quote ++
  continued ++ js "--config VERTEX_AI_REGION=global" ++
  newline :: newline :: js "# 3. Select the model" ++ newline :: js "openshell inference set --provider".

Definition sandbox_piece : jsstring := js "openshell sandbox create" ++ continued ++ js "--name".

Definition claude_piece : jsstring :=
  continued ++ js "--env=ANTHROPIC_BASE_URL=https://inference.local" ++ continued ++
  js "--env=ANTHROPIC_API_KEY=unused" ++ continued ++ js "--no-auto-providers" ++ continued ++
  js "-- claude --bare --model".

Lemma setup_pieces toLocaleLowerCase g m p :
  buildSetupScript toLocaleLowerCase g (Some m) (Some p) =
  (λ add, login_piece ++ add ++ spaced provider_piece ++ p ++ spaced inference_piece ++ p ++
          spaced (js " --model") ++ m) <$> buildGatewayAddCommand toLocaleLowerCase g.
Proof.
  unfold buildSetupScript. destruct (buildGatewayAddCommand toLocaleLowerCase g) as [add|]; [|done].
  cbn [fmap option_fmap option_map]. f_equal.
  unfold buildProviderCreateCommand, buildInferenceSetCommand, login_piece, spaced, provider_piece, inference_piece.
  cbn [joinWith default]. rewrite <- ?(assoc_L (++)). cbn [app]. rewrite <- ?(assoc_L (++)). reflexivity.
Qed.

Lemma sandbox_pieces n m :
  buildSandboxCreateCommand n m = spaced sandbox_piece ++ n ++ spaced claude_piece ++ m.
Proof.
  unfold buildSandboxCreateCommand, spaced, sandbox_piece, claude_piece.
  cbn [joinWith]. rewrite <- ?(assoc_L (++)). cbn [app]. rewrite <- ?(assoc_L (++)). reflexivity.
Qed.

Section templates.
Context (markers : list jsstring) (show : jsstring → jsstring).
Context (Hmarkers : Forall (λ m, m ≠ [] ∧ Forall (λ c, is_upper c = true) m) markers).

Abbreviation shown_text := (shown_text markers show).

Lemma free_check s : forallb (λ m, negb (includes s m)) markers = true → marker_free markers s.
Proof. intros H m Hm%list_elem_of_In. rewrite forallb_forall in H. by apply negb_true_iff, H. Qed.

Lemma shown_spaced x r : forallb (λ m, negb (includes (spaced x) m)) markers = true →
  shown_text (spaced x ++ r) = spaced x ++ shown_text r.
Proof.
  intros Hf. rewrite shown_app; [|exact Hmarkers|by apply apart_last].
  by rewrite (shown_free _ _ Hmarkers (spaced x)) by by apply free_check.
Qed.

Lemma shown_marker m : earliest_marker m markers None = Some (0, m) → shown_text m = show m.
Proof.
  intros He. rewrite shown_step, He by exact Hmarkers. cbn [take app plus].
  rewrite (drop_ge m) by lia. rewrite (shown_lower _ show Hmarkers []); [by rewrite app_nil_r|by apply Forall_nil].
Qed.

Lemma shown_marker_app m r c : earliest_marker m markers None = Some (0, m) →
  head r = Some c → is_upper c = false → shown_text (m ++ r) = show m ++ shown_text r.
Proof.
  intros He Hr Hc. rewrite shown_app; [by rewrite shown_marker|exact Hmarkers|].
  intros x y _ Hy. right. congruence.
Qed.
End templates.

(** Highlighted with its markers, a command shows what it is with the values. *)
Lemma setup_shows toLocaleLowerCase g show t :
  buildSetupScript toLocaleLowerCase g (Some modelMarker) (Some providerMarker) = Some t →
  (∀ add, buildGatewayAddCommand toLocaleLowerCase g = Some add → marker_free setupMarkers add) →
  buildSetupScript toLocaleLowerCase g (Some (show modelMarker)) (Some (show providerMarker)) =
    Some (shown_text setupMarkers show t).
Proof.
  intros Ht Hfree. pose proof setup_markers_upper as Hup. rewrite !setup_pieces in *.
  destruct (buildGatewayAddCommand toLocaleLowerCase g) as [add|]; [|done].
  cbn [fmap option_fmap option_map] in *. apply (inj Some) in Ht as <-. f_equal.
  rewrite shown_app; [|done|by apply apart_last]. rewrite (shown_free _ show Hup login_piece); [|by apply free_check].
  f_equal. rewrite shown_app; [|done|intros x y _ Hy; right; by injection Hy as <-].
  rewrite (shown_free _ show Hup add); [|by apply Hfree]. f_equal.
  rewrite shown_spaced by done. f_equal. rewrite (shown_marker_app _ _ Hup _ _ 32) by done. f_equal.
  rewrite shown_spaced by done. f_equal. rewrite (shown_marker_app _ _ Hup _ _ 32) by done. f_equal.
  rewrite shown_spaced by done. f_equal. by rewrite shown_marker.
Qed.

Lemma sandbox_shows show :
  buildSandboxCreateCommand (show sandboxMarker) (show modelMarker) =
    shown_text sandboxMarkers show (buildSandboxCreateCommand sandboxMarker modelMarker).
Proof.
  pose proof sandbox_markers_upper as Hup. rewrite !sandbox_pieces.
  rewrite shown_spaced by done. f_equal. rewrite (shown_marker_app _ _ Hup _ _ 32) by done. f_equal.
  rewrite shown_spaced by done. f_equal. by rewrite shown_marker.
Qed.

(** * Lemmas: the steps *)

Section steps_lemmas.
Context (toLocaleLowerCase : jsstring → jsstring) (codeToTokens : jsstring → list (list Token))
  (gateway : GatewayConnection).

Abbreviation template := (template toLocaleLowerCase gateway).
Abbreviation copy_text := (copy_text toLocaleLowerCase gateway).
Abbreviation steps_step := (steps_step toLocaleLowerCase codeToTokens gateway).

(** Every field shows its value. *)
Definition parts_ok (s : StepsState) (c : Command) (shown_parts : option (list ShownPart)) : Prop :=
  match shown_parts with
  | None => True
  | Some parts => ∃ t ps, template c = Some t ∧ highlightTemplate codeToTokens t (markers_of c) = Some ps ∧
      Forall (part_known (markers_of c)) ps ∧ parts = map (mount_part s c) ps
  end.

Definition view_ok (s : StepsState) (c : Command) : Prop := parts_ok s c (cv_parts (view_of s c)).

Definition plain (s : jsstring) : Prop := Forall (λ c, is_plain c = true) s.

Definition steps_ok (s : StepsState) : Prop :=
  (∀ c, view_ok s c) ∧ plain (sp_providerName s) ∧ plain (sp_model s) ∧ plain (sp_sandboxName s).

Lemma markers_of_nonempty c : [] ∉ markers_of c.
Proof. destruct c; decide_fact. Qed.

Lemma onFieldChange_value c m v s : m ∈ markers_of c → value_of (onFieldChange c m v s) c m = v.
Proof.
  intros Hm. unfold value_of, values, onFieldChange.
  destruct c; apply list_elem_of_In in Hm; destruct Hm as [<-|[<-|[]]]; done.
Qed.

Lemma onFieldChange_views c m v s c' : view_of (onFieldChange c m v s) c' = view_of s c' ∧
  sp_focus (onFieldChange c m v s) = sp_focus s.
Proof. unfold onFieldChange. destruct c, c'; repeat case_decide; done. Qed.

Lemma onFieldChange_plain c m v s : plain v →
  plain (sp_providerName s) ∧ plain (sp_model s) ∧ plain (sp_sandboxName s) →
  let s' := onFieldChange c m v s in
  plain (sp_providerName s') ∧ plain (sp_model s') ∧ plain (sp_sandboxName s').
Proof. unfold onFieldChange. destruct c; repeat case_decide; tauto. Qed.

Lemma value_of_set_view s c v c' m : value_of (set_view s c v) c' m = value_of s c' m.
Proof. by destruct c'. Qed.

Lemma mount_set_view s c v c' p : mount_part (set_view s c v) c' p = mount_part s c' p.
Proof. destruct p; [done|]. cbn. by rewrite value_of_set_view. Qed.

(** After an input, a part of a command shows its value again: the edited one since
    it was written to both, the others by their effects. *)
Lemma pushed_part s s2 c i text p :
  (sp_focus s2 = Some (c, i) → ∀ cls m, p = FieldPart cls m → value_of s2 c m = text) →
  push_value s s2 c i (match mount_part s c p with
                       | Field m t => if decide (sp_focus s2 = Some (c, i)) then Field m text else Field m t
                       | Span v => Span v
                       end) = mount_part s2 c p.
Proof.
  intros Hf. destruct p as [cls v|cls m]; [done|]. cbn. case_decide as Hfoc; cbn.
  - specialize (Hf Hfoc cls m eq_refl). repeat case_decide; congruence.
  - repeat case_decide; congruence.
Qed.

(** The parts of a command after the field [index] of [c] was edited to [text]. *)
Lemma pushed_parts s s2 c index text c' ps :
  sp_focus s2 = Some (c, index) →
  (c' = c → ∀ cls m, ps !! index = Some (FieldPart cls m) → value_of s2 c m = text) →
  imap (push_value s s2 c')
    (if decide (c' = c) then set_text index text (map (mount_part s c') ps) else map (mount_part s c') ps) =
  map (mount_part s2 c') ps.
Proof.
  intros Hfoc Hv. apply list_eq. intros i. rewrite list_lookup_imap, !list_lookup_fmap.
  assert (Hget : (if decide (c' = c) then set_text index text (map (mount_part s c') ps)
                  else map (mount_part s c') ps) !! i =
    (λ p, match mount_part s c' p with
          | Field m t => if decide (sp_focus s2 = Some (c', i)) then Field m text else Field m t
          | Span v => Span v
          end) <$> ps !! i).
  { rewrite Hfoc. destruct (decide (c' = c)) as [->|Hc].
    - unfold set_text. rewrite list_lookup_imap, list_lookup_fmap.
      destruct (ps !! i) as [[|]|]; cbn; [done| |done]. f_equal. repeat case_decide; congruence.
    - rewrite list_lookup_fmap. destruct (ps !! i) as [[|]|]; cbn; [done| |done]. f_equal.
      rewrite decide_False by congruence. done. }
  rewrite Hget. destruct (ps !! i) as [p|] eqn:Hi; [|done]. cbn [fmap option_fmap option_map]. f_equal.
  apply pushed_part. rewrite Hfoc. intros [= <- <-] cls m ->. by eapply Hv.
Qed.

Lemma parts_ok_values s s' c l : values s' c = values s c → parts_ok s c l → parts_ok s' c l.
Proof.
  intros Hv. destruct l; [|done]. intros (t & ps & Ht & Hp & Hk & ->). exists t, ps. split_and!; [done..|].
  apply map_ext. intros [|cls m]; [done|]. cbn. unfold value_of. by rewrite Hv.
Qed.

Lemma view_ok_same s s' c : cv_parts (view_of s' c) = cv_parts (view_of s c) → values s' c = values s c →
  view_ok s c → view_ok s' c.
Proof. unfold view_ok. intros ->. apply parts_ok_values. Qed.

(** A step that keeps the values and the parts. *)
Lemma steps_ok_same s s' : (∀ c, cv_parts (view_of s' c) = cv_parts (view_of s c)) →
  sp_providerName s' = sp_providerName s → sp_model s' = sp_model s → sp_sandboxName s' = sp_sandboxName s →
  steps_ok s → steps_ok s'.
Proof.
  intros Hp E1 E2 E3 [Hv Hpl]. unfold steps_ok. rewrite E1, E2, E3. split; [|done]. intros c.
  apply (view_ok_same s); [apply Hp| |apply Hv]. unfold values. by rewrite E1, E2, E3.
Qed.

Lemma resolved_ok s c t ps : template c = Some t → highlightTemplate codeToTokens t (markers_of c) = Some ps →
  steps_ok s →
  steps_ok (set_view s c {| cv_parts := Some (map (mount_part s c) ps); cv_copied := cv_copied (view_of s c) |}).
Proof.
  intros Ht Hp [Hv Hpl]. split; [|done]. intros c'. destruct (decide (c' = c)) as [->|Hc].
  - assert (Hk : Forall (part_known (markers_of c)) ps).
    { destruct (lines_parts_spec 0 (codeToTokens t) _ (markers_of_nonempty c)) as (ps' & Hp' & _ & Hk).
      unfold highlightTemplate in Hp. congruence. }
    assert (Hok : parts_ok s c (Some (map (mount_part s c) ps))) by (exists t, ps; done).
    unfold view_ok. destruct c; by apply (parts_ok_values s).
  - apply (view_ok_same s); [by destruct c, c'|by destruct c'|apply Hv].
Qed.

(** The field an input is in, and the marker of its part. *)
Lemma field_marker s c index parts m txt : view_ok s c → cv_parts (view_of s c) = Some parts →
  parts !! index = Some (Field m txt) →
  m ∈ markers_of c ∧
  ∀ ps, parts = map (mount_part s c) ps → ∀ cls m', ps !! index = Some (FieldPart cls m') → m' = m.
Proof.
  intros Hv Hparts Hat. unfold view_ok in Hv. rewrite Hparts in Hv. destruct Hv as (t & ps & _ & _ & Hk & Heq).
  assert (Hone : ∀ ps', parts = map (mount_part s c) ps' → ∀ cls m', ps' !! index = Some (FieldPart cls m') → m' = m).
  { intros ps' -> cls m' Hm'. rewrite list_lookup_fmap, Hm' in Hat.
    cbn [fmap option_fmap option_map mount_part] in Hat. congruence. }
  split; [|exact Hone]. subst parts. rewrite list_lookup_fmap in Hat.
  destruct (ps !! index) as [[|cls m']|] eqn:Hps; try done.
  rewrite <- (Hone ps eq_refl cls m' Hps). rewrite Forall_lookup in Hk. exact (Hk _ _ Hps).
Qed.

Lemma handleInput_ok c index raw s s' : sp_focus s = Some (c, index) →
  handleInput c index raw s = Some s' → steps_ok s → steps_ok s'.
Proof.
  unfold handleInput. intros Hfoc Hi [Hv Hpl]. destruct (cv_parts (view_of s c)) as [parts|] eqn:Hparts; [|done].
  cbn [mbind option_bind] in Hi. destruct (parts !! index) as [[v|m txt]|] eqn:Hat; try done.
  destruct (field_marker s c index parts m txt (Hv c) Hparts Hat) as [Hm Hunique].
  set (clean := sanitizeFieldValue raw) in *.
  set (s1 := set_view s c {| cv_parts := Some (set_text index clean parts); cv_copied := cv_copied (view_of s c) |}) in *.
  set (s2 := onFieldChange c m clean s1) in *. injection Hi as <-.
  assert (Hkeeps : ∀ c', view_of s2 c' = view_of s1 c' ∧ sp_focus s2 = sp_focus s1)
    by (intros; apply onFieldChange_views).
  assert (Hfoc2 : sp_focus s2 = Some (c, index)) by by rewrite (proj2 (Hkeeps c)).
  split; [|apply (onFieldChange_plain c m clean s1); [apply sanitize_plain|exact Hpl]].
  intros c'. assert (Hok : parts_ok s2 c' (imap (push_value s s2 c') <$> cv_parts (view_of s2 c'))).
  { rewrite (proj1 (Hkeeps c')). pose proof (Hv c') as Hvc. unfold view_ok in Hvc.
    assert (Hs1 : cv_parts (view_of s1 c') =
      (λ ps, if decide (c' = c) then set_text index clean ps else ps) <$> cv_parts (view_of s c')).
    { subst s1. case_decide as Hc; [subst c'; rewrite Hparts; by destruct c|].
      transitivity (cv_parts (view_of s c')); [by destruct c, c'|by destruct (cv_parts (view_of s c'))]. }
    rewrite Hs1. destruct (cv_parts (view_of s c')) as [parts'|] eqn:Hp'; [|done].
    destruct Hvc as (t & ps & Ht & Hps & Hk & ->). exists t, ps. split_and!; [done..|].
    rewrite <- (pushed_parts s s2 c index clean c' ps); [by case_decide|done|].
    intros -> cls m' Hm'. rewrite (Hunique ps) with (cls := cls) (m' := m'); [by apply onFieldChange_value|congruence|done]. }
  destruct c'; by apply (parts_ok_values s2).
Qed.

Lemma steps_step_ok s ev s' out : steps_step s ev = Some (s', out) → steps_ok s → steps_ok s'.
Proof.
  intros Hs Hok. destruct ev as [c|c index| |raw|c|c]; cbn [steps_step CommandViews.steps_step] in Hs.
  - destruct (template c) as [t|] eqn:Ht; [|done]. cbn [mbind option_bind] in Hs.
    destruct (cv_parts (view_of s c)); [done|].
    destruct (highlightTemplate codeToTokens t (markers_of c)) as [ps|] eqn:Hp; [|done].
    injection Hs as <- _. by apply (resolved_ok s c t).
  - destruct (cv_parts (view_of s c)) as [parts|]; [|done]. cbn [mbind option_bind] in Hs.
    destruct (parts !! index) as [p|]; [|done].
    cbn [mbind option_bind] in Hs. destruct (is_field p); [|done]. injection Hs as <- _. apply (steps_ok_same s); done.
  - injection Hs as <- _. apply (steps_ok_same s); done.
  - destruct (sp_focus s) as [[c index]|] eqn:Hf; [|done]. cbn [mbind option_bind fst snd] in Hs.
    destruct (handleInput c index raw s) as [s2|] eqn:Hi; [|done]. injection Hs as <- _.
    by apply (handleInput_ok c index raw s).
  - destruct (copy_text s c) as [t|]; [|done]. injection Hs as <- _. apply (steps_ok_same s); try done.
    by destruct c; intros [].
  - injection Hs as <- _. apply (steps_ok_same s); try done. by destruct c; intros [].
Qed.

Lemma steps_ok_run evs s out : StateMachine.run steps_step initial_steps evs s out → steps_ok s.
Proof.
  intros Hr. apply (run_invariant _ steps_ok steps_step_ok _ _ _ _ Hr).
  split; [by intros []|]. split_and!; by repeat constructor.
Qed.

(** With its tokens whole, a command whose fields show their values is what would
    be copied. *)
Lemma copies_shown s c : (∀ c t, template c = Some t → tokens_ok codeToTokens t) →
  (∀ add, buildGatewayAddCommand toLocaleLowerCase gateway = Some add → marker_free setupMarkers add) →
  view_ok s c → shown toLocaleLowerCase gateway s c = copy_text s c.
Proof.
  intros Htok Hfree Hv. unfold shown, view_ok in *.
  destruct (copy_text s c) as [text|] eqn:Hcopy; [|done]. cbn [mbind option_bind]. f_equal.
  destruct (cv_parts (view_of s c)) as [parts|]; [|done]. destruct Hv as (t & ps & Ht & Hp & _ & ->).
  assert (Hup : Forall (λ m, m ≠ [] ∧ Forall (λ c, is_upper c = true) m) (markers_of c))
    by (destruct c; [apply setup_markers_upper|apply sandbox_markers_upper]).
  destruct (highlight_shows (markers_of c) (value_of s c) Hup codeToTokens t (Htok c t Ht)) as (ps' & Hp' & Hs).
  assert (ps' = ps) as -> by congruence.
  transitivity (parts_text (value_of s c) ps).
  { unfold parts_text. clear. induction ps as [|p ps IH]; [done|]. cbn. rewrite IH. by destruct p. }
  rewrite Hs. apply (inj Some). rewrite <- Hcopy. destruct c; cbn [markers_of].
  - symmetry. exact (setup_shows _ _ (value_of s Setup) t Ht Hfree).
  - apply (inj Some) in Ht as <-. cbn. f_equal. symmetry. exact (sandbox_shows (value_of s Sandbox)).
Qed.
End steps_lemmas.

(** ** Properties *)

Lemma plain_sanitized v : plain v → sanitizeFieldValue v = v.
Proof.
  unfold plain, sanitizeFieldValue. induction 1 as [|c v Hc _ IH]; [done|]. rewrite filter_cons_True by done.
  by rewrite IH.
Qed.


(** A gateway, a tokenizer that cuts a command into its lines, and a session in
    which the provider is renamed in one of its two fields. *)
Module DemoSteps.
Fixpoint lines_from (line : jsstring) (s : jsstring) : list jsstring :=
  match s with
  | [] => [line]
  | c :: s => if (c =? 10)%N then line :: lines_from [] s else lines_from (line ++ [c]) s
  end.

Definition line_tokens (s : jsstring) : list (list Token) :=
  map (λ l, [{| tk_content := l; tk_style := None |}]) (lines_from [] s).

Lemma lines_from_cons line s : ∃ l ls, lines_from line s = l :: ls.
Proof. revert line. induction s as [|c s IH]; intros line; cbn [lines_from]; [|destruct (c =? 10)%N]; eauto. Qed.

Lemma lines_join line s : joinWith [10%N] (lines_from line s) = line ++ s.
Proof.
  revert line. induction s as [|c s IH]; intros line; [cbn; by rewrite app_nil_r|]. cbn [lines_from].
  destruct (N.eqb_spec c 10) as [->|]; [|by rewrite IH, <- app_assoc].
  pose proof (IH []) as H0. destruct (lines_from_cons [] s) as (l & ls & E). rewrite E in *.
  cbn [app] in H0. rewrite <- H0. done.
Qed.

Lemma line_tokens_ok s : tokens_ok line_tokens s.
Proof.
  split; [|apply Forall_forall; intros line (l & -> & _)%list_elem_of_fmap].
  - unfold tokens_text, line_tokens. rewrite map_map. etransitivity; [|exact (lines_join [] s)]. f_equal.
    rewrite <- (map_id (lines_from [] s)) at 2. apply map_ext. intros l. cbn. by rewrite app_nil_r.
  - intros [|t l1] l2 Hl; [by intros x y ? ?|]. by destruct l1, l2.
Qed.

Definition demo_gateway : GatewayConnection := {|
  gc_activeSandboxCount := None; gc_clusterId := None; gc_clusterName := js "hub";
  gc_consoleUrl := None; gc_createdAt := None; gc_createdBy := None;
  gc_endpoint := Some (js "https://gw.example"); gc_id := js "g1"; gc_name := js "team gateway";
  gc_oidcAudience := None; gc_oidcClientId := None; gc_oidcIssuer := None;
  gc_phase := Some (js "running"); gc_status := js "Running" |}.

Abbreviation demo_step := (steps_step id line_tokens demo_gateway).

Definition edits : list StepsEvent :=
  [HighlightResolved Sandbox; HighlightResolved Setup; FocusField Setup 14; InputField (js "my vertex;");
   BlurField; FocusField Setup 31; InputField (js "claude-next"); CopyCommand Setup].

Definition edited : StepsState * list StepsOutput := default (initial_steps, []) (play demo_step initial_steps edits).

(** Both fields of the provider hold the new name, without what the shell would
    read; the sandbox command shares the model. *)
Example edited_fields :
  (λ l, (l !! 14, l !! 29)) <$> cv_parts (sp_setup edited.1) =
    Some (Some (Field providerMarker (js "myvertex")), Some (Field providerMarker (js "myvertex"))) ∧
  sp_model edited.1 = js "claude-next".
Proof. vm_compute. done. Qed.

End DemoSteps.
