(* ===== verification/ServiceAccountSetup.v ===== *)
(** The view with which a service account is set up
    ([service-accounts/service-account-setup.tsx]): its copyable scripts, whose
    highlighting arrives late and may be of a script no longer shown, and its one-time
    secret.

    What a script shows is the text of its highlighted parts; the theorems say that it
    is always the script that is copied, and that the secret is written to the
    clipboard and to nothing else. *)
From S2P Require Export CommandViews.

(** * A copyable script *)

(** [highlighted] is there with the script it was made from; a highlighting under way
    keeps its [active]; a clipboard write is under way until it settles. *)
Record ScriptView := {
  sc_script : option jsstring;
  sc_copied : bool;
  sc_copyFailed : bool;
  sc_highlighted : option (list CommandPart * jsstring);
  sc_pending : list (jsstring * bool);
  sc_writes : nat
}.

Inductive ScriptEvent :=
| ScriptProp (script : option jsstring)
| ScriptHighlighted (i : nat)
| CopyScript
| ScriptWritten (ok : bool)
| ScriptTooltipHidden.

Definition set_flags (copied failed : bool) (writes : nat) (v : ScriptView) : ScriptView := {|
  sc_script := sc_script v; sc_copied := copied; sc_copyFailed := failed;
  sc_highlighted := sc_highlighted v; sc_pending := sc_pending v; sc_writes := writes |}.

(** The effect of a script: its highlighting starts, if it is not empty. *)
Definition start_highlight (script : option jsstring) : list (jsstring * bool) :=
  match truthy script with Some s => [(s, true)] | None => [] end.

Definition mount_script (script : option jsstring) : ScriptView := {|
  sc_script := script; sc_copied := false; sc_copyFailed := false; sc_highlighted := None;
  sc_pending := start_highlight script; sc_writes := 0 |}.

Section script.
Context (codeToTokens : jsstring → list (list Token)).

Definition script_step (v : ScriptView) (ev : ScriptEvent) : option (ScriptView * list StepsOutput) :=
  match ev with
  | ScriptProp script =>
      Some (if decide (script = sc_script v) then v else {|
        sc_script := script; sc_copied := sc_copied v; sc_copyFailed := sc_copyFailed v;
        sc_highlighted := sc_highlighted v;
        sc_pending := map (λ p, (p.1, false)) (sc_pending v) ++ start_highlight script;
        sc_writes := sc_writes v |}, [])
  | ScriptHighlighted i =>
      match sc_pending v !! i with
      | None => None
      | Some (script, active) =>
          parts ← highlightTemplate codeToTokens script [];
          Some ({| sc_script := sc_script v; sc_copied := sc_copied v; sc_copyFailed := sc_copyFailed v;
                   sc_highlighted := if (active : bool) then Some (parts, script) else sc_highlighted v;
                   sc_pending := delete i (sc_pending v); sc_writes := sc_writes v |}, [])
      end
  | CopyScript =>
      script ← truthy (sc_script v);
      Some (set_flags (sc_copied v) (sc_copyFailed v) (S (sc_writes v)) v, [ClipboardWrite script])
  | ScriptWritten ok =>
      match sc_writes v with
      | O => None
      | S n => Some (set_flags ok (negb ok) n v, [])
      end
  | ScriptTooltipHidden =>
      Some (set_flags false (sc_copyFailed v) (sc_writes v) v, [])
  end.
End script.

(** The rendered text of a part; a field would render nothing. *)
Definition script_part (p : CommandPart) : jsstring :=
  match p with TextPart _ v => v | FieldPart _ _ => [] end.

(** The text of the block, [None] when the commands are not available. *)
Definition script_shown (v : ScriptView) : option jsstring :=
  script ← truthy (sc_script v);
  match sc_highlighted v with
  | Some (parts, highlighted) => if decide (highlighted = script) then Some (parts ≫= script_part) else Some script
  | None => Some script
  end.

(** * The view *)

Record SetupView := {
  sv_isJwtExpanded : bool;
  sv_isOpenShellExpanded : bool;
  sv_isSecretVisible : bool;
  sv_secretCopied : bool;
  sv_secretCopyFailed : bool;
  sv_writes : nat
}.

Definition initial_setup : SetupView := {|
  sv_isJwtExpanded := false; sv_isOpenShellExpanded := true; sv_isSecretVisible := false;
  sv_secretCopied := false; sv_secretCopyFailed := false; sv_writes := 0 |}.

Inductive SetupEvent :=
| ToggleJwt (expanded : bool)
| ToggleOpenShell (expanded : bool)
| ToggleSecret
| CopySecret
| SecretWritten (ok : bool)
| SecretTooltipHidden
| Acknowledge (checked : bool).

Inductive SetupOutput := SecretWrite (text : jsstring) | AcknowledgedChange (value : bool).

Definition set_secret (visible copied failed : bool) (writes : nat) (v : SetupView) : SetupView := {|
  sv_isJwtExpanded := sv_isJwtExpanded v; sv_isOpenShellExpanded := sv_isOpenShellExpanded v;
  sv_isSecretVisible := visible; sv_secretCopied := copied; sv_secretCopyFailed := failed;
  sv_writes := writes |}.

Section setup.
Context (account : ServiceAccountRecord) (clientSecret : option jsstring)
  (connection : ServiceAccountConnection).

(** The scripts of the copyable commands that are rendered, in order. *)
Definition setup_scripts : list (option jsstring) :=
  let workspaceMembershipScript := buildWorkspaceMembershipCommand (sa_subject account) in
  match sa_role account with OpenshellUser => [workspaceMembershipScript] | OpenshellAdmin => [] end ++
  [buildOpenShellServiceAccountScript (sa_name account) connection;
   buildClientCredentialsScript connection].

(** The value and the type of the input that shows the secret. *)
Definition secret_input (v : SetupView) : option (jsstring * jsstring) :=
  (λ secret, (secret, if sv_isSecretVisible v then js "text" else js "password")) <$> truthy clientSecret.

(** The controls of the secret are there while it is. *)
Definition setup_step (v : SetupView) (ev : SetupEvent) : option (SetupView * list SetupOutput) :=
  let with_secret r := match truthy clientSecret with Some secret => Some (r secret) | None => None end in
  match ev with
  | ToggleJwt expanded =>
      Some ({| sv_isJwtExpanded := expanded; sv_isOpenShellExpanded := sv_isOpenShellExpanded v;
               sv_isSecretVisible := sv_isSecretVisible v; sv_secretCopied := sv_secretCopied v;
               sv_secretCopyFailed := sv_secretCopyFailed v; sv_writes := sv_writes v |}, [])
  | ToggleOpenShell expanded =>
      Some ({| sv_isJwtExpanded := sv_isJwtExpanded v; sv_isOpenShellExpanded := expanded;
               sv_isSecretVisible := sv_isSecretVisible v; sv_secretCopied := sv_secretCopied v;
               sv_secretCopyFailed := sv_secretCopyFailed v; sv_writes := sv_writes v |}, [])
  | ToggleSecret =>
      with_secret (λ _, (set_secret (negb (sv_isSecretVisible v)) (sv_secretCopied v) (sv_secretCopyFailed v)
                           (sv_writes v) v, []))
  | CopySecret =>
      with_secret (λ secret, (set_secret (sv_isSecretVisible v) (sv_secretCopied v) (sv_secretCopyFailed v)
                                (S (sv_writes v)) v, [SecretWrite secret]))
  | SecretWritten ok =>
      match sv_writes v with
      | O => None
      | S n => Some (set_secret (sv_isSecretVisible v) ok (negb ok) n v, [])
      end
  | SecretTooltipHidden =>
      with_secret (λ _, (set_secret (sv_isSecretVisible v) false (sv_secretCopyFailed v) (sv_writes v) v, []))
  | Acknowledge checked => with_secret (λ _, (v, [AcknowledgedChange checked]))
  end.
End setup.

(** * Lemmas: scripts *)

Section script_lemmas.
Context (codeToTokens : jsstring → list (list Token)).

(** Highlighted without markers, a script shows its tokens. *)
Lemma script_parts s ps : highlightTemplate codeToTokens s [] = Some ps →
  ps ≫= script_part = tokens_text (codeToTokens s).
Proof.
  intros Hp. destruct (lines_parts_spec 0 (codeToTokens s) [] ltac:(set_solver)) as (ps' & Hp' & Ht & Hk).
  unfold highlightTemplate in Hp. assert (ps' = ps) as -> by congruence. rewrite decide_False in Ht by lia.
  cbn [app] in Ht. rewrite <- Ht. clear -Hk. unfold parts_text. induction Hk as [|p ps Hp _ IH]; [done|].
  destruct p as [cls v|cls m]; [|exfalso; cbn in Hp; set_solver]. cbn. by rewrite IH.
Qed.

(** What is kept is the highlighting of some script; only that of the current script
    is active; a copy succeeded or failed. *)
Definition script_ok (v : ScriptView) : Prop :=
  (∀ ps s, sc_highlighted v = Some (ps, s) → highlightTemplate codeToTokens s [] = Some ps) ∧
  (∀ p, p ∈ sc_pending v → p.2 = true → truthy (sc_script v) = Some p.1) ∧
  count snd (sc_pending v) ≤ 1 ∧
  (sc_copied v = true → sc_copyFailed v = false).

Lemma start_highlight_ok script :
  (∀ p, p ∈ start_highlight script → p.2 = true → truthy script = Some p.1) ∧
  count snd (start_highlight script) ≤ 1.
Proof.
  unfold start_highlight. destruct (truthy script) as [s|]; [|split; [set_solver|cbn; lia]].
  split; [|done]. by intros p ->%list_elem_of_singleton.
Qed.

Lemma mount_script_ok script : script_ok (mount_script script).
Proof. destruct (start_highlight_ok script). by split_and!. Qed.

Lemma count_inactive (l : list (jsstring * bool)) : count snd (map (λ p, (p.1, false)) l) = 0.
Proof. by induction l. Qed.

Lemma count_sublist {A} (f : A → bool) (l l' : list A) : l `sublist_of` l' → count f l ≤ count f l'.
Proof. induction 1; rewrite ?count_cons; lia. Qed.

Lemma script_step_ok v ev v' out : script_step codeToTokens v ev = Some (v', out) → script_ok v → script_ok v'.
Proof.
  intros Hs (Hh & Hp & Hc & Hf). destruct ev as [script|i| |ok|]; cbn [script_step] in Hs.
  - injection Hs as <- _. case_decide; [done|]. destruct (start_highlight_ok script) as [Hq Hn].
    split_and!; cbn -[count]; [done| |rewrite count_app, count_inactive; lia|done].
    intros p [(q & -> & _)%list_elem_of_fmap|Hin]%elem_of_app; [done|by apply Hq].
  - destruct (sc_pending v !! i) as [[s active]|] eqn:Hi; [|done].
    destruct (highlightTemplate codeToTokens s []) as [ps|] eqn:Hps; [|done]. cbn [mbind option_bind] in Hs. injection Hs as <- _.
    split_and!; cbn -[count]; [|intros p Hin; apply Hp; eapply sublist_subseteq; [apply sublist_delete|exact Hin]| |done].
    + destruct active; [|done]. by intros ? ? [= <- <-].
    + pose proof (count_sublist snd _ _ (sublist_delete (sc_pending v) i)). lia.
  - destruct (truthy (sc_script v)) as [s|] eqn:Ht; [|done]. cbn [mbind option_bind] in Hs. injection Hs as <- _.
    split_and!; [exact Hh|cbn; rewrite Ht; exact Hp|exact Hc|exact Hf].
  - destruct (sc_writes v); [done|]. injection Hs as <- _. split_and!; try done. by destruct ok.
  - injection Hs as <- _. by split_and!.
Qed.

Lemma script_ok_shown v : (∀ s, tokens_text (codeToTokens s) = s) → script_ok v →
  script_shown v = truthy (sc_script v).
Proof.
  intros Htok (Hh & _). unfold script_shown. destruct (truthy (sc_script v)) as [s|]; [|done].
  cbn [mbind option_bind]. destruct (sc_highlighted v) as [[ps hs]|]; [|done]. case_decide; [|done]. subst hs.
  by rewrite (script_parts s ps), Htok by by apply Hh.
Qed.
End script_lemmas.

(** * Lemmas: the secret *)

Section setup_lemmas.
Context (clientSecret : option jsstring).

Abbreviation setup_step := (setup_step clientSecret).

(** What a run does with the secret. *)
Definition secret_output (o : SetupOutput) : Prop :=
  match o with
  | SecretWrite text => truthy clientSecret = Some text
  | AcknowledgedChange _ => is_Some (truthy clientSecret)
  end.

Definition setup_ok (v : SetupView) : Prop := sv_secretCopied v = true → sv_secretCopyFailed v = false.

Lemma setup_step_ok v ev v' out : setup_step v ev = Some (v', out) →
  setup_ok v → setup_ok v' ∧ Forall secret_output out.
Proof.
  unfold setup_ok. intros Hs Hok.
  destruct ev as [b|b| | |ok| |b]; cbn [setup_step ServiceAccountSetup.setup_step] in Hs;
    try (destruct (truthy clientSecret) as [secret|] eqn:Ht; [|done]);
    try (destruct (sv_writes v); [done|]); injection Hs as <- <-;
    (split; [try done; try by destruct ok|repeat constructor; cbn; eauto]).
Qed.

Definition is_secret_write (o : SetupOutput) : bool := match o with SecretWrite _ => true | _ => false end.
Definition is_secret_written (ev : SetupEvent) : bool := match ev with SecretWritten _ => true | _ => false end.
Definition is_toggle (ev : SetupEvent) : bool := match ev with ToggleSecret => true | _ => false end.

Lemma setup_step_balance v ev v' out : setup_step v ev = Some (v', out) →
  count is_secret_write out + sv_writes v = count is_secret_written [ev] + sv_writes v'.
Proof.
  intros Hs. destruct ev as [b|b| | |ok| |b]; cbn [setup_step ServiceAccountSetup.setup_step] in Hs;
    try (destruct (truthy clientSecret) as [secret|] eqn:Ht; [|done]);
    try (destruct (sv_writes v) eqn:Hw; [done|]); injection Hs as <- <-;
    rewrite ?count_cons; unfold count; cbn; lia.
Qed.

(** The secret is visible after an odd number of toggles. *)
Lemma toggled_visible v evs v' out : StateMachine.run setup_step v evs v' out →
  sv_isSecretVisible v' = xorb (sv_isSecretVisible v) (Nat.odd (count is_toggle evs)).
Proof.
  induction 1 as [|v ev v1 out evs v' out' Hs _ IH]; [by rewrite xorb_false_r|]. rewrite IH, count_cons.
  assert (Hv : sv_isSecretVisible v1 = xorb (sv_isSecretVisible v) (is_toggle ev)).
  { destruct ev as [b|b| | |ok| |b]; cbn [setup_step ServiceAccountSetup.setup_step] in Hs;
      try (destruct (truthy clientSecret) as [secret|] eqn:Ht; [|done]);
      try (destruct (sv_writes v) eqn:Hw; [done|]); injection Hs as <- <-; cbn; by rewrite ?xorb_false_r, ?xorb_true_r. }
  rewrite Hv, xorb_assoc. f_equal. destruct (is_toggle ev); cbn [xorb]; [|done].
  rewrite Nat.add_1_l, Nat.odd_succ. by rewrite <- Nat.negb_odd.
Qed.
End setup_lemmas.

(** * Properties *)

(** C31 A script is shown exactly when there is one, and what is shown is always the
    script itself, whichever highlighting arrived last and for whichever script it
    was started; what a click copies is what is shown; at most one highlighting may
    still change the view; and no copy is reported as made and failed at once. *)
Theorem scripts_shown_whole (codeToTokens : jsstring → list (list Token)) (script : option jsstring)
    (evs : list ScriptEvent) (v : ScriptView) (out : list StepsOutput) :
  (∀ s, tokens_text (codeToTokens s) = s) →
  StateMachine.run (script_step codeToTokens) (mount_script script) evs v out →
  script_shown v = truthy (sc_script v) ∧
  (∀ v' out', script_step codeToTokens v CopyScript = Some (v', out') →
     ∃ s, script_shown v = Some s ∧ out' = [ClipboardWrite s]) ∧
  count snd (sc_pending v) ≤ 1 ∧
  (sc_copied v = true → sc_copyFailed v = false).
Proof.
  intros Htok Hr. assert (Hok : script_ok codeToTokens v).
  { apply (run_invariant _ _ (script_step_ok codeToTokens) _ _ _ _ Hr), mount_script_ok. }
  pose proof (script_ok_shown codeToTokens v Htok Hok) as Hs. split_and!; [done| |by apply Hok..].
  intros v' out' Hc. cbn [script_step] in Hc. rewrite Hs.
  destruct (truthy (sc_script v)) as [s|]; [|done]. injection Hc as <- <-. by exists s.
Qed.

(** The secret is written to the clipboard only as it was given, and each write is
    reported once; it is hidden until it is asked for; without one nothing is written
    and nothing acknowledged; and no copy is reported as made and failed at once. *)
Theorem secret_written_as_given (clientSecret : option jsstring)
    (evs : list SetupEvent) (v : SetupView) (out : list SetupOutput) :
  StateMachine.run (setup_step clientSecret) initial_setup evs v out →
  Forall (secret_output clientSecret) out ∧ (truthy clientSecret = None → out = []) ∧
  count is_secret_write out = count is_secret_written evs + sv_writes v ∧
  secret_input clientSecret v =
    (λ secret, (secret, if Nat.odd (count is_toggle evs) then js "text" else js "password")) <$> truthy clientSecret ∧
  (sv_secretCopied v = true → sv_secretCopyFailed v = false).
Proof.
  intros Hr. destruct (run_outputs _ _ _ (setup_step_ok clientSecret) _ _ _ _ Hr ltac:(done)) as [Hok Hout].
  pose proof (run_balance _ _ _ _ (setup_step_balance clientSecret) _ _ _ _ Hr) as Hb.
  pose proof (toggled_visible clientSecret _ _ _ _ Hr) as Hv. split_and!; [done| |cbn -[count] in Hb; lia| |done].
  - intros Hn. destruct Hout as [|o out Ho _]; [done|]. exfalso. destruct o; cbn in Ho; rewrite Hn in Ho; [done|].
    by destruct Ho.
  - unfold secret_input. by rewrite Hv.
Qed.

(** A script replaced while its highlighting is under way, and a secret that is
    shown, copied twice and acknowledged. *)
Module DemoSetup.
Import DemoSteps.

Definition replaced : list ScriptEvent :=
  [CopyScript; ScriptProp (Some (js "openshell login")); ScriptHighlighted 0; ScriptWritten false;
   ScriptHighlighted 0; CopyScript; ScriptWritten true].

Definition replaced_view : ScriptView * list StepsOutput :=
  default (mount_script None, []) (play (script_step line_tokens) (mount_script (Some (js "whoami"))) replaced).

Lemma scripts_shown_whole_witness :
  script_shown replaced_view.1 = Some (js "openshell login") ∧
  (∃ ps, sc_highlighted replaced_view.1 = Some (ps, js "openshell login")) ∧
  replaced_view.2 = [ClipboardWrite (js "whoami"); ClipboardWrite (js "openshell login")].
Proof.
  assert (H : StateMachine.run (script_step line_tokens) (mount_script (Some (js "whoami"))) replaced
                replaced_view.1 replaced_view.2) by (apply play_run; vm_compute; reflexivity).
  refine ((λ T, conj (eq_trans (proj1 T) _) _) (scripts_shown_whole line_tokens _ _ _ _ _ H)).
  - vm_compute. reflexivity.
  - split; [eexists|]; vm_compute; reflexivity.
  - intros s. apply line_tokens_ok.
Defined.

Definition copied_secret : list SetupEvent :=
  [ToggleSecret; CopySecret; CopySecret; SecretWritten false; SecretWritten true; Acknowledge true; ToggleJwt true].

Definition copied_view : SetupView * list SetupOutput :=
  default (initial_setup, []) (play (setup_step (Some (js "s3cret"))) initial_setup copied_secret).

Lemma secret_written_as_given_witness :
  Forall (secret_output (Some (js "s3cret"))) copied_view.2 ∧
  copied_view.2 = [SecretWrite (js "s3cret"); SecretWrite (js "s3cret"); AcknowledgedChange true] ∧
  sv_secretCopied copied_view.1 = true.
Proof.
  assert (H : StateMachine.run (setup_step (Some (js "s3cret"))) initial_setup copied_secret
                copied_view.1 copied_view.2) by (apply play_run; vm_compute; reflexivity).
  refine ((λ T, conj (proj1 T) _) (secret_written_as_given _ _ _ _ H)).
  split; vm_compute; reflexivity.
Defined.
End DemoSetup.
