(* ===== verification/GatewayPages.v ===== *)
(** The collection pages ([pages/gateway-pages.tsx] and
    [service-accounts/service-accounts-page.tsx]) and the table they share
    ([shared/resource-table.tsx]): how a user's action on the table becomes the
    next list request, which gateways are observed and polled, and which cluster
    names are looked up and shown. *)
From S2P Require Export GatewayDialogs ServiceAccountDialog ServiceAccountData.

(** * The table *)

Record TableState := {
  ts_page : num;
  ts_pageSize : num;
  ts_query : jsstring;
  ts_sortColumnId : jsstring;
  ts_sortDirection : GatewaySortDirection
}.

Inductive ChangeReason := ReasonFilter | ReasonPage | ReasonPageSize | ReasonSort.

(** What the user does to the table: a column's header by its index, the search
    field, its clear button, and the pagination. *)
Inductive TableEvent :=
| OnSort (index : nat) (direction : GatewaySortDirection)
| OnSearch (value : jsstring)
| OnClear
| OnSetPage (page : num)
| OnPerPageSelect (size : num).

Record Column := { col_id : jsstring; col_sortable : bool }.

Definition with_page_query (page : num) (query : jsstring) (s : TableState) : TableState :=
  {| ts_page := page; ts_pageSize := ts_pageSize s; ts_query := query;
     ts_sortColumnId := ts_sortColumnId s; ts_sortDirection := ts_sortDirection s |}.

(** [onStateChange]'s arguments; [None] when it is not called. *)
Definition table_change (columns : list Column) (s : TableState) (ev : TableEvent) :
    option (TableState * ChangeReason) :=
  match ev with
  | OnSort index direction =>
      match columns !! index with
      | Some column =>
          if col_sortable column
          then Some ({| ts_page := NInt 1; ts_pageSize := ts_pageSize s; ts_query := ts_query s;
                        ts_sortColumnId := col_id column; ts_sortDirection := direction |},
                     ReasonSort)
          else None
      | None => None
      end
  | OnSearch value => Some (with_page_query (NInt 1) value s, ReasonFilter)
  | OnClear => Some (with_page_query (NInt 1) [] s, ReasonFilter)
  | OnSetPage page => Some (with_page_query page (ts_query s) s, ReasonPage)
  | OnPerPageSelect size =>
      Some ({| ts_page := NInt 1; ts_pageSize := size; ts_query := ts_query s;
               ts_sortColumnId := ts_sortColumnId s; ts_sortDirection := ts_sortDirection s |},
            ReasonPageSize)
  end.

Definition activeSortIndex (columns : list Column) (s : TableState) : nat :=
  match list_find (λ c, col_id c = ts_sortColumnId s) columns with
  | Some (i, _) => i
  | None => 0
  end.

Definition hasFilter (hasActiveFilters : option bool) (s : TableState) : bool :=
  default (is_nonempty (trim (ts_query s))) hasActiveFilters.

(** What stands below the toolbar. *)
Inductive TableBody := BodyRows | BodyNoResults | BodyEmpty.

Definition table_body (rows : nat) (filtered : bool) : TableBody :=
  if bool_decide (0 < rows) then BodyRows else if filtered then BodyNoResults else BodyEmpty.

(** * The gateway collection *)

Definition gatewaySortFieldList : list GatewaySortField :=
  [SortCluster; SortCreated; SortEndpoint; SortName; SortOwner; SortStatus].

Definition gateway_columns : list Column :=
  [{| col_id := js "name"; col_sortable := true |};
   {| col_id := js "activeSandboxes"; col_sortable := false |};
   {| col_id := js "cluster"; col_sortable := true |};
   {| col_id := js "status"; col_sortable := true |};
   {| col_id := js "created"; col_sortable := true |};
   {| col_id := js "owner"; col_sortable := true |};
   {| col_id := js "endpoint"; col_sortable := true |}].

Definition gateway_tableState (r : GatewayListRequest) : TableState := {|
  ts_page := lr_page r; ts_pageSize := lr_size r; ts_query := lr_search r;
  ts_sortColumnId := sortField_str (lr_sortField r); ts_sortDirection := lr_sortDirection r |}.

Definition gateway_changeTableState (next : TableState) : GatewayListRequest := {|
  lr_page := ts_page next; lr_search := ts_query next; lr_size := ts_pageSize next;
  lr_sortDirection := ts_sortDirection next;
  lr_sortField := default SortName
    (literal_of sortField_str gatewaySortFieldList (Some (ts_sortColumnId next))) |}.

(** The request the page sends: its search is the debounced, trimmed text. *)
Definition gatewayRequest (r : GatewayListRequest) (debouncedSearch : jsstring) :
    GatewayListRequest := {|
  lr_page := lr_page r; lr_search := debouncedSearch; lr_size := lr_size r;
  lr_sortDirection := lr_sortDirection r; lr_sortField := lr_sortField r |}.

Section observation.
Context (toLocaleLowerCase : jsstring → jsstring).

(** The query's map over the fetched records, each with the clock when it is
    reached: the tracker's map and whether the record needs polling. *)
Fixpoint observe (starts : gmap jsstring num) (items : list (GatewayRecord * num)) :
    list bool * gmap jsstring num :=
  match items with
  | [] => ([], starts)
  | (g, now) :: items =>
      let (start, starts) := trackConsoleWait toLocaleLowerCase starts (gr_id g) g now in
      let (polls, starts') := observe starts items in
      (gatewayNeedsStatusPolling toLocaleLowerCase g start now :: polls, starts')
  end.

Definition shouldPollStatus (starts : gmap jsstring num) (items : list (GatewayRecord * num)) :
    bool * gmap jsstring num :=
  let (polls, starts) := observe starts items in (existsb id polls, starts).
End observation.

(** * Cluster names *)

(** The clusters whose names are looked up, in one batch. *)
Definition placementClusterIds (items : list GatewayConnection) : list jsstring :=
  js_sort (nub (map (λ g, default [] (gc_clusterId g))
    (filter (λ g, bool_decide (is_Some (truthy (gc_clusterId g))) &&
                  negb (is_nonempty (trim (gc_clusterName g))) = true) items))).

(** [new Map(placements.map(({ id, name }) => [id, name]))] *)
Definition placementNames (placements : list GatewayPlacement) : gmap jsstring jsstring :=
  foldl (λ m p, <[pl_id p := pl_name p]> m) ∅ placements.

Inductive NameCell := CellName (name : jsstring) | CellLoading | CellNotAvailable.

Definition collection_cluster_cell (g : GatewayConnection) (isLoading : bool)
    (names : gmap jsstring jsstring) : NameCell :=
  match truthy (gc_clusterId g) with
  | None => CellName (gc_clusterName g)
  | Some clusterId =>
      if is_nonempty (trim (gc_clusterName g)) then CellName (gc_clusterName g)
      else if isLoading then CellLoading
      else match names !! clusterId with Some n => CellName n | None => CellNotAvailable end
  end.

(** * The gateway page *)

Definition tab_str (t : GatewayDetailTab) : jsstring :=
  match t with
  | TabConnection => js "connection"
  | TabServiceAccounts => js "service-accounts"
  | TabDetails => js "details"
  end.

Definition gatewayDetailTabs : list GatewayDetailTab :=
  [TabConnection; TabServiceAccounts; TabDetails].

Definition toGatewayDetailTab (value : option jsstring) : GatewayDetailTab :=
  default TabConnection (literal_of tab_str gatewayDetailTabs (truthy value)).

(** The route's [onTabChange], on the search parameters. *)
Definition onTabChange (p : params) (tab : GatewayDetailTab) : params :=
  if decide (tab = TabConnection) then url_delete p (js "tab")
  else url_set p (js "tab") (tab_str tab).

(** * The service-account collection *)

Definition account_tableState (r : ServiceAccountListRequest) : TableState := {|
  ts_page := sl_page r; ts_pageSize := sl_size r; ts_query := sl_search r;
  ts_sortColumnId := saSortField_str (sl_sort r); ts_sortDirection := sl_order r |}.

Definition account_changeTableState (current : ServiceAccountListRequest) (next : TableState) :
    ServiceAccountListRequest := {|
  sl_order := ts_sortDirection next; sl_page := ts_page next; sl_search := ts_query next;
  sl_size := ts_pageSize next;
  sl_sort := default SaCreatedAt
    (literal_of saSortField_str serviceAccountSortFields (Some (ts_sortColumnId next)));
  sl_status := sl_status current |}.

(** The page's own [onClearFilters]. *)
Definition account_clearFilters (r : ServiceAccountListRequest) : ServiceAccountListRequest := {|
  sl_order := sl_order r; sl_page := NInt 1; sl_search := []; sl_size := sl_size r;
  sl_sort := sl_sort r; sl_status := None |}.

Definition account_columns : list Column :=
  map (λ i, {| col_id := js i; col_sortable := true |})
    ["name"; "role"; "status"; "expires_at"]%string.

(** The next request and the reason, for a user's action on the table. *)
Definition account_event (r : ServiceAccountListRequest) (ev : TableEvent) :
    option (ServiceAccountListRequest * ChangeReason) :=
  match ev with
  | OnClear => Some (account_clearFilters r, ReasonFilter)
  | _ => (λ n, (account_changeTableState r n.1, n.2)) <$>
           table_change account_columns (account_tableState r) ev
  end.

Definition gateway_event (r : GatewayListRequest) (ev : TableEvent) :
    option (GatewayListRequest * ChangeReason) :=
  (λ n, (gateway_changeTableState n.1, n.2)) <$>
    table_change gateway_columns (gateway_tableState r) ev.

Definition account_hasActiveFilters (r : ServiceAccountListRequest) : bool :=
  is_nonempty (trim (sl_search r)) || bool_decide (is_Some (sl_status r)).

(** The list query's retry and polling. *)
Definition account_retry (failureCount : Z) (e : thrown) : bool :=
  (failureCount <? 1)%Z &&
  match e with ThrowGateway g => bool_decide (ge_kind g = KUnavailable) | _ => true end.

Definition account_refetchInterval (isActive : bool) (data : option ServiceAccountPage) :
    option num :=
  if isActive && match data with
                 | Some p => existsb (λ a, serviceAccountNeedsPolling (sa_status a)) (sp_items p)
                 | None => false
                 end
  then Some (NInt 5000) else None.

(** * Lemmas *)

Lemma literal_of_sortField f :
  literal_of sortField_str gatewaySortFieldList (Some (sortField_str f)) = Some f.
Proof. by destruct f. Qed.

Lemma literal_of_saSortField f :
  literal_of saSortField_str serviceAccountSortFields (Some (saSortField_str f)) = Some f.
Proof. by destruct f. Qed.

Lemma literal_of_tab t : literal_of tab_str gatewayDetailTabs (Some (tab_str t)) = Some t.
Proof. by destruct t. Qed.

(** A column that can be sorted names a sort field. *)
Lemma gateway_columns_sortable i c :
  gateway_columns !! i = Some c → col_sortable c = true →
  ∃ f, literal_of sortField_str gatewaySortFieldList (Some (col_id c)) = Some f ∧
       col_id c = sortField_str f.
Proof.
  intros Hc Hs. do 7 (destruct i as [|i]; [by simplify_eq/=; eexists|]). done.
Qed.

Lemma account_columns_sortable i c :
  account_columns !! i = Some c → col_sortable c = true →
  ∃ f, literal_of saSortField_str serviceAccountSortFields (Some (col_id c)) = Some f ∧
       col_id c = saSortField_str f.
Proof.
  intros Hc Hs. do 4 (destruct i as [|i]; [by simplify_eq/=; eexists|]). done.
Qed.

Section observation_lemmas.
Context (toLocaleLowerCase : jsstring → jsstring).

Lemma tracked_lookup starts i g now j :
  (trackConsoleWait toLocaleLowerCase starts i g now).2 !! j =
  if decide (i = j) then resolveConsoleWaitStart toLocaleLowerCase g now (starts !! i)
  else starts !! j.
Proof.
  unfold trackConsoleWait. simpl.
  destruct (resolveConsoleWaitStart _ _ _ _) as [t|]; simpl; case_decide; simplify_map_eq; done.
Qed.

Lemma observe_lookup_ne starts items j :
  j ∉ map (gr_id ∘ fst) items → (observe toLocaleLowerCase starts items).2 !! j = starts !! j.
Proof.
  revert starts. induction items as [|[g now] items IH]; intros starts Hj; [done|].
  cbn [observe]. destruct (trackConsoleWait _ _ _ _ _) as [start starts1] eqn:E.
  destruct (observe toLocaleLowerCase starts1 items) as [polls starts2] eqn:E2. simpl.
  change starts2 with (polls, starts2).2. rewrite <- E2, IH by set_solver.
  change starts1 with (start, starts1).2. rewrite <- E, tracked_lookup.
  rewrite decide_False; [done|]. set_solver.
Qed.
End observation_lemmas.

Lemma placementNames_lookup_acc (m : gmap jsstring jsstring) ps i :
  NoDup (map pl_id ps) →
  foldl (λ (m : gmap jsstring jsstring) p, <[pl_id p := pl_name p]> m) m ps !! i =
  match list_find (λ p, pl_id p = i) ps with
  | Some (_, p) => Some (pl_name p)
  | None => m !! i
  end.
Proof.
  revert m. induction ps as [|p ps IH]; intros m Hn; [done|].
  inversion Hn as [|? ? Hp Hn']; subst. simpl. rewrite IH by done.
  destruct (decide (pl_id p = i)) as [<-|Hi].
  - destruct (list_find (λ p0, pl_id p0 = pl_id p) ps) as [[k q]|] eqn:E; simpl.
    + apply list_find_Some in E as (Hk & Hq & _). destruct Hp. rewrite <- Hq.
      apply list_elem_of_fmap. exists q. split; [done|]. by eapply list_elem_of_lookup_2.
    + by rewrite lookup_insert_eq.
  - destruct (list_find (λ p0, pl_id p0 = i) ps) as [[k q]|]; simpl; [done|].
    by rewrite lookup_insert_ne.
Qed.

(** * Properties *)

(** What the user does to a table is what is asked for, and nothing else. Reading
    the request into the table and back changes nothing. Sorting by a column asks
    for the field the column names, in the direction given; searching, clearing
    and sizing change only their own part; each of them asks for the first page, and
    only paging asks for another. Clearing the accounts' filters drops the status as
    well as the text, and every other action keeps the status. *)
Theorem table_changes_reach_request (r : GatewayListRequest) (q : ServiceAccountListRequest)
    (ev : TableEvent) :
  gateway_changeTableState (gateway_tableState r) = r ∧
  account_changeTableState q (account_tableState q) = q ∧
  (∀ r' why, gateway_event r ev = Some (r', why) →
     match ev with
     | OnSort i d => ∃ c f, gateway_columns !! i = Some c ∧ col_sortable c = true ∧
         col_id c = sortField_str f ∧ why = ReasonSort ∧
         r' = {| lr_page := NInt 1; lr_search := lr_search r; lr_size := lr_size r;
                 lr_sortDirection := d; lr_sortField := f |}
     | OnSearch v => why = ReasonFilter ∧
         r' = {| lr_page := NInt 1; lr_search := v; lr_size := lr_size r;
                 lr_sortDirection := lr_sortDirection r; lr_sortField := lr_sortField r |}
     | OnClear => why = ReasonFilter ∧
         r' = {| lr_page := NInt 1; lr_search := []; lr_size := lr_size r;
                 lr_sortDirection := lr_sortDirection r; lr_sortField := lr_sortField r |}
     | OnSetPage p => why = ReasonPage ∧
         r' = {| lr_page := p; lr_search := lr_search r; lr_size := lr_size r;
                 lr_sortDirection := lr_sortDirection r; lr_sortField := lr_sortField r |}
     | OnPerPageSelect s => why = ReasonPageSize ∧
         r' = {| lr_page := NInt 1; lr_search := lr_search r; lr_size := s;
                 lr_sortDirection := lr_sortDirection r; lr_sortField := lr_sortField r |}
     end) ∧
  (∀ q' why, account_event q ev = Some (q', why) →
     (sl_page q' = match ev with OnSetPage p => p | _ => NInt 1 end) ∧
     (sl_search q' = match ev with OnSearch v => v | OnClear => [] | _ => sl_search q end) ∧
     (sl_size q' = match ev with OnPerPageSelect s => s | _ => sl_size q end) ∧
     (sl_status q' = match ev with OnClear => None | _ => sl_status q end) ∧
     match ev with
     | OnSort i d => ∃ c, account_columns !! i = Some c ∧
         col_id c = saSortField_str (sl_sort q') ∧ sl_order q' = d
     | _ => sl_sort q' = sl_sort q ∧ sl_order q' = sl_order q
     end).
Proof.
  split_and!.
  - destruct r as [p s z d f]. by destruct f.
  - destruct q as [o p s z f st]. by destruct f.
  - intros r' why. unfold gateway_event.
    intros ([n why'] & Hn & [= -> ->])%fmap_Some.
    destruct ev as [i d| | | |]; simpl in Hn; simplify_eq;
      try (by split; [done|]; unfold gateway_changeTableState; simpl; destruct (lr_sortField r)).
    destruct (gateway_columns !! i) as [c|] eqn:Hc; [|done].
    destruct (col_sortable c) eqn:Hs; [|done]. simplify_eq.
    destruct (gateway_columns_sortable i c Hc Hs) as (f & Hl & Hf).
    exists c, f. split_and!; [done..|].
    unfold gateway_changeTableState. cbn [ts_sortColumnId fst]. by rewrite Hl.
  - intros q' why. unfold account_event.
    destruct ev as [i d| | | |]; try (intros ([n why'] & Hn & [= -> ->])%fmap_Some);
      simpl in *; simplify_eq;
      try (by intros [= <- <-]); try (by split_and!; try done; simpl; destruct (sl_sort q)).
    destruct (account_columns !! i) as [c|] eqn:Hc; [|done].
    destruct (col_sortable c) eqn:Hs; [|done]. simplify_eq.
    destruct (account_columns_sortable i c Hc Hs) as (f & Hl & Hf).
    split_and!; [done..|]. exists c. split_and!; [done| |done].
    unfold literal_of in Hl. cbn [ts_sortColumnId]. by rewrite Hl.
Qed.

(** Every fetched gateway's wait is observed. For a page of distinct gateways the
    tracker holds afterwards, for each of them, the start its record resolves to
    from what was known before, whichever gateways come earlier on the page, and
    nothing changes for the others; and the page is polled exactly when one of its
    gateways needs it by that start. *)
Theorem every_gateway_observed (lower : jsstring → jsstring) (starts : gmap jsstring num)
    (items : list (GatewayRecord * num)) :
  NoDup (map (gr_id ∘ fst) items) →
  let (poll, starts') := shouldPollStatus lower starts items in
  (∀ g now, (g, now) ∈ items →
     starts' !! gr_id g = resolveConsoleWaitStart lower g now (starts !! gr_id g)) ∧
  (∀ i, i ∉ map (gr_id ∘ fst) items → starts' !! i = starts !! i) ∧
  (poll = true ↔ ∃ g now, (g, now) ∈ items ∧
     gatewayNeedsStatusPolling lower g
       (resolveConsoleWaitStart lower g now (starts !! gr_id g)) now = true).
Proof.
  unfold shouldPollStatus. revert starts.
  induction items as [|[g now] items IH]; intros starts Hn.
  { simpl. split_and!; [by intros ??[]%elem_of_nil|done|split; [done|]].
    by intros (? & ? & []%elem_of_nil & _). }
  inversion Hn as [|? ? Hg Hn']; subst. cbn [observe].
  pose proof (tracked_lookup lower starts (gr_id g) g now) as Ht.
  assert ((trackConsoleWait lower starts (gr_id g) g now).1 =
          resolveConsoleWaitStart lower g now (starts !! gr_id g)) as Hs by done.
  destruct (trackConsoleWait lower starts (gr_id g) g now) as [start starts1]. simpl in Ht, Hs.
  pose proof (observe_lookup_ne lower starts1 items (gr_id g) Hg) as Hne.
  specialize (IH starts1 Hn'). destruct (observe lower starts1 items) as [polls starts2].
  simpl in Hne. destruct IH as (IH1 & IH2 & IH3).
  assert (∀ g' now', (g', now') ∈ items → starts1 !! gr_id g' = starts !! gr_id g') as Hother.
  { intros g' now' Hin. rewrite Ht, decide_False; [done|]. intros He. destruct Hg. rewrite He.
    apply list_elem_of_fmap. by exists (g', now'). }
  split_and!.
  - intros g' now' [[= -> ->]|Hin]%elem_of_cons.
    + by rewrite Hne, Ht, decide_True.
    + rewrite (IH1 g' now' Hin). by rewrite (Hother g' now').
  - intros i Hi. rewrite IH2 by set_solver. rewrite Ht, decide_False; [done|]. set_solver.
  - simpl. rewrite orb_true_iff, IH3. unfold id. rewrite Hs. split.
    + intros [H|(g' & now' & Hin & H)]; [exists g, now; split; [left|congruence]|].
      exists g', now'. split; [by right|]. by rewrite <- (Hother g' now').
    + intros (g' & now' & [[= -> ->]|Hin]%elem_of_cons & H); [left; congruence|right].
      exists g', now'. split; [done|]. by rewrite (Hother g' now').
Qed.

(** Every cluster name on the page can be shown. The batch asked for is sorted,
    without repetition, and holds exactly the clusters of the gateways shown
    without a name; and once it is answered a gateway shows its own name or the name
    the answer gives to its cluster, and not-available only when the answer leaves
    its cluster out. *)
Theorem cluster_names_shown (items : list GatewayConnection) (placements : list GatewayPlacement) :
  let ids := placementClusterIds items in
  StronglySorted js_le ids ∧ NoDup ids ∧
  (∀ i, i ∈ ids ↔ ∃ g, g ∈ items ∧ truthy (gc_clusterId g) = Some i ∧
                       trim (gc_clusterName g) = []) ∧
  (∀ g, NoDup (map pl_id placements) →
     match collection_cluster_cell g false (placementNames placements) with
     | CellName n =>
         n = gc_clusterName g ∨ ∃ p, p ∈ placements ∧ gc_clusterId g = Some (pl_id p) ∧ n = pl_name p
     | CellLoading => False
     | CellNotAvailable => ∃ i, gc_clusterId g = Some i ∧ i ∉ map pl_id placements
     end).
Proof.
  intros ids. split_and!; [apply js_sort_sorted| | |].
  - unfold ids, placementClusterIds. rewrite js_sort_Permutation. apply NoDup_nub.
  - intros i. unfold ids, placementClusterIds.
    rewrite js_sort_Permutation, elem_of_nub, list_elem_of_fmap.
    split.
    + intros (g & -> & [[H1%bool_decide_eq_true H2%negb_true_iff]%andb_prop Hg]%list_elem_of_filter).
      exists g. split_and!; [done| |by destruct (trim (gc_clusterName g))].
      destruct (gc_clusterId g) as [[|c t]|]; simpl in *; [by destruct H1|done|by destruct H1].
    + intros (g & Hg & Hi & Hn). exists g. split.
      { by destruct (gc_clusterId g) as [[|c t]|]; simpl in *; simplify_eq. }
      apply list_elem_of_filter. split; [|done]. rewrite Hi, Hn.
      by rewrite bool_decide_eq_true_2 by by eexists.
  - intros g Hn. unfold collection_cluster_cell.
    destruct (truthy (gc_clusterId g)) as [i|] eqn:Hi; [|by left].
    assert (gc_clusterId g = Some i) as Hid
      by (by destruct (gc_clusterId g) as [[|c t]|]; simpl in *; simplify_eq).
    destruct (is_nonempty _); [by left|]. unfold placementNames.
    rewrite placementNames_lookup_acc by done.
    destruct (list_find _ placements) as [[k p]|] eqn:E; simpl.
    + right. apply list_find_Some in E as (Hk & Hp & _). exists p.
      split_and!; [by eapply list_elem_of_lookup_2|congruence|done].
    + rewrite lookup_empty. exists i. split; [done|]. apply list_find_None in E.
      intros (p & -> & Hp)%list_elem_of_fmap. rewrite Forall_forall in E. by eapply E.
Qed.

(** The tab in the address is the tab shown: writing a tab to the search parameters
    and reading them back gives that tab, and everything else in them is kept; an
    address without a tab, or with an unknown one, shows the connection tab. *)
Theorem tab_roundtrip (p : params) (tab : GatewayDetailTab) (k : jsstring) (v : option jsstring) :
  toGatewayDetailTab (url_get (onTabChange p tab) (js "tab")) = tab ∧
  (k ≠ js "tab" → url_get (onTabChange p tab) k = url_get p k) ∧
  ((∀ t, v ≠ Some (tab_str t)) → toGatewayDetailTab v = TabConnection).
Proof.
  unfold onTabChange. split_and!.
  - case_decide as H; [by rewrite url_get_delete, H|]. rewrite url_get_set by done.
    rewrite decide_True by done. by destruct tab.
  - intros Hk. case_decide; [by rewrite url_get_delete, decide_False|].
    rewrite url_get_set by done. by rewrite decide_False.
  - intros Hv. unfold toGatewayDetailTab. destruct (truthy v) as [s|] eqn:E; [|done].
    destruct (literal_of _ _ _) as [t|] eqn:Hl; [|done]. exfalso.
    apply literal_of_Some in Hl as [_ Hl]. apply (Hv t). rewrite Hl.
    by destruct v as [[|]|]; simpl in *.
Qed.

(** The accounts' table marks a column that does not sort it. A request sorted by
    creation time, which is the default and has no column of its own, is shown with
    the sort mark of the first column, the name. *)
Theorem created_sort_marks_name (r : ServiceAccountListRequest) :
  sl_sort r = SaCreatedAt →
  ∃ c, account_columns !! activeSortIndex account_columns (account_tableState r) = Some c ∧
    col_id c = saSortField_str SaName.
Proof. intros Hr. unfold activeSortIndex, account_tableState. rewrite Hr. by eexists. Qed.

Lemma created_sort_marks_name_witness :
  ∃ c, account_columns !! activeSortIndex account_columns
         (account_tableState defaultServiceAccountListRequest) = Some c ∧
    col_id c = saSortField_str SaName.
Proof. refine (created_sort_marks_name defaultServiceAccountListRequest _). reflexivity. Defined.

(** * Concrete inputs *)

Module Demo.
Definition gw (id phase : string) : GatewayRecord := {|
  gr_activeSandboxCount := None; gr_clusterId := []; gr_consoleUrl := None;
  gr_createdAt := None; gr_createdBy := None; gr_externalDns := Some (js "gw.example");
  gr_id := js id; gr_name := js id; gr_namespace := []; gr_oidcAudience := None;
  gr_oidcClientId := None; gr_oidcIssuer := None; gr_phase := Some (js phase);
  gr_releaseId := []; gr_status := None |}.

(** One being provisioned, and one running that awaits its console. *)
Definition page : list (GatewayRecord * num) :=
  [(gw "a" "provisioning", NInt 1000); (gw "b" "running", NInt 1001)].
Definition unknown : gmap jsstring num := ∅.
Definition starts : gmap jsstring num := (shouldPollStatus id unknown page).2.

Lemma every_gateway_observed_witness :
  starts !! js "b" = Some (NInt 1001) ∧
  (let (poll, starts') := shouldPollStatus id unknown page in
   (∀ g now, (g, now) ∈ page →
      starts' !! gr_id g = resolveConsoleWaitStart id g now (unknown !! gr_id g)) ∧
   (∀ i, i ∉ map (gr_id ∘ fst) page → starts' !! i = unknown !! i) ∧
   (poll = true ↔ ∃ g now, (g, now) ∈ page ∧
      gatewayNeedsStatusPolling id g
        (resolveConsoleWaitStart id g now (unknown !! gr_id g)) now = true)).
Proof.
  split; [vm_compute; reflexivity|].
  refine (every_gateway_observed id unknown page _). decide_fact.
Defined.
End Demo.
