(* ===== verification/Composition.v ===== *)
(** The composition root ([app/composition/gateway-composition.ts]): the trace
    sink, the observability adapter and the control-plane adapter wired into one
    set of use cases, and what a call through all of them does to the trace, to
    the recent probes and to the delivery counters.

    The telemetry runtime and the API client are packages the composition calls;
    they are arguments, and the record [console_ok] states what it relies on. *)
From S2P Require Export Observability TraceSink ApiAdapter.

(** The rest of the observability adapter's world: the map of the trace sink,
    whether the late-bound [reportDeliveryFailure] has been assigned, and the
    state [Y] of the platform, the telemetry runtime and the API client. *)
Record ConsoleExt (Sp Y : Type) := {
  cx_spans : SpanMap Sp;
  cx_wired : bool;
  cx_rest : Y
}.
Arguments cx_spans {Sp Y}.
Arguments cx_wired {Sp Y}.
Arguments cx_rest {Sp Y}.

Definition set_ext {X} (x : X) (w : ObsWorld X) : ObsWorld X := {|
  ow_failures := ow_failures w; ow_recent := ow_recent w; ow_health := ow_health w;
  ow_ext := x |}.

#[export] Instance console_lens Sp Y : Lens (ObsWorld (ConsoleExt Sp Y)) (SpanMap Sp).
Proof.
  refine {| lens_get w := cx_spans (ow_ext w);
            lens_put m w := set_ext {| cx_spans := m; cx_wired := cx_wired (ow_ext w);
                                       cx_rest := cx_rest (ow_ext w) |} w |}; done.
Defined.

Section composition.
Context {Sp Ctx Y : Type}.
Abbreviation World := (ObsWorld (ConsoleExt Sp Y)).
Context (otel : Otel World Sp Ctx)
  (createBrowserTelemetry : (jsstring → jsstring → M thrown World unit) → Telemetry World Ctx)
  (platform : Platform (ConsoleExt Sp Y))
  (JSON_parse : jsstring → option jsval)
  (createApiClient : M thrown World (GatewayApiClient World))
  (login : GatewayApiClient World → M thrown World unit).

(** [gatewayObservability.reportDeliveryFailure]: of the publisher, recording a
    failure reads the reporter and not the sinks. *)
Definition observability_report (failure : ProbeDeliveryFailure) : M thrown World unit :=
  reportDeliveryFailure (P := GatewayProbe)
    {| fo_failureReporter := failureReporter; fo_sinks := [] |} failure.

(** The variable [reportDeliveryFailure]: a no-op until it is assigned. *)
Definition late_report (failure : ProbeDeliveryFailure) : M thrown World unit := λ w,
  if cx_wired (ow_ext w) then observability_report failure w else (Ok tt, w).

Definition wire (w : World) : World :=
  set_ext {| cx_spans := cx_spans (ow_ext w); cx_wired := true;
             cx_rest := cx_rest (ow_ext w) |} w.

(** The state of the module before and after its top-level statements. *)
Definition unwired_console (y : Y) : World :=
  initial_obs {| cx_spans := ∅; cx_wired := false; cx_rest := y |}.
Definition initial_console (y : Y) : World := wire (unwired_console y).

Definition telemetry : Telemetry World Ctx :=
  createBrowserTelemetry (λ reason signal, late_report (export_failure reason signal)).

Definition tracing_sink : DomainProbeSink thrown World GatewayProbe :=
  createGatewayTracing otel telemetry.

Definition gatewayObservability : result thrown (GatewayObservability (ConsoleExt Sp Y)) :=
  createGatewayObservability platform {|
    oo_additionalSinks := Some [tracing_sink]; oo_createCorrelationId := None;
    oo_createTraceId := None; oo_now := None; oo_performanceTarget := None |}.

Definition traceparent_reader (correlationId : jsstring) : M thrown World (option jsstring) :=
  λ w, (Ok (tc_traceparent <$> traceParentFor otel w correlationId), w).

Definition gatewayControlPlane : GatewayControlPlane World :=
  createGatewayControlPlaneAdapter JSON_parse (λ _, createApiClient)
    (Some (createApiClient ≫= login)) (Some traceparent_reader).

Definition gatewayOperations : result thrown (GatewayOperations World) :=
  match gatewayObservability with
  | Err e => Err e
  | Ok obs => Ok (createGatewayOperations {|
      dep_controlPlane := gatewayControlPlane;
      dep_publish := go_publish obs;
      dep_runtime := go_runtime obs |})
  end.

(** * What the composition relies on *)

(** [wire] is what the API client has sent. *)
Context (tlog : Y → list (TraceEvent Sp Ctx)) {O : Type} (wire : Y → O).

Definition sent_by (w : World) : O := wire (cx_rest (ow_ext w)).

(** The adapter's recent probes and the wire are untouched, and its view stays
    consistent. *)
Definition kept (w w' : World) : Prop :=
  ow_recent w' = ow_recent w ∧ sent_by w' = sent_by w ∧ (obs_consistent w → obs_consistent w').

Definition keeps {A} (m : M thrown World A) : Prop := ∀ w r w', m w = (r, w') → kept w w'.

(** The calls the tracer has recorded. *)
Definition trace_log (w : World) : list (TraceEvent Sp Ctx) := tlog (cx_rest (ow_ext w)).

(** Neither the trace nor the sink's map changes either. *)
Definition silent_step (w w' : World) : Prop :=
  kept w w' ∧ trace_log w' = trace_log w ∧ cx_spans (ow_ext w') = cx_spans (ow_ext w).

Definition silent {A} (m : M thrown World A) : Prop :=
  ∀ w r w', m w = (r, w') → silent_step w w'.

Definition returns {A} (m : M thrown World A) : Prop := ∀ w, ∃ a w', m w = (Ok a, w').

(** The tracer, the logger and the counter do not use the API client, and touch the adapter
    only through [reportDeliveryFailure]; the logger and the counter do not throw; the platform
    gives identifiers, well-formed trace ids and times. The performance timeline may throw. *)
Record console_quiet : Prop := {
  co_startSpan n a k c : keeps (ot_startSpan otel n a k c);
  co_setAttribute s k v : keeps (ot_setAttribute otel s k v);
  co_setStatus s c : keeps (ot_setStatus otel s c);
  co_end s : keeps (ot_end otel s);
  co_begin t : keeps (tm_beginTrace telemetry t);
  co_emit b n a c : returns (tm_emit telemetry b n a c) ∧ silent (tm_emit telemetry b n a c);
  co_add n a c : returns (tm_add telemetry n a c) ∧ silent (tm_add telemetry n a c);
  co_clearMarks n : silent (perf_clearMarks (pf_performance platform) n);
  co_mark n p : silent (perf_mark (pf_performance platform) n p);
  co_uuid : returns (pf_randomUUID platform) ∧ silent (pf_randomUUID platform);
  co_traceId : (∀ w, ∃ t w', pf_generateTraceId platform w = (Ok t, w') ∧ hex_id 32 t) ∧
    silent (pf_generateTraceId platform);
  co_now : returns (pf_nowISO platform) ∧ silent (pf_nowISO platform)
}.

(** And the tracer meets its contract. *)
Record console_ok : Prop := {
  co_otel : otel_ok trace_log otel (tm_beginTrace telemetry);
  co_quiet :> console_quiet
}.

(** * Lemmas *)

Lemma kept_refl w : kept w w.
Proof. by split. Qed.

Lemma kept_trans w1 w2 w3 : kept w1 w2 → kept w2 w3 → kept w1 w3.
Proof. intros (R1 & W1 & C1) (R2 & W2 & C2). split_and!; [congruence..|auto]. Qed.

Lemma silent_refl w : silent_step w w.
Proof. split_and!; [apply kept_refl|done..]. Qed.

Lemma silent_trans w1 w2 w3 : silent_step w1 w2 → silent_step w2 w3 → silent_step w1 w3.
Proof.
  intros (K1 & L1 & S1) (K2 & L2 & S2). split_and!; [by eapply kept_trans|congruence..].
Qed.

Lemma keeps_ret {A} (a : A) : keeps (mret a).
Proof. intros w r w' [= <- <-]. apply kept_refl. Qed.

Lemma keeps_bind {A B} (m : M thrown World A) (f : A → M thrown World B) :
  keeps m → (∀ a, keeps (f a)) → keeps (m ≫= f).
Proof.
  intros Hm Hf w r w'. unfold mbind, M_bind. destruct (m w) as [[a|e] w1] eqn:E; intros H.
  - eapply kept_trans; [by eapply Hm|by eapply Hf].
  - inversion H; subst. by eapply Hm.
Qed.

Lemma silent_bind {A B} (m : M thrown World A) (f : A → M thrown World B) :
  silent m → (∀ a, silent (f a)) → silent (m ≫= f).
Proof.
  intros Hm Hf w r w'. unfold mbind, M_bind. destruct (m w) as [[a|e] w1] eqn:E; intros H.
  - eapply silent_trans; [by eapply Hm|by eapply Hf].
  - inversion H; subst. by eapply Hm.
Qed.

Lemma keeps_when_some {A} (o : option A) (f : A → M thrown World unit) :
  (∀ a, keeps (f a)) → keeps (when_some o f).
Proof. intros Hf. destruct o; [apply Hf|apply keeps_ret]. Qed.

Lemma keeps_get : keeps (get_spans (W := World) (Sp := Sp)).
Proof. intros w r w' [= <- <-]. apply kept_refl. Qed.

Lemma keeps_put (m : SpanMap Sp) : keeps (put_spans (W := World) m).
Proof. intros w r w' [= <- <-]. split_and!; [done|done|exact id]. Qed.

Lemma keeps_active : keeps (active otel).
Proof. intros w r w' [= <- <-]. apply kept_refl. Qed.

Lemma recordFailure_silent fo f :
  fo_failureReporter fo = failureReporter → silent (recordFailure (P := GatewayProbe) fo f).
Proof.
  intros Hr w r w' H. pose proof (recordFailure_recent fo f w r w' Hr H) as Hrec.
  pose proof (λ Hc, recordFailure_consistent fo f Hr w r w' Hc H) as Hcons.
  revert H. unfold recordFailure, mbind, M_bind, modify_health, try_catch. rewrite Hr.
  unfold failureReporter. intros [= _ <-]. by split_and!.
Qed.

(** The late-bound reporter is the adapter's. *)
Lemma observability_report_spec obs f w :
  gatewayObservability = Ok obs → go_reportDeliveryFailure obs f w = observability_report f w.
Proof.
  intros Hobs. destruct (createGatewayObservability_inv _ _ _ Hobs) as (fo & _ & -> & _ & Hr & _).
  unfold observability_report, reportDeliveryFailure, recordFailure. simpl. by rewrite Hr.
Qed.

Lemma late_report_silent f : silent (late_report f).
Proof.
  intros w r w'. unfold late_report. destruct (cx_wired (ow_ext w)).
  - by apply recordFailure_silent.
  - intros [= <- <-]. apply silent_refl.
Qed.

Section ok.
Context (Hok : console_ok).

Local Lemma Hquiet : console_quiet.
Proof using Hok. apply Hok. Qed.

Ltac keeps :=
  repeat first
    [ apply keeps_ret | apply keeps_get | apply keeps_put | apply keeps_active
    | apply co_startSpan | apply co_setAttribute | apply co_setStatus | apply co_end
    | apply co_begin | exact Hquiet | apply keeps_when_some; intros | apply keeps_bind; intros
    | assumption | case_match ].

Lemma trace_publish_keeps p : keeps (trace_publish otel (tm_beginTrace telemetry) p).
Proof using Hok.
  unfold trace_publish, startWorkflow, startDependency, completeDependency, completeWorkflow,
    set_dependency, applyTerminalOutcome.
  destruct (pb_name p); keeps.
Qed.

Abbreviation traced p w w' :=
  (trace_step otel p (trace_log w) (cx_spans (ow_ext w)) (trace_log w') (cx_spans (ow_ext w'))).

Lemma project_step p w : traceable p → ∃ w', trace_publish otel (tm_beginTrace telemetry) p w = (Ok tt, w') ∧
  traced p w w' ∧ kept w w'.
Proof using Hok.
  intros Hp. destruct (trace_publish_step trace_log otel _ (co_otel Hok) p w Hp) as (w' & H & S).
  exists w'. split_and!; [done|done|]. by eapply trace_publish_keeps.
Qed.

Lemma observe_silent p (k : M thrown World unit) w : ∃ w',
  ((λ w, (Ok (log_context otel w p), w)) ≫= λ ctx,
   tm_emit telemetry (probeName_str (pb_name p))
     (if isFailureOutcome (pb_outcome p) then 17%N else 9%N) (probe_attributes p) ctx ≫= λ _,
   tm_add telemetry 1%N (probe_attributes p) ctx ≫= λ _, k) w = k w' ∧ silent_step w w'.
Proof using Hok.
  unfold mbind at 1, M_bind at 1. set (ctx := log_context otel w p).
  set (n := if isFailureOutcome _ then _ else _).
  destruct (co_emit Hok (probeName_str (pb_name p)) n (probe_attributes p) ctx) as [R S].
  destruct (R w) as ([] & w1 & H1). rewrite (M_bind_ok _ _ _ _ _ H1).
  destruct (co_add Hok 1%N (probe_attributes p) ctx) as [R' S'].
  destruct (R' w1) as ([] & w2 & H2). rewrite (M_bind_ok _ _ _ _ _ H2).
  exists w2. split; [done|]. eapply silent_trans; [by eapply S|by eapply S'].
Qed.

Lemma traced_silent_l p w w1 w2 : silent_step w w1 → traced p w1 w2 → traced p w w2.
Proof. by intros (_ & -> & ->). Qed.

Lemma traced_silent_r p w w1 w2 : traced p w w1 → silent_step w1 w2 → traced p w w2.
Proof. by intros ? (_ & -> & ->). Qed.

(** The sink of the composition projects the probe, before or after the log. *)
Lemma tracing_publish_step p w : traceable p →
  ∃ w', tracing_publish otel telemetry p w = (Ok tt, w') ∧ traced p w w' ∧ kept w w'.
Proof using Hok.
  intros Hp. unfold tracing_publish. destruct (starts p).
  - destruct (project_step p w Hp) as (w1 & H1 & T1 & K1). rewrite (M_bind_ok _ _ _ _ _ H1).
    destruct (observe_silent p (mret tt) w1) as (w2 & H2 & S2). exists w2. split_and!.
    + exact H2.
    + by eapply traced_silent_r.
    + eapply kept_trans; [done|apply S2].
  - destruct (observe_silent p (trace_publish otel (tm_beginTrace telemetry) p) w)
      as (w1 & H1 & S1).
    destruct (project_step p w1 Hp) as (w2 & H2 & T2 & K2). exists w2. split_and!.
    + rewrite <- H2, <- H1. done.
    + by eapply traced_silent_l.
    + eapply kept_trans; [apply S1|done].
Qed.

Lemma gatewayObservability_ok : ∃ obs, gatewayObservability = Ok obs.
Proof using.
  clear Hok. unfold gatewayObservability, createGatewayObservability. rewrite newFanOut_spec.
  rewrite decide_True; [by eexists|]. simpl. split_and!; [lia|..].
  - repeat constructor; done.
  - apply (bool_decide_unpack _). vm_compute. done.
Qed.

Lemma deliver_silent fo p s :
  fo_failureReporter fo = failureReporter → silent (sink_publish s p) → silent (deliver fo p s).
Proof using.
  clear Hok. intros Hr Hs w r w'. unfold deliver, try_catch.
  destruct (sink_publish s p w) as [[[]|e] w1] eqn:E; intros H.
  - inversion H; subst. by eapply Hs.
  - eapply silent_trans; [by eapply Hs|]. by eapply recordFailure_silent.
Qed.

Lemma deliver_ok fo p s (w w' : World) :
  sink_publish s p w = (Ok tt, w') → deliver fo p s w = (Ok tt, w').
Proof using. clear Hok. intros H. unfold deliver, try_catch. by rewrite H. Qed.

(** What publishing one probe does. *)
Lemma console_publish obs p w : gatewayObservability = Ok obs → traceable p →
  ∃ w', go_publish obs p w = (Ok tt, w') ∧ traced p w w' ∧
    ow_recent w' = lastn recentProbeLimit (ow_recent w ++ [p]) ∧ sent_by w' = sent_by w ∧
    (obs_consistent w → obs_consistent w').
Proof using Hok.
  intros Hobs Hp. destruct (createGatewayObservability_inv _ _ _ Hobs) as (fo & -> & _ & _ & Hr & Hs).
  simpl in Hs. unfold fanOut_publish. rewrite Hs. cbn [deliver_all].
  destruct (sink_publish recentSink p w) as [r1 w1] eqn:E1.
  pose proof (λ Hc, recentSink_consistent p w r1 w1 Hc E1) as C1. injection E1 as <- <-.
  set (w1 := {| ow_failures := _ |}) in *.
  assert (deliver fo p recentSink w = (Ok tt, w1)) as D1 by done.
  rewrite (M_bind_ok _ _ _ _ _ D1).
  destruct (tracing_publish_step p w1 Hp) as (w2 & H2 & T2 & R2 & W2 & C2).
  rewrite (M_bind_ok _ _ _ _ _ (deliver_ok fo p tracing_sink w1 w2 H2)).
  set (perf := performanceSink _). destruct (deliver_total fo p perf w2) as (w3 & H3).
  assert (silent_step w2 w3) as S3.
  { eapply deliver_silent; [done| |done]. apply silent_bind; [apply co_clearMarks, Hok|].
    intros []. apply co_mark, Hok. }
  rewrite (M_bind_ok _ _ _ _ _ H3). exists w3. split_and!; [done| | | |].
  - by apply (traced_silent_r p w w2 w3).
  - destruct S3 as ((-> & _) & _). rewrite R2. apply appendBounded_lastn.
  - destruct S3 as ((_ & -> & _) & _). by rewrite W2.
  - intros Hc. apply S3, C2, C1, Hc.
Qed.

(** * Sequences of probes *)

Lemma trace_steps_app ps qs l m l' m' l'' m'' :
  trace_steps otel ps l m l' m' → trace_steps otel qs l' m' l'' m'' →
  trace_steps otel (ps ++ qs) l m l'' m''.
Proof using. clear Hok. induction 1; [done|]. intros. econstructor; eauto. Qed.

(** The probes [ps] were published between [w] and [w']. *)
Definition console_step (ps : list GatewayProbe) (w w' : World) : Prop :=
  trace_steps otel ps (trace_log w) (cx_spans (ow_ext w)) (trace_log w') (cx_spans (ow_ext w')) ∧
  sent_by w' = sent_by w ∧
  (obs_consistent w →
   obs_consistent w' ∧ ow_recent w' = lastn recentProbeLimit (ow_recent w ++ ps)).

Lemma silent_console_step w w' : silent_step w w' → console_step [] w w'.
Proof using.
  clear Hok. intros ((Hr & Hs & Hc) & Hl & Hm). split_and!; [rewrite Hl, Hm; constructor|done|].
  intros Hw. split; [auto|]. rewrite app_nil_r, Hr. symmetry. apply lastn_all, Hw.
Qed.

Lemma console_read {A} (m : M thrown World A) w :
  returns m ∧ silent m → ∃ a w', m w = (Ok a, w') ∧ console_step [] w w'.
Proof using.
  clear Hok. intros [Hr Hs]. destruct (Hr w) as (a & w' & H). exists a, w'. split; [done|].
  by eapply silent_console_step, Hs.
Qed.

Lemma console_steps_ok obs cp : gatewayObservability = Ok obs →
  steps_ok {| dep_controlPlane := cp; dep_publish := go_publish obs;
              dep_runtime := go_runtime obs |} (hex_id 32) console_step.
Proof using Hok.
  intros Hobs. pose proof Hobs as Hrt. unfold gatewayObservability, createGatewayObservability in Hrt.
  destruct (newFanOut _ _ _) as [fo|]; [|done]. injection Hrt as <-. split.
  - intros ps qs w w' w'' (T1 & W1 & C1) (T2 & W2 & C2). split_and!; [by eapply trace_steps_app|congruence|].
    intros Hc. destruct (C1 Hc) as [Hc' L1]. destruct (C2 Hc') as [Hc'' L2].
    split; [done|]. rewrite L2, L1, lastn_lastn_app, <- (assoc_L (++)); [done|].
    unfold recentProbeLimit; lia.
  - intros w. apply console_read, Hok.
  - intros w. destruct (co_traceId Hok) as [Hr Hs]. destruct (Hr w) as (t & w' & H & Ht).
    exists t, w'. split_and!; [done| |done]. by eapply silent_console_step, Hs.
  - intros w. apply console_read, Hok.
  - intros p w Hp. destruct (console_publish _ p w Hobs Hp) as (w' & H & T & L & S & C).
    exists w'. split; [done|]. split_and!; [|done|by auto].
    econstructor; [done|constructor].
Qed.

Lemma operations_steps ops {T} (call : GatewayCall T) sg w : gatewayOperations = Ok ops →
  ∃ c t t1 t2 t3 t4 w1 r w2 w3,
    run_controlPlane gatewayControlPlane call
      {| ctx_correlationId := c; ctx_signal := sg |} w1 = (r, w2) ∧
    run_operation ops call sg w = (r, w3) ∧
    console_step (start_probes (call_action call) c t t1 t2) w w1 ∧
    console_step (end_probes (call_action call) c t t3 t4 r) w2 w3.
Proof using Hok.
  unfold gatewayOperations. destruct gatewayObservability as [obs|] eqn:Hobs; [|done].
  intros [= <-]. rewrite run_operation_execute. eapply execute_steps.
  by apply console_steps_ok.
Qed.
End ok.
End composition.

Arguments console_step {Sp Ctx Y} otel tlog {O} wire ps w w'.
Arguments sent_by {Sp Y O} wire w.
Arguments trace_log {Sp Ctx Y} tlog w.

(** * The spans of one call *)

Section call_spans.
Context {W Sp Ctx : Type} (otel : Otel W Sp Ctx).
Implicit Types (l : list (TraceEvent Sp Ctx)) (m : SpanMap Sp).

(** A root workflow span, then its dependency. *)
Definition opened (a : GatewayAction) (s d : Sp) (ambient : Ctx) : list (TraceEvent Sp Ctx) :=
  let attributes := [(js "gateway.action", action_str a)] in
  [EvStart s (js "gateway.workflow." ++ action_str a) attributes INTERNAL (ot_ROOT_CONTEXT otel);
   EvStart d (js "gateway.dependency." ++ action_str a) attributes CLIENT
     (ot_setSpan otel ambient s)].

(** Each span reports its probe's outcome and ends, the dependency first. *)
Definition closed (s d : Sp) (ps : list GatewayProbe) : list (TraceEvent Sp Ctx) :=
  match ps with
  | [p; q] => outcome_events d p ++ [EvEnd d] ++ outcome_events s q ++ [EvEnd s]
  | _ => []
  end.

Lemma start_probes_spans a c t t1 t2 l m l' m' :
  trace_steps otel (start_probes a c t t1 t2) l m l' m' → ∃ s d ambient,
    (s ∉ started l) ∧ (d ∉ started l) ∧ d ≠ s ∧ belongs otel s t ∧ belongs otel d t ∧
    l' = l ++ opened a s d ambient ∧
    m' = <[c := {| se_workflow := s; se_dependency := Some d |}]> m.
Proof.
  intros H. inversion H as [|p ps ? ? l1 m1 ? ? S1 H1]; subst; clear H.
  inversion H1 as [|p ps ? ? l2 m2 ? ? S2 H2]; subst; clear H1.
  inversion H2; subst; clear H2.
  inversion S1 as [s parent Hn Hs Hp Ht| | | | |]; subst; simpl in *; try done.
  rewrite Hp in S2 by done. specialize (Ht t eq_refl). clear S1.
  inversion S2 as [|Hm|e d ambient Hn' He Hd Hd'| | |]; subst; simpl in *; try done.
  - by rewrite lookup_insert_eq in Hm.
  - rewrite lookup_insert_eq in He. injection He as <-.
    exists s, d, ambient. rewrite started_app in Hd. simpl in Hd.
    split_and!; [done|set_solver|set_solver|done|by apply Hd'| |by rewrite insert_insert_eq].
    by rewrite <- (assoc_L (++)).
Qed.

(** A completed dependency, then a completed workflow, of one correlation id. *)
Lemma closing_steps p q s d l m l' m' :
  pb_name p = DependencyCompleted → pb_name q = WorkflowCompleted →
  pb_correlationId q = pb_correlationId p →
  m !! pb_correlationId p = Some {| se_workflow := s; se_dependency := Some d |} →
  trace_steps otel [p; q] l m l' m' →
  l' = l ++ closed s d [p; q] ∧ m' = delete (pb_correlationId p) m.
Proof.
  intros Hp Hq Hpq Hc H. inversion H as [|? ? ? ? l1 m1 ? ? S1 H1]; subst; clear H.
  inversion H1 as [|? ? ? ? l2 m2 ? ? S2 H2]; subst; clear H1.
  inversion H2; subst; clear H2.
  inversion S1 as [| | |e' Hn He Hd|e' d' Hn He Hd|]; subst; clear S1; try congruence;
    (assert (e' = {| se_workflow := s; se_dependency := Some d |}) by congruence; subst e';
     simpl in Hd; simplify_eq).
  inversion S2 as [|Hm| | | |e'' Hn' He']; subst; clear S2; rewrite ?Hpq in *; try congruence;
    [by rewrite lookup_insert_eq in Hm|]. rewrite lookup_insert_eq in He'. injection He' as <-.
  split; [|by rewrite delete_insert_eq]. unfold closed. cbn [se_dependency se_workflow].
  by rewrite <- !(assoc_L (++)).
Qed.

Lemma end_probes_spans {T} a c t t1 t2 (r : result thrown T) s d l m l' m' :
  m !! c = Some {| se_workflow := s; se_dependency := Some d |} →
  trace_steps otel (end_probes a c t t1 t2 r) l m l' m' →
  l' = l ++ closed s d (end_probes a c t t1 t2 r) ∧ m' = delete c m.
Proof. intros Hc H. destruct r; by apply (closing_steps _ _ s d) in H. Qed.
End call_spans.

(** * Properties *)

Section properties.
Context {Sp Ctx Y : Type}.
Abbreviation World := (ObsWorld (ConsoleExt Sp Y)).


(** Through the composition, the adapter's view stays consistent whatever the
    telemetry runtime reports and whether or not the performance timeline throws:
    up to the request the last hundred probes are those kept before and the two
    start probes, and after it those kept when the request settled and the two
    terminal probes of its result. *)
Theorem console_call_recorded (otel : Otel World Sp Ctx) createBrowserTelemetry platform
    JSON_parse createApiClient login (tlog : Y → list (TraceEvent Sp Ctx)) {O : Type} (wire : Y → O)
    {T : Type} ops (call : GatewayCall T) (sg : option AbortSignal) (w : World) :
  console_ok otel createBrowserTelemetry platform tlog wire →
  gatewayOperations otel createBrowserTelemetry platform JSON_parse createApiClient login
    = Ok ops →
  obs_consistent w →
  ∃ c t t1 t2 t3 t4 w1 r w2 w3,
    run_controlPlane (gatewayControlPlane otel JSON_parse createApiClient login) call
      {| ctx_correlationId := c; ctx_signal := sg |} w1 = (r, w2) ∧
    run_operation ops call sg w = (r, w3) ∧
    obs_consistent w1 ∧
    ow_recent w1 = lastn recentProbeLimit
      (ow_recent w ++ start_probes (call_action call) c t t1 t2) ∧
    (obs_consistent w2 → obs_consistent w3 ∧
     ow_recent w3 = lastn recentProbeLimit
       (ow_recent w2 ++ end_probes (call_action call) c t t3 t4 r)).
Proof.
  intros Hok Hops Hw.
  destruct (operations_steps otel createBrowserTelemetry platform JSON_parse createApiClient login
    tlog wire Hok ops call sg w Hops) as (c & t & t1 & t2 & t3 & t4 & w1 & r & w2 & w3 & H1 & H2 &
    (_ & _ & C1) & (_ & _ & C2)).
  destruct (C1 Hw) as [Hw1 R1].
  exists c, t, t1, t2, t3, t4, w1, r, w2, w3. by split_and!.
Qed.
End properties.

(** * A concrete console, for the witnesses *)

Module DemoConsole.

(** The platform's state is the tracer's record of calls, the trace id that was primed,
    and the state [R] of the API client. *)
Import DemoTracer.

Section demo.
Context {R : Type}.

Record Y := {
  dy_calls : list (TraceEvent Span (option Span)); dy_next : option jsstring; dy_rest : R }.

Definition world : Type := ObsWorld (ConsoleExt Span Y).

Definition put_rest (y : Y) (w : world) : world :=
  set_ext {| cx_spans := cx_spans (ow_ext w); cx_wired := cx_wired (ow_ext w); cx_rest := y |} w.

Definition emit (e : TraceEvent Span (option Span)) : M thrown world unit := λ w,
  let y := cx_rest (ow_ext w) in
  (Ok tt, put_rest {| dy_calls := dy_calls y ++ [e]; dy_next := dy_next y; dy_rest := dy_rest y |} w).

(** A primed id is used by the next root. *)
Definition start_span n a k (c : option Span) : M thrown world Span := λ w,
  let y := cx_rest (ow_ext w) in
  let s := {| sp_number := fresh_number (dy_calls y); sp_context := context_of c (dy_next y) |} in
  (Ok s, put_rest {| dy_calls := dy_calls y ++ [EvStart s n a k c];
                     dy_next := if c is Some _ then dy_next y else None; dy_rest := dy_rest y |} w).

Definition prime (t : jsstring) : M thrown world unit := λ w,
  let y := cx_rest (ow_ext w) in
  (Ok tt, put_rest {| dy_calls := dy_calls y; dy_next := Some t; dy_rest := dy_rest y |} w).

Definition otel : Otel world Span (option Span) := {|
  ot_startSpan := start_span;
  ot_setAttribute s k v := emit (EvAttribute s k v);
  ot_setStatus s c := emit (EvStatus s c);
  ot_end s := emit (EvEnd s);
  ot_spanContext _ s := sp_context s;
  ot_active _ := None; ot_ROOT_CONTEXT := None; ot_setSpan _ s := Some s;
  ot_setSpanContext c _ := c; ot_isSpanContextValid _ := true |}.

(** The runtime loses every log record and says so. *)
Definition createBrowserTelemetry (report : jsstring → jsstring → M thrown world unit) :
    Telemetry world (option Span) := {|
  tm_emit _ _ _ _ := report (js "queue_full") (js "logs");
  tm_add _ _ _ := mret tt;
  tm_beginTrace := prime |}.

Definition platform : Platform (ConsoleExt Span Y) := {|
  pf_performance := {| perf_clearMarks _ := mret tt;
                       perf_mark _ _ := throw (ThrowError (js "QuotaExceededError")) |};
  pf_randomUUID := mret (js "00000000-0000-4000-8000-000000000000");
  pf_generateTraceId := mret (js "0af7651916cd43dd8448eb211c80319c");
  pf_nowISO := mret (js "2026-01-01T00:00:00.000Z") |}.

Definition signed_out : SDKError := {|
  sdk_code := js "reauth_required"; sdk_status := NInt 401; sdk_apiCode := None |}.

Definition refuse {T} : M thrown world T := throw (ThrowSDK signed_out).

Definition client : GatewayApiClient world := {|
  api_createGateway _ _ := refuse; api_deleteGateway _ _ := refuse;
  api_getGateway _ _ := refuse; api_listGateways _ _ := refuse;
  api_renameGateway _ _ _ := refuse; api_getManagedCluster _ _ := refuse;
  api_listManagedClusters _ _ := refuse; api_createServiceAccount _ _ _ := refuse;
  api_deleteServiceAccount _ _ _ := refuse; api_getServiceAccount _ _ _ := refuse;
  api_listServiceAccounts _ _ _ := refuse; api_revokeServiceAccount _ _ _ := refuse |}.

Context {O : Type} (wire : R → O).

Lemma silent_ret {A} (a : A) : silent dy_calls (λ y : Y, wire (dy_rest y)) (mret a : M thrown world A).
Proof. intros w r w' [= <- <-]. apply silent_refl. Qed.

Lemma emit_keeps e : keeps (λ y : Y, wire (dy_rest y)) (emit e).
Proof. intros w r w' [= <- <-]. by split. Qed.

Lemma late_report_returns f : returns (late_report (Sp := Span) (Y := Y) f).
Proof.
  intros w. unfold late_report. destruct (cx_wired (ow_ext w)); [|by eexists _, _].
  destruct (recordFailure_total (P := GatewayProbe)
    {| fo_failureReporter := failureReporter; fo_sinks := [] |} f w) as [w' H].
  exists tt, w'. exact H.
Qed.

Lemma demo_otel : otel_ok (trace_log dy_calls) otel prime.
Proof.
  split; [split|..]; try (intros; eexists; split_and!; done); try done.
  - intros w n a k c. eexists _, _. split_and!; try done. by apply fresh_number_new.
  - intros w n a k ambient s d w' t Ht [= <- _] w0. exact (Ht w0).
  - by intros w t w1 n a k s w2 _ [= <-] [= <- _] w0.
Qed.

Lemma demo_ok : console_ok otel createBrowserTelemetry platform dy_calls (λ y : Y, wire (dy_rest y)).
Proof.
  split; [apply demo_otel|].
  split; intros; try apply emit_keeps; try (split; [by intros w; eexists _, w|apply silent_ret]);
    try (by intros w r w' [= <- <-]).
  split; [apply late_report_returns|apply late_report_silent].
Qed.

End demo.

Arguments Y : clear implicits.
Arguments dy_calls {R}.
Arguments dy_next {R}.
Arguments dy_rest {R}.
Arguments world : clear implicits.

Definition start : world unit := initial_console {| dy_calls := []; dy_next := None; dy_rest := tt |}.

Definition ops_result := gatewayOperations (otel (R := unit)) createBrowserTelemetry platform (λ _, None)
  (mret client) (λ _, mret tt).

(** The call fails as denied, its two spans have ended, and the losses the
    telemetry runtime and the timeline reported have been counted. *)
Example denied_call :
  match ops_result with
  | Ok ops =>
      let w := snd (run_operation ops (CallGetGateway (js "g")) None start) in
      cx_spans (ow_ext w) = ∅ ∧ map sp_number (ended (trace_log dy_calls w)) = [2; 1] ∧
      map pb_outcome (ow_recent w) = [OStarted; OStarted; ODenied; ODenied] ∧
      hs_deliveryFailureCount (ow_health w) = 8%N
  | Err _ => False
  end.
Proof. vm_compute. done. Qed.


Lemma console_call_recorded_witness : ∃ ops (c t t1 t2 t3 t4 : jsstring) (w1 : world unit) r w2 w3,
  run_controlPlane (gatewayControlPlane (otel (R := unit)) (λ _, None) (mret client) (λ _, mret tt))
    (CallGetGateway (js "g")) {| ctx_correlationId := c; ctx_signal := None |} w1 = (r, w2) ∧
  run_operation ops (CallGetGateway (js "g")) None start = (r, w3) ∧
  obs_consistent w1 ∧
  ow_recent w1 = lastn recentProbeLimit (ow_recent start ++ start_probes AGet c t t1 t2) ∧
  (obs_consistent w2 → obs_consistent w3 ∧
   ow_recent w3 = lastn recentProbeLimit (ow_recent w2 ++ end_probes AGet c t t3 t4 r)).
Proof.
  destruct ops_result as [ops|] eqn:E; [|done]. exists ops.
  refine (console_call_recorded (otel (R := unit)) createBrowserTelemetry platform (λ _, None) (mret client)
    (λ _, mret tt) dy_calls (λ y : Y unit, dy_rest y) ops (CallGetGateway (js "g")) None start (demo_ok (λ r, r)) E _).
  split_and!; done || (simpl; lia).
Defined.
End DemoConsole.
