(* ===== verification/Shell.v ===== *)
(** The application shell's own state: the session resource
    ([adapters/session/session-adapter.ts]) and what the masthead shows of it
    ([features/shell/user-menu.tsx]), the colour scheme
    ([features/shell/use-color-scheme.ts]) and the move of the focus to the
    heading of a new page ([features/shell/route-focus.ts]). *)
From S2P Require Export StateMachine ApiAdapter.

(** * The session *)

(** The session resource as the API client returns it. *)
Record SessionUserValue := {
  su_email : option jsstring;
  su_name : option jsstring;
  su_preferred_username : option jsstring;
  su_sub : option jsstring
}.

Record SessionValue := {
  sv_authenticated : bool;
  sv_expires_at : option num;
  sv_roles : list jsstring;
  sv_user : option SessionUserValue
}.

Record BrowserSessionUser := {
  bu_email : option jsstring;
  bu_name : option jsstring;
  bu_preferredUsername : option jsstring;
  bu_sub : option jsstring
}.

Record BrowserSession := {
  bs_authenticated : bool;
  bs_expiresAt : option num;
  bs_roles : list jsstring;
  bs_user : option BrowserSessionUser
}.

Definition toBrowserSession (value : SessionValue) : BrowserSession := {|
  bs_authenticated := sv_authenticated value;
  bs_expiresAt := sv_expires_at value;
  bs_roles := sv_roles value;
  bs_user := (λ u, {| bu_email := su_email u; bu_name := su_name u;
                      bu_preferredUsername := su_preferred_username u;
                      bu_sub := su_sub u |}) <$> sv_user value |}.

(** The client's [session] call, given the options object if a signal was given. *)
Definition SessionClient (W : Type) : Type := option RequestOptions → M thrown W SessionValue.

Definition getSession {W} (createBrowserClient : M thrown W (SessionClient W))
    (client : option (SessionClient W)) (signal : option AbortSignal) :
    M thrown W BrowserSession :=
  match client with Some c => mret c | None => createBrowserClient end ≫= λ session,
  session ((λ s, {| ro_signal := Some s; ro_traceparent := None |}) <$> signal) ≫= λ value,
  mret (toBrowserSession value).

Inductive IdentityMenu :=
| MenuHidden
| MenuNamed (displayName : jsstring)
| MenuAccount.

(** [UserMenu]: what the masthead shows of the query's data. *)
Definition identityMenu (session : option BrowserSession) : IdentityMenu :=
  match session with
  | Some s =>
      if bs_authenticated s then
        let field f := bs_user s ≫= f in
        match field bu_name, field bu_preferredUsername, field bu_email with
        | Some n, _, _ => MenuNamed n
        | None, Some n, _ => MenuNamed n
        | None, None, Some n => MenuNamed n
        | None, None, None => MenuAccount
        end
      else MenuHidden
  | None => MenuHidden
  end.

(** * The colour scheme *)

Inductive ColorScheme := Light | Dark.

#[export] Instance ColorScheme_eq_dec : EqDecision ColorScheme.
Proof. solve_decision. Defined.

Definition scheme_str (c : ColorScheme) : jsstring :=
  match c with Light => js "light" | Dark => js "dark" end.

(** The page's class, [localStorage] (what it holds under the key, and whether
    reading and writing it work), the system's preference, and whether the hook
    is mounted. *)
Record SchemeState := {
  ss_class : ColorScheme;
  ss_stored : option jsstring;
  ss_readable : bool;
  ss_writable : bool;
  ss_system : ColorScheme;
  ss_subscribed : bool
}.

Definition readPreference (s : SchemeState) : ColorScheme :=
  match (if ss_readable s then ss_stored s else None) with
  | Some v => if decide (v = js "dark") then Dark
              else if decide (v = js "light") then Light
              else ss_system s
  | None => ss_system s
  end.

Definition applyScheme (c : ColorScheme) (s : SchemeState) : SchemeState := {|
  ss_class := c; ss_stored := ss_stored s; ss_readable := ss_readable s;
  ss_writable := ss_writable s; ss_system := ss_system s; ss_subscribed := ss_subscribed s |}.

(** The listener of the system's preference: it yields to a stored value. *)
Definition onSystemChange (s : SchemeState) : SchemeState :=
  match (if ss_readable s then ss_stored s else None) with
  | Some (_ :: _) => s
  | _ => applyScheme (ss_system s) s
  end.

Definition setItem (v : jsstring) (s : SchemeState) : SchemeState :=
  if ss_writable s then {|
    ss_class := ss_class s; ss_stored := Some v; ss_readable := ss_readable s;
    ss_writable := ss_writable s; ss_system := ss_system s; ss_subscribed := ss_subscribed s |}
  else s.

Definition toggle (s : SchemeState) : SchemeState :=
  let next := match ss_class s with Dark => Light | Light => Dark end in
  setItem (scheme_str next) (applyScheme next s).

Definition set_system (c : ColorScheme) (s : SchemeState) : SchemeState := {|
  ss_class := ss_class s; ss_stored := ss_stored s; ss_readable := ss_readable s;
  ss_writable := ss_writable s; ss_system := c; ss_subscribed := ss_subscribed s |}.

Definition set_subscribed (b : bool) (s : SchemeState) : SchemeState := {|
  ss_class := ss_class s; ss_stored := ss_stored s; ss_readable := ss_readable s;
  ss_writable := ss_writable s; ss_system := ss_system s; ss_subscribed := b |}.

Inductive SchemeEvent :=
| EvLoad
| EvSubscribe
| EvUnsubscribe
| EvSystem (c : ColorScheme)
| EvToggle.

(** The module's top level on [EvLoad]; a change of the system's preference
    reaches the listener only while the hook is mounted, and so does a click. *)
Definition scheme_step (s : SchemeState) (ev : SchemeEvent) : option (SchemeState * list unit) :=
  match ev with
  | EvLoad => let fresh := set_subscribed false s in
              Some (applyScheme (readPreference fresh) fresh, [])
  | EvSubscribe => Some (set_subscribed true s, [])
  | EvUnsubscribe => Some (set_subscribed false s, [])
  | EvSystem c =>
      let s := set_system c s in
      Some (if ss_subscribed s then onSystemChange s else s, [])
  | EvToggle => if ss_subscribed s then Some (toggle s, []) else None
  end.

(** The same, when the system's preference changes only while the hook is
    mounted. *)
Definition attended_step (s : SchemeState) (ev : SchemeEvent) :
    option (SchemeState * list unit) :=
  match ev with
  | EvSystem _ => if ss_subscribed s then scheme_step s ev else None
  | _ => scheme_step s ev
  end.

(** A stored value the hook could have written. *)
Definition own_preference (o : option jsstring) : Prop :=
  match o with Some v => v = js "dark" ∨ v = js "light" | None => True end.

(** Storage works, and the page shows what loading it again would show. *)
Definition scheme_ok (s : SchemeState) : Prop :=
  ss_readable s = true ∧ ss_writable s = true ∧ own_preference (ss_stored s) ∧
  ss_class s = readPreference s.

Lemma readPreference_applyScheme c s : readPreference (applyScheme c s) = readPreference s.
Proof. done. Qed.

Lemma readPreference_stored c s :
  ss_readable s = true → ss_stored s = Some (scheme_str c) → readPreference s = c.
Proof. intros Hr Hs. unfold readPreference. rewrite Hr, Hs. by destruct c. Qed.

Lemma onSystemChange_ok s :
  ss_readable s = true → ss_writable s = true → own_preference (ss_stored s) →
  (is_Some (ss_stored s) → ss_class s = readPreference s) → scheme_ok (onSystemChange s).
Proof.
  intros Hr Hw Ho Hc. unfold onSystemChange. rewrite Hr.
  destruct (ss_stored s) as [v|] eqn:Hs.
  - destruct v as [|x v]; [by destruct Ho|]. split_and!; try done; [by rewrite Hs|].
    apply Hc. by eexists.
  - split_and!; try done; simpl; [by rewrite Hs|].
    rewrite readPreference_applyScheme. unfold readPreference. by rewrite Hr, Hs.
Qed.

Lemma toggle_ok s : scheme_ok s → scheme_ok (toggle s).
Proof.
  intros (Hr & Hw & Ho & Hc). unfold toggle, setItem. simpl. rewrite Hw.
  set (next := match ss_class s with Dark => Light | Light => Dark end).
  split_and!; try done; simpl; [by destruct next; [right|left]|].
  symmetry. by apply readPreference_stored.
Qed.

Lemma attended_step_ok s ev s' out :
  attended_step s ev = Some (s', out) → scheme_ok s → scheme_ok s'.
Proof.
  intros Hstep Hok. pose proof Hok as (Hr & Hw & Ho & Hc).
  destruct ev as [| | |c|]; simpl in Hstep.
  1-3: by injection Hstep as <- _.
  - destruct (ss_subscribed s) eqn:Hsub; [|done]. simpl in Hstep. injection Hstep as <- _.
    apply onSystemChange_ok; try done. intros [v Hv]. simpl in *.
    rewrite Hc. unfold readPreference. simpl. rewrite Hr, Hv. rewrite Hv in Ho.
    by destruct Ho as [-> | ->].
  - destruct (ss_subscribed s); [|done]. injection Hstep as <- _. by apply toggle_ok.
Qed.

(** A click shows the other scheme and, where storage works, remembers it. *)
Lemma toggle_remembers s :
  ss_class (toggle s) ≠ ss_class s ∧
  (ss_writable s = true → ss_stored (toggle s) = Some (scheme_str (ss_class (toggle s)))) ∧
  (ss_writable s = false → ss_stored (toggle s) = ss_stored s).
Proof. unfold toggle, setItem. simpl. destruct (ss_writable s), (ss_class s); by split_and!. Qed.

(** A stored value that is neither scheme keeps the page from following the
    system, although loading the page ignores it. *)
Lemma foreign_value_freezes s c v :
  ss_readable s = true → ss_subscribed s = true → ss_stored s = Some v → v ≠ [] →
  ¬ own_preference (Some v) →
  ∃ s', scheme_step s (EvSystem c) = Some (s', []) ∧ ss_class s' = ss_class s ∧
    readPreference s' = c.
Proof.
  intros Hr Hsub Hs Hv Hown. simpl. rewrite Hsub. eexists. split; [done|].
  unfold onSystemChange, readPreference. simpl. rewrite Hr, Hs.
  destruct v as [|x v]; [done|]. simpl. rewrite Hr, Hs.
  split; [done|]. rewrite !decide_False; [done|..]; intros E; apply Hown; [by right|by left].
Qed.

(** * The focus of a new page *)

Section route_focus.
Context {Path Heading : Type} `{!EqDecision Path}.

(** The ref [previousPath] and whether the effect's observer is connected. *)
Record FocusState := {
  fs_previousPath : Path;
  fs_observing : bool
}.

(** A render with a path, given what the document then has of a main element and
    its heading; a change below the main element; the end of the hook. *)
Inductive FocusEvent :=
| EvRender (pathname : Path) (main : bool) (heading : option Heading)
| EvMutation (heading : option Heading)
| EvUnmount.

Definition focusPageHeading (heading : option Heading) : list Heading := option_list heading.

Definition useRouteHeadingFocus (s : FocusState) (ev : FocusEvent) :
    option (FocusState * list Heading) :=
  match ev with
  | EvRender pathname main heading =>
      if decide (fs_previousPath s = pathname) then Some (s, [])
      else
        let s' observing := {| fs_previousPath := pathname; fs_observing := observing |} in
        match heading with
        | Some h => Some (s' false, focusPageHeading heading)
        | None => Some (s' main, [])
        end
  | EvMutation heading =>
      if fs_observing s then
        Some ({| fs_previousPath := fs_previousPath s;
                 fs_observing := if heading is Some _ then false else true |},
              focusPageHeading heading)
      else None
  | EvUnmount => Some ({| fs_previousPath := fs_previousPath s; fs_observing := false |}, [])
  end.

Definition mounted (p : Path) : FocusState :=
  {| fs_previousPath := p; fs_observing := false |}.

(** The navigations of a run: renders with another path than the one before. *)
Fixpoint navigations (p : Path) (evs : list FocusEvent) : nat :=
  match evs with
  | [] => 0
  | EvRender q _ _ :: evs => (if decide (p = q) then 0 else 1) + navigations q evs
  | _ :: evs => navigations p evs
  end.

(** The focus moves at most once for each navigation, and not after the last
    one has been served. *)
Theorem focus_moves_once (s : FocusState) (evs : list FocusEvent) (s' : FocusState)
    (out : list Heading) :
  run useRouteHeadingFocus s evs s' out →
  length out + (if fs_observing s' then 1 else 0) ≤
    navigations (fs_previousPath s) evs + (if fs_observing s then 1 else 0).
Proof.
  induction 1 as [s|s ev s' out evs s'' out' Hs _ IH]; [simpl; lia|].
  rewrite length_app. destruct ev as [q main h|h|]; simpl in *.
  - destruct (decide (fs_previousPath s = q)); [simplify_eq/=; lia|].
    destruct h; simplify_eq/=; [lia|]. destruct main, (fs_observing s); lia.
  - destruct (fs_observing s); [|done]. destruct h; simplify_eq/=; lia.
  - simplify_eq/=. lia.
Qed.
End route_focus.

(** * Properties *)

(** While storage works and the hook is mounted whenever the system's preference
    changes, the page always shows the scheme that loading it again would show,
    through any sequence of loads, toggles and system changes. Hence a scheme
    once chosen stays until the next toggle whatever the system prefers, and
    without a choice the page follows the system. *)
Theorem scheme_follows_preference (s : SchemeState) (evs : list SchemeEvent)
    (s' : SchemeState) (out : list unit) :
  ss_readable s = true → ss_writable s = true → own_preference (ss_stored s) →
  run attended_step s (EvLoad :: evs) s' out →
  ss_class s' = readPreference s' ∧
  (ss_stored s' = None → ss_class s' = ss_system s') ∧
  (EvToggle ∉ evs → ∀ c, ss_stored s = Some (scheme_str c) → ss_class s' = c).
Proof.
  intros Hr Hw Ho H. inversion H as [|? ? s1 ? ? ? out' Hs Hrun]; subst; clear H.
  simpl in Hs. injection Hs as <- _.
  set (s1 := applyScheme _ _) in Hrun.
  assert (scheme_ok s1) as Hok1 by done.
  pose proof (run_invariant _ scheme_ok attended_step_ok _ _ _ _ Hrun Hok1)
    as (Hr' & _ & _ & Hc').
  split_and!; [done| |].
  - intros Hn. rewrite Hc'. unfold readPreference. by rewrite Hr', Hn.
  - intros Hno c Hst. rewrite Hc'. apply readPreference_stored; [done|].
    assert (ss_stored s1 = Some (scheme_str c)) as Hst1 by done.
    clear -Hrun Hno Hst1. induction Hrun as [|s2 ev s3 o evs s4 o' Hs _ IH]; [done|].
    apply IH; [set_solver|]. destruct ev as [| | |d|]; simpl in Hs;
      [by injection Hs as <- _..| |by destruct Hno; left].
    destruct (ss_subscribed s2) eqn:E; [|done]. simpl in Hs. injection Hs as <- _.
    unfold onSystemChange. simpl. by repeat case_match.
Qed.

(** The system turns dark, the user goes back to light, the system turns light
    and dark again. *)
Lemma scheme_follows_preference_witness :
  let s := {| ss_class := Light; ss_stored := None; ss_readable := true; ss_writable := true;
              ss_system := Light; ss_subscribed := false |} in
  let evs := [EvSubscribe; EvSystem Dark; EvToggle; EvSystem Light; EvSystem Dark] in
  ∃ s' out, ss_class s' = Light ∧ ss_system s' = Dark ∧ ss_class s' = readPreference s' ∧
    (ss_stored s' = None → ss_class s' = ss_system s') ∧
    (EvToggle ∉ evs → ∀ c, ss_stored s = Some (scheme_str c) → ss_class s' = c) ∧
    run attended_step s (EvLoad :: evs) s' out.
Proof.
  intros s evs.
  destruct (play attended_step s (EvLoad :: evs)) as [[s' out]|] eqn:E; [|vm_compute in E; done].
  pose proof (proj1 (play_run _ _ _ _ _) E) as Hrun. exists s', out.
  vm_compute in E. injection E as <- <-.
  split; [done|]. split; [done|].
  refine (_ (scheme_follows_preference s evs _ _ eq_refl eq_refl I Hrun)).
  by intros (H1 & H2 & H3).
Defined.
