(* ===== verification/SdkSchema.v ===== *)
(** The schema check of the generated API client ([out/tssdk/index.js]:
    [dateTime], [annotation], [validate]). A schema is what the OpenAPI contract
    declares; the check walks a value against it under three bounds: 48 levels of
    schema, a hundred thousand visits and 32 Mi code points of text.

    The specification is [conforms], which has no bounds. Accepted values conform;
    and where a schema's [measure] exists (it is finite and offers no alternatives,
    as all of the contract's are) the check decides conformance whenever the
    budget covers the measure. *)
From S2P Require Export SdkJson.

(** * Date-times *)

(** Exactly [n] digits. *)
Fixpoint take_n_digits (n : nat) (s : jsstring) : option (jsstring * jsstring) :=
  match n, s with
  | O, _ => Some ([], s)
  | S n', c :: t =>
      if is_digit c then r ← take_n_digits n' t; Some (c :: r.1, r.2) else None
  | S _, [] => None
  end.

Definition take_number (n : nat) (s : jsstring) : option (Z * jsstring) :=
  r ← take_n_digits n s; Some (digits_value r.1, r.2).

(** One unit of a class. *)
Definition take_unit (p : N → bool) (s : jsstring) : option jsstring :=
  match s with c :: t => if p c then Some t else None | [] => None end.

Record DateTimeMatch := {
  m_year : Z; m_month : Z; m_day : Z; m_hour : Z; m_minute : Z; m_second : Z;
  m_offset : option (Z * Z)
}.

(** The zone at the end of the text: [Z], or an offset in hours and minutes. *)
Definition match_zone (s : jsstring) : option (option (Z * Z)) :=
  match s with
  | [c] => if ((c =? 90) || (c =? 122))%N then Some None else None
  | c :: t =>
      if ((c =? 43) || (c =? 45))%N then
        h ← take_number 2 t; r ← take_unit (N.eqb 58) h.2; m ← take_number 2 r;
        match m.2 with [] => Some (Some (h.1, m.1)) | _ => None end
      else None
  | [] => None
  end.

Definition match_date_time (s : jsstring) : option DateTimeMatch :=
  y ← take_number 4 s; r ← take_unit (N.eqb 45) y.2;
  mo ← take_number 2 r; r ← take_unit (N.eqb 45) mo.2;
  d ← take_number 2 r; r ← take_unit (λ c, (c =? 84) || (c =? 116))%N d.2;
  h ← take_number 2 r; r ← take_unit (N.eqb 58) h.2;
  mi ← take_number 2 r; r ← take_unit (N.eqb 58) mi.2;
  se ← take_number 2 r;
  zone ← match_zone (fraction_part se.2).2;
  Some {| m_year := y.1; m_month := mo.1; m_day := d.1; m_hour := h.1; m_minute := mi.1;
          m_second := se.1; m_offset := zone |}.

Definition leap_year (y : Z) : bool :=
  ((y mod 4 =? 0) && (negb (y mod 100 =? 0) || (y mod 400 =? 0)))%Z.

Definition month_days (y : Z) : list Z :=
  [31; if leap_year y then 29 else 28; 31; 30; 31; 30; 31; 31; 30; 31; 30; 31]%Z.

(** [days[month - 1]] is only read for a month between 1 and 12. *)
Definition dateTime (s : jsstring) : bool :=
  match match_date_time s with
  | None => false
  | Some m =>
      ((1 <=? m_month m) && (m_month m <=? 12) && (1 <=? m_day m) &&
       (m_day m <=? nth (Z.to_nat (m_month m - 1)) (month_days (m_year m)) 0) &&
       (m_hour m <? 24) && (m_minute m <? 60) && (m_second m <=? 60) &&
       match m_offset m with Some (h, mi) => (h <? 24) && (mi <? 60) | None => true end)%Z
  end.

(** * Schemas *)

Inductive SchemaType := TString | TNumber | TInteger | TBoolean | TArray | TObject.

#[export] Instance SchemaType_eq_dec : EqDecision SchemaType.
Proof. solve_decision. Defined.

(** The formats the contract uses; a password is not checked further. *)
Inductive SchemaFormat := FDateTime | FUri | FInt32 | FPassword.

#[export] Instance SchemaFormat_eq_dec : EqDecision SchemaFormat.
Proof. solve_decision. Defined.

(** A schema object: absent fields are [None], or [false] for a flag. *)
Unset Elimination Schemes.
Inductive Schema := {
  s_ref : option jsstring;
  s_allOf : option (list Schema);
  s_anyOf : option (list Schema);
  s_oneOf : option (list Schema);
  s_enum : option (list jsval);
  s_type : option SchemaType;
  s_nullable : bool;
  s_format : option SchemaFormat;
  s_minLength : option Z;
  s_maxLength : option Z;
  s_minimum : option num;
  s_maximum : option num;
  s_exclusiveMinimum : bool;
  s_exclusiveMaximum : bool;
  s_items : option Schema;
  s_minItems : option Z;
  s_maxItems : option Z;
  s_properties : option (list (jsstring * Schema));
  s_required : option (list jsstring);
  s_additionalProperties : option (bool + Schema);
  s_minProperties : option Z;
  s_maxProperties : option Z;
  s_readOnly : bool;
  s_writeOnly : bool
}.
Set Elimination Schemes.

Inductive Direction := Request | Response.

#[export] Instance Direction_eq_dec : EqDecision Direction.
Proof. solve_decision. Defined.

(** * Comparing JSON texts *)

#[export] Instance jsval_eq_dec : EqDecision jsval.
Proof.
  refine (fix go a b := let _ : EqDecision jsval := @go in
    match a, b return Decision (a = b) with
    | VUndef, VUndef | VNull, VNull => left eq_refl
    | VBool x, VBool y => cast_if (decide (x = y))
    | VNum x, VNum y => cast_if (decide (x = y))
    | VStr x, VStr y => cast_if (decide (x = y))
    | VArr x, VArr y => cast_if (decide (x = y))
    | VObj x, VObj y => cast_if (decide (x = y))
    | _, _ => right _
    end); abstract congruence.
Defined.

(** The value that [JSON.stringify] writes: no property and no element is
    [undefined], and numbers that are not finite are written as [null]. Its text
    determines this value, and the value its text. *)
Fixpoint written (v : jsval) : option jsval :=
  match v with
  | VUndef => None
  | VNum n => Some (if is_finite n then VNum n else VNull)
  | VArr l => Some (VArr (map (λ v, default VNull (written v)) l))
  | VObj l => Some (VObj (omap (λ p, v ← written p.2; Some (p.1, v)) l))
  | _ => Some v
  end.

(** [JSON.stringify(a) === JSON.stringify(b)] *)
Definition same_json (a b : jsval) : bool := bool_decide (written a = written b).

(** * The budget *)

Record Budget := { bd_nodes : Z; bd_chars : Z }.

Definition maxResponse : Z := 4194304.    (* 4 << 20 *)

Definition initial_budget : Budget := {| bd_nodes := 100000; bd_chars := 8 * maxResponse |}.

(** A check that spends of the budget, whatever its answer. *)
Definition check : Type := Budget → bool * Budget.

Definition pass : check := λ b, (true, b).
Definition reject : check := λ b, (false, b).
Definition test (t : bool) : check := λ b, (t, b).

(** [if (!m) return false; k] *)
Definition and_then (m k : check) : check := λ b,
  match m b with (true, b') => k b' | (false, b') => (false, b') end.

(** [--budget.nodes < 0] *)
Definition spend_node : check := λ b,
  (negb (bd_nodes b - 1 <? 0)%Z, {| bd_nodes := bd_nodes b - 1; bd_chars := bd_chars b |}).

(** The loop over a text's code points, which stops once the budget is below 0. *)
Definition spend_chars (n : Z) : check := λ b,
  if (n =? 0)%Z then (true, b)
  else if (bd_chars b <? n)%Z
  then (false, {| bd_nodes := bd_nodes b; bd_chars := Z.min (-1) (bd_chars b - 1) |})
  else (true, {| bd_nodes := bd_nodes b; bd_chars := bd_chars b - n |}).

Section combinators.
Context {A : Type} (f : A → check).

Fixpoint every (l : list A) : check :=
  match l with [] => pass | a :: l' => and_then (f a) (every l') end.

Fixpoint some (l : list A) : check := λ b,
  match l with
  | [] => (false, b)
  | a :: l' => match f a b with (true, b') => (true, b') | (false, b') => some l' b' end
  end.

(** [l.filter(f).length] *)
Fixpoint count_true (l : list A) : Budget → nat * Budget := λ b,
  match l with
  | [] => (0, b)
  | a :: l' =>
      let '(ok, b1) := f a b in let '(n, b2) := count_true l' b1 in
      (if ok then S n else n, b2)
  end.
End combinators.

(** * The check *)

Definition within (lo hi : option Z) (n : Z) : bool :=
  match lo with Some m => negb (n <? m)%Z | None => true end &&
  match hi with Some m => negb (m <? n)%Z | None => true end.

Definition length_Z {A} (l : list A) : Z := Z.of_nat (length l).

(** The code points of a text, as its iterator yields them. *)
Fixpoint code_points (s : jsstring) : Z :=
  match s with
  | [] => 0
  | c :: t =>
      match t with
      | n :: t' => if is_high c && is_low n then 1 + code_points t' else 1 + code_points t
      | [] => 1
      end
  end%Z.

(** The units of [/[^A-Za-z0-9\-._~:/?#\[\]@!$&'()*+,;=%]/] are the others. *)
Definition is_uri_unit (c : N) : bool :=
  is_digit c || ((65 <=? c) && (c <=? 90))%N || ((97 <=? c) && (c <=? 122))%N ||
  bool_decide (c ∈ js "-._~:/?#[]@!$&'()*+,;=%").

(** No percent sign without two hexadecimal digits after it. *)
Fixpoint percent_ok (s : jsstring) : bool :=
  match s with
  | [] => true
  | c :: t =>
      (if (c =? 37)%N
       then match t with
            | a :: b :: _ => bool_decide (is_Some (hex_value a)) && bool_decide (is_Some (hex_value b))
            | _ => false
            end
       else true) && percent_ok t
  end.

Section validate.
Context (models : list (jsstring * Schema))
  (validURL : jsstring → bool)   (* [new URL(text)] does not throw *)
  (direction : Direction).

(** [contract.models[schema.$ref.slice("#/components/schemas/".length)]] *)
Definition resolve (r : jsstring) : option Schema := prop_get models (drop 21 r).

(** The empty text is no reference. *)
Definition ref_of (s : Schema) : option jsstring := s_ref s ≫= λ r, if r is [] then None else Some r.

(** A chain of references longer than the list of models would be a cycle, on
    which the loop never ends. *)
Fixpoint annotation_loop (fuel : nat) (schema : option Schema) : option Schema :=
  match schema with
  | Some s =>
      match ref_of s, fuel with
      | None, _ => Some s
      | Some r, S fuel' => annotation_loop fuel' (resolve r)
      | Some _, O => None
      end
  | None => None
  end.

Definition annotation (schema : option Schema) : option Schema :=
  annotation_loop (S (length models)) schema.

(** The property does not travel in this direction. *)
Definition hidden (field : Schema) : bool :=
  match direction with Request => s_readOnly field | Response => s_writeOnly field end.

Definition string_ok (s : Schema) (x : jsstring) : bool :=
  within (s_minLength s) (s_maxLength s) (code_points x) &&
  (if decide (s_format s = Some FDateTime) then dateTime x else true) &&
  (if decide (s_format s = Some FUri)
   then forallb is_uri_unit x && percent_ok x && validURL x else true).

Definition check_string (s : Schema) (data : jsval) : check :=
  match data with
  | VStr x =>
      and_then (test (unicode x)) (and_then (spend_chars (code_points x)) (test (string_ok s x)))
  | _ => reject
  end.

Definition number_ok (s : Schema) (data : num) : bool :=
  is_finite data &&
  (if decide (s_type s = Some TInteger) then is_safe_integer data else true) &&
  (if decide (s_format s = Some FInt32)
   then is_integer data && negb (num_lt data (NInt (-2147483648)))
        && negb (num_gt data (NInt 2147483647)) else true) &&
  match s_minimum s with
  | Some m => negb (num_lt data m || s_exclusiveMinimum s && num_eqb data m)
  | None => true
  end &&
  match s_maximum s with
  | Some m => negb (num_gt data m || s_exclusiveMaximum s && num_eqb data m)
  | None => true
  end.

Definition props_of (s : Schema) : list (jsstring * Schema) := default [] (s_properties s).

(** A required property that travels in this direction must be there. *)
Definition required_ok (s : Schema) (l : list (jsstring * jsval)) (name : jsstring) : bool :=
  match annotation (prop_get (props_of s) name) with
  | Some field => hidden field || bool_decide (is_Some (prop_get l name))
  | None => bool_decide (is_Some (prop_get l name))
  end.

Section step.
Context (validate : option Schema → jsval → check).

Definition check_array (s : Schema) (data : jsval) : check :=
  match data with
  | VArr l => and_then (test (within (s_minItems s) (s_maxItems s) (length_Z l)))
                (every (validate (s_items s)) l)
  | _ => reject
  end.

(** One property of the value, by the schema's property of that name. *)
Definition check_property (s : Schema) (p : jsstring * jsval) : check :=
  match prop_get (props_of s) p.1 with
  | Some f =>
      match annotation (Some f) with
      | Some field => and_then (test (negb (hidden field))) (validate (Some field) p.2)
      | None => reject
      end
  | None =>
      match s_additionalProperties s with
      | None | Some (inl true) => pass
      | Some (inl false) => reject
      | Some (inr a) => validate (Some a) p.2
      end
  end.

Definition check_object (s : Schema) (data : jsval) : check :=
  match data with
  | VObj l =>
      and_then (test (within (s_minProperties s) (s_maxProperties s) (length_Z l)))
        (and_then (test (forallb (required_ok s l) (default [] (s_required s))))
           (every (check_property s) l))
  | _ => reject
  end.

(** The part of the check that depends on the schema's type. *)
Definition check_type (s : Schema) (data : jsval) : check :=
  match data, s_type s with
  | VNull, t => test (bool_decide (t = None) || s_nullable s)
  | _, None => pass
  | _, Some TString => check_string s data
  | _, Some TNumber | _, Some TInteger =>
      match data with VNum n => test (number_ok s n) | _ => reject end
  | _, Some TBoolean => match data with VBool _ => pass | _ => reject end
  | _, Some TArray => check_array s data
  | _, Some TObject => check_object s data
  end.

Definition check_schema (s : Schema) (data : jsval) : check :=
  match ref_of s with
  | Some r => validate (resolve r) data
  | None =>
      and_then match s_allOf s with Some l => every (λ s', validate (Some s') data) l | None => pass end
     (and_then match s_anyOf s with Some l => some (λ s', validate (Some s') data) l | None => pass end
     (and_then match s_oneOf s with
               | Some l => λ b, let '(n, b') := count_true (λ s', validate (Some s') data) l b in
                                (bool_decide (n = 1), b')
               | None => pass
               end
     (and_then match s_enum s with
               | Some l => test (existsb (λ v, same_json v data) l)
               | None => pass
               end
        (check_type s data))))
  end.
End step.

(** [validate], with the levels left: a call at [depth] has [49 - depth]. *)
Fixpoint validate (levels : nat) (schema : option Schema) (data : jsval) : check :=
  match schema, data, levels with
  | None, _, _ | _, VUndef, _ | _, _, O => reject
  | Some s, _, S levels' => and_then spend_node (check_schema (validate levels') s data)
  end.

(** [validate(schema, data, direction)] *)
Definition validates (schema : option Schema) (data : jsval) : bool :=
  (validate 49 schema data initial_budget).1.

(** * Conformance *)

(** A value is of a schema, without bounds on depth, visits or text. Where
    alternatives are exclusive, the check also wants no second one to be met. *)
Unset Elimination Schemes.
Inductive conforms : Schema → jsval → Prop :=
| cf_ref s r s' v : ref_of s = Some r → resolve r = Some s' → conforms s' v → conforms s v
| cf_node s v : ref_of s = None → v ≠ VUndef →
    (∀ l, s_allOf s = Some l → Forall (λ s', conforms s' v) l) →
    (∀ l, s_anyOf s = Some l → Exists (λ s', conforms s' v) l) →
    (∀ l, s_oneOf s = Some l → Exists (λ s', conforms s' v) l) →
    (∀ l, s_enum s = Some l → Exists (λ e, same_json e v = true) l) →
    typed s v → conforms s v
with typed : Schema → jsval → Prop :=
| ty_null s : s_type s = None ∨ s_nullable s = true → typed s VNull
| ty_any s v : s_type s = None → typed s v
| ty_string s x : s_type s = Some TString → unicode x = true → string_ok s x = true →
    typed s (VStr x)
| ty_number s n : s_type s = Some TNumber ∨ s_type s = Some TInteger → number_ok s n = true →
    typed s (VNum n)
| ty_boolean s b : s_type s = Some TBoolean → typed s (VBool b)
| ty_array s l : s_type s = Some TArray →
    within (s_minItems s) (s_maxItems s) (length_Z l) = true →
    Forall (λ v, ∃ s', s_items s = Some s' ∧ conforms s' v) l → typed s (VArr l)
| ty_object s l : s_type s = Some TObject →
    within (s_minProperties s) (s_maxProperties s) (length_Z l) = true →
    Forall (λ name, required_ok s l name = true) (default [] (s_required s)) →
    Forall (λ p, (∀ f, prop_get (props_of s) p.1 = Some f → ∃ field,
                    annotation (Some f) = Some field ∧ hidden field = false ∧
                    conforms field p.2) ∧
                 (prop_get (props_of s) p.1 = None →
                    s_additionalProperties s ≠ Some (inl false) ∧
                    ∀ a, s_additionalProperties s = Some (inr a) → conforms a p.2)) l →
    typed s (VObj l).
Set Elimination Schemes.
End validate.

(** * Lemmas: inversion of conformance *)

Section inversion.
Context (models : list (jsstring * Schema)) (validURL : jsstring → bool) (direction : Direction).

(** A property conforms to the schema's property of its name, or to what the
    schema says of the others. *)
Definition property_conforms (s : Schema) (p : jsstring * jsval) : Prop :=
  (∀ f, prop_get (props_of s) p.1 = Some f → ∃ field,
     annotation models (Some f) = Some field ∧ hidden direction field = false ∧
     conforms models validURL direction field p.2) ∧
  (prop_get (props_of s) p.1 = None →
     s_additionalProperties s ≠ Some (inl false) ∧
     ∀ a, s_additionalProperties s = Some (inr a) → conforms models validURL direction a p.2).

Lemma typed_inv s v : typed models validURL direction s v →
  s_type s = None ∨
  match v with
  | VUndef => False
  | VNull => s_nullable s = true
  | VBool _ => s_type s = Some TBoolean
  | VNum n => (s_type s = Some TNumber ∨ s_type s = Some TInteger) ∧ number_ok s n = true
  | VStr x => s_type s = Some TString ∧ unicode x = true ∧ string_ok validURL s x = true
  | VArr l => s_type s = Some TArray ∧
      within (s_minItems s) (s_maxItems s) (length_Z l) = true ∧
      Forall (λ v, ∃ s', s_items s = Some s' ∧ conforms models validURL direction s' v) l
  | VObj l => s_type s = Some TObject ∧
      within (s_minProperties s) (s_maxProperties s) (length_Z l) = true ∧
      Forall (λ name, required_ok models direction s l name = true) (default [] (s_required s)) ∧
      Forall (property_conforms s) l
  end.
Proof. destruct 1 as [s [Hs|Hs]| | | | | |]; first [by left|right]; repeat split; auto. Qed.

(** A schema without reference meets the value itself. *)
Lemma conforms_node s v : conforms models validURL direction s v → ref_of s = None →
  v ≠ VUndef ∧
  (∀ l, s_allOf s = Some l → Forall (λ s', conforms models validURL direction s' v) l) ∧
  (∀ l, s_enum s = Some l → Exists (λ e, same_json e v = true) l) ∧
  typed models validURL direction s v.
Proof. destruct 1; [congruence|done]. Qed.

(** One with a reference stands for what it refers to. *)
Lemma conforms_ref s v r : conforms models validURL direction s v → ref_of s = Some r →
  ∃ s', resolve models r = Some s' ∧ conforms models validURL direction s' v.
Proof. destruct 1; intros; simplify_eq; eauto. Qed.

Lemma conforms_defined s v : conforms models validURL direction s v → v ≠ VUndef.
Proof.
  revert s v. fix IH 3. intros s v [s' r s'' v' Hr Hs Hc|s' v' Hr Hv]; [exact (IH _ _ Hc)|exact Hv].
Qed.
End inversion.

(** * Lemmas: accepted values conform *)

Lemma and_then_true m k b : (and_then m k b).1 = true → (m b).1 = true ∧ ∃ b', (k b').1 = true.
Proof. unfold and_then. destruct (m b) as [[] b']; simpl; eauto. done. Qed.

Lemma every_true {A} (f : A → check) l b :
  (every f l b).1 = true → Forall (λ a, ∃ b', (f a b').1 = true) l.
Proof.
  revert b. induction l as [|a l IH]; intros b H; [constructor|].
  apply and_then_true in H as (Ha & b' & Hl). constructor; eauto.
Qed.

Lemma some_true {A} (f : A → check) l b :
  (some f l b).1 = true → Exists (λ a, ∃ b', (f a b').1 = true) l.
Proof.
  revert b. induction l as [|a l IH]; intros b H; [done|]. cbn in H.
  destruct (f a b) as [[] b'] eqn:Ha; [|eauto using Exists_cons_tl].
  apply Exists_cons_hd. exists b. by rewrite Ha.
Qed.

Lemma count_pos {A} (f : A → check) l b :
  (count_true f l b).1 ≠ 0 → Exists (λ a, ∃ b', (f a b').1 = true) l.
Proof.
  revert b. induction l as [|a l IH]; intros b H; [done|]. cbn in H.
  destruct (f a b) as [[] b'] eqn:Ha.
  - apply Exists_cons_hd. exists b. by rewrite Ha.
  - apply Exists_cons_tl, (IH b'). by destruct (count_true f l b').
Qed.

Section sound.
Context (models : list (jsstring * Schema)) (validURL : jsstring → bool) (direction : Direction).

Abbreviation validate := (validate models validURL direction).
Abbreviation conforms := (conforms models validURL direction).
Abbreviation typed := (typed models validURL direction).

(** What a recursive call promises. *)
Definition sound_check (val : option Schema → jsval → check) : Prop := ∀ s v b,
  (val s v b).1 = true → ∃ s', s = Some s' ∧ conforms s' v.

Section step.
Context (val : option Schema → jsval → check) (Hval : sound_check val).

Lemma val_conforms s v b : (val (Some s) v b).1 = true → conforms s v.
Proof. by intros (s' & [= <-] & H)%Hval. Qed.

Lemma check_property_sound s p b :
  (check_property models direction val s p b).1 = true →
  property_conforms models validURL direction s p.
Proof.
  unfold check_property, property_conforms. destruct (prop_get _ p.1) as [f|].
  - destruct (annotation _ _) as [field|] eqn:Ha; [|done].
    intros (Hh & b' & Hv)%and_then_true. split; [|done]. intros ? [= <-].
    exists field. split_and!; [done| |by eapply val_conforms].
    by apply negb_true_iff.
  - intros H. split; [done|]. intros _.
    destruct (s_additionalProperties s) as [[[]|a]|]; try done.
    split; [done|]. intros ? [= <-]. by eapply val_conforms.
Qed.

Lemma check_type_sound s v b : v ≠ VUndef →
  (check_type models validURL direction val s v b).1 = true → typed s v.
Proof.
  intros Hv H. destruct v as [| |x|n|x|l|l]; [done| |..]; cbn in H.
  - apply ty_null. by rewrite orb_true_iff, bool_decide_eq_true in H.
  - destruct (s_type s) as [[]|] eqn:Ht; try done; [by apply ty_boolean|by apply ty_any].
  - destruct (s_type s) as [[]|] eqn:Ht; try done;
      [apply ty_number; eauto..|by apply ty_any].
  - destruct (s_type s) as [[]|] eqn:Ht; try done; [|by apply ty_any].
    apply and_then_true in H as (Hu & b1 & H). apply and_then_true in H as (_ & b2 & Hs).
    by apply ty_string.
  - destruct (s_type s) as [[]|] eqn:Ht; try done; [|by apply ty_any].
    apply and_then_true in H as (Hw & b1 & H%every_true).
    apply ty_array; [done..|]. eapply Forall_impl; [exact H|]. intros a [b' Ha].
    by apply Hval in Ha.
  - destruct (s_type s) as [[]|] eqn:Ht; try done; [|by apply ty_any].
    apply and_then_true in H as (Hw & b1 & H). apply and_then_true in H as (Hr & b2 & H%every_true).
    apply ty_object; [done..| |].
    + apply Forall_forall. intros n Hn%list_elem_of_In. revert n Hn. by apply forallb_forall.
    + eapply Forall_impl; [exact H|]. intros p [b' Hp]. by eapply check_property_sound.
Qed.

Lemma check_schema_sound s v b : v ≠ VUndef →
  (check_schema models validURL direction val s v b).1 = true → conforms s v.
Proof.
  intros Hv. unfold check_schema. destruct (ref_of s) as [r|] eqn:Hr.
  - intros (s' & Hs & Hc)%Hval. by eapply cf_ref.
  - intros (Hall & b1 & H)%and_then_true. apply and_then_true in H as (Hany & b2 & H).
    apply and_then_true in H as (Hone & b3 & H). apply and_then_true in H as (Hen & b4 & H).
    apply cf_node; [done|done|..|by eapply check_type_sound].
    + intros l Hl. rewrite Hl in Hall. apply every_true in Hall.
      eapply Forall_impl; [exact Hall|]. intros a [b' Ha]. by eapply val_conforms.
    + intros l Hl. rewrite Hl in Hany. apply some_true in Hany.
      eapply Exists_impl; [exact Hany|]. intros a [b' Ha]. by eapply val_conforms.
    + intros l Hl. rewrite Hl in Hone.
      destruct (count_true (λ s', val (Some s') v) l b2) as [n b'] eqn:Hn.
      apply bool_decide_eq_true in Hone.
      eapply Exists_impl; [apply (count_pos (λ s', val (Some s') v) l b2); rewrite Hn; simpl; lia|].
      intros a [b'' Ha]. by eapply val_conforms.
    + intros l Hl. rewrite Hl in Hen. apply Exists_exists.
      apply existsb_exists in Hen as (e & He & Hs). exists e. by rewrite list_elem_of_In.
Qed.
End step.

Lemma validate_sound levels : sound_check (validate levels).
Proof.
  induction levels as [|levels IH]; intros s v b H.
  - by destruct s, v.
  - destruct s as [s|]; [|by destruct v]. exists s. split; [done|].
    assert (Hv : v ≠ VUndef) by (intros ->; done).
    assert ((and_then spend_node (check_schema models validURL direction (validate levels) s v) b).1
            = true) as (_ & b' & Hc)%and_then_true by (by destruct v).
    by eapply check_schema_sound.
Qed.
End sound.

Lemma validates_sound models validURL direction s v :
  validates models validURL direction (Some s) v = true → conforms models validURL direction s v.
Proof.
  unfold validates. generalize 49. intros levels H.
  by apply validate_sound in H as (s' & [= <-] & Hc).
Qed.

(** * The measure of a schema *)

(** The visits of the value itself, how often a value below it is visited, and
    how often a text. *)
Record Measure := { ms_own : Z; ms_below : Z; ms_text : Z }.

Definition max_Z (l : list Z) : Z := foldr Z.max 0%Z l.
Definition sum_Z (l : list Z) : Z := foldr Z.add 0%Z l.

(** Its parts on one level, and the schemas of the values below. *)
Definition measure_of (is_text : bool) (parts children : list Measure) : Measure := {|
  ms_own := 1 + sum_Z (map ms_own parts);
  ms_below := sum_Z (map ms_below parts) +
              max_Z (map (λ m, Z.max (ms_own m) (ms_below m)) children);
  ms_text := sum_Z (map ms_text parts) +
             Z.max (if is_text then 1 else 0) (max_Z (map ms_text children)) |}.

Section measure.
Context (models : list (jsstring * Schema)).

Definition children_of (s : Schema) : list (option Schema) :=
  map (λ p, annotation models (Some p.2)) (props_of s) ++
  match s_items s with Some i => [Some i] | None => [] end ++
  match s_additionalProperties s with Some (inr a) => [Some a] | _ => [] end.

(** Defined for a schema without alternatives, of at most [levels] levels, all of
    whose references resolve. *)
Fixpoint measure (levels : nat) (schema : option Schema) : option Measure :=
  match levels, schema with
  | S levels', Some s =>
      match ref_of s with
      | Some r => m ← measure levels' (resolve models r); Some (measure_of false [m] [])
      | None =>
          match s_anyOf s, s_oneOf s with
          | None, None =>
              parts ← mapM (λ s', measure levels' (Some s')) (default [] (s_allOf s));
              children ← mapM (measure levels') (children_of s);
              Some (measure_of (bool_decide (s_type s = Some TString)) parts children)
          | _, _ => None
          end
      end
  | _, _ => None
  end.
End measure.

(** The code points of the texts in a value; keys are not counted. *)
Fixpoint json_chars (v : jsval) : Z :=
  match v with
  | VStr s => code_points s
  | VArr l => sum_Z (map json_chars l)
  | VObj l => sum_Z (map (λ p, json_chars p.2) l)
  | _ => 0
  end.

(** The values below a value. *)
Definition json_below (v : jsval) : Z := Z.of_nat (json_nodes v) - 1.

(** * Lemmas: the budget *)

(** The check accepts on any budget that covers a cost, and spends at most it. *)
Definition affords (n c : Z) (m : check) : Prop := ∀ b,
  (n ≤ bd_nodes b)%Z → (c ≤ bd_chars b)%Z →
  ∃ b', m b = (true, b') ∧ (bd_nodes b - n ≤ bd_nodes b')%Z ∧ (bd_chars b - c ≤ bd_chars b')%Z.

Lemma affords_weaken n c n' c' m : affords n c m → (n ≤ n')%Z → (c ≤ c')%Z → affords n' c' m.
Proof.
  intros H Hn Hc b Hb Hb'. destruct (H b) as (b' & ? & ? & ?); [lia..|].
  exists b'. split_and!; [done|lia..].
Qed.

Lemma affords_test t : t = true → affords 0 0 (test t).
Proof. intros -> b _ _. exists b. split_and!; [done|lia..]. Qed.

Lemma affords_pass : affords 0 0 pass.
Proof. by apply affords_test. Qed.

Lemma affords_and_then n1 c1 n2 c2 m k : (0 ≤ n2)%Z → (0 ≤ c2)%Z →
  affords n1 c1 m → affords n2 c2 k → affords (n1 + n2) (c1 + c2) (and_then m k).
Proof.
  intros Hn2 Hc2 Hm Hk b Hb Hb'. unfold and_then.
  destruct (Hm b) as (b1 & -> & ? & ?); [lia..|].
  destruct (Hk b1) as (b2 & -> & ? & ?); [lia..|].
  exists b2. split_and!; [done|lia..].
Qed.

Lemma affords_node : affords 1 0 spend_node.
Proof.
  intros b Hb _. eexists. split; [|split; [|]]; [by unfold spend_node; rewrite (proj2 (Z.ltb_ge _ _)) by lia|..];
    cbn; lia.
Qed.

Lemma affords_chars n : (0 ≤ n)%Z → affords 0 n (spend_chars n).
Proof.
  intros Hn b _ Hb. unfold spend_chars. destruct (Z.eqb_spec n 0) as [->|].
  - exists b. split_and!; [done|lia..].
  - rewrite (proj2 (Z.ltb_ge _ _)) by lia. eexists. split_and!; [done|cbn; lia..].
Qed.

Lemma affords_every {A} (f : A → check) (n c : A → Z) l :
  Forall (λ a, (0 ≤ n a)%Z ∧ (0 ≤ c a)%Z ∧ affords (n a) (c a) (f a)) l →
  (0 ≤ sum_Z (map n l))%Z ∧ (0 ≤ sum_Z (map c l))%Z ∧
  affords (sum_Z (map n l)) (sum_Z (map c l)) (every f l).
Proof.
  induction 1 as [|a l (Hn & Hc & Ha) _ (IHn & IHc & IH)]; cbn.
  - split_and!; [done..|apply affords_pass].
  - split_and!; [unfold sum_Z in *; lia..|]. by apply affords_and_then.
Qed.

(** * Lemmas: sums and maxima *)

Lemma sum_Z_le {A} (f g : A → Z) l :
  Forall (λ a, (f a ≤ g a)%Z) l → (sum_Z (map f l) ≤ sum_Z (map g l))%Z.
Proof. unfold sum_Z. induction 1; cbn; lia. Qed.

Lemma sum_Z_scale {A} k (f : A → Z) l : sum_Z (map (λ a, k * f a)%Z l) = (k * sum_Z (map f l))%Z.
Proof. unfold sum_Z. induction l as [|a l IH]; cbn; [lia|]. rewrite IH. lia. Qed.

Lemma sum_Z_linear {A} (f g : A → Z) k l :
  sum_Z (map (λ a, f a + g a * k)%Z l) = (sum_Z (map f l) + sum_Z (map g l) * k)%Z.
Proof. unfold sum_Z. induction l as [|a l IH]; cbn; [lia|]. rewrite IH. lia. Qed.

Lemma sum_Z_scale_r {A} (g : A → Z) k l : sum_Z (map (λ a, g a * k)%Z l) = (sum_Z (map g l) * k)%Z.
Proof. unfold sum_Z. induction l as [|a l IH]; cbn; [lia|]. rewrite IH. lia. Qed.

Lemma max_Z_nonneg l : (0 ≤ max_Z l)%Z.
Proof. unfold max_Z. induction l; cbn; lia. Qed.

Lemma max_Z_elem x l : x ∈ l → (x ≤ max_Z l)%Z.
Proof. unfold max_Z. induction 1; cbn; lia. Qed.

Lemma sum_Z_nodes {A} (f : A → nat) l : sum_Z (map (λ a, Z.of_nat (f a)) l) = Z.of_nat (list_sum (map f l)).
Proof. unfold sum_Z, list_sum. induction l as [|a l IH]; cbn; [done|]. rewrite IH. lia. Qed.

Lemma json_nodes_pos v : 0 < json_nodes v.
Proof. destruct v; simpl; lia. Qed.

Lemma code_points_nonneg s : (0 ≤ code_points s)%Z.
Proof.
  induction s as [s IH] using list_length_ind. destruct s as [|c [|n t]]; [done..|].
  pose proof (IH t ltac:(simpl; lia)). pose proof (IH (n :: t) ltac:(simpl; lia)).
  change (code_points (c :: n :: t))
    with (if is_high c && is_low n then 1 + code_points t else 1 + code_points (n :: t))%Z.
  case_match; lia.
Qed.

Lemma sum_Z_nonneg l : Forall (λ z, (0 ≤ z)%Z) l → (0 ≤ sum_Z l)%Z.
Proof. unfold sum_Z. induction 1; cbn; lia. Qed.

(** * Lemmas: a covered budget decides *)

Definition well_measured (m : Measure) : Prop :=
  (1 ≤ ms_own m)%Z ∧ (0 ≤ ms_below m)%Z ∧ (0 ≤ ms_text m)%Z.

Lemma measure_of_well t parts children : Forall well_measured parts →
  well_measured (measure_of t parts children).
Proof.
  intros H. unfold well_measured. cbn. pose proof (max_Z_nonneg (map ms_text children)).
  pose proof (max_Z_nonneg (map (λ m, Z.max (ms_own m) (ms_below m)) children)).
  assert (0 ≤ sum_Z (map ms_own parts) ∧ 0 ≤ sum_Z (map ms_below parts) ∧
          0 ≤ sum_Z (map ms_text parts))%Z; [|lia].
  unfold sum_Z. induction H as [|m l (?&?&?) _ IH]; cbn; lia.
Qed.

Section complete.
Context (models : list (jsstring * Schema)) (validURL : jsstring → bool) (direction : Direction).

Abbreviation validate := (validate models validURL direction).
Abbreviation conforms := (conforms models validURL direction).
Abbreviation typed := (typed models validURL direction).

Lemma measure_well levels s m : measure models levels s = Some m → well_measured m.
Proof.
  revert s m. induction levels as [|levels IH]; intros s m H; [done|].
  destruct s as [s|]; [|done]. cbn in H. destruct (ref_of s) as [r|].
  - apply bind_Some in H as (m' & Hm & [= <-]). apply measure_of_well. constructor; eauto.
  - destruct (s_anyOf s), (s_oneOf s); try done.
    apply bind_Some in H as (parts & Hp & H). apply bind_Some in H as (children & Hc & [= <-]).
    apply measure_of_well. apply mapM_Some in Hp.
    induction Hp; constructor; eauto.
Qed.

(** The cost of checking a value against a schema of a given measure. *)
Definition node_cost (m : Measure) (v : jsval) : Z := (ms_own m + ms_below m * json_below v)%Z.
Definition text_cost (m : Measure) (v : jsval) : Z := (ms_text m * json_chars v)%Z.

Lemma json_chars_nonneg v : (0 ≤ json_chars v)%Z.
Proof.
  revert v. fix IH 1. intros v. destruct v as [| | | |s|l|l]; cbn; try done.
  - apply code_points_nonneg.
  - apply sum_Z_nonneg. induction l as [|v l IHl]; constructor; [apply IH|apply IHl].
  - apply sum_Z_nonneg. induction l as [|[k v] l IHl]; constructor; [apply IH|apply IHl].
Qed.

Lemma json_below_nonneg v : (0 ≤ json_below v)%Z.
Proof. pose proof (json_nodes_pos v). unfold json_below. lia. Qed.

Lemma json_below_succ v n : json_nodes v = S n → json_below v = Z.of_nat n.
Proof. unfold json_below. lia. Qed.

Lemma node_cost_nonneg m v : well_measured m → (0 ≤ node_cost m v)%Z.
Proof. intros (?&?&?). pose proof (json_below_nonneg v). unfold node_cost. nia. Qed.

Lemma text_cost_nonneg m v : well_measured m → (0 ≤ text_cost m v)%Z.
Proof. intros (?&?&?). pose proof (json_chars_nonneg v). unfold text_cost. nia. Qed.

Definition complete_check (levels : nat) (val : option Schema → jsval → check) : Prop :=
  ∀ s v m, measure models levels (Some s) = Some m → conforms s v →
    affords (node_cost m v) (text_cost m v) (val (Some s) v).

Lemma child_cost children m v : m ∈ children → well_measured m →
  (node_cost m v ≤ max_Z (map (λ m, Z.max (ms_own m) (ms_below m)) children)
                     * Z.of_nat (json_nodes v))%Z ∧
  (text_cost m v ≤ max_Z (map ms_text children) * json_chars v)%Z.
Proof.
  intros Hm (Ho & Hb & Ht).
  assert (H1 : (Z.max (ms_own m) (ms_below m) ≤
                max_Z (map (λ m, Z.max (ms_own m) (ms_below m)) children))%Z).
  { apply max_Z_elem. apply list_elem_of_In, in_map_iff. exists m. by rewrite list_elem_of_In in Hm. }
  assert (H2 : (ms_text m ≤ max_Z (map ms_text children))%Z).
  { apply max_Z_elem. apply list_elem_of_In, in_map_iff. exists m. by rewrite list_elem_of_In in Hm. }
  pose proof (json_nodes_pos v). pose proof (json_chars_nonneg v).
  unfold node_cost, text_cost, json_below. split; nia.
Qed.

Lemma affords_and_tests k n c m : affords 0 0 k → (0 ≤ n)%Z → (0 ≤ c)%Z → affords n c m →
  affords n c (and_then k m).
Proof. intros. by apply (affords_and_then 0 0 n c). Qed.

Lemma affords_tests t n c m : t = true → (0 ≤ n)%Z → (0 ≤ c)%Z → affords n c m →
  affords n c (and_then (test t) m).
Proof. intros. by apply affords_and_tests; [apply affords_test|..]. Qed.

Section step.
Context (levels : nat) (val : option Schema → jsval → check) (Hval : complete_check levels val).
Context (s : Schema) (children : list Measure)
  (Hchildren : mapM (measure models levels) (children_of models s) = Some children).

Abbreviation K := (max_Z (map (λ m, Z.max (ms_own m) (ms_below m)) children)).
Abbreviation C := (max_Z (map ms_text children)).
Abbreviation T := (Z.max (if bool_decide (s_type s = Some TString) then 1 else 0) C)%Z.

(** The value of a child schema is checked within the child's share. *)
Lemma affords_child s' v : Some s' ∈ children_of models s → conforms s' v →
  affords (K * Z.of_nat (json_nodes v)) (C * json_chars v) (val (Some s') v).
Proof.
  intros Hin Hc. apply mapM_Some in Hchildren as Hf.
  apply list_elem_of_lookup in Hin as (i & Hi).
  destruct (Forall2_lookup_l _ _ _ _ _ Hf Hi) as (m & Hm & Hmeas).
  apply list_elem_of_lookup_2 in Hm.
  pose proof (child_cost children m v Hm (measure_well _ _ _ Hmeas)) as [? ?].
  by eapply affords_weaken; [apply Hval| |].
Qed.

Lemma affords_children {A} (f : A → check) (v : A → jsval) l :
  Forall (λ a, affords (K * Z.of_nat (json_nodes (v a))) (C * json_chars (v a)) (f a)) l →
  affords (K * Z.of_nat (list_sum (map (λ a, json_nodes (v a)) l)))
    (C * sum_Z (map (λ a, json_chars (v a)) l)) (every f l).
Proof.
  intros H.
  destruct (affords_every f (λ a, K * Z.of_nat (json_nodes (v a)))%Z
              (λ a, C * json_chars (v a))%Z l) as (_ & _ & Ha).
  - eapply Forall_impl; [exact H|]. cbn. intros a Ha. split_and!; [..|done].
    + pose proof (max_Z_nonneg (map (λ m, Z.max (ms_own m) (ms_below m)) children)). lia.
    + pose proof (max_Z_nonneg (map ms_text children)). pose proof (json_chars_nonneg (v a)). lia.
  - rewrite !sum_Z_scale, sum_Z_nodes in Ha. done.
Qed.

Lemma check_property_complete p : property_conforms models validURL direction s p →
  affords (K * Z.of_nat (json_nodes p.2)) (C * json_chars p.2)
    (check_property models direction val s p).
Proof.
  intros [Hsome Hnone]. unfold check_property.
  pose proof (max_Z_nonneg (map (λ m, Z.max (ms_own m) (ms_below m)) children)).
  pose proof (max_Z_nonneg (map ms_text children)). pose proof (json_chars_nonneg p.2).
  destruct (prop_get (props_of s) p.1) as [f|] eqn:Hp.
  - destruct (Hsome f eq_refl) as (field & Ha & Hh & Hc). rewrite Ha.
    eapply affords_weaken; [apply affords_and_then|..].
    3: by apply affords_test; rewrite Hh.
    3: apply affords_child; [|exact Hc].
    1-2: lia.
    2-3: lia.
    rewrite <- Ha. unfold children_of. apply elem_of_app. left.
    apply list_elem_of_In, in_map_iff. exists (p.1, f). split; [done|].
    apply list_elem_of_In. by apply prop_get_elem.
  - destruct (Hnone eq_refl) as [Hf Ha]. destruct (s_additionalProperties s) as [[[]|a]|] eqn:Hs.
    + eapply affords_weaken; [apply affords_pass|lia..].
    + done.
    + apply affords_child; [|by apply Ha]. unfold children_of. rewrite Hs.
      apply elem_of_app. right. apply elem_of_app. right. by left.
    + eapply affords_weaken; [apply affords_pass|lia..].
Qed.

Lemma check_string_complete x : s_type s = Some TString → unicode x = true → string_ok validURL s x = true →
  affords (K * json_below (VStr x)) (T * json_chars (VStr x))
    (check_string validURL s (VStr x)).
Proof.
  intros Ht Hu Hs. pose proof (code_points_nonneg x). rewrite bool_decide_true by done.
  apply (affords_weaken 0 (code_points x)); [|unfold json_below; cbn; lia|cbn -[Z.mul]; nia].
  apply affords_tests; [done..|].
  rewrite <- (Z.add_0_r (code_points x)) at 1. apply (affords_and_then 0); [done..| |].
  - by apply affords_chars.
  - by apply affords_test.
Qed.

Lemma children_cost {A} (v : A → jsval) l :
  (0 ≤ K * Z.of_nat (list_sum (map (λ a, json_nodes (v a)) l)))%Z ∧
  (0 ≤ C * sum_Z (map (λ a, json_chars (v a)) l))%Z ∧
  (C * sum_Z (map (λ a, json_chars (v a)) l) ≤
     T * sum_Z (map (λ a, json_chars (v a)) l))%Z.
Proof.
  pose proof (max_Z_nonneg (map (λ m, Z.max (ms_own m) (ms_below m)) children)).
  pose proof (max_Z_nonneg (map ms_text children)).
  assert (0 ≤ sum_Z (map (λ a, json_chars (v a)) l))%Z; [|nia].
  apply sum_Z_nonneg, Forall_map, Forall_forall. intros a _. apply json_chars_nonneg.
Qed.

Lemma check_array_complete l : within (s_minItems s) (s_maxItems s) (length_Z l) = true →
  Forall (λ v, ∃ s', s_items s = Some s' ∧ conforms s' v) l →
  affords (K * json_below (VArr l)) (T * json_chars (VArr l)) (check_array val s (VArr l)).
Proof.
  intros Hw Hl. destruct (children_cost id l) as (Hn & Hc & Hle).
  eapply affords_weaken; [apply affords_tests; [done|exact Hn|exact Hc|]|..].
  - apply (affords_children (val (s_items s)) id).
    eapply Forall_impl; [exact Hl|]. intros v (s' & Hs & Hcf). rewrite Hs.
    apply affords_child; [|done]. unfold children_of. rewrite Hs.
    apply elem_of_app. right. by left.
  - by erewrite json_below_succ.
  - exact Hle.
Qed.

Lemma check_object_complete l : within (s_minProperties s) (s_maxProperties s) (length_Z l) = true →
  Forall (λ name, required_ok models direction s l name = true) (default [] (s_required s)) →
  Forall (property_conforms models validURL direction s) l →
  affords (K * json_below (VObj l)) (T * json_chars (VObj l))
    (check_object models direction val s (VObj l)).
Proof.
  intros Hw Hr Hl. destruct (children_cost snd l) as (Hn & Hc & Hle).
  eapply affords_weaken; [apply affords_tests; [done|exact Hn|exact Hc|];
    apply affords_tests; [|exact Hn|exact Hc|]|..].
  - apply forallb_forall. intros n Hin%list_elem_of_In. by eapply Forall_forall in Hr.
  - apply (affords_children (check_property models direction val s) snd).
    eapply Forall_impl; [exact Hl|]. intros p. apply check_property_complete.
  - by erewrite json_below_succ.
  - exact Hle.
Qed.

Lemma check_type_complete v : typed s v →
  affords (K * json_below v) (T * json_chars v)
    (check_type models validURL direction val s v).
Proof.
  intros H. pose proof (json_below_nonneg v). pose proof (json_chars_nonneg v).
  pose proof (max_Z_nonneg (map (λ m, Z.max (ms_own m) (ms_below m)) children)).
  pose proof (max_Z_nonneg (map ms_text children)).
  assert (Hfree : ∀ m, affords 0 0 m → affords (K * json_below v) (T * json_chars v) m).
  { intros m Hm. eapply affords_weaken; [exact Hm|nia..]. }
  apply typed_inv in H as [Ht|H].
  - apply Hfree. destruct v; cbn; rewrite Ht; first [apply affords_pass|by apply affords_test].
  - destruct v as [| |x|n|x|l|l]; [done|..].
    + apply Hfree, affords_test. by rewrite H, orb_true_r.
    + apply Hfree. cbn. rewrite H. apply affords_pass.
    + apply Hfree. cbn. destruct H as [[-> | ->] H]; by apply affords_test.
    + destruct H as (Ht & Hu & Hs). pose proof (check_string_complete x Ht Hu Hs).
      unfold check_type. by rewrite Ht in *.
    + destruct H as (Ht & Hw & Hl). pose proof (check_array_complete l Hw Hl).
      unfold check_type. by rewrite Ht in *.
    + destruct H as (Ht & Hw & Hr & Hl). pose proof (check_object_complete l Hw Hr Hl).
      unfold check_type. by rewrite Ht in *.
Qed.
End step.

Lemma parts_complete levels val l parts v : complete_check levels val →
  mapM (λ s', measure models levels (Some s')) l = Some parts →
  Forall (λ s', conforms s' v) l →
  affords (sum_Z (map ms_own parts) + sum_Z (map ms_below parts) * json_below v)
    (sum_Z (map ms_text parts) * json_chars v) (every (λ s', val (Some s') v) l) ∧
  (0 ≤ sum_Z (map ms_own parts) + sum_Z (map ms_below parts) * json_below v)%Z ∧
  (0 ≤ sum_Z (map ms_text parts) * json_chars v)%Z.
Proof.
  intros Hval Hm%mapM_Some Hl. revert Hl.
  induction Hm as [|s' m l parts Hs Hm IH]; intros Hl; cbn -[Z.mul].
  - split_and!; [apply affords_pass|lia..].
  - apply Forall_cons in Hl as [Hv Hl]. destruct (IH Hl) as (Ha & Hn & Hc).
    pose proof (measure_well _ _ _ Hs) as Hw.
    pose proof (node_cost_nonneg m v Hw). pose proof (text_cost_nonneg m v Hw).
    unfold sum_Z, node_cost, text_cost in *. split; [|split; nia].
    eapply affords_weaken; [apply affords_and_then; [exact Hn|exact Hc|by eapply Hval|exact Ha]|..];
      unfold node_cost, text_cost; nia.
Qed.

Lemma check_schema_complete levels val s v m : complete_check levels val →
  measure models (S levels) (Some s) = Some m → conforms s v →
  affords (node_cost m v - 1) (text_cost m v) (check_schema models validURL direction val s v).
Proof.
  intros Hval Hm Hc. cbn in Hm. unfold check_schema. pose proof (json_below_nonneg v).
  pose proof (json_chars_nonneg v).
  destruct Hc as [s r s' v Hr Hs Hc|s v Hr Hv Hall Hany Hone Hen Ht]; rewrite Hr in *.
  - rewrite Hs in *. apply bind_Some in Hm as (m' & Hm & [= <-]).
    eapply affords_weaken; [by apply (Hval _ _ m')|..]; unfold node_cost, text_cost; cbn -[Z.mul]; nia.
  - destruct (s_anyOf s), (s_oneOf s); try done.
    apply bind_Some in Hm as (parts & Hp & Hm). apply bind_Some in Hm as (children & Hch & [= <-]).
    destruct (parts_complete levels val (default [] (s_allOf s)) parts v) as (Ha & Hn & Ht');
      [done|done|destruct (s_allOf s); [by apply Hall|done]|].
    pose proof (check_type_complete levels val Hval s children Hch v Ht) as Htc.
    pose proof (max_Z_nonneg (map (λ m, Z.max (ms_own m) (ms_below m)) children)).
    pose proof (max_Z_nonneg (map ms_text children)).
    assert (Hn' : (0 ≤ max_Z (map (λ m, Z.max (ms_own m) (ms_below m)) children) * json_below v)%Z) by nia.
    assert (Hc' : (0 ≤ Z.max (if bool_decide (s_type s = Some TString) then 1 else 0)
                         (max_Z (map ms_text children)) * json_chars v)%Z) by nia.
    eapply affords_weaken; [apply affords_and_then; [exact Hn'|exact Hc'| |
      apply (affords_tests true); [done|exact Hn'|exact Hc'|];
      apply (affords_tests true); [done|exact Hn'|exact Hc'|];
      apply affords_and_tests; [|exact Hn'|exact Hc'|exact Htc]]|..].
    + destruct (s_allOf s); exact Ha.
    + destruct (s_enum s) as [l|]; [|apply affords_pass]. apply affords_test, existsb_exists.
      destruct (proj1 (Exists_exists _ _) (Hen l eq_refl)) as (e & He%list_elem_of_In & Hs).
      by exists e.
    + unfold node_cost. cbn -[Z.mul]. nia.
    + unfold text_cost. cbn -[Z.mul]. nia.
Qed.

Lemma validate_complete levels : complete_check levels (validate levels).
Proof.
  induction levels as [|levels IH]; intros s v m Hm Hc; [done|].
  pose proof (check_schema_complete levels (validate levels) s v m IH Hm Hc) as Ha.
  pose proof (conforms_defined _ _ _ _ _ Hc) as Hv.
  pose proof (measure_well _ _ _ Hm) as Hw.
  pose proof (json_below_nonneg v). pose proof (text_cost_nonneg m v Hw).
  destruct Hw as (? & ? & ?).
  apply (affords_weaken (1 + (node_cost m v - 1)) (0 + text_cost m v)); [|lia..].
  assert (affords (1 + (node_cost m v - 1)) (0 + text_cost m v)
    (and_then spend_node (check_schema models validURL direction (validate levels) s v))).
  { apply affords_and_then; [unfold node_cost; nia|lia|apply affords_node|done]. }
  by destruct v.
Qed.

(** Where a budget covers the measure of a schema, the check decides conformance. *)
Lemma validate_decides levels s v m b : measure models levels (Some s) = Some m →
  (node_cost m v ≤ bd_nodes b)%Z → (text_cost m v ≤ bd_chars b)%Z →
  (validate levels (Some s) v b).1 = true ↔ conforms s v.
Proof.
  intros Hm Hn Hc. split.
  - by intros (s' & [= <-] & H)%validate_sound.
  - intros H. by destruct (validate_complete levels s v m Hm H b Hn Hc) as (b' & -> & _).
Qed.
End complete.

(** The client's own check, under its budget. *)
Lemma validates_decides models validURL direction s v m : measure models 49 (Some s) = Some m →
  (node_cost m v ≤ bd_nodes initial_budget)%Z → (text_cost m v ≤ bd_chars initial_budget)%Z →
  validates models validURL direction (Some s) v = true ↔ conforms models validURL direction s v.
Proof.
  unfold validates. generalize 49. intros levels Hm Hn Hc. by apply (validate_decides _ _ _ _ _ _ m).
Qed.

(** Conversion is not to unfold the 49 levels. *)
#[global] Opaque validates.

(** * Lemmas: the texts of a parsed value *)

Lemma code_points_le s : (code_points s ≤ length_Z s)%Z.
Proof.
  unfold length_Z. induction s as [s IH] using list_length_ind. destruct s as [|c [|n t]]; [done..|].
  pose proof (IH t ltac:(simpl; lia)). pose proof (IH (n :: t) ltac:(simpl; lia)) as H'.
  change (code_points (c :: n :: t))
    with (if is_high c && is_low n then 1 + code_points t else 1 + code_points (n :: t))%Z.
  simpl length in *. case_match; lia.
Qed.

Lemma string_text_length s t : string_text s t → length s ≤ length t.
Proof.
  induction 1 as [|c s t t' Hu _ IH]; [done|]. rewrite length_app. simpl.
  assert (0 < length t); [|lia]. destruct Hu; simpl; lia.
Qed.

(** A text is at least as long as the texts of the value it denotes. *)
Lemma json_text_chars :
  (∀ v t, json_text v t → (json_chars v ≤ length_Z t)%Z) ∧
  (∀ l t, elements_text l t → (sum_Z (map json_chars l) ≤ length_Z t)%Z) ∧
  (∀ l t, members_text l t → (sum_Z (map (λ p, json_chars p.2) l) ≤ length_Z t)%Z) ∧
  (∀ p t, member_text p t → (json_chars p.2 ≤ length_Z t)%Z).
Proof.
  unfold length_Z. apply json_text_ind'; intros;
    repeat first [progress cbn [json_chars map length fst snd]|rewrite length_app];
    unfold sum_Z in *; cbn [foldr]; try lia.
  - unfold words in *. repeat match goal with
      | H : _ ∈ _ :: _ |- _ => apply elem_of_cons in H as [[= -> ->]|H]; [cbn; lia|]
      | H : _ ∈ [] |- _ => by apply not_elem_of_nil in H
      end.
  - pose proof (code_points_le s). unfold length_Z in *.
    match goal with H : string_text _ _ |- _ => apply string_text_length in H end. lia.
Qed.

Lemma parseJSON_chars text v : parseJSON text = Some v → (json_chars v ≤ length_Z text)%Z.
Proof.
  intros ((w & t & w' & _ & Ht & _ & ->) & _)%parseJSON_sound.
  apply json_text_chars in Ht. unfold length_Z in *. rewrite !length_app. lia.
Qed.
