(* ===== verification/SdkContract.v ===== *)
(** The contract of the generated API client ([out/tssdk/index.js], line 2): its
    models, operations and error codes, transcribed; and what a response that the
    contract's schemas admit is: the resources as the adapter's types declare them.

    The bounds of [validate] never reject a response of an operation: every schema
    of the contract has a measure, and a text within the client's limits holds too
    little to exceed the budget under it. *)
From S2P Require Export SdkSchema ApiAdapter.

(** * Schemas in the contract's vocabulary *)

Inductive Facet :=
| Format (f : SchemaFormat)
| Enum (l : list string)
| MinLength (n : Z)
| MaxLength (n : Z)
| Minimum (n : Z)
| Maximum (n : Z)
| Nullable
| ReadOnly.

Definition facet {A} (f : Facet → option A) (l : list Facet) : option A := head (omap f l).

Definition scalar (t : SchemaType) (l : list Facet) : Schema := {|
  s_ref := None; s_allOf := None; s_anyOf := None; s_oneOf := None;
  s_enum := facet (λ x, if x is Enum e then Some (map (λ s, VStr (js s)) e) else None) l;
  s_type := Some t;
  s_nullable := bool_decide (is_Some (facet (λ x, if x is Nullable then Some () else None) l));
  s_format := facet (λ x, if x is Format f then Some f else None) l;
  s_minLength := facet (λ x, if x is MinLength n then Some n else None) l;
  s_maxLength := facet (λ x, if x is MaxLength n then Some n else None) l;
  s_minimum := facet (λ x, if x is Minimum n then Some (NInt n) else None) l;
  s_maximum := facet (λ x, if x is Maximum n then Some (NInt n) else None) l;
  s_exclusiveMinimum := false; s_exclusiveMaximum := false;
  s_items := None; s_minItems := None; s_maxItems := None;
  s_properties := None; s_required := None; s_additionalProperties := None;
  s_minProperties := None; s_maxProperties := None;
  s_readOnly := bool_decide (is_Some (facet (λ x, if x is ReadOnly then Some () else None) l));
  s_writeOnly := false |}.

Definition text : list Facet → Schema := scalar TString.
Definition integer : list Facet → Schema := scalar TInteger.
Definition boolean : list Facet → Schema := scalar TBoolean.

(** A schema of a reference, of parts, of items or of properties. *)
Definition compound (ref : option string) (allOf : option (list Schema)) (t : option SchemaType)
    (items : option Schema) (props : option (list (string * Schema))) (req : option (list string))
    (extra : option (bool + Schema)) : Schema := {|
  s_ref := (λ r, js "#/components/schemas/" ++ js r) <$> ref;
  s_allOf := allOf; s_anyOf := None; s_oneOf := None; s_enum := None; s_type := t;
  s_nullable := false; s_format := None; s_minLength := None; s_maxLength := None;
  s_minimum := None; s_maximum := None; s_exclusiveMinimum := false;
  s_exclusiveMaximum := false; s_items := items; s_minItems := None; s_maxItems := None;
  s_properties := map (λ p, (js p.1, p.2)) <$> props; s_required := map js <$> req;
  s_additionalProperties := extra; s_minProperties := None; s_maxProperties := None;
  s_readOnly := false; s_writeOnly := false |}.

Definition ref_to (name : string) : Schema := compound (Some name) None None None None None None.
Definition all_of (l : list Schema) : Schema := compound None (Some l) None None None None None.
Definition array_of (s : Schema) : Schema := compound None None (Some TArray) (Some s) None None None.

Definition object (props : list (string * Schema)) (req : list string) : Schema :=
  compound None None (Some TObject) None (Some props) (Some req) None.

(** One that admits no other properties. *)
Definition closed_object (props : list (string * Schema)) (req : list string) : Schema :=
  compound None None (Some TObject) None (Some props) (Some req) (Some (inl false)).

Definition named {A} (l : list (string * A)) : list (jsstring * A) := map (λ p, (js p.1, p.2)) l.

(** * Operations *)

Inductive ParameterPlace := InPath | InQuery.

Record OperationParameter := {
  pm_name : jsstring;
  pm_in : ParameterPlace;
  pm_required : bool;
  pm_schema : Schema
}.

Inductive Method := GET | POST | PATCH | DELETE.

#[export] Instance Method_eq_dec : EqDecision Method.
Proof. solve_decision. Defined.

(** A status is mapped to the schema of its body, or to [None] for an empty one. *)
Record ContractOperation := {
  co_method : Method;
  co_path : jsstring;
  co_parameters : list OperationParameter;
  co_body : option Schema;
  co_required : bool;
  co_responses : list (jsstring * option Schema)
}.

Definition path_param (name : string) : OperationParameter :=
  {| pm_name := js name; pm_in := InPath; pm_required := true; pm_schema := text [] |}.

Definition query_param (name : string) (s : Schema) : OperationParameter :=
  {| pm_name := js name; pm_in := InQuery; pm_required := false; pm_schema := s |}.

Definition list_parameters : list OperationParameter :=
  [query_param "fields" (text []); query_param "orderBy" (text []);
   query_param "page" (integer [Minimum 1]); query_param "search" (text []);
   query_param "size" (integer [Minimum 0])].

(** All paths share a prefix; an operation has a body exactly where it requires one. *)
Definition operation (m : Method) (path : string) (params : list OperationParameter)
    (body : option Schema) (responses : list (string * option Schema)) : ContractOperation := {|
  co_method := m; co_path := js "/api/hypershell/v1" ++ js path; co_parameters := params;
  co_body := body; co_required := bool_decide (is_Some body); co_responses := named responses |}.

(** * The models *)

Definition CurrentUser_model : Schema :=
  closed_object
    [("created_at", text [Format FDateTime]);
     ("email", text [MaxLength 320]);
     ("expires_at", text [Format FDateTime]);
     ("href", text [Enum ["/api/hypershell/v1/users/me"]]);
     ("id", text []);
     ("issuer", text [MinLength 1; MaxLength 1024]);
     ("kind", text [Enum ["User"]]);
     ("name", text [MaxLength 255]);
     ("subject", text [MinLength 1; MaxLength 255]);
     ("updated_at", text [Format FDateTime]);
     ("username", text [MinLength 1; MaxLength 255])]
    ["id"; "kind"; "href"; "created_at"; "updated_at"; "username"; "email"; "name";
     "issuer"; "subject"; "expires_at"].

Definition Error_model : Schema :=
  all_of [ref_to "ObjectReference";
          object
            [("code", text []); ("operation_id", text []); ("reason", text [])]
            []].

Definition Gateway_model : Schema :=
  all_of [ref_to "ObjectReference";
          object
            [("active_sandbox_count", integer [Format FInt32; ReadOnly]);
             ("cluster_id", text []);
             ("console_address", text [ReadOnly]);
             ("created_by", text [ReadOnly]);
             ("credential_driver", text []);
             ("external_dns", text []);
             ("image", text []);
             ("name", text []);
             ("namespace", text [ReadOnly]);
             ("oidc", text [ReadOnly]);
             ("phase", text []);
             ("release_id", text []);
             ("route", text []);
             ("route_address", text [ReadOnly]);
             ("server_dns_names", array_of (text []));
             ("service_type", text []);
             ("status", text []);
             ("supervisor_image", text []);
             ("tls_mode", text [])]
            ["name"; "cluster_id"; "release_id"; "namespace"]].

Definition GatewayList_model : Schema :=
  all_of [ref_to "List";
          object
            [("items", array_of (ref_to "Gateway"))]
            []].

Definition GatewayNetwork_model : Schema :=
  all_of [ref_to "ObjectReference";
          object
            [("hub_gateway_id", text []);
             ("name", text []);
             ("status", text []);
             ("topology", text []);
             ("tunnel_mode", text [])]
            ["name"]].

Definition GatewayNetworkList_model : Schema :=
  all_of [ref_to "List";
          object
            [("items", array_of (ref_to "GatewayNetwork"))]
            []].

Definition GatewayNetworkPatchRequest_model : Schema :=
  object
    [("hub_gateway_id", text []);
     ("name", text []);
     ("status", text []);
     ("topology", text []);
     ("tunnel_mode", text [])]
    [].

Definition GatewayPatchRequest_model : Schema :=
  closed_object
    [("cluster_id", text []);
     ("credential_driver", text []);
     ("external_dns", text []);
     ("image", text []);
     ("name", text []);
     ("oidc", text []);
     ("phase", text []);
     ("release_id", text []);
     ("route", text []);
     ("server_dns_names", array_of (text []));
     ("service_type", text []);
     ("status", text []);
     ("supervisor_image", text []);
     ("tls_mode", text [])]
    [].

Definition GatewayRelease_model : Schema :=
  all_of [ref_to "ObjectReference";
          object
            [("canary_duration", text []);
             ("canary_percent", integer [Format FInt32]);
             ("image", text []);
             ("name", text []);
             ("rollout_strategy", text []);
             ("status", text [])]
            ["name"; "image"]].

Definition GatewayReleaseList_model : Schema :=
  all_of [ref_to "List";
          object
            [("items", array_of (ref_to "GatewayRelease"))]
            []].

Definition GatewayReleasePatchRequest_model : Schema :=
  object
    [("canary_duration", text []);
     ("canary_percent", integer [Format FInt32]);
     ("image", text []);
     ("name", text []);
     ("rollout_strategy", text []);
     ("status", text [])]
    [].

Definition List_model : Schema :=
  all_of [object
            [("kind", text []);
             ("page", integer []);
             ("size", integer []);
             ("total", integer [])]
            [];
          ref_to "ObjectReference"].

Definition ManagedCluster_model : Schema :=
  all_of [ref_to "ObjectReference";
          object
            [("api_server_url", text []);
             ("kubeconfig_secret", text []);
             ("name", text []);
             ("provider", text []);
             ("region", text []);
             ("status", text [])]
            ["name"; "provider"; "kubeconfig_secret"]].

Definition ManagedClusterList_model : Schema :=
  all_of [ref_to "List";
          object
            [("items", array_of (ref_to "ManagedCluster"))]
            []].

Definition ManagedClusterPatchRequest_model : Schema :=
  object
    [("api_server_url", text []);
     ("kubeconfig_secret", text []);
     ("name", text []);
     ("provider", text []);
     ("region", text []);
     ("status", text [])]
    [].

Definition ObjectReference_model : Schema :=
  object
    [("created_at", text [Format FDateTime]);
     ("href", text []);
     ("id", text []);
     ("kind", text []);
     ("updated_at", text [Format FDateTime])]
    [].

Definition OpenShellGatewayServiceAccountCapabilities_model : Schema :=
  object
    [("allowed_roles", array_of (ref_to "OpenShellGatewayServiceAccountRole"));
     ("can_create", boolean []);
     ("can_manage_all", boolean []);
     ("expiration_policy", ref_to "OpenShellGatewayServiceAccountExpirationPolicy")]
    ["can_create"; "allowed_roles"; "can_manage_all"; "expiration_policy"].

Definition OpenShellGatewayServiceAccountConnection_model : Schema :=
  object
    [("access_token_lifetime_seconds", integer [Minimum 1; Maximum 900]);
     ("audience", text []);
     ("client_id", text []);
     ("gateway_endpoint", text [Format FUri]);
     ("gateway_name", text []);
     ("grant_type", text [Enum ["client_credentials"]]);
     ("issuer", text [Format FUri]);
     ("token_endpoint", text [Format FUri])]
    ["gateway_name"; "issuer"; "token_endpoint"; "grant_type"; "client_id"; "audience";
     "access_token_lifetime_seconds"].

Definition OpenShellGatewayServiceAccountCreateRequest_model : Schema :=
  closed_object
    [("credential_type", text [Enum ["client_secret"]]);
     ("description", text [MaxLength 1024; Nullable]);
     ("expires_at", text [Format FDateTime]);
     ("name", text [MinLength 1; MaxLength 128]);
     ("role", ref_to "OpenShellGatewayServiceAccountRole")]
    ["name"].

Definition OpenShellGatewayServiceAccountCreateResponse_model : Schema :=
  all_of [ref_to "OpenShellGatewayServiceAccountListItem";
          object
            [("credential", ref_to "OpenShellGatewayServiceAccountCredential")]
            ["credential"]].

Definition OpenShellGatewayServiceAccountCredential_model : Schema :=
  object
    [("access_token_lifetime_seconds", integer [Minimum 1; Maximum 900]);
     ("audience", text []);
     ("client_id", text []);
     ("client_secret", text [Format FPassword; ReadOnly]);
     ("gateway_endpoint", text [Format FUri]);
     ("gateway_name", text []);
     ("grant_type", text [Enum ["client_credentials"]]);
     ("issuer", text [Format FUri]);
     ("token_endpoint", text [Format FUri])]
    ["gateway_name"; "issuer"; "token_endpoint"; "grant_type"; "client_id";
     "client_secret"; "audience"; "access_token_lifetime_seconds"].

Definition OpenShellGatewayServiceAccountExpirationPolicy_model : Schema :=
  object
    [("default_seconds", integer [Minimum 3600]);
     ("maximum_seconds", integer [Minimum 3600; Maximum 31536000]);
     ("minimum_seconds", integer [Minimum 3600])]
    ["default_seconds"; "minimum_seconds"; "maximum_seconds"].

Definition OpenShellGatewayServiceAccountGetResponse_model : Schema :=
  all_of [ref_to "OpenShellGatewayServiceAccountListItem";
          object
            [("connection", ref_to "OpenShellGatewayServiceAccountConnection")]
            ["connection"]].

Definition OpenShellGatewayServiceAccountList_model : Schema :=
  object
    [("capabilities", ref_to "OpenShellGatewayServiceAccountCapabilities");
     ("items", array_of (ref_to "OpenShellGatewayServiceAccountListItem"));
     ("page", integer []);
     ("size", integer []);
     ("total", integer [])]
    ["page"; "size"; "total"; "capabilities"; "items"].

Definition OpenShellGatewayServiceAccountListItem_model : Schema :=
  object
    [("client_id", text []);
     ("created_at", text [Format FDateTime]);
     ("created_by_user_id", text []);
     ("credential_type", text [Enum ["client_secret"]]);
     ("description", text [Nullable]);
     ("expires_at", text [Format FDateTime]);
     ("gateway_id", text []);
     ("id", text []);
     ("last_error", text [Nullable]);
     ("name", text []);
     ("revoked_at", text [Format FDateTime; Nullable]);
     ("role", ref_to "OpenShellGatewayServiceAccountRole");
     ("status", ref_to "OpenShellGatewayServiceAccountStatus");
     ("subject", text []);
     ("updated_at", text [Format FDateTime])]
    ["id"; "gateway_id"; "name"; "credential_type"; "role"; "status"; "created_by_user_id";
     "client_id"; "subject"; "expires_at"; "created_at"; "updated_at"].

Definition OpenShellGatewayServiceAccountRole_model : Schema :=
  text [Enum ["openshell-user"; "openshell-admin"]].

Definition OpenShellGatewayServiceAccountStatus_model : Schema :=
  text [Enum ["provisioning"; "ready"; "degraded"; "expired"; "revoking"; "revoked"; "deleting"; "error"]].

Definition Role_model : Schema :=
  all_of [ref_to "ObjectReference";
          object
            [("built_in", boolean []);
             ("description", text []);
             ("display_name", text []);
             ("name", text []);
             ("permissions", object [] [])]
            ["name"]].

Definition RoleBinding_model : Schema :=
  all_of [ref_to "ObjectReference";
          object
            [("gateway_id", text []);
             ("role_id", text []);
             ("scope", text [Enum ["global"; "gateway"]]);
             ("user_id", text [])]
            ["role_id"; "scope"]].

Definition RoleBindingList_model : Schema :=
  all_of [ref_to "List";
          object
            [("items", array_of (ref_to "RoleBinding"))]
            []].

Definition RoleList_model : Schema :=
  all_of [ref_to "List";
          object
            [("items", array_of (ref_to "Role"))]
            []].

Definition gateways_GatewayCreateRequest_model : Schema :=
  closed_object
    [("cluster_id", text []);
     ("credential_driver", text []);
     ("external_dns", text []);
     ("image", text []);
     ("name", text []);
     ("oidc", text []);
     ("phase", text []);
     ("release_id", text []);
     ("route", text []);
     ("server_dns_names", array_of (text []));
     ("service_type", text []);
     ("status", text []);
     ("supervisor_image", text []);
     ("tls_mode", text [])]
    ["name"; "cluster_id"; "release_id"].

Definition contract_models : list (jsstring * Schema) :=
  named [("CurrentUser", CurrentUser_model);
   ("Error", Error_model);
   ("Gateway", Gateway_model);
   ("GatewayList", GatewayList_model);
   ("GatewayNetwork", GatewayNetwork_model);
   ("GatewayNetworkList", GatewayNetworkList_model);
   ("GatewayNetworkPatchRequest", GatewayNetworkPatchRequest_model);
   ("GatewayPatchRequest", GatewayPatchRequest_model);
   ("GatewayRelease", GatewayRelease_model);
   ("GatewayReleaseList", GatewayReleaseList_model);
   ("GatewayReleasePatchRequest", GatewayReleasePatchRequest_model);
   ("List", List_model);
   ("ManagedCluster", ManagedCluster_model);
   ("ManagedClusterList", ManagedClusterList_model);
   ("ManagedClusterPatchRequest", ManagedClusterPatchRequest_model);
   ("ObjectReference", ObjectReference_model);
   ("OpenShellGatewayServiceAccountCapabilities", OpenShellGatewayServiceAccountCapabilities_model);
   ("OpenShellGatewayServiceAccountConnection", OpenShellGatewayServiceAccountConnection_model);
   ("OpenShellGatewayServiceAccountCreateRequest", OpenShellGatewayServiceAccountCreateRequest_model);
   ("OpenShellGatewayServiceAccountCreateResponse", OpenShellGatewayServiceAccountCreateResponse_model);
   ("OpenShellGatewayServiceAccountCredential", OpenShellGatewayServiceAccountCredential_model);
   ("OpenShellGatewayServiceAccountExpirationPolicy", OpenShellGatewayServiceAccountExpirationPolicy_model);
   ("OpenShellGatewayServiceAccountGetResponse", OpenShellGatewayServiceAccountGetResponse_model);
   ("OpenShellGatewayServiceAccountList", OpenShellGatewayServiceAccountList_model);
   ("OpenShellGatewayServiceAccountListItem", OpenShellGatewayServiceAccountListItem_model);
   ("OpenShellGatewayServiceAccountRole", OpenShellGatewayServiceAccountRole_model);
   ("OpenShellGatewayServiceAccountStatus", OpenShellGatewayServiceAccountStatus_model);
   ("Role", Role_model);
   ("RoleBinding", RoleBinding_model);
   ("RoleBindingList", RoleBindingList_model);
   ("RoleList", RoleList_model);
   ("openapi.gateways_GatewayCreateRequest", gateways_GatewayCreateRequest_model)].

(** * The operations *)

Definition contract_operations : list (jsstring * ContractOperation) :=
  named [
   ("createGateway", operation POST "/gateways"
     []
     (Some (ref_to "openapi.gateways_GatewayCreateRequest"))
     [("201", Some (ref_to "Gateway"))]);
   ("createGatewayNetwork", operation POST "/gateway_networks"
     []
     (Some (ref_to "GatewayNetwork"))
     [("201", Some (ref_to "GatewayNetwork"))]);
   ("createGatewayRelease", operation POST "/gateway_releases"
     []
     (Some (ref_to "GatewayRelease"))
     [("201", Some (ref_to "GatewayRelease"))]);
   ("createGatewayServiceAccount", operation POST "/gateways/{gateway_id}/service_accounts"
     [path_param "gateway_id"]
     (Some (ref_to "OpenShellGatewayServiceAccountCreateRequest"))
     [("201", Some (ref_to "OpenShellGatewayServiceAccountCreateResponse"))]);
   ("createManagedCluster", operation POST "/managed_clusters"
     []
     (Some (ref_to "ManagedCluster"))
     [("201", Some (ref_to "ManagedCluster"))]);
   ("createRoleBinding", operation POST "/role_bindings"
     []
     (Some (ref_to "RoleBinding"))
     [("201", Some (ref_to "RoleBinding"))]);
   ("deleteGateway", operation DELETE "/gateways/{id}"
     [path_param "id"]
     None
     [("202", None)]);
   ("deleteGatewayNetwork", operation DELETE "/gateway_networks/{id}"
     [path_param "id"]
     None
     [("204", None)]);
   ("deleteGatewayRelease", operation DELETE "/gateway_releases/{id}"
     [path_param "id"]
     None
     [("204", None)]);
   ("deleteGatewayServiceAccount", operation DELETE "/gateways/{gateway_id}/service_accounts/{service_account_id}"
     [path_param "gateway_id"; path_param "service_account_id"]
     None
     [("202", Some (ref_to "OpenShellGatewayServiceAccountListItem")); ("204", None)]);
   ("deleteManagedCluster", operation DELETE "/managed_clusters/{id}"
     [path_param "id"]
     None
     [("204", None)]);
   ("deleteRoleBinding", operation DELETE "/role_bindings/{id}"
     [path_param "id"]
     None
     [("204", None)]);
   ("getCurrentUser", operation GET "/users/me"
     []
     None
     [("200", Some (ref_to "CurrentUser"))]);
   ("getGateway", operation GET "/gateways/{id}"
     [path_param "id"]
     None
     [("200", Some (ref_to "Gateway"))]);
   ("getGatewayNetwork", operation GET "/gateway_networks/{id}"
     [path_param "id"]
     None
     [("200", Some (ref_to "GatewayNetwork"))]);
   ("getGatewayRelease", operation GET "/gateway_releases/{id}"
     [path_param "id"]
     None
     [("200", Some (ref_to "GatewayRelease"))]);
   ("getGatewayServiceAccount", operation GET "/gateways/{gateway_id}/service_accounts/{service_account_id}"
     [path_param "gateway_id"; path_param "service_account_id"]
     None
     [("200", Some (ref_to "OpenShellGatewayServiceAccountGetResponse"))]);
   ("getManagedCluster", operation GET "/managed_clusters/{id}"
     [path_param "id"]
     None
     [("200", Some (ref_to "ManagedCluster"))]);
   ("getMetadata", operation GET "/metadata"
     []
     None
     [("200", Some (ref_to "ObjectReference"))]);
   ("getRole", operation GET "/roles/{id}"
     [path_param "id"]
     None
     [("200", Some (ref_to "Role"))]);
   ("getRoleBinding", operation GET "/role_bindings/{id}"
     [path_param "id"]
     None
     [("200", Some (ref_to "RoleBinding"))]);
   ("listGatewayNetworks", operation GET "/gateway_networks"
     list_parameters
     None
     [("200", Some (ref_to "GatewayNetworkList"))]);
   ("listGatewayReleases", operation GET "/gateway_releases"
     list_parameters
     None
     [("200", Some (ref_to "GatewayReleaseList"))]);
   ("listGatewayServiceAccounts", operation GET "/gateways/{gateway_id}/service_accounts"
     [path_param "gateway_id";
      query_param "order" (text [Enum ["asc"; "desc"]]);
      query_param "page" (integer [Minimum 1]);
      query_param "search" (text []);
      query_param "size" (integer [Minimum 1; Maximum 100]);
      query_param "sort" (text [Enum ["name"; "role"; "status"; "expires_at"; "created_at"]]);
      query_param "status" (text [Enum ["provisioning"; "ready"; "degraded"; "expired"; "revoking"; "revoked"; "deleting"; "error"]])]
     None
     [("200", Some (ref_to "OpenShellGatewayServiceAccountList"))]);
   ("listGateways", operation GET "/gateways"
     list_parameters
     None
     [("200", Some (ref_to "GatewayList"))]);
   ("listManagedClusters", operation GET "/managed_clusters"
     list_parameters
     None
     [("200", Some (ref_to "ManagedClusterList"))]);
   ("listRoleBindings", operation GET "/role_bindings"
     list_parameters
     None
     [("200", Some (ref_to "RoleBindingList"))]);
   ("listRoles", operation GET "/roles"
     list_parameters
     None
     [("200", Some (ref_to "RoleList"))]);
   ("revokeGatewayServiceAccount", operation POST "/gateways/{gateway_id}/service_accounts/{service_account_id}/revoke"
     [path_param "gateway_id"; path_param "service_account_id"]
     None
     [("200", Some (ref_to "OpenShellGatewayServiceAccountListItem"));
      ("202", Some (ref_to "OpenShellGatewayServiceAccountListItem"))]);
   ("updateGateway", operation PATCH "/gateways/{id}"
     [path_param "id"]
     (Some (ref_to "GatewayPatchRequest"))
     [("200", Some (ref_to "Gateway"))]);
   ("updateGatewayNetwork", operation PATCH "/gateway_networks/{id}"
     [path_param "id"]
     (Some (ref_to "GatewayNetworkPatchRequest"))
     [("200", Some (ref_to "GatewayNetwork"))]);
   ("updateGatewayRelease", operation PATCH "/gateway_releases/{id}"
     [path_param "id"]
     (Some (ref_to "GatewayReleasePatchRequest"))
     [("200", Some (ref_to "GatewayRelease"))]);
   ("updateManagedCluster", operation PATCH "/managed_clusters/{id}"
     [path_param "id"]
     (Some (ref_to "ManagedClusterPatchRequest"))
     [("200", Some (ref_to "ManagedCluster"))])].

Definition errorCodes : list jsstring := [js "service_account_name_exists"].

(** * Reading a checked value *)

#[local] Arguments annotation : simpl never.

Section typing.
Context (models : list (jsstring * Schema)) (validURL : jsstring → bool) (direction : Direction).

Abbreviation conforms := (conforms models validURL direction).

(** What a schema says, in any of its parts, of a property: that it is an object
    at all, the schemas of the property, and that it must be there. *)
Fixpoint is_object (levels : nat) (s : Schema) : bool :=
  match levels with
  | O => false
  | S levels' =>
      match ref_of s with
      | Some r => if resolve models r is Some s' then is_object levels' s' else false
      | None => existsb (is_object levels') (default [] (s_allOf s)) ||
                bool_decide (s_type s = Some TObject) && negb (s_nullable s)
      end
  end.

Fixpoint field_schemas (levels : nat) (s : Schema) (k : jsstring) : list Schema :=
  match levels with
  | O => []
  | S levels' =>
      match ref_of s with
      | Some r => if resolve models r is Some s' then field_schemas levels' s' k else []
      | None => (default [] (s_allOf s) ≫= λ s', field_schemas levels' s' k) ++
                match s_type s, prop_get (props_of s) k with
                | Some TObject, Some f => option_list (annotation models (Some f))
                | _, _ => []
                end
      end
  end.

Fixpoint requires (levels : nat) (s : Schema) (k : jsstring) : bool :=
  match levels with
  | O => false
  | S levels' =>
      match ref_of s with
      | Some r => if resolve models r is Some s' then requires levels' s' k else false
      | None => existsb (λ s', requires levels' s' k) (default [] (s_allOf s)) ||
                bool_decide (s_type s = Some TObject) && bool_decide (k ∈ default [] (s_required s)) &&
                match annotation models (prop_get (props_of s) k) with
                | Some f => negb (hidden direction f)
                | None => true
                end
      end
  end.

Lemma is_object_conforms levels s v : is_object levels s = true → conforms s v → ∃ l, v = VObj l.
Proof.
  revert s. induction levels as [|levels IH]; intros s H Hc; [done|]. cbn in H.
  destruct (ref_of s) as [r|] eqn:Hr.
  - destruct (conforms_ref _ _ _ _ _ _ Hc Hr) as (s' & Hs & Hc'). rewrite Hs in H. eauto.
  - destruct (conforms_node _ _ _ _ _ Hc Hr) as (Hv & Hall & _ & Ht).
    apply orb_true_iff in H as [H|H].
    + apply existsb_exists in H as (s' & Hin%list_elem_of_In & Ho).
      destruct (s_allOf s) as [l|]; [|by apply not_elem_of_nil in Hin].
      apply (IH s' Ho). by eapply (proj1 (Forall_forall _ _) (Hall l eq_refl)).
    + rewrite andb_true_iff, bool_decide_eq_true, negb_true_iff in H. destruct H as [Hty Hn].
      apply typed_inv in Ht as [Ht|Ht]; [congruence|].
      destruct v; try (exfalso; destruct_and?; destruct_or?; congruence). eauto.
Qed.

Lemma field_conforms levels s k f l x : f ∈ field_schemas levels s k → conforms s (VObj l) →
  prop_get l k = Some x → conforms f x.
Proof.
  intros Hf Hc Hx. revert s Hf Hc. induction levels as [|levels IH]; intros s Hf Hc;
    [by apply not_elem_of_nil in Hf|]. cbn in Hf. destruct (ref_of s) as [r|] eqn:Hr.
  - destruct (conforms_ref _ _ _ _ _ _ Hc Hr) as (s' & Hs & Hc'). rewrite Hs in Hf. eauto.
  - destruct (conforms_node _ _ _ _ _ Hc Hr) as (Hv & Hall & _ & Ht).
    apply elem_of_app in Hf as [Hf|Hf].
    + apply list_elem_of_bind in Hf as (s' & Hf & Hin).
      destruct (s_allOf s) as [parts|]; [|by apply not_elem_of_nil in Hin].
      apply (IH s' Hf). by eapply (proj1 (Forall_forall _ _) (Hall parts eq_refl)).
    + destruct (s_type s) as [[]|] eqn:Hty; try by apply not_elem_of_nil in Hf.
      destruct (prop_get (props_of s) k) as [p|] eqn:Hp; [|by apply not_elem_of_nil in Hf].
      apply typed_inv in Ht as [Ht|(_ & _ & _ & Hl)]; [congruence|].
      apply prop_get_elem in Hx as Hin. eapply Forall_forall in Hl as [Hl _]; [|exact Hin].
      destruct (Hl p Hp) as (field & Ha & _ & Hcf). rewrite Ha in Hf.
      by apply list_elem_of_singleton in Hf as ->.
Qed.

Lemma requires_present levels s k l : requires levels s k = true → conforms s (VObj l) →
  is_Some (prop_get l k).
Proof.
  revert s. induction levels as [|levels IH]; intros s H Hc; [done|]. cbn in H.
  destruct (ref_of s) as [r|] eqn:Hr.
  - destruct (conforms_ref _ _ _ _ _ _ Hc Hr) as (s' & Hs & Hc'). rewrite Hs in H. eauto.
  - destruct (conforms_node _ _ _ _ _ Hc Hr) as (Hv & Hall & _ & Ht).
    apply orb_true_iff in H as [H|H].
    + apply existsb_exists in H as (s' & Hin%list_elem_of_In & Ho).
      destruct (s_allOf s) as [parts|]; [|by apply not_elem_of_nil in Hin].
      apply (IH s' Ho). by eapply (proj1 (Forall_forall _ _) (Hall parts eq_refl)).
    + rewrite !andb_true_iff, !bool_decide_eq_true in H. destruct H as [[Hty Hk] Hf].
      apply typed_inv in Ht as [Ht|(_ & _ & Hreq & _)]; [congruence|].
      eapply Forall_forall in Hreq; [|exact Hk]. unfold required_ok in Hreq.
      destruct (annotation _ _); [|by apply bool_decide_eq_true in Hreq].
      apply orb_true_iff in Hreq as [Hh|Hreq]; [by rewrite Hh in Hf|by apply bool_decide_eq_true in Hreq].
Qed.

(** A reader is defined on every value of a schema. *)
Definition reads {A} (read : jsval → option A) (s : Schema) : Prop := ∀ v, conforms s v → is_Some (read v).
End typing.

(** ** Readers *)

Definition read_text (v : jsval) : option jsstring := match v with VStr s => Some s | _ => None end.

Definition read_nullable_text (v : jsval) : option (option jsstring) :=
  match v with VNull => Some None | VStr s => Some (Some s) | _ => None end.

Definition read_num (v : jsval) : option num := match v with VNum n => Some n | _ => None end.

Definition read_bool (v : jsval) : option bool := match v with VBool b => Some b | _ => None end.

Definition read_array {A} (read : jsval → option A) (v : jsval) : option (list A) :=
  match v with VArr l => mapM read l | _ => None end.

(** A member of an enumeration, by its text. *)
Definition read_enum {A} (str : A → jsstring) (all : list A) (v : jsval) : option A :=
  s ← read_text v; List.find (λ a, bool_decide (str a = s)) all.

Definition read_role : jsval → option ServiceAccountRole :=
  read_enum role_str [OpenshellAdmin; OpenshellUser].

Definition read_status : jsval → option ServiceAccountStatus :=
  read_enum status_str [Degraded; Deleting; StatusError; Expired; Provisioning; Ready; Revoked; Revoking].

Definition fields_of (v : jsval) : option (list (jsstring * jsval)) :=
  match v with VObj l => Some l | _ => None end.

Definition required {A} (read : jsval → option A) (l : list (jsstring * jsval)) (k : string) : option A :=
  prop_get l (js k) ≫= read.

Definition optional {A} (read : jsval → option A) (l : list (jsstring * jsval)) (k : string) :
    option (option A) :=
  match prop_get l (js k) with None => Some None | Some v => Some <$> read v end.

(** A nullable text that is absent is read as [null]. *)
Definition optional_text (l : list (jsstring * jsval)) (k : string) : option (option jsstring) :=
  match prop_get l (js k) with None => Some None | Some v => read_nullable_text v end.

(** ** The resources the adapter reads *)

Definition decode_gateway (v : jsval) : option ApiGateway :=
  l ← fields_of v;
  active_sandbox_count ← optional read_num l "active_sandbox_count";
  cluster_id ← required read_text l "cluster_id";
  console_address ← optional read_text l "console_address";
  created_at ← optional read_text l "created_at";
  created_by ← optional read_text l "created_by";
  external_dns ← optional read_text l "external_dns";
  id ← optional read_text l "id";
  name ← required read_text l "name";
  namespace ← required read_text l "namespace";
  oidc ← optional read_text l "oidc";
  phase ← optional read_text l "phase";
  release_id ← required read_text l "release_id";
  route_address ← optional read_text l "route_address";
  status ← optional read_text l "status";
  Some {| ag_active_sandbox_count := active_sandbox_count; ag_cluster_id := cluster_id;
          ag_console_address := console_address; ag_created_at := created_at;
          ag_created_by := created_by; ag_external_dns := external_dns; ag_id := id;
          ag_name := name; ag_namespace := namespace; ag_oidc := oidc; ag_phase := phase;
          ag_release_id := release_id; ag_route_address := route_address; ag_status := status |}.

Definition decode_cluster (v : jsval) : option ManagedCluster :=
  l ← fields_of v;
  id ← optional read_text l "id"; name ← required read_text l "name";
  provider ← required read_text l "provider"; region ← optional read_text l "region";
  status ← optional read_text l "status";
  Some {| mc_id := id; mc_name := name; mc_provider := provider; mc_region := region;
          mc_status := status |}.

Definition decode_account (v : jsval) : option ApiServiceAccount :=
  l ← fields_of v;
  client_id ← required read_text l "client_id"; created_at ← required read_text l "created_at";
  created_by_user_id ← required read_text l "created_by_user_id";
  description ← optional_text l "description"; expires_at ← required read_text l "expires_at";
  gateway_id ← required read_text l "gateway_id"; id ← required read_text l "id";
  last_error ← optional_text l "last_error"; name ← required read_text l "name";
  revoked_at ← optional_text l "revoked_at"; role ← required read_role l "role";
  status ← required read_status l "status"; subject ← required read_text l "subject";
  updated_at ← required read_text l "updated_at";
  Some {| aa_client_id := client_id; aa_created_at := created_at;
          aa_created_by_user_id := created_by_user_id; aa_description := description;
          aa_expires_at := expires_at; aa_gateway_id := gateway_id; aa_id := id;
          aa_last_error := last_error; aa_name := name; aa_revoked_at := revoked_at;
          aa_role := role; aa_status := status; aa_subject := subject;
          aa_updated_at := updated_at |}.

Definition decode_connection (v : jsval) : option ApiConnection :=
  l ← fields_of v;
  lifetime ← required read_num l "access_token_lifetime_seconds";
  audience ← required read_text l "audience"; client_id ← required read_text l "client_id";
  gateway_endpoint ← optional read_text l "gateway_endpoint";
  gateway_name ← required read_text l "gateway_name"; issuer ← required read_text l "issuer";
  token_endpoint ← required read_text l "token_endpoint";
  Some {| ac_access_token_lifetime_seconds := lifetime; ac_audience := audience;
          ac_client_id := client_id; ac_gateway_endpoint := gateway_endpoint;
          ac_gateway_name := gateway_name; ac_issuer := issuer;
          ac_token_endpoint := token_endpoint |}.

Definition decode_credential (v : jsval) : option ApiCredential :=
  l ← fields_of v; secret ← required read_text l "client_secret";
  connection ← decode_connection v;
  Some {| acr_connection := connection; acr_client_secret := secret |}.

Definition decode_created (v : jsval) : option (ApiServiceAccount * ApiCredential) :=
  l ← fields_of v; account ← decode_account v;
  credential ← required decode_credential l "credential"; Some (account, credential).

Definition decode_detail (v : jsval) : option (ApiServiceAccount * ApiConnection) :=
  l ← fields_of v; account ← decode_account v;
  connection ← required decode_connection l "connection"; Some (account, connection).

Definition decode_list {A} (read : jsval → option A) (v : jsval) : option (ApiList A) :=
  l ← fields_of v; items ← optional (read_array read) l "items";
  page ← optional read_num l "page"; total ← optional read_num l "total";
  Some {| al_items := items; al_page := page; al_total := total |}.

(** The default, the maximal and the minimal number of seconds. *)
Definition decode_policy (v : jsval) : option (num * num * num) :=
  l ← fields_of v; default_seconds ← required read_num l "default_seconds";
  maximum_seconds ← required read_num l "maximum_seconds";
  minimum_seconds ← required read_num l "minimum_seconds";
  Some (default_seconds, maximum_seconds, minimum_seconds).

Definition decode_capabilities (v : jsval) : option ApiCapabilities :=
  l ← fields_of v; roles ← required (read_array read_role) l "allowed_roles";
  can_create ← required read_bool l "can_create";
  can_manage_all ← required read_bool l "can_manage_all";
  policy ← required decode_policy l "expiration_policy";
  Some {| acap_allowed_roles := roles; acap_can_create := can_create;
          acap_can_manage_all := can_manage_all; acap_default_seconds := policy.1.1;
          acap_maximum_seconds := policy.1.2; acap_minimum_seconds := policy.2 |}.

Definition decode_account_list (v : jsval) : option ApiServiceAccountList :=
  l ← fields_of v; list ← decode_list decode_account v; size ← required read_num l "size";
  capabilities ← required decode_capabilities l "capabilities";
  Some {| asl_list := list; asl_size := size; asl_capabilities := capabilities |}.

(** * Lemmas: readers *)

Section readers.
Context (models : list (jsstring * Schema)) (validURL : jsstring → bool) (direction : Direction).

Abbreviation conforms := (conforms models validURL direction).
Abbreviation reads := (reads models validURL direction).

Lemma reads_ref {A} (read : jsval → option A) s r s' :
  ref_of s = Some r → resolve models r = Some s' → reads read s' → reads read s.
Proof.
  intros Hr Hs Hread v Hc. destruct (conforms_ref _ _ _ _ _ _ Hc Hr) as (s'' & Hs' & Hc').
  apply Hread. congruence.
Qed.

(** The value of a schema of one type that is not nullable. *)
Lemma scalar_typed s v t : conforms s v → ref_of s = None → s_type s = Some t →
  match v with
  | VNull => s_nullable s = true
  | VBool _ => t = TBoolean
  | VNum n => t = TNumber ∨ t = TInteger
  | VStr _ => t = TString
  | VArr _ => t = TArray
  | VObj _ => t = TObject
  | VUndef => False
  end.
Proof.
  intros Hc Hr Ht. destruct (conforms_node _ _ _ _ _ Hc Hr) as (_ & _ & _ & H).
  apply typed_inv in H as [H|H]; [congruence|]. rewrite Ht in H. destruct v; naive_solver.
Qed.

Lemma reads_text s : ref_of s = None → s_type s = Some TString → s_nullable s = false →
  reads read_text s.
Proof.
  intros Hr Ht Hn v Hc. pose proof (scalar_typed s v _ Hc Hr Ht) as H.
  destruct v; cbn; try done; try congruence; destruct H; done.
Qed.

Lemma reads_nullable_text s : ref_of s = None → s_type s = Some TString →
  reads read_nullable_text s.
Proof.
  intros Hr Ht v Hc. pose proof (scalar_typed s v _ Hc Hr Ht) as H.
  destruct v; cbn; try done; try congruence; destruct H; done.
Qed.

Lemma reads_num s : ref_of s = None → s_type s = Some TInteger → s_nullable s = false →
  reads read_num s.
Proof.
  intros Hr Ht Hn v Hc. pose proof (scalar_typed s v _ Hc Hr Ht) as H.
  destruct v; cbn; try done; congruence.
Qed.

Lemma reads_bool s : ref_of s = None → s_type s = Some TBoolean → s_nullable s = false →
  reads read_bool s.
Proof.
  intros Hr Ht Hn v Hc. pose proof (scalar_typed s v _ Hc Hr Ht) as H.
  destruct v; cbn; try done; try congruence; destruct H; done.
Qed.

Lemma array_reads {A} (read : jsval → option A) s i : ref_of s = None → s_type s = Some TArray →
  s_nullable s = false → s_items s = Some i → reads read i → reads (read_array read) s.
Proof.
  intros Hr Ht Hn Hi Hread v Hc. pose proof (scalar_typed s v _ Hc Hr Ht) as H.
  destruct (conforms_node _ _ _ _ _ Hc Hr) as (_ & _ & _ & Hty).
  apply typed_inv in Hty as [Hty|Hty]; [congruence|].
  destruct v; try done; try congruence; [by destruct H|]. cbn. apply mapM_is_Some.
  destruct Hty as (_ & _ & Hl). eapply Forall_impl; [exact Hl|].
  intros x (s' & Hs & Hx). apply Hread. congruence.
Qed.

Lemma same_json_text e v : same_json (VStr e) v = true → v = VStr e.
Proof.
  unfold same_json. rewrite bool_decide_eq_true. cbn.
  destruct v as [| |b|n|s|l|l]; cbn; try done; [|congruence]. by destruct (is_finite n).
Qed.

Lemma reads_enum {A} (read : jsval → option A) s l : ref_of s = None → s_enum s = Some l →
  Forall (λ e, is_Some (read_text e) ∧ is_Some (read e)) l → reads read s.
Proof.
  intros Hr Hl Hf v Hc. destruct (conforms_node _ _ _ _ _ Hc Hr) as (_ & _ & Hen & _).
  apply Hen in Hl as (e & He & Hs)%Exists_exists. eapply Forall_forall in Hf as [[t Ht] Hread]; [|exact He].
  destruct e; try done. by apply same_json_text in Hs as ->.
Qed.

Section fields.
Context {A : Type} (read : jsval → option A) (levels : nat) (s f : Schema)
  (l : list (jsstring * jsval)) (k : string).
Context (Hf : head (field_schemas models levels s (js k)) = Some f) (Hc : conforms s (VObj l)).

Lemma field_read x : reads read f → prop_get l (js k) = Some x → is_Some (read x).
Proof.
  intros Hread Hx. apply Hread. eapply field_conforms; [|exact Hc|exact Hx].
  destruct (field_schemas models levels s (js k)) as [|f' fs] eqn:E; [done|].
  rewrite E. injection Hf as ->. by left.
Qed.

Lemma required_reads : reads read f → requires models direction levels s (js k) = true →
  is_Some (required read l k).
Proof.
  intros Hread Hreq. destruct (requires_present _ _ _ _ _ _ _ Hreq Hc) as [x Hx].
  unfold required. rewrite Hx. by apply field_read.
Qed.

Lemma optional_reads : reads read f → is_Some (optional read l k).
Proof.
  intros Hread. unfold optional. destruct (prop_get l (js k)) as [x|] eqn:Hx; [|done].
  destruct (field_read x Hread Hx) as [y ->]. done.
Qed.
End fields.

Lemma optional_text_reads levels s f l k : head (field_schemas models levels s (js k)) = Some f →
  conforms s (VObj l) → reads read_nullable_text f → is_Some (optional_text l k).
Proof.
  intros Hf Hc Hread. unfold optional_text. destruct (prop_get l (js k)) as [x|] eqn:Hx; [|done].
  by eapply field_read.
Qed.
End readers.

(** * Lemmas: the contract's resources *)

(** The bound on chains of parts and references; the contract's are shorter. *)
Definition contract_levels : nat := 8.

(** The first field a reader takes, from the schema's own account of it. *)
Ltac field_of s k c :=
  let fs := eval vm_compute in (field_schemas contract_models contract_levels s (js k)) in
  match fs with ?f :: _ => c f end.

Ltac reads_scalar :=
  first
    [ apply reads_text; vm_compute; reflexivity
    | apply reads_num; vm_compute; reflexivity
    | apply reads_bool; vm_compute; reflexivity
    | apply reads_nullable_text; vm_compute; reflexivity
    | eapply reads_enum; [vm_compute; reflexivity|vm_compute; reflexivity|
        repeat constructor; vm_compute; eauto] ].

Section resources.
Context (validURL : jsstring → bool).

Abbreviation conforms := (conforms contract_models validURL Response).
Abbreviation reads := (reads contract_models validURL Response).

(** Every field of a decoder is read in turn. *)
Ltac read_fields s Hc tac :=
  repeat match goal with
  | |- is_Some (required ?r ?l ?k ≫= _) =>
      let H := fresh "H" in
      field_of s k ltac:(fun f =>
        assert (H : is_Some (required r l k));
        [ apply (required_reads contract_models validURL Response r contract_levels s f l k);
          [vm_compute; reflexivity|exact Hc|tac|vm_compute; reflexivity]
        | destruct H as [? ->]; cbn [mbind option_bind] ])
  | |- is_Some (optional ?r ?l ?k ≫= _) =>
      let H := fresh "H" in
      field_of s k ltac:(fun f =>
        assert (H : is_Some (optional r l k));
        [ apply (optional_reads contract_models validURL Response r contract_levels s f l k);
          [vm_compute; reflexivity|exact Hc|tac]
        | destruct H as [? ->]; cbn [mbind option_bind] ])
  | |- is_Some (optional_text ?l ?k ≫= _) =>
      let H := fresh "H" in
      field_of s k ltac:(fun f =>
        assert (H : is_Some (optional_text l k));
        [ apply (optional_text_reads contract_models validURL Response contract_levels s f l k);
          [vm_compute; reflexivity|exact Hc|tac]
        | destruct H as [? ->]; cbn [mbind option_bind] ])
  end.

Ltac open_object s v Hc :=
  let l := fresh "l" in
  destruct (is_object_conforms contract_models validURL Response contract_levels s v
              ltac:(vm_compute; reflexivity) Hc) as [l ->];
  cbn [fields_of mbind option_bind].

Ltac read_object s tac :=
  let v := fresh "v" in let Hc := fresh "Hc" in
  intros v Hc; open_object s v Hc; read_fields s Hc tac.

Lemma gateway_reads : reads decode_gateway Gateway_model.
Proof. unfold decode_gateway. read_object Gateway_model ltac:(reads_scalar). done. Qed.

Lemma cluster_reads : reads decode_cluster ManagedCluster_model.
Proof. unfold decode_cluster. read_object ManagedCluster_model ltac:(reads_scalar). done. Qed.

Lemma account_reads s :
  s = OpenShellGatewayServiceAccountListItem_model ∨
  s = OpenShellGatewayServiceAccountCreateResponse_model ∨
  s = OpenShellGatewayServiceAccountGetResponse_model →
  reads decode_account s.
Proof.
  unfold decode_account. intros [->|[->| ->]].
  - read_object OpenShellGatewayServiceAccountListItem_model ltac:(reads_scalar). done.
  - read_object OpenShellGatewayServiceAccountCreateResponse_model ltac:(reads_scalar). done.
  - read_object OpenShellGatewayServiceAccountGetResponse_model ltac:(reads_scalar). done.
Qed.

Lemma connection_reads s :
  s = OpenShellGatewayServiceAccountConnection_model ∨
  s = OpenShellGatewayServiceAccountCredential_model →
  reads decode_connection s.
Proof.
  unfold decode_connection. intros [->| ->].
  - read_object OpenShellGatewayServiceAccountConnection_model ltac:(reads_scalar). done.
  - read_object OpenShellGatewayServiceAccountCredential_model ltac:(reads_scalar). done.
Qed.

Lemma credential_reads : reads decode_credential OpenShellGatewayServiceAccountCredential_model.
Proof.
  unfold decode_credential. read_object OpenShellGatewayServiceAccountCredential_model ltac:(reads_scalar).
  destruct (connection_reads _ (or_intror eq_refl) _ Hc) as [c ->]. done.
Qed.

Lemma created_reads : reads decode_created OpenShellGatewayServiceAccountCreateResponse_model.
Proof.
  unfold decode_created. intros v Hc.
  destruct (account_reads _ (or_intror (or_introl eq_refl)) _ Hc) as [a Ha].
  open_object OpenShellGatewayServiceAccountCreateResponse_model v Hc.
  rewrite Ha. cbn [mbind option_bind].
  read_fields OpenShellGatewayServiceAccountCreateResponse_model Hc ltac:(exact credential_reads). done.
Qed.

Lemma detail_reads : reads decode_detail OpenShellGatewayServiceAccountGetResponse_model.
Proof.
  unfold decode_detail. intros v Hc.
  destruct (account_reads _ (or_intror (or_intror eq_refl)) _ Hc) as [a Ha].
  open_object OpenShellGatewayServiceAccountGetResponse_model v Hc.
  rewrite Ha. cbn [mbind option_bind].
  read_fields OpenShellGatewayServiceAccountGetResponse_model Hc
    ltac:(exact (connection_reads _ (or_introl eq_refl))). done.
Qed.

(** The items of a list, each of a model. *)
Ltac reads_items lem :=
  first [reads_scalar|
    eapply array_reads; [vm_compute; reflexivity..|];
    eapply reads_ref; [vm_compute; reflexivity|vm_compute; reflexivity|exact lem]].

Lemma gateway_list_reads : reads (decode_list decode_gateway) GatewayList_model.
Proof. unfold decode_list. read_object GatewayList_model ltac:(reads_items gateway_reads). done. Qed.

Lemma cluster_list_reads : reads (decode_list decode_cluster) ManagedClusterList_model.
Proof.
  unfold decode_list. read_object ManagedClusterList_model ltac:(reads_items cluster_reads). done.
Qed.

Lemma policy_reads : reads decode_policy OpenShellGatewayServiceAccountExpirationPolicy_model.
Proof.
  unfold decode_policy.
  read_object OpenShellGatewayServiceAccountExpirationPolicy_model ltac:(reads_scalar). done.
Qed.

Lemma role_reads : reads read_role OpenShellGatewayServiceAccountRole_model.
Proof. reads_scalar. Qed.

Lemma capabilities_reads : reads decode_capabilities OpenShellGatewayServiceAccountCapabilities_model.
Proof.
  unfold decode_capabilities.
  read_object OpenShellGatewayServiceAccountCapabilities_model
    ltac:(first [exact policy_reads|reads_items role_reads]). done.
Qed.

Lemma account_page_reads : reads (decode_list decode_account) OpenShellGatewayServiceAccountList_model.
Proof.
  unfold decode_list.
  read_object OpenShellGatewayServiceAccountList_model
    ltac:(reads_items (account_reads _ (or_introl eq_refl))). done.
Qed.

Lemma account_list_reads : reads decode_account_list OpenShellGatewayServiceAccountList_model.
Proof.
  unfold decode_account_list. intros v Hc. destruct (account_page_reads _ Hc) as [p Hp].
  open_object OpenShellGatewayServiceAccountList_model v Hc. rewrite Hp. cbn [mbind option_bind].
  read_fields OpenShellGatewayServiceAccountList_model Hc
    ltac:(first [exact capabilities_reads|reads_scalar]). done.
Qed.
End resources.

(** * The bounds *)

(** A value of a response's text, of at most ten thousand nodes and four Mi units of
    text, is within the budget under a schema of this measure. *)
Definition covered (m : Measure) : bool :=
  ((ms_own m + ms_below m * 9999 <=? bd_nodes initial_budget) && (ms_text m <=? 8))%Z.

Definition response_schemas (op : ContractOperation) : list Schema := omap snd (co_responses op).

Lemma contract_covered :
  forallb (λ o, forallb (λ s, if measure contract_models 49 (Some s) is Some m then covered m else false)
                  (response_schemas o.2)) contract_operations = true.
Proof. vm_compute. done. Qed.

Lemma response_measure name op s : (name, op) ∈ contract_operations → s ∈ response_schemas op →
  ∃ m, measure contract_models 49 (Some s) = Some m ∧
    (ms_own m + ms_below m * 9999 ≤ bd_nodes initial_budget)%Z ∧ (ms_text m ≤ 8)%Z.
Proof.
  intros Ho%list_elem_of_In Hs%list_elem_of_In. pose proof contract_covered as H.
  rewrite forallb_forall in H. specialize (H _ Ho). rewrite forallb_forall in H.
  specialize (H _ Hs). cbv beta in H. destruct (measure _ _ _) as [m|]; [|done].
  apply andb_prop in H as [H1%Z.leb_le H2%Z.leb_le]. eauto.
Qed.

(** * Properties *)

(** C14 The check of a response never fails for want of budget: whatever text within
    the client's limit a response has, if it parses, the value passes the check
    against a schema of the contract's responses exactly when it conforms to it. *)
Theorem response_check_exact (validURL : jsstring → bool) (name : jsstring)
    (op : ContractOperation) (s : Schema) (text : jsstring) (v : jsval) :
  (name, op) ∈ contract_operations → s ∈ response_schemas op →
  (length_Z text ≤ maxResponse)%Z → parseJSON text = Some v →
  validates contract_models validURL Response (Some s) v = true ↔
  conforms contract_models validURL Response s v.
Proof.
  intros Ho Hs Hlen Hp. destruct (response_measure _ _ _ Ho Hs) as (m & Hm & Hn & Ht).
  apply parseJSON_chars in Hp as Hc. apply parseJSON_sound in Hp as (_ & Hj & _).
  pose proof (measure_well _ _ _ _ Hm) as (? & ? & ?).
  pose proof (json_chars_nonneg v). pose proof (json_nodes_pos v).
  apply (validates_decides contract_models validURL Response s v m Hm).
  - unfold node_cost, json_below, maxNodes in *. nia.
  - unfold text_cost. cbn. nia.
Qed.

Module DemoContract.
Definition text : jsstring :=
  backquoted "{ `id`: `g1`, `name`: `one`, `cluster_id`: `c`, `release_id`: ``, `namespace`: `ns`,
    `created_at`: `2024-02-29T10:00:00.5+01:00`, `active_sandbox_count`: 3 }".

Definition gateway_value : jsval :=
  VObj [(js "id", VStr (js "g1")); (js "name", VStr (js "one")); (js "cluster_id", VStr (js "c"));
        (js "release_id", VStr []); (js "namespace", VStr (js "ns"));
        (js "created_at", VStr (js "2024-02-29T10:00:00.5+01:00"));
        (js "active_sandbox_count", VNum (NInt 3))].

Lemma response_check_exact_witness :
  validates contract_models (λ _, true) Response (Some (ref_to "Gateway")) gateway_value = true ↔
  conforms contract_models (λ _, true) Response (ref_to "Gateway") gateway_value.
Proof.
  refine (response_check_exact (λ _, true) (js "getGateway")
            (operation GET "/gateways/{id}" [path_param "id"] None [("200", Some (ref_to "Gateway"))])
            (ref_to "Gateway") text gateway_value _ _ _ _).
  - do 13 right. left.
  - left.
  - vm_compute. discriminate.
  - vm_compute. reflexivity.
Defined.

Example gateway_accepted :
  validates contract_models (λ _, true) Response (Some (ref_to "Gateway")) gateway_value = true.
Proof. vm_compute. done. Qed.

Example not_a_date : dateTime (js "2023-02-29T10:00:00Z") = false ∧ dateTime (js "2024-02-29T10:00:60Z") = true.
Proof. vm_compute. done. Qed.
End DemoContract.
