(* ===== verification/SdkText.v ===== *)
(** The texts the generated API client writes ([out/tssdk/index.js]): UTF-8 and
    percent encoding of what goes into a path, [JSON.stringify] of what goes into a
    body, and [boundedInput], the check of an input before it is used.

    [encodeURIComponent] and [JSON.stringify] are functions of the language. What
    they write is read back by their readers: [decodeURIComponent], and the client's
    own [parseJSON]. *)
From S2P Require Export SdkSchema.

(** * UTF-8 *)

(** The bytes of a code point. *)
Definition utf8_of (p : N) : list N :=
  (if p <? 0x80 then [p]
   else if p <? 0x800 then [0xc0 + p / 0x40; 0x80 + p mod 0x40]
   else if p <? 0x10000 then [0xe0 + p / 0x1000; 0x80 + p / 0x40 mod 0x40; 0x80 + p mod 0x40]
   else [0xf0 + p / 0x40000; 0x80 + p / 0x1000 mod 0x40; 0x80 + p / 0x40 mod 0x40;
         0x80 + p mod 0x40])%N.

(** The code point of a surrogate pair. *)
Definition pair_point (h l : N) : N := (0x10000 + (h - 0xd800) * 0x400 + (l - 0xdc00))%N.

(** [new TextEncoder().encode(s)]: a lone surrogate is replaced by U+FFFD. *)
Fixpoint utf8 (s : jsstring) : list N :=
  match s with
  | [] => []
  | c :: t =>
      if is_high c then
        match t with
        | l :: t' => if is_low l then utf8_of (pair_point c l) ++ utf8 t'
                     else utf8_of 0xfffd ++ utf8 t
        | [] => utf8_of 0xfffd
        end
      else if is_low c then utf8_of 0xfffd ++ utf8 t
      else utf8_of c ++ utf8 t
  end.

(** * Percent encoding *)

Definition is_letter (c : N) : bool :=
  (((65 <=? c) && (c <=? 90)) || ((97 <=? c) && (c <=? 122)))%N.

(** The units [encodeURIComponent] leaves alone. *)
Definition is_unreserved (c : N) : bool :=
  is_letter c || is_digit c || bool_decide (c ∈ js "-_.!~*'()").

Definition hex_digit (d : N) : N := (if d <? 10 then 48 + d else 55 + d)%N.

(** Upper-case, two digits. *)
Definition percent (b : N) : jsstring := [37; hex_digit (b / 16); hex_digit (b mod 16)]%N.

(** A lone surrogate is an error. *)
Fixpoint encodeURIComponent (s : jsstring) : option jsstring :=
  match s with
  | [] => Some []
  | c :: t =>
      if is_unreserved c then (c ::.) <$> encodeURIComponent t
      else if is_high c then
        match t with
        | l :: t' =>
            if is_low l
            then ((utf8_of (pair_point c l) ≫= percent) ++.) <$> encodeURIComponent t'
            else None
        | [] => None
        end
      else if is_low c then None
      else ((utf8_of c ≫= percent) ++.) <$> encodeURIComponent t
  end.

(** An octet written [%XX]. *)
Definition read_octet (s : jsstring) : option (N * jsstring) :=
  match s with
  | p :: a :: b :: t =>
      if (p =? 37)%N then h ← hex_value a; l ← hex_value b; Some (h * 16 + l, t)%N else None
  | _ => None
  end.

Definition is_continuation (b : N) : bool := ((0x80 <=? b) && (b <? 0xc0))%N.

(** The [n] octets that continue a code point's encoding. *)
Fixpoint read_continuation (n : nat) (p : N) (s : jsstring) : option (N * jsstring) :=
  match n with
  | O => Some (p, s)
  | S n' =>
      r ← read_octet s;
      if is_continuation r.1 then read_continuation n' (p * 0x40 + (r.1 - 0x80))%N r.2 else None
  end.

(** How many octets follow a first one, the bits it gives, and the least code
    point its encoding may be of. *)
Definition lead_octet (b : N) : option (nat * N * N) :=
  (if b <? 0x80 then Some (0%nat, b, 0)
   else if b <? 0xc0 then None
   else if b <? 0xe0 then Some (1%nat, b - 0xc0, 0x80)
   else if b <? 0xf0 then Some (2%nat, b - 0xe0, 0x800)
   else if b <? 0xf8 then Some (3%nat, b - 0xf0, 0x10000)
   else None)%N.

Definition is_scalar (p : N) : bool :=
  ((p <? 0xd800) || ((0xe000 <=? p) && (p <? 0x110000)))%N.

(** The escape of one code point at the start of the text. *)
Definition read_escape (s : jsstring) : option (N * jsstring) :=
  b ← read_octet s;
  '(n, bits, least) ← lead_octet b.1;
  r ← read_continuation n bits b.2;
  if (least <=? r.1)%N && is_scalar r.1 then Some r else None.

(** [decodeURIComponent]; its fuel is the length of the text. *)
Fixpoint decode_loop (fuel : nat) (s : jsstring) : option jsstring :=
  match fuel, s with
  | _, [] => Some []
  | O, _ => None
  | S fuel', c :: t =>
      if (c =? 37)%N then r ← read_escape s; (utf16 r.1 ++.) <$> decode_loop fuel' r.2
      else (c ::.) <$> decode_loop fuel' t
  end.

Definition decodeURIComponent (s : jsstring) : option jsstring := decode_loop (length s) s.

(** * JSON texts *)

Definition lower_hex (d : N) : N := (if d <? 10 then 48 + d else 87 + d)%N.

Definition unicode_escape (c : N) : jsstring :=
  [92; 117; lower_hex (c / 4096); lower_hex (c / 256 mod 16); lower_hex (c / 16 mod 16);
   lower_hex (c mod 16)]%N.

(** A unit of a string literal that is no surrogate. *)
Definition quote_unit (c : N) : jsstring :=
  if ((c =? 34) || (c =? 92))%N then [92%N; c]
  else if (c =? 8)%N then js "\b"
  else if (c =? 12)%N then js "\f"
  else if (c =? 10)%N then js "\n"
  else if (c =? 13)%N then js "\r"
  else if (c =? 9)%N then js "\t"
  else if (c <? 32)%N then unicode_escape c
  else [c].

(** A lone surrogate is escaped. *)
Fixpoint quote_units (s : jsstring) : jsstring :=
  match s with
  | [] => []
  | c :: t =>
      if is_high c then
        match t with
        | l :: t' => if is_low l then c :: l :: quote_units t' else unicode_escape c ++ quote_units t
        | [] => unicode_escape c
        end
      else if is_low c then unicode_escape c ++ quote_units t
      else quote_unit c ++ quote_units t
  end.

Definition quote (s : jsstring) : jsstring := 34%N :: quote_units s ++ [34%N].

Section stringify.
(** [String(n)] of a finite number that is no integer. *)
Context (fraction_text : num → jsstring).

(** Integers are those below 10^21, as a checked input has them. *)
Definition number_string (n : num) : jsstring :=
  match n with
  | NInt z => string_of_Z z
  | NFrac _ _ => fraction_text n
  | NInf false => js "Infinity"
  | NInf true => js "-Infinity"
  | NNaN => js "NaN"
  end.

Fixpoint stringify (v : jsval) : option jsstring :=
  match v with
  | VUndef => None
  | VNull => Some (js "null")
  | VBool b => Some (if b then js "true" else js "false")
  | VNum n => Some (if is_finite n then number_string n else js "null")
  | VStr s => Some (quote s)
  | VArr l =>
      Some (91%N :: joinWith [44%N] (map (λ v, default (js "null") (stringify v)) l) ++ [93%N])
  | VObj l =>
      Some (123%N :: joinWith [44%N]
              (omap (λ p, t ← stringify p.2; Some (quote p.1 ++ 58%N :: t)) l) ++ [125%N])
  end.
End stringify.

(** * The bounds of an input *)

Record InputCount := { ic_nodes : N; ic_text : N }.

Definition maxRequest : N := 1048576.    (* 1 << 20 *)

(** Counting a text's length. *)
Definition count_text (s : jsstring) (c : InputCount) : option InputCount :=
  let c' := {| ic_nodes := ic_nodes c; ic_text := ic_text c + N.of_nat (length s) |} in
  if (maxRequest <? ic_text c')%N || negb (unicode s) then None else Some c'.

Section bounded.
Context (boundedInput : jsval → InputCount → option InputCount).

(** The keys of an array are its indices, which count as text too. *)
Fixpoint bounded_items (i : Z) (l : list jsval) (c : InputCount) : option InputCount :=
  match l with
  | [] => Some c
  | v :: l' =>
      c1 ← count_text (string_of_Z i) c; c2 ← boundedInput v c1; bounded_items (i + 1) l' c2
  end.

Fixpoint bounded_props (l : list (jsstring * jsval)) (c : InputCount) : option InputCount :=
  match l with
  | [] => Some c
  | p :: l' => c1 ← count_text p.1 c; c2 ← boundedInput p.2 c1; bounded_props l' c2
  end.
End bounded.

(** [None] is the failure [invalid_input]; [levels] is 33 less the depth. *)
Fixpoint boundedInput (levels : nat) (v : jsval) (c : InputCount) : option InputCount :=
  let c := {| ic_nodes := ic_nodes c + 1; ic_text := ic_text c |} in
  match levels with
  | O => None
  | S levels' =>
      if (10000 <? ic_nodes c)%N then None
      else
        match v with
        | VNull | VBool _ => Some c
        | VStr s => count_text s c
        | VNum n =>
            if negb (is_finite n) || is_integer n && negb (is_safe_integer n) then None else Some c
        | VUndef => None
        | VArr l =>
            if (10000 <? N.of_nat (length l))%N then None
            else bounded_items (boundedInput levels') 0 l c
        | VObj l => bounded_props (boundedInput levels') l c
        end
  end.

Definition bounded (v : jsval) : bool :=
  if boundedInput 33 v {| ic_nodes := 0; ic_text := 0 |} is Some _ then true else false.

(** * Lemmas: JSON texts *)

Lemma lower_escape c : (c < 32)%N →
  hex4 (lower_hex (c / 4096)) (lower_hex (c / 256 mod 16)) (lower_hex (c / 16 mod 16))
    (lower_hex (c mod 16)) = Some c.
Proof.
  intros Hc. rewrite <- (N2Nat.id c). remember (N.to_nat c) as n eqn:Hn.
  assert (n < 32) by lia. clear Hn Hc. do 32 (destruct n as [|n]; [done|]). lia.
Qed.

Lemma quote_unit_text c : is_high c = false → is_low c = false → unit_text c (quote_unit c).
Proof.
  intros _ _. unfold quote_unit.
  destruct (N.eqb_spec c 34) as [->|]; [by apply ut_escape|].
  destruct (N.eqb_spec c 92) as [->|]; [by apply ut_escape|].
  destruct (N.eqb_spec c 8) as [->|]; [by apply ut_escape|].
  destruct (N.eqb_spec c 12) as [->|]; [by apply ut_escape|].
  destruct (N.eqb_spec c 10) as [->|]; [by apply ut_escape|].
  destruct (N.eqb_spec c 13) as [->|]; [by apply ut_escape|].
  destruct (N.eqb_spec c 9) as [->|]; [by apply ut_escape|]. cbn [orb].
  destruct (N.ltb_spec c 32); [by apply ut_hex, lower_escape|by apply ut_plain].
Qed.

Lemma surrogate_text c : is_high c = true ∨ is_low c = true → unit_text c [c].
Proof. rewrite is_high_spec, is_low_spec. intros H. apply ut_plain; lia. Qed.

(** What is written for a well-formed string denotes it. *)
Lemma quote_text s : unicode s = true → string_text s (quote_units s).
Proof.
  induction s as [s IH] using list_length_ind. intros Hu. destruct s as [|c t]; [constructor|].
  cbn in Hu |- *. destruct (is_high c) eqn:Hh.
  - destruct t as [|l t]; [done|]. apply andb_prop in Hu as [Hl Hu]. rewrite Hl.
    apply (st_cons c _ [c]), (st_cons l _ [l]); [by apply surrogate_text; auto..|].
    apply IH; [simpl; lia|done].
  - destruct (is_low c) eqn:Hl; [done|].
    apply st_cons; [by apply quote_unit_text|]. apply IH; [simpl; lia|done].
Qed.

Definition integer_token (z : Z) : NumberToken := {|
  tk_negative := (z <? 0)%Z; tk_whole := digits_of (Z.abs z); tk_fraction := None;
  tk_exponent := None |}.

Lemma integer_token_text z : token_text (integer_token z) = string_of_Z z.
Proof.
  unfold token_text, string_of_Z. cbn. rewrite app_nil_r.
  destruct (Z.ltb_spec z 0); cbn; by rewrite ?Z.abs_neq, ?Z.abs_eq by lia.
Qed.

Lemma integer_token_wf z : wf_token (integer_token z).
Proof.
  split_and!; [|done..]. change (tk_whole (integer_token z)) with (digits_of (Z.abs z)).
  destruct (Z.eqb_spec z 0) as [->|Hz]; [by left|right].
  destruct (digits_of_head (Z.abs z)) as (c & t & -> & Hc & Ht); [lia|].
  exists c, t. split_and!; [done| |lia|done]. unfold is_digit. apply andb_true_iff. rewrite !N.leb_le. lia.
Qed.

Lemma integer_token_digits z : token_digits (integer_token z) = Z.abs z.
Proof. unfold token_digits. cbn. rewrite app_nil_r. apply digits_of_value. lia. Qed.

(** A safe integer has at most sixteen digits. *)
Lemma string_of_Z_length z : (Z.abs z ≤ max_safe)%Z → length (string_of_Z z) ≤ 128.
Proof.
  intros Hz. assert (H : ∀ f y, length (digits_fuel f y) ≤ f).
  { induction f as [|f IH]; intros y; [done|]. simpl. case_match; [simpl; lia|].
    rewrite length_app. specialize (IH (y / 10)%Z). simpl. lia. }
  assert (Hd : ∀ y, (0 ≤ y ≤ max_safe)%Z → length (digits_of y) ≤ 54).
  { intros y Hy. unfold digits_of. etrans; [apply H|].
    assert (Z.log2 y ≤ Z.log2 max_safe)%Z by (apply Z.log2_le_mono; lia).
    change (Z.log2 max_safe) with 52%Z in *. lia. }
  unfold string_of_Z. destruct (Z.ltb_spec z 0); cbn [length];
    [pose proof (Hd (- z)%Z)|pose proof (Hd z)]; lia.
Qed.

Lemma integer_text z : (Z.abs z ≤ max_safe)%Z → number_text (NInt z) (string_of_Z z).
Proof.
  intros Hz. exists (integer_token z).
  assert (Hn : token_number (integer_token z) = NInt z).
  { unfold token_number, decimal_num. rewrite integer_token_digits.
    change (token_scale (integer_token z)) with 0%Z. cbn -[Z.mul round_int Z.pow].
    destruct (Z.eqb_spec (Z.abs z) 0); [f_equal; lia|].
    change (10 ^ 0)%Z with 1%Z. unfold max_safe in Hz.
    destruct (Z.ltb_spec z 0); rewrite round_int_exact; f_equal; lia. }
  split_and!; [apply integer_token_wf|by rewrite integer_token_text|by apply string_of_Z_length
    |by rewrite Hn|done|].
  intros y [= <-]. split_and!; [done| |done]. unfold denotes. rewrite integer_token_digits.
  change (token_scale (integer_token z)) with 0%Z.
  change (tk_negative (integer_token z)) with (z <? 0)%Z. change (10 ^ Z.max 0 _)%Z with 1%Z.
  destruct (Z.ltb_spec z 0); lia.
Qed.

(** The texts of fractions the language writes: the number is read back from it. *)
Definition prints (fraction_text : num → jsstring) (n : num) : Prop :=
  ∀ m e, n = NFrac m e → number_text n (fraction_text n).

Section wf_val.
Context (ok : num → Prop).

(** The property lists and strings JavaScript has: keys are unique, units 16 bits.
    Of its numbers it asks [ok]. *)
Unset Elimination Schemes.
Inductive wf_val : jsval → Prop :=
| wf_undef : wf_val VUndef
| wf_null : wf_val VNull
| wf_bool b : wf_val (VBool b)
| wf_num n : ok n → wf_val (VNum n)
| wf_str s : wf_units s → wf_val (VStr s)
| wf_arr l : Forall wf_val l → wf_val (VArr l)
| wf_obj l : NoDup l.*1 → Forall (λ p, wf_units p.1 ∧ wf_val p.2) l → wf_val (VObj l).
Set Elimination Schemes.
End wf_val.

Section roundtrip.
Context (fraction_text : num → jsstring).
Abbreviation wf_val := (wf_val (prints fraction_text)).

(** What a bounded value is written as denotes it. *)
Definition writes (levels : nat) : Prop := ∀ v c c', wf_val v → boundedInput levels v c = Some c' →
  ∃ t, stringify fraction_text v = Some t ∧ json_text v t ∧
    ic_nodes c' = (ic_nodes c + N.of_nat (json_nodes v))%N ∧
    (ic_nodes c' ≤ maxNodes)%N ∧ json_height v < levels.

Lemma count_text_nodes s c c' : count_text s c = Some c' → ic_nodes c' = ic_nodes c ∧ unicode s = true.
Proof.
  unfold count_text. destruct (unicode s); [|by rewrite orb_true_r].
  case_match; [done|]. by intros [= <-].
Qed.

Lemma string_json s : unicode s = true → json_text (VStr s) (quote s).
Proof. intros Hu. by apply jt_string; [apply quote_text|]. Qed.

Lemma items_write levels l : writes levels → Forall wf_val l → ∀ i c c',
  bounded_items (boundedInput levels) i l c = Some c' → (ic_nodes c ≤ maxNodes)%N →
  ic_nodes c' = (ic_nodes c + nodes_of l)%N ∧ (ic_nodes c' ≤ maxNodes)%N ∧
  Forall (λ v, json_height v < levels) l ∧
  (l ≠ [] → elements_text l (joinWith [44%N] (map (λ v, default (js "null") (stringify fraction_text v)) l))).
Proof.
  intros Hw Hl. induction Hl as [|v l Hv Hl IH]; intros i c c' H Hc.
  - injection H as <-. rewrite nodes_of_nil. split_and!; [lia|done|constructor|done].
  - apply bind_Some in H as (c1 & [H1 _]%count_text_nodes & H).
    apply bind_Some in H as (c2 & H2 & H).
    destruct (Hw v c1 c2 Hv H2) as (t & Ht & Htext & Hn & Hb & Hh).
    destruct (IH _ _ _ H Hb) as (Hn' & Hb' & Hhl & Hel).
    split_and!; [rewrite nodes_of_cons; lia|done|by constructor|]. intros _. cbn [map].
    rewrite Ht. cbn [default]. destruct l as [|v' l].
    + rewrite <- (app_nil_r t). apply (et_last v [] t []); [constructor|done|constructor].
    + rewrite joinWith_cons by done.
      apply (et_cons v (v' :: l) [] t []); [constructor|done|constructor|by apply Hel].
Qed.

Definition written_prop (p : jsstring * jsval) : option jsstring :=
  t ← stringify fraction_text p.2; Some (quote p.1 ++ 58%N :: t).

Lemma quote_member s v t : unicode s = true → json_text v t → member_text (s, v) (quote s ++ 58%N :: t).
Proof.
  intros Hu Ht. unfold quote. cbn [app]. rewrite <- app_assoc. cbn [app].
  apply (mt_member s (quote_units s) [] v [] t); [by apply quote_text|done|constructor..|done].
Qed.

Lemma props_write levels l : writes levels → Forall (λ p, wf_units p.1 ∧ wf_val p.2) l → ∀ c c',
  bounded_props (boundedInput levels) l c = Some c' → (ic_nodes c ≤ maxNodes)%N →
  ic_nodes c' = (ic_nodes c + nodes_of l.*2)%N ∧ (ic_nodes c' ≤ maxNodes)%N ∧
  Forall (λ v, json_height v < levels) l.*2 ∧
  (l ≠ [] → omap written_prop l ≠ [] ∧ members_text l (joinWith [44%N] (omap written_prop l))).
Proof.
  intros Hw Hl. induction Hl as [|[k v] l [Hk Hv] Hl IH]; intros c c' H Hc.
  - injection H as <-. cbn [fmap list_fmap]. rewrite nodes_of_nil. split_and!; [lia|done|constructor|done].
  - apply bind_Some in H as (c1 & [H1 Hu]%count_text_nodes & H).
    apply bind_Some in H as (c2 & H2 & H).
    destruct (Hw v c1 c2 Hv H2) as (t & Ht & Htext & Hn & Hb & Hh).
    destruct (IH _ _ H Hb) as (Hn' & Hb' & Hhl & Hel). rewrite fmap_cons, nodes_of_cons.
    split_and!; [cbn [snd]; lia|done|by constructor|]. intros _.
    assert (Hp : written_prop (k, v) = Some (quote k ++ 58%N :: t)).
    { unfold written_prop. cbn [fst snd]. by rewrite Ht. }
    pose proof (quote_member k v t Hu Htext) as Hm.
    cbn [omap list_omap]. rewrite Hp. split; [done|]. destruct l as [|p l].
    + rewrite <- (app_nil_r (quote k ++ _)). apply (mt_last (k, v) [] _ []); [constructor|done|constructor].
    + destruct Hel as [Hne Hel]; [done|]. rewrite joinWith_cons by done.
      apply (mt_cons (k, v) (p :: l) [] _ []); [constructor|done|constructor|done].
Qed.

Lemma bounded_writes levels : writes levels.
Proof.
  induction levels as [|levels IH]; intros v c c' Hwf H; [done|]. cbn [boundedInput ic_nodes ic_text] in H.
  destruct (N.ltb_spec 10000 (ic_nodes c + 1)); [done|]. unfold maxNodes.
  destruct Hwf as [| |b|n Hn|s Hs|l Hl|l Hnd Hl]; cbn [stringify json_nodes] in *.
  - done.
  - injection H as <-. eexists. split_and!; [done|apply jt_word; unfold words; set_solver|cbn; lia|cbn; lia|simpl; lia].
  - injection H as <-. eexists. split_and!; [done| |cbn; lia|cbn; lia|simpl; lia].
    destruct b; apply jt_word; unfold words; set_solver.
  - destruct (is_finite n) eqn:Hf; [|done]. cbn [negb orb] in H.
    assert (is_integer n && negb (is_safe_integer n) = false ∧
            c' = {| ic_nodes := ic_nodes c + 1; ic_text := ic_text c |}) as [Hi ->]
      by (case_match; simplify_eq; done).
    eexists. split_and!; [done| |cbn; lia|cbn; lia|simpl; lia]. apply jt_number.
    destruct n as [z|m e| |]; try done; [|by eapply Hn].
    apply integer_text. cbn in Hi. by apply negb_false_iff, Z.leb_le in Hi.
  - apply count_text_nodes in H as [Hn Hu]. cbn in Hn.
    eexists. split_and!; [done|by apply string_json|lia|lia|simpl; lia].
  - destruct (N.ltb_spec 10000 (N.of_nat (length l))); [done|].
    destruct (items_write levels l IH Hl _ _ _ H) as (Hn & Hb & Hh & Hel); [cbn; unfold maxNodes; lia|].
    eexists. split_and!; [done| |rewrite Hn; pose proof (json_nodes_arr l); cbn in *; lia|done|].
    + destruct l as [|v l]; [by apply (jt_array_nil []); constructor|]. by apply jt_array, Hel.
    + change (json_height (VArr l) < S levels). by apply json_height_arr.
  - destruct (props_write levels l IH Hl _ _ H) as (Hn & Hb & Hh & Hel); [cbn; unfold maxNodes; lia|].
    eexists. split_and!; [done| |rewrite Hn; pose proof (json_nodes_obj l); cbn in *; lia|done|].
    + destruct l as [|p l]; [by apply (jt_object_nil []); constructor|].
      apply jt_object; [by apply Hel|done].
    + change (json_height (VObj l) < S levels). by apply json_height_obj.
Qed.

Lemma bounded_roundtrip levels v c : levels = S maxDepth → wf_val v →
  boundedInput levels v {| ic_nodes := 0; ic_text := 0 |} = Some c →
  ∃ t, stringify fraction_text v = Some t ∧ parseJSON t = Some v.
Proof.
  intros Hl Hwf Hc. destruct (bounded_writes levels v _ _ Hwf Hc) as (t & Ht & Htext & Hn & Hb & Hh).
  exists t. split; [done|]. cbn [ic_nodes] in Hn. apply parseJSON_complete; [|lia|lia].
  exists [], t, []. split_and!; [constructor|done|constructor|by rewrite app_nil_r].
Qed.

(** So is a part of a bounded object. *)
Lemma props_part levels l k v c c' :
  bounded_props (boundedInput levels) l c = Some c' → (k, v) ∈ l →
  ∃ c1 c2, boundedInput levels v c1 = Some c2.
Proof.
  revert c. induction l as [|[k' v'] l IH]; intros c Hc Hin; [by apply not_elem_of_nil in Hin|].
  apply bind_Some in Hc as (c1 & _ & Hc). apply bind_Some in Hc as (c2 & H2 & Hc).
  apply elem_of_cons in Hin as [[= -> ->]|Hin]; [by exists c1, c2|by apply (IH c2)].
Qed.

Lemma object_part levels l k v c c' : levels = maxDepth → wf_val v →
  boundedInput (S levels) (VObj l) c = Some c' → (k, v) ∈ l →
  ∃ t, stringify fraction_text v = Some t ∧ parseJSON t = Some v.
Proof.
  intros Hlevels Hv Hc Hin. cbn [boundedInput] in Hc. destruct (_ <? _)%N; [done|].
  destruct (props_part _ _ _ _ _ _ Hc Hin) as (c1 & c2 & H2).
  destruct (bounded_writes levels v c1 c2 Hv H2) as (t & Ht & Htext & Hn & Hm & Hh).
  exists t. split; [done|]. apply parseJSON_complete; [|lia|lia].
  exists [], t, []. split_and!; [constructor|done|constructor|by rewrite app_nil_r].
Qed.

Lemma bounded_input v : bounded v = true →
  ∃ c, boundedInput 33 v {| ic_nodes := 0; ic_text := 0 |} = Some c.
Proof.
  unfold bounded. generalize (boundedInput 33 v {| ic_nodes := 0; ic_text := 0 |}).
  intros [c|] H; [by exists c|done].
Qed.

Lemma bounded_part l k v : bounded (VObj l) = true → (k, v) ∈ l → wf_val v →
  ∃ t, stringify fraction_text v = Some t ∧ parseJSON t = Some v.
Proof.
  intros [c Hc]%bounded_input Hin Hv. by apply (object_part 32 _ _ _ _ _ eq_refl Hv Hc Hin).
Qed.
End roundtrip.

(** * Lemmas: percent encoding *)

Lemma hex_value_digit d : (d < 16)%N → hex_value (hex_digit d) = Some d.
Proof.
  intros Hd. rewrite <- (N2Nat.id d). remember (N.to_nat d) as n eqn:Hn.
  assert (n < 16) by lia. clear Hn Hd. do 16 (destruct n as [|n]; [done|]). lia.
Qed.

Lemma hex_digit_unreserved d : (d < 16)%N → is_unreserved (hex_digit d) = true.
Proof.
  intros Hd. rewrite <- (N2Nat.id d). remember (N.to_nat d) as n eqn:Hn.
  assert (n < 16) by lia. clear Hn Hd. do 16 (destruct n as [|n]; [done|]). lia.
Qed.

Lemma read_octet_percent b k : (b < 256)%N → read_octet (percent b ++ k) = Some (b, k).
Proof.
  intros Hb. cbn. assert (b / 16 < 16)%N by (apply N.Div0.div_lt_upper_bound; lia).
  assert (b mod 16 < 16)%N by (apply N.mod_lt; lia).
  rewrite !hex_value_digit by done. cbn -[N.mul N.div N.modulo].
  do 2 f_equal. rewrite (N.div_mod b 16) at 3 by lia. lia.
Qed.

Lemma read_continuation_percent n p b bs k : (0x80 ≤ b < 0xc0)%N →
  read_continuation (S n) p (((b :: bs) ≫= percent) ++ k) =
  read_continuation n (p * 0x40 + (b - 0x80))%N ((bs ≫= percent) ++ k).
Proof.
  intros Hb. rewrite bind_cons, <- app_assoc. cbn [read_continuation]. rewrite read_octet_percent by lia. cbn [mbind option_bind fst snd].
  unfold is_continuation. by rewrite (proj2 (N.leb_le _ _)), (proj2 (N.ltb_lt _ _)) by lia.
Qed.

Lemma is_scalar_spec p : is_scalar p = true ↔ is_scalar_value p.
Proof.
  unfold is_scalar, is_scalar_value. rewrite orb_true_iff, andb_true_iff, !N.ltb_lt, N.leb_le. done.
Qed.

(** Each code point's octets, from the bits it has. *)
Lemma split64 p : (p = p / 0x40 * 0x40 + p mod 0x40 ∧ p mod 0x40 < 0x40)%N.
Proof. split; [|apply N.mod_lt; lia]. rewrite (N.div_mod p 0x40) at 1 by lia. lia. Qed.

(** What is read for the octets of a code point, once the first one is read. *)
Lemma read_escape_octets b bs n bits least p k : (b < 256)%N →
  lead_octet b = Some (n, bits, least) →
  read_continuation n bits ((bs ≫= percent) ++ k) = Some (p, k) →
  (least ≤ p)%N → is_scalar_value p →
  read_escape (percent b ++ (bs ≫= percent) ++ k) = Some (p, k).
Proof.
  intros Hb Hl Hr Hp Hs. unfold read_escape. rewrite read_octet_percent by done.
  cbn [mbind option_bind fst snd]. rewrite Hl. cbn [mbind option_bind]. rewrite Hr.
  cbn [mbind option_bind fst snd]. rewrite (proj2 (N.leb_le _ _)) by done.
  by rewrite (proj2 (is_scalar_spec p)).
Qed.

(** The first octet of each length of encoding. *)
Lemma lead_octet_bits q :
  ((q < 0x80)%N → lead_octet q = Some (0, q, 0%N)) ∧
  ((q < 0x20)%N → lead_octet (0xc0 + q) = Some (1, q, 0x80%N)) ∧
  ((q < 0x10)%N → lead_octet (0xe0 + q) = Some (2, q, 0x800%N)) ∧
  ((q < 0x8)%N → lead_octet (0xf0 + q) = Some (3, q, 0x10000%N)).
Proof.
  unfold lead_octet. split_and!; intros Hq;
    repeat (rewrite (proj2 (N.ltb_ge _ _)) by lia); rewrite (proj2 (N.ltb_lt _ _)) by lia;
    do 3 f_equal; lia.
Qed.

Lemma read_escape_utf8 p k : is_scalar_value p →
  read_escape ((utf8_of p ≫= percent) ++ k) = Some (p, k).
Proof.
  intros Hs. pose proof (split64 p) as [H0 L0]. pose proof (split64 (p / 0x40)) as [H1 L1].
  pose proof (split64 (p / 0x40 / 0x40)) as [H2 L2].
  rewrite (N.Div0.div_div p 0x40 0x40) in *. rewrite (N.Div0.div_div p (0x40 * 0x40) 0x40) in *.
  change (0x40 * 0x40)%N with 0x1000%N in *. change (0x1000 * 0x40)%N with 0x40000%N in *.
  assert (Hp : (p < 0x110000)%N) by (destruct Hs; lia).
  revert H0 L0 H1 L1 H2 L2. unfold utf8_of.
  generalize (p mod 0x40)%N (p / 0x40 mod 0x40)%N (p / 0x1000 mod 0x40)%N.
  generalize (p / 0x40)%N (p / 0x1000)%N (p / 0x40000)%N. intros q1 q2 q3 r0 r1 r2 H0 L0 H1 L1 H2 L2.
  destruct (N.ltb_spec p 0x80); [|destruct (N.ltb_spec p 0x800); [|destruct (N.ltb_spec p 0x10000)]];
    rewrite bind_cons, <- app_assoc.
  - apply (read_escape_octets p [] 0 p 0%N); [lia|by apply lead_octet_bits|done|lia|done].
  - apply (read_escape_octets _ [_] 1 q1 0x80%N); [lia|apply lead_octet_bits; lia| |lia|done].
    rewrite (read_continuation_percent 0 _ _ [] k) by lia.
    cbn. do 2 f_equal. lia.
  - apply (read_escape_octets _ [_; _] 2 q2 0x800%N); [lia|apply lead_octet_bits; lia| |lia|done].
    rewrite (read_continuation_percent 1 _ _ [_] k), (read_continuation_percent 0 _ _ [] k) by lia.
    cbn. do 2 f_equal. lia.
  - apply (read_escape_octets _ [_; _; _] 3 q3 0x10000%N); [lia|apply lead_octet_bits; lia| |lia|done].
    rewrite (read_continuation_percent 2 _ _ [_; _] k), (read_continuation_percent 1 _ _ [_] k),
      (read_continuation_percent 0 _ _ [] k) by lia.
    cbn. do 2 f_equal. lia.
Qed.


(** What [encodeURIComponent] writes for a code point. *)
Definition escaped_point (p : N) : jsstring :=
  if is_unreserved p then [p] else utf8_of p ≫= percent.

Lemma is_unreserved_range c : is_unreserved c = true → (c < 0x80)%N ∧ c ≠ 37%N.
Proof.
  unfold is_unreserved, is_letter, is_digit.
  rewrite !orb_true_iff, !andb_true_iff, !N.leb_le, bool_decide_eq_true.
  intros [[[H|H]|H]|H]; [lia|lia|lia|]. change (js "-_.!~*'()") with [45; 95; 46; 33; 126; 42; 39; 40; 41]%N in H.
  rewrite !elem_of_cons, elem_of_nil in H. lia.
Qed.

Lemma pair_point_utf16 p : is_scalar_value p → (0x10000 ≤ p)%N →
  ∃ h l, utf16 p = [h; l] ∧ is_high h = true ∧ is_low l = true ∧ pair_point h l = p.
Proof.
  intros Hp Hge. unfold utf16. rewrite (proj2 (N.ltb_ge _ _)) by done.
  assert (p - 0x10000 < 0x400 * 0x400)%N as Hb by (destruct Hp; lia).
  pose proof (N.Div0.div_lt_upper_bound _ 0x400 0x400 Hb) as H1.
  pose proof (N.mod_lt (p - 0x10000) 0x400 ltac:(lia)) as H2.
  pose proof (N.div_mod (p - 0x10000) 0x400 ltac:(lia)) as H3. revert H1 H2 H3.
  generalize ((p - 0x10000) / 0x400)%N ((p - 0x10000) mod 0x400)%N. intros x y H1 H2 H3.
  exists (0xd800 + x)%N, (0xdc00 + y)%N.
  split_and!; [done|apply is_high_spec; lia|apply is_low_spec; lia|]. unfold pair_point. lia.
Qed.

Lemma encode_point p s : is_scalar_value p →
  encodeURIComponent (utf16 p ++ s) = (escaped_point p ++.) <$> encodeURIComponent s.
Proof.
  intros Hp. unfold escaped_point. destruct (N.ltb_spec p 0x10000).
  - unfold utf16. rewrite (proj2 (N.ltb_lt _ _)) by done. cbn [app encodeURIComponent].
    destruct (is_unreserved p); [done|].
    destruct (is_high p) eqn:Hh; [apply is_high_spec in Hh; destruct Hp; lia|].
    destruct (is_low p) eqn:Hl; [apply is_low_spec in Hl; destruct Hp; lia|done].
  - destruct (pair_point_utf16 p Hp) as (h & l & -> & Hh & Hl & Hpp); [done|].
    destruct (is_unreserved p) eqn:Hu; [apply is_unreserved_range in Hu; lia|].
    cbn [app encodeURIComponent]. rewrite Hh, Hl, Hpp.
    destruct (is_unreserved h) eqn:Hu'; [|done].
    apply is_unreserved_range in Hu'. apply is_high_spec in Hh. lia.
Qed.

Lemma escaped_point_shape p : is_scalar_value p →
  Forall (λ c, is_unreserved c = true ∨ c = 37%N) (escaped_point p).
Proof.
  intros Hp. unfold escaped_point. destruct (is_unreserved p) eqn:Hu; [by constructor; [left|constructor]|].
  assert (Hb : Forall (λ b, (b < 256)%N) (utf8_of p)).
  { unfold utf8_of. pose proof (N.mod_lt p 0x40). pose proof (N.mod_lt (p / 0x40) 0x40).
    pose proof (N.mod_lt (p / 0x1000) 0x40).
    destruct (N.ltb_spec p 0x80); [|destruct (N.ltb_spec p 0x800); [|destruct (N.ltb_spec p 0x10000)]];
      repeat constructor; try lia.
    - enough (p / 0x40 < 0x20)%N by lia. apply N.Div0.div_lt_upper_bound; lia.
    - enough (p / 0x1000 < 0x10)%N by lia. apply N.Div0.div_lt_upper_bound; lia.
    - enough (p / 0x40000 < 8)%N by lia. apply N.Div0.div_lt_upper_bound; destruct Hp; lia. }
  induction Hb as [|b bs Hb _ IH]; [constructor|]. rewrite bind_cons. apply Forall_app. split; [|done].
  apply Forall_cons; split; [by right|].
  apply Forall_cons; split; [left; apply hex_digit_unreserved, N.Div0.div_lt_upper_bound; lia|].
  apply Forall_cons; split; [left; apply hex_digit_unreserved, N.mod_lt; lia|constructor].
Qed.

Lemma escaped_point_length p : 0 < length (escaped_point p).
Proof.
  unfold escaped_point, utf8_of. repeat case_match; simpl; lia.
Qed.

Lemma decode_point p t fuel : is_scalar_value p → length (escaped_point p ++ t) ≤ fuel →
  decode_loop fuel (escaped_point p ++ t) = (utf16 p ++.) <$> decode_loop (pred fuel) t.
Proof.
  intros Hp Hf. pose proof (escaped_point_length p). rewrite length_app in Hf.
  destruct fuel as [|fuel]; [lia|]. clear Hf. unfold escaped_point in *.
  destruct (is_unreserved p) eqn:Hu.
  - apply is_unreserved_range in Hu as [Hr Hn]. cbn [app decode_loop pred].
    rewrite (proj2 (N.eqb_neq _ _)) by done.
    unfold utf16. by rewrite (proj2 (N.ltb_lt _ _)) by lia.
  - pose proof (read_escape_utf8 p t Hp) as He.
    destruct (utf8_of p) as [|b bs]; [simpl in *; lia|]. rewrite bind_cons, <- app_assoc in *.
    cbn [pred]. change (percent b ++ (bs ≫= percent) ++ t)
      with (37%N :: hex_digit (b / 16) :: hex_digit (b mod 16) :: (bs ≫= percent) ++ t) in *.
    cbn [decode_loop]. cbn [N.eqb Pos.eqb]. rewrite He. done.
Qed.

Lemma decode_loop_points ps fuel : Forall is_scalar_value ps →
  length (ps ≫= escaped_point) ≤ fuel → decode_loop fuel (ps ≫= escaped_point) = Some (ps ≫= utf16).
Proof.
  intros Hps. revert fuel. induction Hps as [|p ps Hp _ IH]; intros fuel Hf; [by destruct fuel|].
  rewrite !bind_cons in *. rewrite decode_point by done. pose proof (escaped_point_length p).
  rewrite length_app in Hf. rewrite IH by lia. done.
Qed.

Lemma encode_points ps : Forall is_scalar_value ps →
  encodeURIComponent (ps ≫= utf16) = Some (ps ≫= escaped_point).
Proof. induction 1 as [|p ps Hp _ IH]; [done|]. rewrite !bind_cons, encode_point, IH by done. done. Qed.

(** The text of a well-formed string in a path: it holds none of the units that
    delimit the parts of an address. *)
Lemma encodeURIComponent_shape s : wf_units s → unicode s = true →
  ∃ t, encodeURIComponent s = Some t ∧ decodeURIComponent t = Some s ∧
    Forall (λ c, is_unreserved c = true ∨ c = 37%N) t ∧ (s ≠ [] → t ≠ []).
Proof.
  intros Hs Hu. destruct (unicode_scalars s Hs Hu) as (ps & Hps & ->).
  exists (ps ≫= escaped_point). split_and!; [by apply encode_points|by apply decode_loop_points| |].
  - clear -Hps. induction Hps as [|p ps Hp _ IH]; [constructor|]. rewrite bind_cons.
    apply Forall_app. split; [by apply escaped_point_shape|done].
  - destruct ps as [|p ps]; [done|]. intros _. rewrite bind_cons.
    pose proof (escaped_point_length p). by destruct (escaped_point p); [simpl in *; lia|].
Qed.

(** * Properties *)

(** C16 Whatever input passes the client's bounds is written as a JSON text that the
    client's own parser reads back to the same value. *)
Theorem bounded_input_roundtrip (fraction_text : num → jsstring) (v : jsval) :
  wf_val (prints fraction_text) v → bounded v = true →
  ∃ t, stringify fraction_text v = Some t ∧ parseJSON t = Some v.
Proof.
  intros Hwf. unfold bounded. destruct (boundedInput _ _ _) as [c|] eqn:Hc; [|done].
  intros _. by apply (bounded_roundtrip fraction_text 33 v c).
Qed.

(** A text that is a well-formed string goes into a path as a text without any of
    the units that delimit the parts of an address, which is decoded to it. *)
Theorem path_text_roundtrip (s : jsstring) : wf_units s → unicode s = true →
  ∃ t, encodeURIComponent s = Some t ∧ decodeURIComponent t = Some s ∧
    Forall (λ c, (c ∉ js "/?#\:@") ∧ c ≠ 32%N) t.
Proof.
  intros Hs Hu. destruct (encodeURIComponent_shape s Hs Hu) as (t & He & Hd & Hf & _).
  exists t. split_and!; [done..|]. eapply Forall_impl; [exact Hf|]. intros c Hc.
  assert (Hr : ∀ d, is_unreserved d = false → d ≠ 37%N → c ≠ d) by (intros d ?? ->; destruct Hc; congruence).
  split; [|by apply Hr]. change (js "/?#\:@") with [47; 63; 35; 92; 58; 64]%N.
  rewrite !not_elem_of_cons. split_and!; try by apply Hr. apply not_elem_of_nil.
Qed.

Module DemoText.
Lemma path_text_roundtrip_witness : let s := js "a/b" ++ [0xe9; 0x20ac; 0xd83d; 0xde00]%N in
  ∃ t, encodeURIComponent s = Some t ∧ decodeURIComponent t = Some s ∧
    Forall (λ c, (c ∉ js "/?#\:@") ∧ c ≠ 32%N) t.
Proof. refine (path_text_roundtrip _ _ _); [repeat constructor|done]. Defined.

Definition half (n : num) : jsstring := js "1.5".

Definition input : jsval :=
  VObj [(js "body", VObj [(js "name", VStr (js "a" ++ [34; 10; 0xd83d; 0xde00]%N)); (js "n", VNum (NInt (-7)))]);
        (js "rest", VArr [VNum (NFrac 3 1); VNull; VBool true; VArr []])].

Lemma bounded_input_roundtrip_witness :
  ∃ t, stringify half input = Some t ∧ parseJSON t = Some input.
Proof.
  refine (bounded_input_roundtrip half input _ _); [|vm_compute; reflexivity].
  assert (Hi : ∀ z, prints half (NInt z)) by done.
  assert (Hh : prints half (NFrac 3 1)).
  { intros m e [= <- <-]. exists {| tk_negative := false; tk_whole := js "1"; tk_fraction := Some (js "5");
                                    tk_exponent := None |}.
    unfold wf_token. split_and!; try done.
    - right. exists 49%N, []. by split_and!.
    - intros f [= <-]. split; [done|by repeat constructor].
    - vm_compute. lia. }
  repeat first [constructor | progress cbn]; try done; try decide_fact.
Defined.
End DemoText.

(** Conversion is not to unfold the 33 levels. *)
#[global] Opaque bounded.
