(* ===== verification/SdkClient.v ===== *)
(** The generated API client ([out/tssdk/index.js], [createBrowserClient]): the
    limit on concurrent calls, the checks of a call's options, requests and their
    answers, the session that a changing call is made in, signing in and out, and
    the contract's operations. The session clients of the two consoles
    ([console/out/browser/sessionclient], [gateway-console/out/browser/sessionclient])
    are the same code over an empty contract.

    What the browser provides is the record [Browser]: addresses, [fetch], abort
    controllers with their timers, a streaming text decoder. A response's body is
    the list of its chunks and how it ends, in the order they are read. *)
From S2P Require Export SdkContract SdkText TraceSink StateMachine.

(** * Errors *)

(** [new SDKError(code, status, apiCode)] *)
Definition newSDKError (code : jsstring) (status : Z) (apiCode : option jsstring) : SDKError := {|
  sdk_code := code; sdk_status := NInt status;
  sdk_apiCode := c ← apiCode; if decide (c ∈ errorCodes) then Some c else None |}.

Definition fail {W A} (code : string) : M thrown W A := throw (ThrowSDK (newSDKError (js code) 0 None)).

(** [if (condition) fail(code)] *)
Definition fail_if {W} (condition : bool) (code : string) : M thrown W unit :=
  if condition then fail code else mret tt.

(** * The browser *)

Record URL := {
  url_protocol : jsstring;
  url_origin : jsstring;
  url_username : jsstring;
  url_password : jsstring;
  url_pathname : jsstring;
  url_search : jsstring;
  url_hash : jsstring;
  url_href : jsstring
}.

Record FetchRequest := {
  fq_url : jsstring;
  fq_method : jsstring;
  fq_headers : list (jsstring * jsstring);
  fq_body : option jsstring;
  fq_credentials : jsstring;
  fq_mode : jsstring;
  fq_cache : jsstring;
  fq_redirect : jsstring;
  fq_referrerPolicy : jsstring
}.

(** The end of a body: all of it was read, or reading threw. *)
Record FetchResponse := {
  fr_status : Z;
  fr_contentType : option jsstring;
  fr_etag : option jsstring;
  fr_body : option (list (list N) * option thrown)
}.

(** [new TextDecoder("utf-8", { fatal: true })], which throws on a malformed text. *)
Record TextDecoder := {
  td_state : Type;
  td_new : td_state;
  td_decode : td_state → list N → option (jsstring * td_state);
  td_flush : td_state → option jsstring
}.

Record Browser (W Ctl : Type) := {
  br_location_origin : jsstring;                      (* [globalThis.location.origin] *)
  br_URL : jsstring → option jsstring → option URL;    (* [new URL(text, base)] *)
  br_URLSearchParams : list (jsstring * jsstring) → jsstring;    (* its text *)
  br_with_param : URL → jsstring → jsstring → jsstring;  (* the address with a parameter set *)
  br_decoder : TextDecoder;
  br_fraction_text : num → jsstring;
  br_start : Z → W → Ctl * W;        (* a controller, and a timer that aborts it *)
  br_follow : AbortSignal → Ctl → W → W;    (* aborted with a signal, or at once *)
  br_stop : Ctl → option AbortSignal → W → W;    (* the timer and the listener removed *)
  br_aborted : Ctl → W → bool;
  br_timedOut : Ctl → W → bool;
  br_fetch : FetchRequest → Ctl → M thrown W FetchResponse;
  br_cancel : FetchResponse → M thrown W unit;        (* [reader.cancel()] *)
  br_location : W → jsstring * jsstring;              (* [pathname] and [search] *)
  br_assign : jsstring → M thrown W unit              (* [location.assign(href)] *)
}.
Arguments br_location_origin {W Ctl}.
Arguments br_URL {W Ctl}.
Arguments br_URLSearchParams {W Ctl}.
Arguments br_with_param {W Ctl}.
Arguments br_decoder {W Ctl}.
Arguments br_fraction_text {W Ctl}.
Arguments br_start {W Ctl}.
Arguments br_follow {W Ctl}.
Arguments br_stop {W Ctl}.
Arguments br_aborted {W Ctl}.
Arguments br_timedOut {W Ctl}.
Arguments br_fetch {W Ctl}.
Arguments br_cancel {W Ctl}.
Arguments br_location {W Ctl}.
Arguments br_assign {W Ctl}.

(** [new URL(text)] does not throw. *)
Definition valid_URL {W Ctl} (br : Browser W Ctl) (t : jsstring) : bool :=
  bool_decide (is_Some (br_URL br t None)).

(** The module's variable [activeRequests]. *)
Record SdkState := { sk_activeRequests : Z }.

Definition maxActive : Z := 16.

(** Taking a slot, and giving it back. *)
Definition enter (s : SdkState) : option SdkState :=
  if (maxActive <=? sk_activeRequests s)%Z then None
  else Some {| sk_activeRequests := sk_activeRequests s + 1 |}.

Definition leave_slot (s : SdkState) : SdkState := {| sk_activeRequests := sk_activeRequests s - 1 |}.

(** * The options of a call *)

Inductive SignalOption := NoSignal | SignalGiven (s : AbortSignal) | NotASignal.

(** What is passed as options: the object's own keys, [options.signal], and its own
    property [traceparent]. *)
Inductive CallOptions :=
| NoOptions
| NotAnObject
| OptionsObject (keys : list jsstring) (signal : SignalOption) (traceparent : option jsval).

(** The options object of the API adapter. *)
Definition adapter_options (o : RequestOptions) : CallOptions :=
  OptionsObject (js "signal" :: if ro_traceparent o is Some _ then [js "traceparent"] else [])
    (match ro_signal o with Some s => SignalGiven s | None => NoSignal end)
    (VStr <$> ro_traceparent o).

(** The checks up to the use of the signal: the [traceparent] and the signal, or
    the failure [invalid_input]. *)
Definition checked_options (o : CallOptions) : option (option jsstring * SignalOption) :=
  match o with
  | NoOptions => Some (None, NoSignal)
  | NotAnObject => None
  | OptionsObject keys signal traceparent =>
      if existsb (λ k, negb (bool_decide (k = js "signal")) && negb (bool_decide (k = js "traceparent"))) keys
      then None
      else match traceparent with
           | None | Some VUndef => Some (None, signal)
           | Some (VStr t) => if traceparent_accepted t then Some (Some t, signal) else None
           | Some _ => None
           end
  end.

(** * Answers *)

Record ApiResponse := {
  rp_status : Z;
  rp_body : jsval;                 (* [undefined] for an empty body *)
  rp_etag : option jsstring
}.

(** [s.split(c)[0]] *)
Fixpoint first_part (c : N) (s : jsstring) : jsstring :=
  match s with d :: t => if (d =? c)%N then [] else d :: first_part c t | [] => [] end.

(** The part of the header before a semicolon, trimmed and in lower case, is that
    of JSON; no unit outside ASCII has one of its letters for its lower case. *)
Definition is_json (contentType : option jsstring) : bool :=
  bool_decide (ascii_lower (trim (first_part 59 (default [] contentType)))
               = js "application/json").

Definition response_ok (status : Z) : bool := ((200 <=? status) && (status <? 300))%Z.

(** The error code of an answer that is not ok, if it is one of the contract's. *)
Definition api_code (status : Z) (contentType : option jsstring) (data : jsstring) : option jsstring :=
  if negb (status =? 401)%Z && is_json contentType then
    match parseJSON data with
    | Some (VObj l) =>
        match prop_get l (js "code") with
        | Some (VStr c) => if decide (c ∈ errorCodes) then Some c else None
        | _ => None
        end
    | _ => None
    end
  else None.

(** [!value] is false: the values of JSON that count as true. *)
Definition truthy (v : jsval) : bool :=
  match v with
  | VUndef | VNull | VBool false | VStr [] => false
  | VNum n => negb (num_eqb n (NInt 0) || is_nan n)
  | _ => true
  end.

Definition own_keys (v : jsval) : list jsstring := match v with VObj l => l.*1 | _ => [] end.
Definition has_own (v : jsval) (k : string) : bool := bool_decide (js k ∈ own_keys v).
Definition prop (v : jsval) (k : string) : jsval := val_prop v (js k).

Definition is_text_upto (n : N) (v : jsval) : bool :=
  if v is VStr s then (N.of_nat (length s) <=? n)%N else false.

(** [/^[A-Za-z0-9_-]{43}$/] *)
Definition is_csrf_token (v : jsval) : bool :=
  if v is VStr s
  then bool_decide (length s = 43) && forallb (λ c, is_letter c || is_digit c || (c =? 95)%N || (c =? 45)%N) s
  else false.

(** The checks of the session resource. *)
Definition roles_ok (v : jsval) : bool :=
  if v is VArr l then (length l <=? 64) && forallb (is_text_upto 128) l else false.

Definition user_ok (u : jsval) : bool :=
  if u is VObj l
  then forallb (λ p, bool_decide (p.1 ∈ [js "sub"; js "email"; js "name"; js "preferred_username"])
                     && is_text_upto 1024 p.2) l
  else false.

Definition is_authenticated (v : jsval) : bool := bool_decide (prop v "authenticated" = VBool true).

Definition session_ok (status : Z) (v : jsval) : bool :=
  (status =? 200)%Z && truthy v &&
  (if prop v "authenticated" is VBool _ then true else false) && roles_ok (prop v "roles") &&
  (negb (is_authenticated v) || is_csrf_token (prop v "csrf_token")) &&
  forallb (λ k, bool_decide (k ∈ map js ["authenticated"; "roles"; "user"; "expires_at"; "csrf_token"]))
    (own_keys v) &&
  (negb (has_own v "expires_at") ||
   (if prop v "expires_at" is VNum n then is_safe_integer n && negb (num_lt n (NInt 0)) else false)) &&
  (negb (has_own v "user") || user_ok (prop v "user")) &&
  (negb (is_authenticated v) ||
   has_own v "expires_at" && truthy (prop v "user") &&
   (if prop (prop v "user") "sub" is VStr s then is_nonempty s else false)).

(** * Requests *)

(** [String(v)]; of an input's values only texts and numbers get here. *)
Fixpoint js_String (fraction_text : num → jsstring) (v : jsval) : jsstring :=
  match v with
  | VUndef => js "undefined"
  | VNull => js "null"
  | VBool b => if b then js "true" else js "false"
  | VNum n => number_string fraction_text n
  | VStr s => s
  | VArr l => joinWith (js ",")
                (map (λ v, match v with VUndef | VNull => [] | _ => js_String fraction_text v end) l)
  | VObj _ => js "[object Object]"
  end.

(** [s.split(p).join(r)] for a text [p] that is not empty; [skip] units of an
    occurrence are left. *)
Fixpoint replace_text (p r s : jsstring) (skip : nat) : jsstring :=
  match s, skip with
  | [], _ => []
  | _ :: t, S skip' => replace_text p r t skip'
  | c :: t, O =>
      if startsWith s p then r ++ replace_text p r t (length p - 1) else c :: replace_text p r t 0
  end.

Definition placeholder (name : jsstring) : jsstring := 123%N :: name ++ [125%N].

Definition method_str (m : Method) : jsstring :=
  match m with GET => js "GET" | POST => js "POST" | PATCH => js "PATCH" | DELETE => js "DELETE" end.

Section client.
Context {W Ctl : Type} `{!Lens W SdkState} (br : Browser W Ctl).

(** The origin of the page, which must be a plain https one. *)
Definition client_origin : option jsstring :=
  url ← br_URL br (br_location_origin br) None;
  if negb (bool_decide (url_protocol url = js "https:")) || is_nonempty (url_username url) ||
     is_nonempty (url_password url) || negb (bool_decide (url_pathname url = js "/")) ||
     is_nonempty (url_search url) || is_nonempty (url_hash url)
  then None else Some (url_origin url).

(** ** [run] *)

(** What the [catch] makes of an error: the client's own errors pass. *)
Definition run_error (ctl : Ctl) (w : W) (e : thrown) : thrown :=
  match e with
  | ThrowSDK _ => e
  | _ => ThrowSDK (newSDKError (js (if br_timedOut br ctl w then "timeout"
                                    else if br_aborted br ctl w then "cancelled"
                                    else "request_failed")) 0 None)
  end.

(** The [try] block: the checks of the options, the signal, the action. *)
Definition guarded {A} (ctl : Ctl) (options : CallOptions)
    (action : Ctl → option jsstring → M thrown W A) : M thrown W A := λ w,
  match checked_options options with
  | None | Some (_, NotASignal) => fail "invalid_input" w
  | Some (traceparent, signal) =>
      let w' := if signal is SignalGiven s then br_follow br s ctl w else w in
      if br_aborted br ctl w' then fail "cancelled" w' else action ctl traceparent w'
  end.

(** The signal a listener was added to. *)
Definition followed (options : CallOptions) : option AbortSignal :=
  match checked_options options with Some (_, SignalGiven s) => Some s | _ => None end.

Definition run {A} (options : CallOptions) (action : Ctl → option jsstring → M thrown W A) :
    M thrown W A := λ w,
  match enter (lens_get w) with
  | None => fail "busy" w
  | Some s =>
      let '(ctl, w1) := br_start br 20000 (lens_put s w) in
      let '(r, w2) := guarded ctl options action w1 in
      let r' := match r with Ok a => Ok a | Err e => Err (run_error ctl w2 e) end in
      let w3 := br_stop br ctl (followed options) w2 in
      (r', lens_put (leave_slot (lens_get w3)) w3)
  end.

(** ** [request] *)

Section origin.
Context (origin : jsstring).

(** An address of the client's own origin. A text that is no address throws. *)
Definition own_address (path : jsstring) : M thrown W URL := λ w,
  match br_URL br path (Some origin) with
  | Some url => (Ok url, w)
  | None => (Err (ThrowError (js "TypeError")), w)
  end.

Definition href_too_long (url : URL) : bool := (8192 <? N.of_nat (length (url_href url)))%N.

(** The loop over the chunks of a body, with the bytes read, the decoder's state and
    the text so far. *)
Fixpoint read_chunks (chunks : list (list N)) (ended : option thrown) (read : Z)
    (st : td_state (br_decoder br)) (data : jsstring) : result thrown jsstring :=
  match chunks with
  | [] =>
      match ended with
      | Some e => Err e
      | None => match td_flush (br_decoder br) st with
                | Some t => Ok (data ++ t)
                | None => Err (ThrowError (js "TypeError"))
                end
      end
  | chunk :: chunks' =>
      let read := (read + length_Z chunk)%Z in
      if (maxResponse <? read)%Z
      then Err (ThrowSDK (newSDKError (js "response_limit") 0 None))
      else match td_decode (br_decoder br) st chunk with
           | Some (t, st') => read_chunks chunks' ended read st' (data ++ t)
           | None => Err (ThrowError (js "TypeError"))
           end
  end.

(** The text of a body. The reader is cancelled in any case, and what that throws
    is thrown. *)
Definition read_body (response : FetchResponse) : M thrown W jsstring :=
  match fr_body response with
  | None => mret []
  | Some (chunks, ended) => λ w,
      match br_cancel br response w with
      | (Ok _, w') => (read_chunks chunks ended 0 (td_new (br_decoder br)) [], w')
      | (Err e, w') => (Err e, w')
      end
  end.

Definition request_headers (body csrf traceparent : option jsstring) : list (jsstring * jsstring) :=
  [(js "Accept", js "application/json")] ++
  match traceparent with Some t => [(js "traceparent", t)] | None => [] end ++
  match body with Some _ => [(js "Content-Type", js "application/json")] | None => [] end ++
  match csrf with Some t => [(js "X-CSRF-Token", t)] | None => [] end.

Definition too_large (body : jsstring) : bool := (maxRequest <? N.of_nat (length (utf8 body)))%N.

(** The value of an answer that is ok. *)
Definition answer_value (contentType : option jsstring) (data : jsstring) : result thrown jsval :=
  match data with
  | [] => Ok VUndef
  | _ => if is_json contentType
         then match parseJSON data with
              | Some v => Ok v
              | None => Err (ThrowSDK (newSDKError (js "invalid_response") 0 None))
              end
         else Err (ThrowSDK (newSDKError (js "invalid_response") 0 None))
  end.

Definition request (method path : jsstring) (body csrf : option jsstring) (ctl : Ctl)
    (traceparent : option jsstring) : M thrown W ApiResponse :=
  own_address path ≫= λ target,
  fail_if (negb (bool_decide (url_origin target = origin)) || is_nonempty (url_username target) ||
           is_nonempty (url_password target) || is_nonempty (url_hash target) || href_too_long target)
    "invalid_input" ≫= λ _,
  fail_if (match body with Some b => too_large b | None => false end) "invalid_input" ≫= λ _,
  br_fetch br {|
    fq_url := url_href target; fq_method := method;
    fq_headers := request_headers body csrf traceparent; fq_body := body;
    fq_credentials := js "same-origin"; fq_mode := js "same-origin"; fq_cache := js "no-store";
    fq_redirect := js "error"; fq_referrerPolicy := js "no-referrer" |} ctl ≫= λ response,
  read_body response ≫= λ data,
  if negb (response_ok (fr_status response)) then
    throw (ThrowSDK (newSDKError
      (js (if (fr_status response =? 401)%Z then "reauth_required" else "http_error"))
      (fr_status response) (api_code (fr_status response) (fr_contentType response) data)))
  else
    lift_result (answer_value (fr_contentType response) data) ≫= λ v,
    mret {| rp_status := fr_status response; rp_body := v; rp_etag := fr_etag response |}.

(** ** The session *)

Definition session (ctl : Ctl) (traceparent : option jsstring) : M thrown W jsval :=
  request (js "GET") (js "/auth/session") None None ctl traceparent ≫= λ result,
  fail_if (negb (session_ok (rp_status result) (rp_body result))) "invalid_response" ≫= λ _,
  mret (rp_body result).

Definition csrf_of (value : jsval) : option jsstring := read_text (prop value "csrf_token").

(** [client.session]: everything but the token. *)
Definition client_session (options : CallOptions) : M thrown W jsval :=
  run options (λ ctl traceparent,
    session ctl traceparent ≫= λ value,
    mret (match value with VObj l => VObj (prop_delete l (js "csrf_token")) | v => v end)).

Definition client_logout (options : CallOptions) : M thrown W unit :=
  run options (λ ctl traceparent,
    session ctl traceparent ≫= λ value,
    if is_authenticated value then
      request (js "POST") (js "/auth/logout") None (csrf_of value) ctl traceparent ≫= λ result,
      fail_if (negb (rp_status result =? 204)%Z) "invalid_response"
    else mret tt).

(** The page to come back to after signing in. *)
Definition return_to (pathname search : jsstring) : option jsstring :=
  let candidate := pathname ++ search in
  target ← br_URL br candidate (Some origin);
  Some (if startsWith candidate (js "/") && negb (startsWith candidate (js "//")) &&
           forallb (λ c, negb (bool_decide (c ∈ [92; 13; 10; 0]%N))) candidate &&
           (N.of_nat (length candidate) <=? 2048)%N && bool_decide (url_origin target = origin)
        then candidate else js "/").

Definition client_login : M thrown W unit := λ w,
  let '(pathname, search) := br_location br w in
  match return_to pathname search, br_URL br (js "/auth/login") (Some origin) with
  | Some returnTo, Some login =>
      match br_assign br (br_with_param br login (js "return_to") returnTo) w with
      | (Ok u, w') => (Ok u, w')
      | (Err _, w') => fail "navigation_failed" w'
      end
  | _, _ => fail "navigation_failed" w
  end.

(** ** Operations *)

(** The keys an input may have. *)
Definition allowed_keys (op : ContractOperation) : list jsstring :=
  map pm_name (co_parameters op) ++ (if co_body op is Some _ then [js "body"] else []).

Definition validate_input (s : Schema) (v : jsval) : bool :=
  validates contract_models (valid_URL br) Request (Some s) v.

(** The loop over an operation's parameters: the path and the query they give.
    [None] is the failure [invalid_input]; [encodeURIComponent] does not throw for
    a text that was checked. *)
Fixpoint parameters (ps : list OperationParameter) (input : jsval) (path : jsstring)
    (query : list (jsstring * jsstring)) : option (jsstring * list (jsstring * jsstring)) :=
  match ps with
  | [] => Some (path, query)
  | p :: ps' =>
      match val_prop input (pm_name p), bool_decide (pm_name p ∈ own_keys input) with
      | _, false => if pm_required p then None else parameters ps' input path query
      | value, true =>
          if negb (validate_input (pm_schema p) value) then None
          else
            let text := js_String (br_fraction_text br) value in
            match pm_in p with
            | InPath =>
                if bool_decide (text ∈ [[]; js "."; js ".."]) then None
                else encoded ← encodeURIComponent text;
                     parameters ps' input (replace_text (placeholder (pm_name p)) encoded path 0) query
            | InQuery => parameters ps' input path (prop_set query (pm_name p) text)
            end
      end
  end.

(** The checks of an input and what they leave: the path with its query. *)
Definition operation_path (op : ContractOperation) (input : jsval) : option jsstring :=
  if negb (bounded input) then None
  else if negb (if input is VObj _ then true else false) then None
  else if existsb (λ k, negb (bool_decide (k ∈ allowed_keys op))) (own_keys input) then None
  else
    r ← parameters (co_parameters op) input (co_path op) [];
    if co_required op && negb (has_own input "body") then None
    else if has_own input "body" &&
            negb (if co_body op is Some s then validate_input s (prop input "body") else false) then None
    else
      let suffix := br_URLSearchParams br r.2 in
      Some (if is_nonempty suffix then r.1 ++ js "?" ++ suffix else r.1).

(** [JSON.stringify(input.body)] *)
Definition operation_body (input : jsval) : option jsstring :=
  if has_own input "body" then stringify (br_fraction_text br) (prop input "body") else None.

Definition check_response (op : ContractOperation) (result : ApiResponse) : bool :=
  match prop_get (co_responses op) (string_of_Z (rp_status result)) with
  | None => false
  | Some None => bool_decide (rp_body result = VUndef)
  | Some (Some s) =>
      validates contract_models (valid_URL br) Response (Some s) (rp_body result)
  end.

(** The token of a call: none for a reading one, else that of an authenticated
    session. *)
Definition session_token (reading : bool) (ctl : Ctl) (traceparent : option jsstring) :
    M thrown W (option jsstring) :=
  if reading then mret None
  else session ctl traceparent ≫= λ value,
       if is_authenticated value then mret (csrf_of value)
       else throw (ThrowSDK (newSDKError (js "reauth_required") 401 None)).

Definition operation_action (op : ContractOperation) (input : jsval) (ctl : Ctl)
    (traceparent : option jsstring) : M thrown W ApiResponse :=
  match operation_path op input with
  | None => fail "invalid_input"
  | Some path =>
      own_address path ≫= λ target,
      fail_if (negb (bool_decide (url_origin target = origin)) || href_too_long target)
        "invalid_input" ≫= λ _,
      let body := operation_body input in
      fail_if (match body with Some b => too_large b | None => false end) "invalid_input" ≫= λ _,
      session_token (bool_decide (co_method op = GET)) ctl traceparent ≫= λ csrf,
      request (method_str (co_method op)) path body csrf ctl traceparent ≫= λ result,
      fail_if (negb (check_response op result)) "invalid_response" ≫= λ _,
      mret result
  end.

(** [client[name](input, options)] *)
Definition client_operation (op : ContractOperation) (input : jsval) (options : CallOptions) :
    M thrown W ApiResponse :=
  run options (operation_action op input).
End origin.
End client.

(** * Calls at the same time *)

(** The calls in flight and the module's count of them: a call that begins takes a
    slot or is refused, and one that settles gives its slot back. *)
Record Calls := { ca_state : SdkState; ca_running : list N }.

Inductive CallEvent := Begin (call : N) | Settle (call : N).

Inductive CallOutput := Started (call : N) | Refused (call : N).

Definition no_calls : Calls := {| ca_state := {| sk_activeRequests := 0 |}; ca_running := [] |}.

Definition call_step (s : Calls) (ev : CallEvent) : option (Calls * list CallOutput) :=
  match ev with
  | Begin c =>
      if decide (c ∈ ca_running s) then None
      else match enter (ca_state s) with
           | Some st => Some ({| ca_state := st; ca_running := c :: ca_running s |}, [Started c])
           | None => Some (s, [Refused c])
           end
  | Settle c =>
      if decide (c ∈ ca_running s)
      then Some ({| ca_state := leave_slot (ca_state s);
                    ca_running := filter (λ c', c' ≠ c) (ca_running s) |}, [])
      else None
  end.

Definition slots_balanced (s : Calls) : Prop :=
  sk_activeRequests (ca_state s) = length_Z (ca_running s) ∧ NoDup (ca_running s) ∧
  (length_Z (ca_running s) ≤ maxActive)%Z.

Lemma filter_neq_fresh (c : N) (l : list N) : (c ∉ l) → filter (λ c', c' ≠ c) l = l.
Proof.
  induction l as [|x l IH]; intros Hc; [done|]. apply not_elem_of_cons in Hc as [Hne Hc].
  rewrite filter_cons, decide_True by done. by rewrite IH.
Qed.

Lemma length_filter_neq (c : N) (l : list N) : NoDup l → c ∈ l →
  length_Z (filter (λ c', c' ≠ c) l) = (length_Z l - 1)%Z.
Proof.
  unfold length_Z. intros Hnd. induction Hnd as [|x l Hx Hnd IH]; intros Hc; [by apply not_elem_of_nil in Hc|].
  rewrite filter_cons. destruct (decide (x = c)) as [->|Hne].
  - rewrite decide_False by auto. rewrite filter_neq_fresh by done. simpl. lia.
  - rewrite decide_True by done. apply elem_of_cons in Hc as [->|Hc]; [done|].
    specialize (IH Hc). simpl. lia.
Qed.

Lemma call_step_balanced s ev s' out : call_step s ev = Some (s', out) → slots_balanced s →
  slots_balanced s'.
Proof.
  intros H (Ha & Hnd & Hb). unfold length_Z in *. destruct ev as [c|c]; cbn in H; case_decide as Hc; try done.
  - unfold enter in H. destruct (Z.leb_spec maxActive (sk_activeRequests (ca_state s))); simplify_eq; [done|].
    unfold slots_balanced, length_Z. cbn in *. split_and!; [lia|by constructor|lia].
  - injection H as <- <-. unfold slots_balanced. cbn.
    rewrite length_filter_neq by done. unfold length_Z. split_and!; [lia|by apply NoDup_filter|lia].
Qed.

(** * Lemmas: what a computation requests and returns *)

Section spec.
Context {W Rq : Type} (log : W → list Rq).

(** The requests a computation sends, with its result. *)
Definition spec {A} (P : result thrown A → list Rq → Prop) (m : M thrown W A) : Prop :=
  ∀ w r w', m w = (r, w') → ∃ l, log w' = log w ++ l ∧ P r l.

Lemma spec_weaken {A} (P Q : result thrown A → list Rq → Prop) m :
  spec P m → (∀ r l, P r l → Q r l) → spec Q m.
Proof. intros H HPQ w r w' Hm. destruct (H w r w' Hm) as (l & ? & ?). eauto. Qed.

Lemma spec_pure {A} (P : result thrown A → list Rq → Prop) r :
  P r [] → spec P (λ w, (r, w)).
Proof. intros H w ? ? [= <- <-]. exists []. by rewrite app_nil_r. Qed.

Lemma spec_bind {A B} (P : result thrown A → list Rq → Prop)
    (R : result thrown B → list Rq → Prop) m (f : A → M thrown W B) :
  spec P m → (∀ e l, P (Err e) l → R (Err e) l) →
  (∀ a l, P (Ok a) l → spec (λ r l', R r (l ++ l')) (f a)) → spec R (m ≫= f).
Proof.
  intros Hm He Hf w r w' H. unfold mbind, M_bind in H. destruct (m w) as [[a|e] w1] eqn:Hw.
  - destruct (Hm _ _ _ Hw) as (l1 & Hl1 & HP). destruct (Hf a l1 HP _ _ _ H) as (l2 & Hl2 & HR).
    exists (l1 ++ l2). by rewrite Hl2, Hl1, app_assoc.
  - injection H as <- <-. destruct (Hm _ _ _ Hw) as (l1 & Hl1 & HP). eauto.
Qed.

(** A check before the rest. *)
Lemma spec_fail_if {A} (R : result thrown A → list Rq → Prop) b code (f : unit → M thrown W A) :
  R (Err (ThrowSDK (newSDKError (js code) 0 None))) [] → (b = false → spec R (f tt)) →
  spec R (fail_if b code ≫= f).
Proof.
  intros Hr Hf. destruct b.
  - apply (spec_pure R). exact Hr.
  - intros w r w' H. by apply Hf in H.
Qed.

(** A step that requests nothing. *)
Definition quiet {A} (r : result thrown A) (l : list Rq) : Prop := l = [].

Lemma quiet_ret {A} (a : A) : spec quiet (mret (M := M thrown W) a).
Proof. by apply spec_pure. Qed.

Lemma quiet_throw {A} e : spec quiet (throw (A := A) e).
Proof. by apply spec_pure. Qed.

Lemma quiet_lift {A} (r : result thrown A) : spec quiet (lift_result (W := W) r).
Proof. by apply spec_pure. Qed.

(** What is requested before a quiet rest, and after a quiet step. *)
Lemma sends_quiet {A B} (P : result thrown A → list Rq → Prop) (m : M thrown W A) (k : A → M thrown W B)
    (Q : list Rq → Prop) :
  spec P m → (∀ r l, P r l → Q l) → (∀ a, spec quiet (k a)) → spec (λ _ l, Q l) (m ≫= k).
Proof.
  intros Hm HQ Hk. eapply spec_bind; [exact Hm|by eauto|]. intros a l Hl.
  eapply spec_weaken; [apply Hk|]. intros r l' ->. rewrite app_nil_r. by eapply HQ.
Qed.

Lemma quiet_sends {A B} (Q : result thrown B → list Rq → Prop) (m : M thrown W A) (k : A → M thrown W B) :
  spec quiet m → (∀ e, Q (Err e) []) → (∀ a, spec Q (k a)) → spec Q (m ≫= k).
Proof. intros Hm He Hk. eapply spec_bind; [exact Hm|by intros e l ->|]. by intros a l ->. Qed.
End spec.

(** * What the browser promises *)

(** The errors the client makes itself; a status comes with an answer only. *)
Definition client_error (e : thrown) : Prop := ∃ code status apiCode,
  e = ThrowSDK (newSDKError (js code) status apiCode) ∧
  ((status = 0%Z ∧ code ∈ ["busy"; "invalid_input"; "cancelled"; "timeout"; "request_failed";
                           "response_limit"; "invalid_response"; "invalid_origin"]%string) ∨
   (status = 401%Z ∧ code = "reauth_required"%string) ∨
   (response_ok status = false ∧ status ≠ 401%Z ∧ code = "http_error"%string)).

(** An error of another origin. *)
Definition foreign (e : thrown) : Prop := ∀ s, e ≠ ThrowSDK s.

(** [log] is the requests one call has sent. Nothing else sends one, and what the
    browser throws is none of the client's errors. *)
Record browser_ok {W Ctl} `{!Lens W SdkState} (br : Browser W Ctl) (log : W → list FetchRequest) : Prop := {
  bo_put s w : log (lens_put s w) = log w;
  bo_start n w : log (br_start br n w).2 = log w;
  bo_follow s ctl w : log (br_follow br s ctl w) = log w;
  bo_stop ctl s w : log (br_stop br ctl s w) = log w;
  bo_fetch q ctl w r w' : br_fetch br q ctl w = (r, w') →
    log w' = log w ++ [q] ∧ (∀ e, r = Err e → foreign e) ∧
    (∀ a chunks e, r = Ok a → fr_body a = Some (chunks, Some e) → foreign e);
  bo_cancel a w r w' : br_cancel br a w = (r, w') → log w' = log w ∧ ∀ e, r = Err e → foreign e
}.

Section calls.
Context {W Ctl : Type} `{!Lens W SdkState} (br : Browser W Ctl) (log : W → list FetchRequest)
  (Hbr : browser_ok br log) (origin : jsstring).

Abbreviation spec := (spec log).

(** An error of the action of a call. *)
Definition action_error (e : thrown) : Prop := foreign e ∨ client_error e.

Lemma own_error code : code ∈ ["busy"; "invalid_input"; "cancelled"; "timeout"; "request_failed";
                               "response_limit"; "invalid_response"; "invalid_origin"]%string →
  client_error (ThrowSDK (newSDKError (js code) 0 None)).
Proof. intros H. exists code, 0%Z, None. auto. Qed.

Ltac own_code := right; apply own_error; set_solver.

(** A request of the client for a path: to its own origin, in same-origin mode. *)
Definition sent (path method : jsstring) (csrf : option jsstring) (q : FetchRequest) : Prop :=
  fq_method q = method ∧ prop_get (fq_headers q) (js "X-CSRF-Token") = csrf ∧
  fq_credentials q = js "same-origin" ∧ fq_mode q = js "same-origin" ∧ fq_redirect q = js "error" ∧
  ∃ url, br_URL br path (Some origin) = Some url ∧ url_origin url = origin ∧
    url_href url = fq_url q.

Lemma csrf_header body csrf traceparent :
  prop_get (request_headers body csrf traceparent) (js "X-CSRF-Token") = csrf.
Proof. unfold request_headers. destruct body, csrf, traceparent; done. Qed.

Lemma read_chunks_error chunks ended n st data e :
  (∀ e', ended = Some e' → foreign e') →
  read_chunks br chunks ended n st data = Err e → action_error e.
Proof.
  intros He. revert n st data. induction chunks as [|c chunks IH]; intros n st data H; cbn in H.
  - destruct ended as [e'|]; simplify_eq; [left; auto|].
    destruct (td_flush _ _); simplify_eq. by left.
  - destruct (maxResponse <? n + length_Z c)%Z; simplify_eq; [own_code|].
    destruct (td_decode _ _ _) as [[t st']|]; simplify_eq; [eauto|by left].
Qed.

(** The result of one step that sends nothing. *)
Definition silent {A} (r : result thrown A) (l : list FetchRequest) : Prop :=
  l = [] ∧ ∀ e, r = Err e → action_error e.

Lemma read_body_spec a : (∀ chunks e, fr_body a = Some (chunks, Some e) → foreign e) →
  spec silent (read_body br a).
Proof.
  intros He. unfold read_body. destruct (fr_body a) as [[chunks ended]|] eqn:Hb.
  - intros w r w' H. destruct (br_cancel br a w) as [[u|e] w1] eqn:Hc; injection H as <- <-;
      destruct (bo_cancel _ _ Hbr _ _ _ _ Hc) as [Hl Hf]; exists []; rewrite app_nil_r.
    + split; [done|]. split; [done|]. intros e Hr. eapply read_chunks_error; [|exact Hr].
      intros e' ->. eauto.
    + split; [done|]. split; [done|]. intros ? [= <-]. left. eauto.
  - apply spec_pure. by split.
Qed.

(** At most one request was sent, and an error is one a call may end with. *)
Definition one_request {A} (path method : jsstring) (csrf : option jsstring) (r : result thrown A)
    (l : list FetchRequest) : Prop :=
  (l = [] ∨ ∃ q, l = [q] ∧ sent path method csrf q) ∧
  (∀ e, r = Err e → action_error e) ∧ (∀ a, r = Ok a → l ≠ []).

Lemma request_spec method path body csrf ctl traceparent :
  spec (one_request path method csrf) (request br origin method path body csrf ctl traceparent).
Proof.
  unfold request.
  apply (spec_bind log (λ r l, l = [] ∧ match r with
           | Ok url => br_URL br path (Some origin) = Some url | Err e => foreign e end)).
  { unfold own_address. intros w r w' H. exists []. rewrite app_nil_r.
    by destruct (br_URL br path (Some origin)) eqn:E; injection H as <- <-. }
  { intros e l [-> He]. split_and!; [by left|intros ? [= <-]; by left|done]. }
  intros url l [-> Hu]. cbn [app].
  apply spec_fail_if; [split_and!; [by left|intros ? [= <-]; own_code|done]|]. intros Hg.
  apply orb_false_elim in Hg as [Hg _]. apply orb_false_elim in Hg as [Hg _].
  apply orb_false_elim in Hg as [Hg _]. apply orb_false_elim in Hg as [Hg _].
  apply negb_false_iff, bool_decide_eq_true in Hg.
  apply spec_fail_if; [split_and!; [by left|intros ? [= <-]; own_code|done]|]. intros _.
  set (q := {| fq_url := _ |}).
  assert (Hs : sent path method csrf q).
  { split_and!; [done|apply csrf_header|done..|]. by exists url. }
  assert (Hq : ∀ r : result thrown ApiResponse, (∀ e, r = Err e → action_error e) →
                 one_request path method csrf r [q]).
  { intros r Hr. split_and!; [by right; exists q|done|done]. }
  apply (spec_bind log (λ r l, l = [q] ∧ (∀ e, r = Err e → foreign e) ∧
           ∀ a chunks e, r = Ok a → fr_body a = Some (chunks, Some e) → foreign e)).
  { intros w r w' H. destruct (bo_fetch _ _ Hbr _ _ _ _ _ H) as (Hl & He & Hb). by exists [q]. }
  { intros e l (-> & He & _). apply Hq. intros ? [= <-]. left. by apply He. }
  intros a l (-> & _ & Hb).
  apply (spec_bind log silent); [apply read_body_spec; eauto| |].
  { intros e l [-> He]. apply Hq. intros ? [= <-]. by apply He. }
  intros data l [-> _]. cbn [app]. destruct (response_ok (fr_status a)) eqn:Hok; cbn [negb].
  - apply (spec_bind log silent).
    + apply spec_pure. split; [done|]. intros e Hv. unfold answer_value in Hv.
      repeat case_match; simplify_eq; own_code.
    + intros e l [-> He]. apply Hq. intros ? [= <-]. by apply He.
    + intros v l [-> _]. apply spec_pure. by apply Hq.
  - apply spec_pure, Hq. intros ? [= <-]. right. eexists _, _, _. split; [done|].
    destruct (Z.eqb_spec (fr_status a) 401) as [He|He]; [by right; left|by right; right].
Qed.

(** The request for the session. *)
Definition asks_session (q : FetchRequest) : Prop := sent (js "/auth/session") (js "GET") None q.

Lemma session_spec ctl traceparent :
  spec (λ r l, one_request (js "/auth/session") (js "GET") None r l ∧
               ∀ v, r = Ok v → session_ok 200 v = true ∧ ∃ q, l = [q] ∧ asks_session q)
    (session br origin ctl traceparent).
Proof.
  unfold session. eapply spec_bind; [apply request_spec| |].
  - intros e l (Hl & He & _). split; [|done]. split_and!; [done|intros ? [= <-]; by apply He|done].
  - intros a l (Hl & _ & Hok). specialize (Hok a eq_refl).
    destruct Hl as [->|(q & -> & Hs)]; [done|].
    apply spec_fail_if.
    + split; [|done]. split_and!; [right; by exists q|intros ? [= <-]; own_code|done].
    + intros Hv%negb_false_iff. apply spec_pure. split.
      * split_and!; [right; by exists q|done|done].
      * intros ? [= <-]. split; [|by exists q].
        unfold session_ok in *. rewrite !andb_true_iff in *. naive_solver.
Qed.

(** What a call for a path sends: one request; or, where it changes something, the
    session first, and its own request with the session's token. *)
Definition guarded_requests (reading : bool) (path method : jsstring) (l : list FetchRequest) : Prop :=
  l = [] ∨
  if reading then ∃ q, l = [q] ∧ sent path method None q
  else ∃ q, asks_session q ∧
    (l = [q] ∨ ∃ token q', is_csrf_token (VStr token) = true ∧
                           sent path method (Some token) q' ∧ l = [q; q']).

(** An operation does so for the path its input gives. *)
Definition operation_requests (op : ContractOperation) (input : jsval) (l : list FetchRequest) : Prop :=
  l = [] ∨ ∃ path, operation_path br op input = Some path ∧
    guarded_requests (bool_decide (co_method op = GET)) path (method_str (co_method op)) l.

(** What [run] makes of the action's results, for a [traceparent] that was accepted: a
    client's error, if any. *)
Lemma run_checked {A} (P : list FetchRequest → Prop) options
    (action : Ctl → option jsstring → M thrown W A) :
  P [] →
  (∀ ctl traceparent signal, checked_options options = Some (traceparent, signal) →
     spec (λ r l, P l ∧ ∀ e, r = Err e → action_error e) (action ctl traceparent)) →
  spec (λ r l, P l ∧ ∀ e, r = Err e → client_error e) (run br options action).
Proof.
  intros HP Ha w r w' H. unfold run in H. destruct (enter (lens_get w)) as [s|].
  2: { injection H as <- <-. exists []. rewrite app_nil_r. split; [done|]. split; [done|].
       intros ? [= <-]. apply own_error. set_solver. }
  destruct (br_start br 20000 (lens_put s w)) as [ctl w1] eqn:Hs.
  assert (H1 : log w1 = log w).
  { pose proof (bo_start _ _ Hbr 20000%Z (lens_put s w)) as E. rewrite Hs in E. cbn in E.
    by rewrite E, (bo_put _ _ Hbr). }
  destruct (guarded br ctl options action w1) as [r1 w2] eqn:Hg.
  assert (∃ l, log w2 = log w ++ l ∧ P l ∧ ∀ e, r1 = Err e → action_error e) as (l & Hl & HPl & He).
  { assert (Hown : ∀ code w0, log w0 = log w → code ∈ ["busy"; "invalid_input"; "cancelled"; "timeout";
              "request_failed"; "response_limit"; "invalid_response"; "invalid_origin"]%string →
              fail code w0 = (r1, w2) → ∃ l, log w2 = log w ++ l ∧ P l ∧ ∀ e, r1 = Err e → action_error e).
    { intros code w0 Hw Hin [= <- <-]. exists []. rewrite app_nil_r. split_and!; [done..|].
      intros ? [= <-]. right. by apply own_error. }
    unfold guarded in Hg. destruct (checked_options options) as [[tp signal]|] eqn:Hc;
      [|eapply Hown; [exact H1| |exact Hg]; set_solver].
    assert (Hact : ∀ w0, log w0 = log w → (if br_aborted br ctl w0 then fail "cancelled" w0
              else action ctl tp w0) = (r1, w2) →
              ∃ l, log w2 = log w ++ l ∧ P l ∧ ∀ e, r1 = Err e → action_error e).
    { intros w0 Hw Hr. destruct (br_aborted br ctl w0); [eapply Hown; [exact Hw| |exact Hr]; set_solver|].
      destruct (Ha ctl tp signal eq_refl _ _ _ Hr) as (l & Hl & ? & ?). exists l. by rewrite Hl, Hw. }
    destruct signal as [|sg|]; [by apply (Hact w1)| |eapply Hown; [exact H1| |exact Hg]; set_solver].
    apply (Hact (br_follow br sg ctl w1)); [by rewrite (bo_follow _ _ Hbr)|exact Hg]. }
  injection H as <- <-. exists l. rewrite (bo_put _ _ Hbr), (bo_stop _ _ Hbr). split; [done|].
  split; [done|]. intros e Hr. destruct r1 as [a|e1]; [done|]. injection Hr as <-.
  destruct (He e1 eq_refl) as [Hf|(code & st & api & -> & Hc)].
  - unfold run_error. destruct e1; try (by destruct (Hf _ eq_refl));
      repeat case_match; apply own_error; set_solver.
  - by exists code, st, api.
Qed.

Lemma run_spec {A} (P : list FetchRequest → Prop) options
    (action : Ctl → option jsstring → M thrown W A) :
  P [] →
  (∀ ctl traceparent, spec (λ r l, P l ∧ ∀ e, r = Err e → action_error e) (action ctl traceparent)) →
  spec (λ r l, P l ∧ ∀ e, r = Err e → client_error e) (run br options action).
Proof. intros HP Ha. apply run_checked; [done|]. intros ctl tp _ _. apply Ha. Qed.

Lemma authenticated_token v : session_ok 200 v = true → is_authenticated v = true →
  ∃ token, csrf_of v = Some token ∧ is_csrf_token (VStr token) = true.
Proof.
  unfold session_ok, csrf_of. rewrite !andb_true_iff. intros H Ha.
  assert (Ht : is_csrf_token (prop v "csrf_token") = true).
  { destruct H as [[[[[_ H] _] _] _] _]. by rewrite Ha in H. }
  destruct (prop v "csrf_token") as [| | | |t| |]; try done. by exists t.
Qed.

(** The token is none for a reading call, and the session's for another. *)
Definition token_requests (reading : bool) (path method : jsstring) (r : result thrown (option jsstring))
    (l : list FetchRequest) : Prop :=
  match r with
  | Err e => guarded_requests reading path method l ∧ action_error e
  | Ok c => if reading then l = [] ∧ c = None
            else ∃ q token, l = [q] ∧ asks_session q ∧ c = Some token ∧
                            is_csrf_token (VStr token) = true
  end.

Lemma session_token_spec reading path method ctl traceparent :
  spec (token_requests reading path method) (session_token br origin reading ctl traceparent).
Proof.
  unfold session_token, token_requests, guarded_requests. destruct reading; [by apply spec_pure|].
  eapply spec_bind; [apply session_spec| |].
  - intros e l [(Hl & He & _) _]. split; [|by apply He].
    destruct Hl as [->|(q & -> & Hs)]; [by left|right; exists q; auto].
  - intros v l [_ Hv]. destruct (Hv v eq_refl) as (Hok & q & -> & Hs).
    destruct (is_authenticated v) eqn:Ha; apply spec_pure.
    + destruct (authenticated_token v Hok Ha) as (t & -> & Ht). by exists q, t.
    + split; [right; exists q; auto|]. right. exists "reauth_required"%string, 401%Z, None. auto.
Qed.

(** The call itself, made with the token, and what is made of its answer. *)
Lemma guarded_call {B} reading path method body ctl traceparent (k : ApiResponse → M thrown W B) :
  (∀ a, spec silent (k a)) →
  spec (λ r l, guarded_requests reading path method l ∧ ∀ e, r = Err e → action_error e)
    (session_token br origin reading ctl traceparent ≫= λ csrf,
     request br origin method path body csrf ctl traceparent ≫= k).
Proof.
  intros Hk. eapply spec_bind; [apply (session_token_spec reading path method)| |].
  { intros e l [Hl He]. split; [done|]. by intros ? [= <-]. }
  intros csrf l Hc.
  assert (Hops : ∀ l', (l' = [] ∨ ∃ q, l' = [q] ∧ sent path method csrf q) →
            guarded_requests reading path method (l ++ l')).
  { intros l' Hl. cbn in Hc. unfold guarded_requests. destruct reading.
    - destruct Hc as [-> ->]. destruct Hl as [->|(q & -> & Hs)]; [by left|right; by exists q].
    - destruct Hc as (q & t & -> & Hs & -> & Ht). right. exists q. split; [done|].
      destruct Hl as [->|(q' & -> & Hs')]; [by left|right; by exists t, q']. }
  eapply spec_bind; [apply request_spec| |].
  - intros e l' (Hl & He & _). split; [by apply Hops|]. intros ? [= <-]. by apply He.
  - intros a l' (Hl & _). eapply spec_weaken; [apply Hk|]. intros r l'' [-> He].
    rewrite app_nil_r. split; [by apply Hops|done].
Qed.

Lemma operation_action_spec op input ctl traceparent :
  spec (λ r l, operation_requests op input l ∧ ∀ e, r = Err e → action_error e)
    (operation_action br origin op input ctl traceparent).
Proof.
  unfold operation_action, operation_requests. destruct (operation_path br op input) as [path|].
  2: { apply spec_pure. split; [by left|]. intros ? [= <-]. own_code. }
  apply (spec_bind log silent).
  { unfold own_address. intros w r w' H. exists []. rewrite app_nil_r.
    destruct (br_URL br path (Some origin)); injection H as <- <-; (split; [done|]); [by split|].
    split; [done|]. intros ? [= <-]. by left. }
  { intros e l [-> He]. split; [by left|]. intros ? [= <-]. by apply He. }
  intros url l [-> _]. cbn [app].
  apply spec_fail_if; [split; [by left|intros ? [= <-]; own_code]|]. intros _.
  apply spec_fail_if; [split; [by left|intros ? [= <-]; own_code]|]. intros _.
  eapply spec_weaken; [apply guarded_call|].
  - intros a. apply spec_fail_if; [split; [done|intros ? [= <-]; own_code]|].
    intros _. by apply spec_pure.
  - intros r l [Hl He]. split; [|done]. right. by exists path.
Qed.

Lemma client_operation_spec op input options :
  spec (λ r l, operation_requests op input l ∧ ∀ e, r = Err e → client_error e)
    (client_operation br origin op input options).
Proof. apply run_spec; [by left|]. intros. apply operation_action_spec. Qed.

(** ** What each request of a call carries *)

Lemma spec_and {A} (P Q : result thrown A → list FetchRequest → Prop) m :
  spec P m → spec Q m → spec (λ r l, P r l ∧ Q r l) m.
Proof.
  intros HP HQ w r w' H. destruct (HP w r w' H) as (l & Hl & Hp), (HQ w r w' H) as (l' & Hl' & Hq).
  exists l. split_and!; [done..|]. rewrite Hl in Hl'. apply app_inv_head in Hl' as <-. done.
Qed.

(** The request made for an address. *)
Definition client_request (target : URL) (method : jsstring) (body csrf traceparent : option jsstring) : FetchRequest := {|
  fq_url := url_href target; fq_method := method;
  fq_headers := request_headers body csrf traceparent; fq_body := body;
  fq_credentials := js "same-origin"; fq_mode := js "same-origin"; fq_cache := js "no-store";
  fq_redirect := js "error"; fq_referrerPolicy := js "no-referrer" |}.

Section each.
Context (P : FetchRequest → Prop).

Lemma each_bind {A B} (m : M thrown W A) (k : A → M thrown W B) :
  spec (λ _ l, Forall P l) m → (∀ a, spec (λ _ l, Forall P l) (k a)) → spec (λ _ l, Forall P l) (m ≫= k).
Proof using.
  intros Hm Hk. eapply spec_bind; [exact Hm|done|]. intros a l Hl. eapply spec_weaken; [apply Hk|].
  intros r l' Hl'. by apply Forall_app.
Qed.

Lemma each_quiet {A} (m : M thrown W A) : spec quiet m → spec (λ _ l, Forall P l) m.
Proof using. intros Hm. eapply spec_weaken; [exact Hm|]. by intros r l ->. Qed.

Lemma quiet_fail_if b code : spec quiet (fail_if b code).
Proof using. destruct b; by apply spec_pure. Qed.

Lemma quiet_address path : spec quiet (own_address br origin path).
Proof using.
  unfold own_address. intros w r w' H. exists []. rewrite app_nil_r.
  by destruct (br_URL br path (Some origin)); injection H as <- <-.
Qed.

Lemma request_each method path body csrf ctl traceparent :
  (∀ target, P (client_request target method body csrf traceparent)) →
  spec (λ _ l, Forall P l) (request br origin method path body csrf ctl traceparent).
Proof using Hbr.
  intros HP. unfold request. apply each_bind; [apply each_quiet, quiet_address|intros url].
  do 2 (apply each_bind; [apply each_quiet, quiet_fail_if|intros _]).
  apply each_bind.
  { intros w r w' H. destruct (bo_fetch _ _ Hbr _ _ _ _ _ H) as (Hl & _). eexists. split; [exact Hl|].
    constructor; [apply (HP url)|done]. }
  intros a. apply each_bind.
  { apply each_quiet. unfold read_body. destruct (fr_body a) as [[chunks ended]|]; [|apply quiet_ret].
    intros w r w' H. destruct (br_cancel br a w) as [[u|e] w1] eqn:Hc; injection H as <- <-;
      destruct (bo_cancel _ _ Hbr _ _ _ _ Hc) as [Hl _]; exists []; by rewrite app_nil_r. }
  intros data. destruct (response_ok (fr_status a)); cbn [negb]; [|apply each_quiet, quiet_throw].
  apply each_bind; [apply each_quiet, quiet_lift|intros v; apply each_quiet, quiet_ret].
Qed.

Lemma session_token_each reading ctl traceparent :
  (∀ target, P (client_request target (js "GET") None None traceparent)) →
  spec (λ _ l, Forall P l) (session_token br origin reading ctl traceparent).
Proof using Hbr.
  intros HP. unfold session_token, session. destruct reading; [apply each_quiet, quiet_ret|].
  apply each_bind.
  - apply each_bind; [by apply request_each|intros result].
    apply each_bind; [apply each_quiet, quiet_fail_if|intros _; apply each_quiet, quiet_ret].
  - intros v. destruct (is_authenticated v); apply each_quiet; [apply quiet_ret|apply quiet_throw].
Qed.

(** The session's request, and the operation's own. *)
Definition each_request (op : ContractOperation) (input : jsval) (traceparent : option jsstring) : Prop :=
  (∀ target, P (client_request target (js "GET") None None traceparent)) ∧
  (∀ target csrf, P (client_request target (method_str (co_method op)) (operation_body br input) csrf traceparent)).

Lemma operation_action_each op input ctl traceparent : each_request op input traceparent →
  spec (λ _ l, Forall P l) (operation_action br origin op input ctl traceparent).
Proof using Hbr.
  intros [Hs Ho]. unfold operation_action. destruct (operation_path br op input) as [path|]; [|apply each_quiet, quiet_throw].
  apply each_bind; [apply each_quiet, quiet_address|intros url].
  do 2 (apply each_bind; [apply each_quiet, quiet_fail_if|intros _]).
  apply each_bind; [by apply session_token_each|intros csrf].
  apply each_bind; [by apply request_each|intros result].
  apply each_bind; [apply each_quiet, quiet_fail_if|intros _; apply each_quiet, quiet_ret].
Qed.

Lemma client_operation_each op input o : each_request op input (ro_traceparent o) →
  spec (λ _ l, Forall P l) (client_operation br origin op input (adapter_options o)).
Proof using Hbr.
  intros HP. eapply spec_weaken; [apply (run_checked (Forall P))|by intros r l []]; [done|].
  intros ctl tp signal Hc. assert (tp = ro_traceparent o) as ->.
  { unfold adapter_options in Hc. cbn [checked_options] in Hc. destruct (ro_traceparent o) as [t|]; cbn in Hc.
    - destruct (traceparent_accepted t); [by injection Hc|done].
    - by injection Hc. }
  eapply spec_weaken; [apply spec_and; [by apply operation_action_each|apply operation_action_spec]|].
  by intros r l (Hc' & _ & He).
Qed.
End each.

(** A request carries the [traceparent] of its call's options. *)
Definition carries (traceparent : option jsstring) (q : FetchRequest) : Prop :=
  prop_get (fq_headers q) (js "traceparent") = traceparent.

(** A request that changes something carries the body of its input. *)
Definition has_body (input : jsval) (q : FetchRequest) : Prop :=
  fq_method q ≠ js "GET" → fq_body q = operation_body br input.

(** Through the adapter's options, every request of an operation carries the header the
    adapter gave. *)
Lemma client_operation_carries op input o :
  spec (λ _ l, Forall (carries (ro_traceparent o)) l) (client_operation br origin op input (adapter_options o)).
Proof.
  apply client_operation_each. split; intros; unfold carries, client_request, request_headers; cbn;
    [|destruct (operation_body br input), csrf]; by destruct (ro_traceparent o).
Qed.

Lemma client_operation_bodies op input o :
  spec (λ _ l, Forall (has_body input) l) (client_operation br origin op input (adapter_options o)).
Proof. apply client_operation_each. split; [by intros target []|by intros target csrf _]. Qed.
End calls.

(** * Lemmas: results *)

Lemma bind_Ok {W A B} (m : M thrown W A) (f : A → M thrown W B) w b w' :
  (m ≫= f) w = (Ok b, w') → ∃ a w1, m w = (Ok a, w1) ∧ f a w1 = (Ok b, w').
Proof. unfold mbind, M_bind. destruct (m w) as [[a|e] w1]; [eauto|done]. Qed.

Lemma fail_if_Ok {W} b code (w w' : W) u : fail_if b code w = (Ok u, w') → b = false ∧ w' = w.
Proof. destruct b; [done|]. by intros [= _ <-]. Qed.

Section results.
Context {W Ctl : Type} `{!Lens W SdkState} (br : Browser W Ctl) (origin : jsstring).

(** A call that returns has run its action, which alone may have sent something. *)
Lemma run_Ok {A} options (action : Ctl → option jsstring → M thrown W A) w a w' :
  run br options action w = (Ok a, w') →
  ∃ ctl traceparent w1 w2, action ctl traceparent w1 = (Ok a, w2) ∧
    ∀ log, browser_ok br log → log w1 = log w ∧ log w' = log w2.
Proof.
  unfold run. destruct (enter _) as [s|]; [|done]. destruct (br_start br _ _) as [ctl w1] eqn:Hs.
  destruct (guarded br ctl options action w1) as [r w2] eqn:Hg. intros [= Hr <-].
  destruct r as [a'|]; simplify_eq. unfold guarded in Hg.
  assert (H1 : ∀ log, browser_ok br log → log w1 = log w).
  { intros log Hbr. pose proof (bo_start _ _ Hbr 20000%Z (lens_put s w)) as E. rewrite Hs in E. cbn in E.
    by rewrite E, (bo_put _ _ Hbr). }
  assert (H2 : ∀ log, browser_ok br log →
    log (lens_put (leave_slot (lens_get (br_stop br ctl (followed options) w2)))
           (br_stop br ctl (followed options) w2)) = log w2)
    by (intros log Hbr; by rewrite (bo_put _ _ Hbr), (bo_stop _ _ Hbr)).
  destruct (checked_options options) as [[tp sg]|] eqn:Hc; [|done].
  destruct sg as [|sg|]; [..|done]; (destruct (br_aborted br ctl _); [done|]);
    eexists ctl, tp, _, w2; (split; [exact Hg|]); intros log Hbr; (split; [|by apply H2]);
    rewrite ?(bo_follow _ _ Hbr); by apply H1.
Qed.

(** The slot of a call: taken for the action, and given back whatever it does. *)
Lemma run_slot {A} options (action : Ctl → option jsstring → M thrown W A) w r w' :
  (∀ n w0, lens_get (br_start br n w0).2 = lens_get w0) →
  (∀ s ctl w0, lens_get (br_follow br s ctl w0) = lens_get w0) →
  (∀ ctl s w0, lens_get (br_stop br ctl s w0) = lens_get w0) →
  run br options action w = (r, w') →
  match enter (lens_get w) with
  | None => w' = w ∧ r = Err (ThrowSDK (newSDKError (js "busy") 0 None))
  | Some s => ∃ ctl w1 r1 w2, lens_get w1 = s ∧ guarded br ctl options action w1 = (r1, w2) ∧
      lens_get w' = leave_slot (lens_get w2)
  end.
Proof.
  intros Hstart Hfollow Hstop. unfold run. destruct (enter (lens_get w)) as [s|]; [|by intros [= <- <-]].
  destruct (br_start br 20000 (lens_put s w)) as [ctl w1] eqn:Hs.
  destruct (guarded br ctl options action w1) as [r1 w2] eqn:Hg. intros [= _ <-].
  exists ctl, w1, r1, w2. split_and!; [|done|by rewrite lens_get_put, Hstop].
  pose proof (Hstart 20000%Z (lens_put s w)) as E. rewrite Hs in E. cbn in E.
  by rewrite E, lens_get_put.
Qed.

Lemma operation_checked op input ctl traceparent w a w' :
  operation_action br origin op input ctl traceparent w = (Ok a, w') →
  check_response br op a = true.
Proof.
  unfold operation_action. destruct (operation_path br op input); [|done].
  intros (url & w1 & _ & H)%bind_Ok. apply bind_Ok in H as (? & w2 & _ & H).
  apply bind_Ok in H as (? & w3 & _ & H). apply bind_Ok in H as (csrf & w4 & _ & H).
  apply bind_Ok in H as (r & w5 & _ & H). apply bind_Ok in H as (? & w6 & Hc & H).
  injection H as <- _. apply fail_if_Ok in Hc as [Hc _]. by apply negb_false_iff.
Qed.
End results.

Lemma check_response_conforms {W Ctl} (br : Browser W Ctl) op a : check_response br op a = true →
  ∃ schema, prop_get (co_responses op) (string_of_Z (rp_status a)) = Some schema ∧
    match schema with
    | Some s => conforms contract_models (valid_URL br) Response s (rp_body a)
    | None => rp_body a = VUndef
    end.
Proof.
  unfold check_response. destruct (prop_get _ _) as [[s|]|]; [| |done]; intros H.
  - exists (Some s). split; [done|]. by apply validates_sound.
  - exists None. split; [done|]. by apply bool_decide_eq_true in H.
Qed.

Lemma client_operation_conforms {W Ctl} `{!Lens W SdkState} (br : Browser W Ctl) origin op input
    options w a w' :
  client_operation br origin op input options w = (Ok a, w') →
  ∃ schema, prop_get (co_responses op) (string_of_Z (rp_status a)) = Some schema ∧
    match schema with
    | Some s => conforms contract_models (valid_URL br) Response s (rp_body a)
    | None => rp_body a = VUndef
    end.
Proof.
  intros (ctl & tp & w1 & w2 & Ha & _)%run_Ok. apply operation_checked in Ha.
  by apply check_response_conforms.
Qed.

(** A reading operation that returns has sent exactly one request, for its path. *)
Lemma reading_answered {W Ctl} `{!Lens W SdkState} (br : Browser W Ctl) (log : W → list FetchRequest)
    (Hbr : browser_ok br log) origin op input options w a w' :
  co_method op = GET → client_operation br origin op input options w = (Ok a, w') →
  ∃ path q, operation_path br op input = Some path ∧ log w' = log w ++ [q] ∧
    sent br origin path (js "GET") None q.
Proof.
  intros Hget (ctl & tp & w1 & w2 & Ha & Hlog)%run_Ok. destruct (Hlog log Hbr) as [H1 H2]. revert Ha.
  unfold operation_action. destruct (operation_path br op input) as [path|]; [|done].
  intros (url & w3 & Hu & H)%bind_Ok. apply (quiet_address br log origin) in Hu as (? & H3 & ->).
  apply bind_Ok in H as (? & w4 & [_ ->]%fail_if_Ok & H). apply bind_Ok in H as (? & w5 & [_ ->]%fail_if_Ok & H).
  rewrite Hget in H. apply bind_Ok in H as (csrf & w6 & [= <- <-] & H).
  apply bind_Ok in H as (result & w7 & Hr & H).
  apply bind_Ok in H as (? & w8 & [_ ->]%fail_if_Ok & [= _ <-]).
  apply (request_spec br log Hbr) in Hr as (l & H7 & [->|(q & -> & Hq)] & _ & Hne);
    [by destruct (Hne result eq_refl)|].
  exists path, q. rewrite H2, H7, H3, H1, app_nil_r. done.
Qed.

(** One that changes something has sent the session's request and then its own. *)
Lemma changing_answered {W Ctl} `{!Lens W SdkState} (br : Browser W Ctl) (log : W → list FetchRequest)
    (Hbr : browser_ok br log) origin op input options w a w' :
  co_method op ≠ GET → client_operation br origin op input options w = (Ok a, w') →
  ∃ path q q' token, operation_path br op input = Some path ∧ log w' = log w ++ [q; q'] ∧
    asks_session br origin q ∧ sent br origin path (method_str (co_method op)) (Some token) q'.
Proof.
  intros Hget (ctl & tp & w1 & w2 & Ha & Hlog)%run_Ok. destruct (Hlog log Hbr) as [H1 H2]. revert Ha.
  unfold operation_action. destruct (operation_path br op input) as [path|]; [|done].
  intros (url & w3 & Hu & H)%bind_Ok. apply (quiet_address br log origin) in Hu as (? & H3 & ->).
  apply bind_Ok in H as (? & w4 & [_ ->]%fail_if_Ok & H). apply bind_Ok in H as (? & w5 & [_ ->]%fail_if_Ok & H).
  rewrite bool_decide_false in H by done. apply bind_Ok in H as (csrf & w6 & Hs & H).
  apply (session_token_spec br log Hbr origin false path (method_str (co_method op))) in Hs
    as (l0 & H6 & q & token & -> & Hq & -> & _).
  apply bind_Ok in H as (result & w7 & Hr & H).
  apply bind_Ok in H as (? & w8 & [_ ->]%fail_if_Ok & [= _ <-]).
  apply (request_spec br log Hbr) in Hr as (l & H7 & [->|(q' & -> & Hq')] & _ & Hne);
    [by destruct (Hne result eq_refl)|].
  exists path, q, q', token. rewrite H2, H7, H6, H3, H1, app_nil_r, <- app_assoc. done.
Qed.

(** * Lemmas: the path of an operation *)

Lemma Forall2_impl_elem {A B} (P Q : A → B → Prop) l k :
  Forall2 P l k → (∀ x y, x ∈ l → P x y → Q x y) → Forall2 Q l k.
Proof.
  induction 1 as [|x y l k H _ IH]; intros HPQ; constructor.
  - apply HPQ; [by left|done].
  - apply IH. intros x' y' Hx. apply HPQ. by right.
Qed.

(** [path.split("/")] *)
Fixpoint segments (s : jsstring) : list jsstring :=
  match s with
  | [] => [[]]
  | c :: t =>
      if (c =? 47)%N then [] :: segments t
      else match segments t with seg :: l => (c :: seg) :: l | [] => [[c]] end
  end.

Lemma segments_nonempty s : segments s ≠ [].
Proof. destruct s as [|c t]; simpl; [done|]. repeat case_match; done. Qed.

Lemma segments_join s : joinWith [47%N] (segments s) = s.
Proof.
  induction s as [|c t IH]; [done|]. cbn [segments]. pose proof (segments_nonempty t).
  destruct (N.eqb_spec c 47) as [->|].
  - by rewrite joinWith_cons, IH.
  - destruct (segments t) as [|seg l]; [done|]. destruct l as [|seg' l]; [by rewrite <- IH|].
    rewrite joinWith_cons in IH |- * by done. cbn [app] in *. by rewrite IH.
Qed.

Lemma segments_app seg t : (47%N ∉ seg) → segments (seg ++ 47%N :: t) = seg :: segments t.
Proof.
  induction seg as [|c seg IH]; intros H; [done|]. apply not_elem_of_cons in H as [Hc H].
  cbn [app segments]. rewrite (proj2 (N.eqb_neq _ _)) by done. by rewrite IH.
Qed.

Lemma segments_clean seg : (47%N ∉ seg) → segments seg = [seg].
Proof.
  induction seg as [|c seg IH]; intros H; [done|]. apply not_elem_of_cons in H as [Hc H].
  cbn [segments]. rewrite (proj2 (N.eqb_neq _ _)) by done. by rewrite IH.
Qed.

Lemma join_segments l : l ≠ [] → Forall (λ seg, 47%N ∉ seg) l → segments (joinWith [47%N] l) = l.
Proof.
  intros Hne H. induction H as [|seg l Hs Hl IH]; [done|]. destruct l as [|seg' l].
  - by apply segments_clean.
  - rewrite joinWith_cons by done. cbn [app]. rewrite segments_app by done. by rewrite IH.
Qed.

Lemma replace_clean p r s t : (123%N ∉ s) →
  replace_text (123%N :: p) r (s ++ t) 0 = s ++ replace_text (123%N :: p) r t 0.
Proof.
  induction s as [|c s IH]; intros H; [done|]. apply not_elem_of_cons in H as [Hc H].
  cbn -[startsWith]. replace (startsWith (c :: s ++ t) (123%N :: p)) with false; [by rewrite IH|].
  symmetry. apply not_true_iff_false. intros (k & [= Hk _])%startsWith_spec. done.
Qed.

Lemma replace_skip p r s t : replace_text p r (s ++ t) (length s) = replace_text p r t 0.
Proof. induction s as [|c s IH]; [done|]. exact IH. Qed.

Lemma replace_hit p r t : replace_text (123%N :: p) r ((123%N :: p) ++ t) 0 =
  r ++ replace_text (123%N :: p) r t 0.
Proof.
  cbn -[startsWith]. change (123%N :: p ++ t) with ((123%N :: p) ++ t).
  by rewrite startsWith_app, Nat.sub_0_r, replace_skip.
Qed.

Lemma prefix_until (c : N) (a b s t : jsstring) : (c ∉ a) → (c ∉ b) → a ++ c :: s = b ++ c :: t → a = b.
Proof.
  revert b. induction a as [|x a IH]; intros [|y b] Ha Hb H; simplify_eq/=; [done| | |].
  - by destruct Hb; left.
  - by destruct Ha; left.
  - apply not_elem_of_cons in Ha as [_ Ha]. apply not_elem_of_cons in Hb as [_ Hb].
    f_equal. eauto.
Qed.

Lemma replace_other n m r t : (125%N ∉ n) → (125%N ∉ m) → (123%N ∉ m) → n ≠ m →
  replace_text (placeholder n) r (placeholder m ++ t) 0 = placeholder m ++ replace_text (placeholder n) r t 0.
Proof.
  intros Hn Hm Hm' Hne. unfold placeholder. cbn -[startsWith].
  replace (startsWith _ _) with false.
  - f_equal. apply (replace_clean (n ++ [125%N])). rewrite elem_of_app, list_elem_of_singleton. naive_solver.
  - symmetry. apply not_true_iff_false. intros (k & [= Hk])%startsWith_spec.
    rewrite <- !app_assoc in Hk. cbn in Hk. by destruct Hne; apply (prefix_until 125 n m k t).
Qed.

(** A segment of a path or of a template: a text without braces, or one placeholder. *)
Definition clean (seg : jsstring) : Prop := (123%N ∉ seg) ∧ (47%N ∉ seg).

Definition seg_ok (seg : jsstring) : Prop :=
  clean seg ∨ ∃ n, seg = placeholder n ∧ (123%N ∉ n) ∧ (125%N ∉ n) ∧ (47%N ∉ n).

Definition fill (n r seg : jsstring) : jsstring := if decide (seg = placeholder n) then r else seg.

Lemma replace_segment n r seg t : (125%N ∉ n) → seg_ok seg →
  replace_text (placeholder n) r (seg ++ t) 0 = fill n r seg ++ replace_text (placeholder n) r t 0.
Proof.
  intros Hn [[Hc _]|(m & -> & Hm & Hm' & _)]; unfold fill.
  - rewrite decide_False; [by apply replace_clean|]. intros ->. destruct Hc. by left.
  - case_decide as Hd; [|apply replace_other; [done..|by intros ->]].
    rewrite Hd. by apply replace_hit.
Qed.

Lemma replace_segments n r segs : (125%N ∉ n) → Forall seg_ok segs →
  replace_text (placeholder n) r (joinWith [47%N] segs) 0 = joinWith [47%N] (map (fill n r) segs).
Proof.
  intros Hn H. induction H as [|seg segs Hs H IH]; [done|]. destruct segs as [|seg' segs].
  - rewrite <- (app_nil_r (joinWith _ [seg])). cbn [joinWith map]. rewrite replace_segment by done.
    by rewrite app_nil_r.
  - cbn [map] in *. rewrite (joinWith_cons _ seg), (joinWith_cons _ (fill n r seg)) by done.
    rewrite replace_segment by done. f_equal.
    rewrite (replace_clean (n ++ [125%N]) r [47%N]) by (intros [=]%list_elem_of_singleton).
    f_equal. exact IH.
Qed.

Section paths.
Context {W Ctl : Type} `{!Lens W SdkState} (br : Browser W Ctl).

(** A value of the input as it goes into a path. *)
Definition encoded_value (input : jsval) (n t : jsstring) : Prop :=
  ∃ x, val_prop input n = VStr x ∧ encodeURIComponent x = Some t ∧ decodeURIComponent t = Some x ∧
    (x ∉ [[]; js "."; js ".."]) ∧ t ≠ [] ∧ Forall (λ c, is_unreserved c = true ∨ c = 37%N) t.

Lemma encoded_clean input n t : encoded_value input n t → clean t.
Proof.
  intros (x & _ & _ & _ & _ & _ & Hf).
  split; intros Hin; rewrite Forall_forall in Hf; by destruct (Hf _ Hin).
Qed.

(** The parameters of the contract's paths are plain texts. *)
Definition path_param_ok (p : OperationParameter) : bool :=
  match pm_in p with
  | InQuery => true
  | InPath => pm_required p && negb (bool_decide (123%N ∈ pm_name p)) && negb (bool_decide (125%N ∈ pm_name p)) &&
      negb (bool_decide (47%N ∈ pm_name p)) &&
      (if s_type (pm_schema p) is Some TString then true else false) &&
      bool_decide (ref_of (pm_schema p) = None) && negb (s_nullable (pm_schema p))
  end.

Lemma text_input s v : s_type s = Some TString → ref_of s = None → s_nullable s = false →
  validate_input br s v = true → ∃ x, v = VStr x ∧ unicode x = true.
Proof.
  unfold validate_input. intros Ht Hr Hn H. apply validates_sound in H as Hv. clear H.
  destruct (conforms_node _ _ _ _ _ Hv Hr) as (_ & _ & _ & H).
  apply typed_inv in H as [H|H]; [congruence|].
  destruct v; destruct_and?; destruct_or?; try done; try congruence. eauto.
Qed.

(** What a segment of the template has become, the parameters [ps] being filled in. *)
Definition filled (ps : list OperationParameter) (input : jsval) (seg t : jsstring) : Prop :=
  (t = seg ∧ ∀ n, seg = placeholder n → ∀ p, p ∈ ps → pm_in p = InPath → pm_name p ≠ n) ∨
  ∃ n, seg = placeholder n ∧ encoded_value input n t.

Lemma filled_query p ps input seg t : pm_in p = InQuery → filled ps input seg t →
  filled (p :: ps) input seg t.
Proof.
  intros Hp [[-> Hn]|H]; [left; split; [done|]|by right].
  intros n Hs q [->|Hq]%elem_of_cons Hin; [congruence|by eapply Hn].
Qed.

Lemma filled_path p ps input seg t r : encoded_value input (pm_name p) r →
  filled ps input (fill (pm_name p) r seg) t → filled (p :: ps) input seg t.
Proof.
  intros He. unfold fill. case_decide as Hd.
  - intros [[-> _]|(n & Hr & _)]; [right; by exists (pm_name p)|].
    destruct (encoded_clean _ _ _ He) as [Hc _]. destruct Hc. rewrite Hr. by left.
  - intros [[-> Hn]|H]; [left; split; [done|]|by right].
    intros n Hs q [->|Hq]%elem_of_cons Hin; [by intros <-|by eapply Hn].
Qed.

Lemma fill_ok n r segs : clean r → Forall seg_ok segs → Forall seg_ok (map (fill n r) segs).
Proof.
  intros Hr H. induction H as [|seg segs Hs _ IH]; constructor; [|done].
  unfold fill. case_decide; [by left|done].
Qed.

Lemma wf_val_prop input n x : wf_val (λ _, True) input → val_prop input n = VStr x → wf_units x.
Proof.
  intros Hwf Hx. destruct Hwf as [| | | | | |l _ Hl]; try done. cbn in Hx.
  destruct (prop_get l n) as [v|] eqn:Hp; [|done]. cbn in Hx. subst v.
  apply prop_get_elem in Hp. eapply Forall_forall in Hl as [_ Hv]; [|exact Hp]. by inversion Hv.
Qed.

Lemma path_param_text p : path_param_ok p = true → pm_in p = InPath → ∀ v,
  validate_input br (pm_schema p) v = true →
  ∃ x, v = VStr x ∧ unicode x = true ∧ (123%N ∉ pm_name p) ∧ (125%N ∉ pm_name p).
Proof.
  intros Hp Hin v Hv. unfold path_param_ok in Hp. rewrite Hin in Hp.
  rewrite !andb_true_iff, !negb_true_iff, !bool_decide_eq_false in Hp.
  destruct Hp as [[[[[[_ H1] H2] _] Ht] Hr] Hn].
  destruct (text_input (pm_schema p) v) as (x & -> & Hu); [..|done|by exists x].
  - by destruct (s_type (pm_schema p)) as [[]|].
  - by apply bool_decide_eq_true in Hr.
  - done.
Qed.

Lemma parameters_fill ps input segs query path' query' : wf_val (λ _, True) input →
  Forall (λ p, path_param_ok p = true) ps → Forall seg_ok segs →
  parameters br ps input (joinWith [47%N] segs) query = Some (path', query') →
  ∃ segs', path' = joinWith [47%N] segs' ∧ Forall2 (filled ps input) segs segs' ∧ Forall seg_ok segs'.
Proof.
  intros Hwf Hps. revert segs query. induction Hps as [|p ps Hp Hps IH]; intros segs query Hsegs H.
  - injection H as <- _. exists segs. split_and!; [done| |done].
    clear. induction segs; constructor; [left; split; [done|by intros ? ? ? ?%not_elem_of_nil]|done].
  - cbn in H. assert (Hskip : ∀ q, parameters br ps input (joinWith [47%N] segs) q = Some (path', query') →
        pm_in p = InQuery → ∃ segs', path' = joinWith [47%N] segs' ∧
          Forall2 (filled (p :: ps) input) segs segs' ∧ Forall seg_ok segs').
    { intros q Hq Hin. destruct (IH segs q Hsegs Hq) as (segs' & -> & Hf & Hok).
      exists segs'. split_and!; [done| |done]. eapply Forall2_impl; [exact Hf|].
      intros seg t. by apply filled_query. }
    destruct (bool_decide_reflect (pm_name p ∈ own_keys input)) as [Hown|Hown].
    2: { assert (pm_required p = false ∧ parameters br ps input (joinWith [47%N] segs) query =
           Some (path', query')) as [Hreq H'] by (destruct (pm_required p); done).
         apply (Hskip _ H'). unfold path_param_ok in Hp. rewrite Hreq in Hp. by destruct (pm_in p). }
    assert (Hv : validate_input br (pm_schema p) (val_prop input (pm_name p)) = true)
      by (by destruct (validate_input br (pm_schema p) _)).
    rewrite Hv in H. destruct (pm_in p) eqn:Hin; [|by apply (Hskip _ H)].
    destruct (path_param_text p Hp Hin _ Hv) as (x & Hx & Hu & Hn & Hn'). rewrite Hx in H. cbn in H.
    case_bool_decide as Hdot; [done|]. apply bind_Some in H as (t & Ht & H).
    assert (He : encoded_value input (pm_name p) t).
    { assert (Hux : wf_units x) by (by eapply wf_val_prop).
      destruct (encodeURIComponent_shape x Hux Hu) as (t' & Ht' & Hd & Hf & Hne).
      assert (t' = t) as -> by congruence. exists x. split_and!; try done. apply Hne. intros ->.
      apply Hdot. by left. }
    rewrite replace_segments in H by done. destruct (IH _ _ (fill_ok _ _ _ (encoded_clean _ _ _ He) Hsegs) H)
      as (segs' & -> & Hf & Hok).
    exists segs'. split_and!; [done| |done]. 
    apply (Forall2_fmap_l (fill (pm_name p) t)) in Hf.
    eapply Forall2_impl; [exact Hf|]. intros seg t'. by apply filled_path.
Qed.

(** The contract's templates: their placeholders are their path parameters. *)
Definition template_ok (op : ContractOperation) : bool :=
  forallb path_param_ok (co_parameters op) &&
  forallb (λ seg, negb (bool_decide (123%N ∈ seg)) ||
                  existsb (λ p, bool_decide (seg = placeholder (pm_name p)) &&
                                (if pm_in p is InPath then true else false)) (co_parameters op))
    (segments (co_path op)).

Lemma contract_templates : forallb (λ o, template_ok o.2) contract_operations = true.
Proof. vm_compute. done. Qed.

Lemma segments_no_slash s : Forall (λ seg, 47%N ∉ seg) (segments s).
Proof.
  induction s as [|c t IH]; [repeat constructor; apply not_elem_of_nil|]. cbn.
  destruct (N.eqb_spec c 47); [constructor; [apply not_elem_of_nil|done]|].
  destruct (segments t) as [|seg l]; constructor; inversion IH; subst; try done.
  - intros Hx%list_elem_of_singleton. congruence.
  - by apply not_elem_of_cons.
Qed.

Lemma template_segments op : template_ok op = true → Forall seg_ok (segments (co_path op)).
Proof.
  unfold template_ok. intros [Hps Hs]%andb_prop. apply Forall_forall. intros seg Hin.
  rewrite forallb_forall in Hs. specialize (Hs seg (proj1 (list_elem_of_In _ _) Hin)).
  pose proof (proj1 (Forall_forall _ _) (segments_no_slash (co_path op)) seg Hin) as Hslash.
  apply orb_true_iff in Hs as [Hs|Hs].
  - apply negb_true_iff, bool_decide_eq_false in Hs. by left.
  - apply existsb_exists in Hs as (p & Hp & [Hseg%bool_decide_eq_true Hpath]%andb_prop).
    right. exists (pm_name p). rewrite forallb_forall in Hps. specialize (Hps p Hp).
    unfold path_param_ok in Hps. destruct (pm_in p); [|done].
    rewrite !andb_true_iff, !negb_true_iff, !bool_decide_eq_false in Hps. naive_solver.
Qed.

(** A segment of the path an operation asks for. *)
Definition segment_of (input : jsval) (seg t : jsstring) : Prop :=
  ((123%N ∉ seg) ∧ t = seg) ∨
  ∃ n x, seg = placeholder n ∧ val_prop input n = VStr x ∧ decodeURIComponent t = Some x ∧
    t ≠ [] ∧ (x ∉ [[]; js "."; js ".."]) ∧ Forall (λ c, c ∉ [47; 63; 35; 92]%N) t.

Lemma filled_segment op input seg t : template_ok op = true → seg ∈ segments (co_path op) →
  filled (co_parameters op) input seg t → segment_of input seg t.
Proof.
  intros Hok Hin [[-> Hn]|(n & -> & x & Hx & _ & Hd & Hdot & Hne & Hf)].
  - left. split; [|done]. intros Hb. unfold template_ok in Hok. apply andb_prop in Hok as [_ Hs].
    rewrite forallb_forall in Hs. specialize (Hs seg (proj1 (list_elem_of_In _ _) Hin)).
    rewrite bool_decide_true in Hs by done.
    apply existsb_exists in Hs as (p & Hp%list_elem_of_In & [Hseg%bool_decide_eq_true Hpath]%andb_prop).
    by apply (Hn _ Hseg p Hp); [destruct (pm_in p)|].
  - right. exists n, x. split_and!; try done. eapply Forall_impl; [exact Hf|]. intros c Hc Hbad.
    rewrite !elem_of_cons, elem_of_nil in Hbad.
    destruct Hc as [Hc| ->]; [|lia]. destruct Hbad as [->|[->|[->|[->|[]]]]]; vm_compute in Hc; done.
Qed.

Lemma operation_path_segments op input p : template_ok op = true → wf_val (λ _, True) input →
  operation_path br op input = Some p →
  ∃ path suffix, p = path ++ suffix ∧ (suffix = [] ∨ ∃ q, suffix = 63%N :: q) ∧
    Forall2 (segment_of input) (segments (co_path op)) (segments path).
Proof.
  intros Hok Hwf H. unfold operation_path in H. destruct (bounded input); [|done]. cbn [negb] in H.
  destruct input as [| | | | | |l]; try done. cbn [negb] in H.
  destruct (existsb _ _); [done|]. apply bind_Some in H as ([path query] & Hp & H).
  case_match; [done|]. case_match; [done|]. injection H as <-. cbn [fst snd].
  rewrite <- (segments_join (co_path op)) in Hp.
  assert (Hps : Forall (λ p, path_param_ok p = true) (co_parameters op)).
  { unfold template_ok in Hok. apply andb_prop in Hok as [Hps _].
    apply Forall_forall. intros q Hq%list_elem_of_In. by eapply forallb_forall in Hps. }
  destruct (parameters_fill _ _ _ _ _ _ Hwf Hps (template_segments op Hok) Hp) as (segs' & -> & Hf & _).
  assert (Hf' : Forall2 (segment_of (VObj l)) (segments (co_path op)) segs').
  { eapply Forall2_impl_elem; [exact Hf|]. intros seg t Hin. by apply filled_segment. }
  exists (joinWith [47%N] segs'). rewrite join_segments.
  - destruct (is_nonempty _).
    + eexists. split_and!; [done|right; by eexists|done].
    + exists []. rewrite app_nil_r. split_and!; [done|by left|done].
  - intros ->. apply Forall2_nil_inv_r in Hf. by apply segments_nonempty in Hf.
  - apply Forall_forall. intros t Ht. apply list_elem_of_lookup in Ht as (i & Hi).
    destruct (Forall2_lookup_r _ _ _ _ _ Hf' Hi) as (seg & Hseg & Hst).
    pose proof (proj1 (Forall_forall _ _) (segments_no_slash (co_path op)) seg
                  (list_elem_of_lookup_2 _ _ _ Hseg)).
    destruct Hst as [[_ ->]|(n & x & _ & _ & _ & _ & _ & Hf47)]; [done|].
    intros Hin. eapply Forall_forall in Hf47; [|exact Hin]. apply Hf47. by left.
Qed.
End paths.

(** * Properties *)



Section properties.
Context {W Ctl : Type} `{!Lens W SdkState} (br : Browser W Ctl) (log : W → list FetchRequest)
  (Hbr : browser_ok br log) (origin : jsstring).


(** Whatever the browser throws, an operation fails with an error of the client: one
    without a status, or the status of an answer that is not ok, of which 401 asks
    to sign in again. *)
Theorem operation_errors (op : ContractOperation) (input : jsval) (options : CallOptions)
    (w w' : W) (e : thrown) :
  client_operation br origin op input options w = (Err e, w') → client_error e.
Proof.
  intros H. destruct (client_operation_spec br log Hbr _ _ _ _ _ _ _ H) as (l & _ & _ & He). by apply He.
Qed.

(** What an operation returns is what its contract promises: an answer of a status
    the contract lists, whose body conforms to the schema listed for it. *)
Theorem operation_result_conforms (op : ContractOperation) (input : jsval) (options : CallOptions)
    (w w' : W) (a : ApiResponse) :
  client_operation br origin op input options w = (Ok a, w') →
  ∃ schema, prop_get (co_responses op) (string_of_Z (rp_status a)) = Some schema ∧
    match schema with
    | Some s => conforms contract_models (valid_URL br) Response s (rp_body a)
    | None => rp_body a = VUndef
    end.
Proof. apply client_operation_conforms. Qed.

(** C7 The path of an operation is its template with each placeholder replaced by one
    segment that is decoded to the input's text: whatever identifiers it is given,
    an operation stays on its own resource. *)
Theorem operation_path_confined (name : jsstring) (op : ContractOperation) (input : jsval)
    (p : jsstring) :
  (name, op) ∈ contract_operations → wf_val (λ _, True) input →
  operation_path br op input = Some p →
  ∃ path suffix, p = path ++ suffix ∧ (suffix = [] ∨ ∃ q, suffix = 63%N :: q) ∧
    Forall2 (segment_of input) (segments (co_path op)) (segments path).
Proof.
  intros Hop. apply operation_path_segments.
  pose proof contract_templates as Ht. rewrite forallb_forall in Ht.
  exact (Ht (name, op) (proj1 (list_elem_of_In _ _) Hop)).
Qed.
End properties.

(** * A browser to run the client in *)

Module DemoBrowser.
Record world := { wd_state : SdkState; wd_log : list FetchRequest }.

#[local] Instance world_lens : Lens world SdkState.
Proof.
  refine {| lens_get := wd_state; lens_put s w := {| wd_state := s; wd_log := wd_log w |} |}; done.
Defined.

Definition url_of (origin path : jsstring) : URL := {|
  url_protocol := js "https:"; url_origin := origin; url_username := []; url_password := [];
  url_pathname := path; url_search := []; url_hash := []; url_href := origin ++ path |}.

Definition session_json : jsstring :=
  backquoted "{`authenticated`:true,`roles`:[],`expires_at`:1,`user`:{`sub`:`u`},`csrf_token`:`aaaaaaaaaabbbbbbbbbbccccccccccddddddddddeee`}".

Definition gateway_json : jsstring :=
  backquoted "{`id`:`g1`,`name`:`two`,`cluster_id`:`c`,`release_id`:``,`namespace`:`ns`}".

Definition answer (text : jsstring) : FetchResponse := {|
  fr_status := 200; fr_contentType := Some (js "application/json; charset=utf-8"); fr_etag := None;
  fr_body := Some ([text], None) |}.

Definition ascii_decoder : TextDecoder := {|
  td_state := unit; td_new := tt;
  td_decode _ bytes := if forallb (λ b, (b <? 128)%N) bytes then Some (bytes, tt) else None;
  td_flush _ := Some [] |}.

Definition browser : Browser world unit := {|
  br_location_origin := js "https://console";
  br_URL text base :=
    match base with
    | Some origin => if startsWith text (js "/") then Some (url_of origin text) else None
    | None => if startsWith text (js "https://") then Some (url_of text (js "/")) else None
    end;
  br_URLSearchParams l := joinWith (js "&") (map (λ p, p.1 ++ js "=" ++ p.2) l);
  br_with_param url k v := url_href url ++ js "?" ++ k ++ js "=" ++ v;
  br_decoder := ascii_decoder;
  br_fraction_text := λ _, js "0.5";
  br_start := λ _ w, (tt, w);
  br_follow := λ _ _ w, w;
  br_stop := λ _ _ w, w;
  br_aborted := λ _ _, false;
  br_timedOut := λ _ _, false;
  br_fetch q _ w :=
    (Ok (answer (if decide (fq_url q = js "https://console/auth/session") then session_json
                 else gateway_json)),
     {| wd_state := wd_state w; wd_log := wd_log w ++ [q] |});
  br_cancel _ w := (Ok tt, w);
  br_location _ := (js "/", []);
  br_assign _ w := (Ok tt, w)
|}.

Lemma browser_is_ok : browser_ok browser wd_log.
Proof.
  split; try done.
  - intros q ctl w r w' [= <- <-]. split_and!; [done|done|]. intros a chunks e [= <-]. done.
  - intros a w r w' [= <- <-]. done.
Qed.

Definition origin : jsstring := js "https://console".
Definition initial : world := {| wd_state := {| sk_activeRequests := 0 |}; wd_log := [] |}.

Definition rename : ContractOperation :=
  operation PATCH "/gateways/{id}" [path_param "id"] (Some (ref_to "GatewayPatchRequest"))
    [("200", Some (ref_to "Gateway"))].

Definition rename_input : jsval :=
  VObj [(js "id", VStr (js "g/1?")); (js "body", VObj [(js "name", VStr (js "two"))])].

Definition renamed : result thrown ApiResponse * world :=
  client_operation browser origin rename rename_input NoOptions initial.

(** The session, then the change, on the identifier's own segment. *)
Example rename_sends :
  map fq_url (wd_log renamed.2) =
    [js "https://console/auth/session"; js "https://console/api/hypershell/v1/gateways/g%2F1%3F"] ∧
  map fq_method (wd_log renamed.2) = [js "GET"; js "PATCH"] ∧
  match renamed.1 with Ok a => decode_gateway (rp_body a) ≠ None | Err _ => False end.
Proof. vm_compute. done. Qed.


Lemma operation_errors_witness :
  client_error (ThrowSDK (newSDKError (js "invalid_input") 0 None)).
Proof.
  refine (operation_errors browser wd_log browser_is_ok origin rename (VArr []) NoOptions initial initial _ _).
  vm_compute. reflexivity.
Defined.

Definition renamed_gateway : ApiResponse := {|
  rp_status := 200; rp_etag := None;
  rp_body := VObj [(js "id", VStr (js "g1")); (js "name", VStr (js "two")); (js "cluster_id", VStr (js "c"));
                   (js "release_id", VStr []); (js "namespace", VStr (js "ns"))] |}.

Lemma operation_result_conforms_witness :
  ∃ schema, prop_get (co_responses rename) (string_of_Z 200) = Some schema ∧
    match schema with
    | Some s => conforms contract_models (valid_URL browser) Response s (rp_body renamed_gateway)
    | None => rp_body renamed_gateway = VUndef
    end.
Proof.
  refine (operation_result_conforms browser origin rename rename_input NoOptions initial renamed.2
            renamed_gateway _).
  vm_compute. reflexivity.
Defined.

Lemma operation_path_confined_witness :
  let p := js "/api/hypershell/v1/gateways/g%2F1%3F" in
  ∃ path suffix, p = path ++ suffix ∧ (suffix = [] ∨ ∃ q, suffix = 63%N :: q) ∧
    Forall2 (segment_of rename_input) (segments (co_path rename)) (segments path).
Proof.
  refine (operation_path_confined browser (js "updateGateway") rename rename_input _ _ _ _).
  - do 29 right. left.
  - apply wf_obj; [decide_fact|]. repeat (apply Forall_cons; split); [..|constructor]; (split; [by repeat constructor|]).
    + apply wf_str. by repeat constructor.
    + apply wf_obj; [decide_fact|]. repeat (apply Forall_cons; split); [..|constructor].
      split; [by repeat constructor|]. apply wf_str. by repeat constructor.
  - vm_compute. reflexivity.
Defined.
End DemoBrowser.
