(* ===== verification/SdkSession.v ===== *)
(** The generated session clients of the two consoles
    ([console/out/browser/sessionclient/index.js] and
    [gateway-console/out/browser/sessionclient/index.js]). They are the client of
    [SdkClient] over a contract without operations, whose [apiPrefix] names the API
    of their origin: signing out is a navigation, and [request] sends any request
    below the prefix. The prefix is a parameter: the two clients differ in it only.

    Their contract lists no error codes, so their errors never have one. *)
From S2P Require Export SdkClient.

(** * Errors *)

(** [contract.errorCodes] is empty: an error's [apiCode] is [undefined]. *)
Definition without_code (e : thrown) : thrown :=
  match e with
  | ThrowSDK s => ThrowSDK {| sdk_code := sdk_code s; sdk_status := sdk_status s; sdk_apiCode := None |}
  | _ => e
  end.

Definition without_codes {W A} (m : M thrown W A) : M thrown W A := λ w,
  match m w with (Err e, w') => (Err (without_code e), w') | r => r end.

(** * What a request may ask for *)

Definition request_methods : list jsstring :=
  [js "GET"; js "HEAD"; js "POST"; js "PUT"; js "PATCH"; js "DELETE"].

Definition is_reading (method : jsstring) : bool := bool_decide (method ∈ [js "GET"; js "HEAD"]).

(** None of [/[\\\s\x00-\x1f\x7f#]/]. *)
Definition is_path_unit (c : N) : bool :=
  negb ((c =? 92) || is_white c || (c <=? 31) || (c =? 127) || (c =? 35))%N.

Definition path_text_ok (path : jsstring) : bool :=
  (N.of_nat (length path) <=? 8192)%N && startsWith path (js "/") && forallb is_path_unit path.

(** [/%(?:2f|5c|25)/i.test(s)] *)
Fixpoint encoded_separator (s : jsstring) : bool :=
  match s with
  | [] => false
  | c :: t =>
      (c =? 37)%N && (if t is d :: e :: _ then bool_decide (ascii_lower [d; e] ∈ [js "2f"; js "5c"; js "25"])
                      else false)
      || encoded_separator t
  end.

(** None of [/[\\\x00-\x1f\x7f]/]. *)
Definition is_decoded_unit (c : N) : bool := negb ((c =? 92) || (c <=? 31) || (c =? 127))%N.

Definition part_ok (part : jsstring) : bool :=
  match decodeURIComponent part with
  | Some t => negb (bool_decide (t ∈ [js "."; js ".."]))
  | None => false
  end.

(** The [try] block over the target's path and query. *)
Definition decoded_ok (url : URL) : bool :=
  negb (encoded_separator (url_pathname url)) &&
  match decodeURIComponent (url_pathname url) with
  | Some t => forallb is_decoded_unit t
  | None => false
  end &&
  forallb part_ok (segments (url_pathname url)) &&
  bool_decide (is_Some (decodeURIComponent (url_search url))).

Section session_client.
Context {W Ctl : Type} `{!Lens W SdkState} (br : Browser W Ctl) (apiPrefix origin : jsstring).

Definition below_prefix (pathname : jsstring) : bool :=
  bool_decide (pathname = apiPrefix) || startsWith pathname (apiPrefix ++ js "/").

(** The checks of the method and the path: whether the path may be asked for. *)
Definition request_target (method path : jsstring) : bool :=
  bool_decide (method ∈ request_methods) && path_text_ok path &&
  match br_URL br path (Some origin) with
  | Some url =>
      bool_decide (url_origin url = origin) && bool_decide (url_pathname url ++ url_search url = path) &&
      below_prefix (url_pathname url) && decoded_ok url
  | None => false
  end.

(** The text of the body, if there is one ([undefined] is none), or the failure
    [invalid_input]. *)
Definition request_body (method : jsstring) (body : jsval) : option (option jsstring) :=
  match body with
  | VUndef => Some None
  | _ =>
      if is_reading method || negb (bounded body) then None
      else match stringify (br_fraction_text br) body with
           | Some encoded => if too_large encoded then None else Some (Some encoded)
           | None => None
           end
  end.

Definition request_action (method path body : jsval) (ctl : Ctl) (traceparent : option jsstring) :
    M thrown W ApiResponse :=
  match method, path with
  | VStr m, VStr p =>
      if request_target m p then
        match request_body m body with
        | Some encoded =>
            session_token br origin (is_reading m) ctl traceparent ≫= λ csrf,
            request br origin m p encoded csrf ctl traceparent
        | None => fail "invalid_input"
        end
      else fail "invalid_input"
  | _, _ => fail "invalid_input"
  end.

(** [client.request(method, path, body, options)] *)
Definition client_request (method path body : jsval) (options : CallOptions) : M thrown W ApiResponse :=
  without_codes (run br options (request_action method path body)).

(** [client.logout], where there is a prefix: to the page that signs out. *)
Definition client_signout : M thrown W unit := λ w,
  match br_URL br (js "/auth/logout") (Some origin) with
  | Some url =>
      match br_assign br (url_href url) w with
      | (Ok u, w') => (Ok u, w')
      | (Err _, w') => without_codes (fail "navigation_failed") w'
      end
  | None => without_codes (fail "navigation_failed") w
  end.
End session_client.

(** * Lemmas *)

Lemma without_code_client_error e : client_error e → client_error (without_code e).
Proof.
  intros (code & status & api & -> & H). exists code, status, None. by split.
Qed.

Section requests.
Context {W Ctl : Type} `{!Lens W SdkState} (br : Browser W Ctl) (log : W → list FetchRequest)
  (Hbr : browser_ok br log) (apiPrefix origin : jsstring).

(** An address below the prefix whose path, once decoded, has no segment that
    leads out of it. *)
Definition confined (url : URL) : Prop :=
  url_origin url = origin ∧
  (url_pathname url = apiPrefix ∨ ∃ rest, url_pathname url = apiPrefix ++ 47%N :: rest) ∧
  Forall (λ part, ∃ t, decodeURIComponent part = Some t ∧ (t ∉ [js "."; js ".."]))
    (segments (url_pathname url)).

Lemma below_prefix_spec pathname : below_prefix apiPrefix pathname = true →
  pathname = apiPrefix ∨ ∃ rest, pathname = apiPrefix ++ 47%N :: rest.
Proof.
  unfold below_prefix. intros [H%bool_decide_eq_true|H]%orb_true_iff; [by left|right].
  apply startsWith_spec in H as [rest ->]. exists rest. by rewrite <- app_assoc.
Qed.

Lemma request_target_confined method path : request_target br apiPrefix origin method path = true →
  method ∈ request_methods ∧
  ∃ url, br_URL br path (Some origin) = Some url ∧ url_pathname url ++ url_search url = path ∧ confined url.
Proof.
  unfold request_target. rewrite !andb_true_iff, bool_decide_eq_true. intros [[Hm _] H].
  split; [done|]. destruct (br_URL br path (Some origin)) as [url|]; [|done].
  rewrite !andb_true_iff, !bool_decide_eq_true in H. destruct H as [[[Ho Hp] Hb%below_prefix_spec] Hd].
  exists url. split; [done|]. split; [done|]. split_and!; [done..|]. unfold decoded_ok in Hd. rewrite !andb_true_iff in Hd.
  destruct Hd as [[_ Hd] _]. apply Forall_forall. intros part Hpart%list_elem_of_In.
  rewrite forallb_forall in Hd. specialize (Hd part Hpart). unfold part_ok in Hd.
  destruct (decodeURIComponent part) as [t|]; [|done]. exists t. split; [done|].
  by apply negb_true_iff, bool_decide_eq_false in Hd.
Qed.

(** What a call of [request] sends. *)
Definition confined_requests (method path : jsval) (l : list FetchRequest) : Prop :=
  l = [] ∨ ∃ m p url, method = VStr m ∧ path = VStr p ∧ m ∈ request_methods ∧
    br_URL br p (Some origin) = Some url ∧ url_pathname url ++ url_search url = p ∧ confined url ∧
    guarded_requests br origin (is_reading m) p m l.

Lemma request_action_spec method path body ctl traceparent :
  spec log (λ r l, confined_requests method path l ∧ ∀ e, r = Err e → action_error e)
    (request_action br apiPrefix origin method path body ctl traceparent).
Proof.
  assert (Hno : spec log (λ (r : result thrown ApiResponse) l,
      confined_requests method path l ∧ ∀ e, r = Err e → action_error e) (fail "invalid_input")).
  { apply spec_pure. split; [by left|]. intros ? [= <-]. right. apply own_error. set_solver. }
  unfold request_action. destruct method as [| | | |m| |], path as [| | | |p| |]; try exact Hno.
  destruct (request_target _ _ _ _ _) eqn:Ht; [|exact Hno].
  apply request_target_confined in Ht as (Hm & url & Hu & Hp & Hc).
  destruct (request_body _ _ _) as [encoded|]; [|exact Hno].
  intros w r w' H.
  assert (Hret : ∀ a : ApiResponse, spec log silent (mret (M := M thrown W) a)) by (intros a; by apply spec_pure).
  destruct (guarded_call br log Hbr origin (is_reading m) p m encoded ctl traceparent mret Hret w r w')
    as (l & Hw & Hl & He).
  - rewrite <- H. unfold mbind, M_bind. destruct (session_token _ _ _ _ _ w) as [[csrf|e] w1]; [|done].
    by destruct (request _ _ _ _ _ _ _ _ w1) as [[a|e] w2].
  - exists l. split_and!; [done| |done]. right. by exists m, p, url.
Qed.
End requests.

(** * Properties *)


Module DemoSession.
Import DemoBrowser.
#[local] Existing Instance world_lens.

Definition prefix : jsstring := js "/api/v1".

(** A change of a user's own record: the session, then the change. *)
Definition changed : result thrown ApiResponse * world :=
  client_request browser prefix origin (VStr (js "PUT")) (VStr (js "/api/v1/users/a%20b"))
    (VObj [(js "name", VStr (js "two"))]) NoOptions initial.

Example changed_sends :
  map fq_url (wd_log changed.2) =
    [js "https://console/auth/session"; js "https://console/api/v1/users/a%20b"] ∧
  map fq_body (wd_log changed.2) = [None; Some (backquoted "{`name`:`two`}")].
Proof. vm_compute. done. Qed.

(** Paths that would leave the prefix are not asked for. *)
Example outside_refused :
  forallb (λ p, negb (request_target browser prefix origin (js "GET") (js p)))
    ["/auth/session"; "/api/v1x"; "/api/v1/%2e%2e/auth"; "/api/v1/a%2Fb"; "/api/v1/a%5cb"; "/api/v1/%";
     "/api/v1/a#b"; "//other/api/v1"] = true.
Proof. vm_compute. done. Qed.

End DemoSession.
