(* ===== verification/SdkAdapter.v ===== *)
(** The generated API client as the API adapter uses it: the twelve operations of
    [GatewayApiClient] over the client of [SdkClient], with the inputs that
    [app/adapters/api/gateway-operations.ts] builds for them and the resources it
    reads from their answers; and the session of [app/adapters/session].

    The adapter declares what it reads by types. A class says what the contract
    promises of an operation's answers: that they decode to the type; its instances
    discharge it, so that the adapter never meets a value of another shape. *)
From S2P Require Export SdkClient.
From S2P Require Import Shell.

(** * The answers of an operation *)

(** The named operation answers with a value that decodes, or, with an empty body,
    with one for [undefined]. *)
Class ResponseType (name : string) (A : Type) := {
  rt_operation : ContractOperation;
  rt_decode : jsval → option A;
  rt_named : prop_get contract_operations (js name) = Some rt_operation;
  rt_total : ∀ validURL status schema, (status, schema) ∈ co_responses rt_operation →
    match schema with
    | Some s => reads contract_models validURL Response rt_decode s
    | None => is_Some (rt_decode VUndef)
    end
}.
Arguments rt_operation name A {_}.
Arguments rt_decode name A {_}.
Arguments rt_named name A {_}.
Arguments rt_total name A {_}.

(** The answer of a deletion is not read. *)
Definition decode_nothing (v : jsval) : option unit := Some tt.

Lemma nothing_reads validURL s : reads contract_models validURL Response decode_nothing s.
Proof. intros v _. by eexists. Qed.

Ltac response_type op decode lem :=
  refine {| rt_operation := op; rt_decode := decode |};
  [ vm_compute; reflexivity
  | intros validURL status schema Hin;
    repeat (apply elem_of_cons in Hin as [[= -> ->]|Hin];
      [first [done | eapply reads_ref; [vm_compute; reflexivity|vm_compute; reflexivity|apply lem]]|]);
    by apply not_elem_of_nil in Hin ].

Ltac named_operation name tac :=
  let r := eval vm_compute in (prop_get contract_operations (js name)) in
  match r with Some ?op => tac op end.

#[export] Instance createGateway_type : ResponseType "createGateway" ApiGateway.
Proof. named_operation "createGateway" ltac:(fun op => response_type op decode_gateway gateway_reads). Defined.

#[export] Instance getGateway_type : ResponseType "getGateway" ApiGateway.
Proof. named_operation "getGateway" ltac:(fun op => response_type op decode_gateway gateway_reads). Defined.

#[export] Instance updateGateway_type : ResponseType "updateGateway" ApiGateway.
Proof. named_operation "updateGateway" ltac:(fun op => response_type op decode_gateway gateway_reads). Defined.

#[export] Instance listGateways_type : ResponseType "listGateways" (ApiList ApiGateway).
Proof.
  named_operation "listGateways"
    ltac:(fun op => response_type op (decode_list decode_gateway) gateway_list_reads).
Defined.

#[export] Instance deleteGateway_type : ResponseType "deleteGateway" unit.
Proof. named_operation "deleteGateway" ltac:(fun op => response_type op decode_nothing nothing_reads). Defined.

#[export] Instance getManagedCluster_type : ResponseType "getManagedCluster" ManagedCluster.
Proof. named_operation "getManagedCluster" ltac:(fun op => response_type op decode_cluster cluster_reads). Defined.

#[export] Instance listManagedClusters_type : ResponseType "listManagedClusters" (ApiList ManagedCluster).
Proof.
  named_operation "listManagedClusters"
    ltac:(fun op => response_type op (decode_list decode_cluster) cluster_list_reads).
Defined.

#[export] Instance createGatewayServiceAccount_type :
  ResponseType "createGatewayServiceAccount" (ApiServiceAccount * ApiCredential).
Proof.
  named_operation "createGatewayServiceAccount"
    ltac:(fun op => response_type op decode_created created_reads).
Defined.

#[export] Instance getGatewayServiceAccount_type :
  ResponseType "getGatewayServiceAccount" (ApiServiceAccount * ApiConnection).
Proof.
  named_operation "getGatewayServiceAccount"
    ltac:(fun op => response_type op decode_detail detail_reads).
Defined.

#[export] Instance listGatewayServiceAccounts_type :
  ResponseType "listGatewayServiceAccounts" ApiServiceAccountList.
Proof.
  named_operation "listGatewayServiceAccounts"
    ltac:(fun op => response_type op decode_account_list account_list_reads).
Defined.

Lemma account_item_reads validURL :
  reads contract_models validURL Response decode_account OpenShellGatewayServiceAccountListItem_model.
Proof. apply account_reads. by left. Qed.

#[export] Instance revokeGatewayServiceAccount_type :
  ResponseType "revokeGatewayServiceAccount" ApiServiceAccount.
Proof.
  named_operation "revokeGatewayServiceAccount"
    ltac:(fun op => response_type op decode_account account_item_reads).
Defined.

#[export] Instance deleteGatewayServiceAccount_type : ResponseType "deleteGatewayServiceAccount" unit.
Proof.
  named_operation "deleteGatewayServiceAccount"
    ltac:(fun op => response_type op decode_nothing nothing_reads).
Defined.

(** * The inputs of the adapter's calls *)

(** [...(v === undefined ? {} : { key: v })] *)
Definition given (key : string) (v : option jsval) : list (jsstring * jsval) :=
  match v with Some x => [(js key, x)] | None => [] end.

Definition text_of (key : string) (s : jsstring) : jsstring * jsval := (js key, VStr s).

Definition list_input (q : ListQuery) : jsval :=
  VObj ([text_of "orderBy" (lq_orderBy q); (js "page", VNum (lq_page q))] ++
        given "search" (VStr <$> lq_search q) ++ [(js "size", VNum (lq_size q))]).

Definition id_input (id : jsstring) : jsval := VObj [text_of "id" id].

Definition account_input (gatewayId serviceAccountId : jsstring) : jsval :=
  VObj [text_of "gateway_id" gatewayId; text_of "service_account_id" serviceAccountId].

Definition account_list_input (gatewayId : jsstring) (r : ServiceAccountListRequest) : jsval :=
  VObj ([text_of "gateway_id" gatewayId; text_of "order" (sortDirection_str (sl_order r));
         (js "page", VNum (sl_page r)); text_of "search" (sl_search r); (js "size", VNum (sl_size r));
         text_of "sort" (saSortField_str (sl_sort r))] ++
        given "status" ((λ s, VStr (status_str s)) <$> sl_status r)).

Definition account_body (b : ServiceAccountBody) : jsval :=
  VObj (given "description" (VStr <$> sb_description b) ++
        [text_of "expires_at" (sb_expires_at b); text_of "name" (sb_name b);
         text_of "role" (role_str (sb_role b))]).

Definition gateway_body (b : GatewayBody) : jsval :=
  VObj [text_of "cluster_id" (gb_cluster_id b); text_of "name" (gb_name b);
        text_of "release_id" (gb_release_id b); text_of "route" (gb_route b)].

(** * The client of the adapter *)

Section client.
Context {W Ctl : Type} `{!Lens W SdkState} (br : Browser W Ctl).

(** One call of the client: the operation, and the value of its answer read as its
    type. A value that is not of the type would be a fault of the adapter's. *)
Definition call_operation (origin : jsstring) (name : string) {A} `{!ResponseType name A}
    (input : jsval) (o : RequestOptions) : M thrown W A :=
  client_operation br origin (rt_operation name A) input (adapter_options o) ≫= λ response,
  match rt_decode name A (rp_body response) with
  | Some a => mret a
  | None => throw (ThrowError (js "TypeError"))
  end.

Definition sdk_client (origin : jsstring) : GatewayApiClient W := {|
  api_createGateway b o :=
    call_operation origin "createGateway" (VObj [(js "body", gateway_body b)]) o;
  api_deleteGateway id o := call_operation origin "deleteGateway" (id_input id) o;
  api_getGateway id o := call_operation origin "getGateway" (id_input id) o;
  api_listGateways q o := call_operation origin "listGateways" (list_input q) o;
  api_renameGateway id name o :=
    call_operation origin "updateGateway"
      (VObj [text_of "id" id; (js "body", VObj [text_of "name" name])]) o;
  api_getManagedCluster id o := call_operation origin "getManagedCluster" (id_input id) o;
  api_listManagedClusters q o := call_operation origin "listManagedClusters" (list_input q) o;
  api_createServiceAccount gatewayId b o :=
    call_operation origin "createGatewayServiceAccount"
      (VObj [text_of "gateway_id" gatewayId; (js "body", account_body b)]) o;
  api_deleteServiceAccount gatewayId accountId o :=
    call_operation origin "deleteGatewayServiceAccount" (account_input gatewayId accountId) o;
  api_getServiceAccount gatewayId accountId o :=
    call_operation origin "getGatewayServiceAccount" (account_input gatewayId accountId) o;
  api_listServiceAccounts gatewayId r o :=
    call_operation origin "listGatewayServiceAccounts" (account_list_input gatewayId r) o;
  api_revokeServiceAccount gatewayId accountId o :=
    call_operation origin "revokeGatewayServiceAccount" (account_input gatewayId accountId) o
|}.

(** [createApiClient()]: a client, or the failure [invalid_origin]. *)
Definition createApiClient : M thrown W (GatewayApiClient W) :=
  match client_origin br with
  | Some origin => mret (sdk_client origin)
  | None => fail "invalid_origin"
  end.
End client.

(** * Lemmas: how a computation fails *)

Section fails.
Context {W : Type} (P : thrown → Prop).

Definition fails_only {A} (m : M thrown W A) : Prop := ∀ w e w', m w = (Err e, w') → P e.

Lemma fails_ret {A} (a : A) : fails_only (mret a).
Proof. by intros w e w' [=]. Qed.

Lemma fails_throw {A} e : P e → fails_only (throw (A := A) e).
Proof. by intros H w e' w' [= <- _]. Qed.

Lemma fails_bind {A B} (m : M thrown W A) (f : A → M thrown W B) :
  fails_only m → (∀ a, fails_only (f a)) → fails_only (m ≫= f).
Proof.
  intros Hm Hf w e w' H. unfold mbind, M_bind in H. destruct (m w) as [[a|e1] w1] eqn:E.
  - by eapply Hf.
  - injection H as -> _. by eapply Hm.
Qed.

Lemma fails_lift {A} (r : result thrown A) : (∀ e, r = Err e → P e) → fails_only (lift_result r).
Proof. intros H w e w' [= -> _]. by apply H. Qed.

(** Every operation of an API client fails only so. *)
Record api_fails_only (c : GatewayApiClient W) : Prop := {
  af_createGateway b o : fails_only (api_createGateway c b o);
  af_deleteGateway id o : fails_only (api_deleteGateway c id o);
  af_getGateway id o : fails_only (api_getGateway c id o);
  af_listGateways q o : fails_only (api_listGateways c q o);
  af_renameGateway id n o : fails_only (api_renameGateway c id n o);
  af_getManagedCluster id o : fails_only (api_getManagedCluster c id o);
  af_listManagedClusters q o : fails_only (api_listManagedClusters c q o);
  af_createServiceAccount g b o : fails_only (api_createServiceAccount c g b o);
  af_deleteServiceAccount g a o : fails_only (api_deleteServiceAccount c g a o);
  af_getServiceAccount g a o : fails_only (api_getServiceAccount c g a o);
  af_listServiceAccounts g r o : fails_only (api_listServiceAccounts c g r o);
  af_revokeServiceAccount g a o : fails_only (api_revokeServiceAccount c g a o)
}.
End fails.

(** Over a client that fails only so, an adapter's call fails only so or as
    unavailable. *)
Section adapter.
Context {W : Type} (P : thrown → Prop) (J : jsstring → option jsval)
  (factory : jsstring → M thrown W (GatewayApiClient W))
  (tp : option (jsstring → M thrown W (option jsstring))).
Context (HP : P unavailable) (Hfactory : ∀ c, fails_only P (factory c))
  (Hclient : ∀ c w client w', factory c w = (Ok client, w') → api_fails_only P client)
  (Htp : ∀ f c, tp = Some f → fails_only P (f c)).

Lemma fails_call {T} ctx (k : GatewayApiClient W → RequestOptions → M thrown W T) :
  (∀ client o, api_fails_only P client → fails_only P (k client o)) →
  fails_only P (call_api factory tp ctx k).
Proof.
  intros Hk w e w' H. unfold call_api, mbind, M_bind in H.
  destruct (factory _ w) as [[client|e1] w1] eqn:Hf.
  - destruct (requestOptions tp ctx w1) as [[o|e2] w2] eqn:Ho.
    + eapply Hk; [by eapply Hclient|exact H].
    + injection H as <- _. unfold requestOptions, mbind, M_bind in Ho.
      destruct tp as [f|]; [|done]. destruct (f _ w1) as [[t|e3] w3] eqn:Ht; [done|].
      injection Ho as <- _. by eapply Htp.
  - injection H as <- _. by eapply Hfactory.
Qed.

Lemma adapter_fails {T} (call : GatewayCall T) ctx : fails_only P (adapter_task J factory tp call ctx).
Proof.
  assert (Hpage : ∀ A (l : ApiList A) e, requirePage l = Err e → P e)
    by (intros A l e ->%requirePage_Err; done).
  assert (Hrec : ∀ g e, toGatewayRecord J g = Err e → P e) by (intros g e ->%toGatewayRecord_Err; done).
  assert (Hpl : ∀ c e, toGatewayPlacement c = Err e → P e) by (intros c e ->%toGatewayPlacement_Err; done).
  assert (Hrecs : ∀ l e, map_result (toGatewayRecord J) l = Err e → P e).
  { intros l e (g & _ & Hg)%map_result_Err. by eapply Hrec. }
  assert (Hpls : ∀ l e, map_result toGatewayPlacement l = Err e → P e).
  { intros l e (g & _ & Hg)%map_result_Err. by eapply Hpl. }
  destruct call; cbn [adapter_task];
    repeat first
      [ progress unfold createServiceAccount_task, deleteServiceAccount_task, findGatewayPlacements_task,
          getGatewayPlacement_task, getGatewayPlacements_task, getGateway_task, getServiceAccount_task,
          listGateways_task, listServiceAccounts_task, provisionGateway_task, removeGateway_task,
          renameGateway_task, revokeServiceAccount_task
      | apply fails_call; intros client o []; eauto
      | apply fails_bind; [|intros]
      | apply fails_ret | apply fails_throw; exact HP | apply fails_lift; eauto
      | case_match ].
Qed.
End adapter.

Lemma api_fails_weaken {W} (P Q : thrown → Prop) (c : GatewayApiClient W) :
  (∀ e, P e → Q e) → api_fails_only P c → api_fails_only Q c.
Proof.
  intros HPQ Hc. assert (Hw : ∀ A (m : M thrown W A), fails_only P m → fails_only Q m).
  { intros A m Hm w e w' H. apply HPQ. by eapply Hm. }
  destruct Hc. split; auto.
Qed.

(** * Lemmas: the client fails with its own errors *)

Section typed.
Context {W Ctl : Type} `{!Lens W SdkState} (br : Browser W Ctl) (log : W → list FetchRequest)
  (Hbr : browser_ok br log).

Lemma call_operation_fails origin name {A} `{!ResponseType name A} input o :
  fails_only client_error (call_operation br origin name (A := A) input o).
Proof.
  intros w e w' H. unfold call_operation, mbind, M_bind in H.
  destruct (client_operation _ _ _ _ _ w) as [[a|e1] w1] eqn:Hc.
  - apply client_operation_conforms in Hc as (schema & Hs%prop_get_elem & Hbody).
    pose proof (rt_total name A (valid_URL br) _ _ Hs) as Ht.
    assert (is_Some (rt_decode name A (rp_body a))) as [x Hx].
    { destruct schema; [by apply Ht|by rewrite Hbody]. }
    by rewrite Hx in H.
  - injection H as <- _. destruct (client_operation_spec br log Hbr _ _ _ _ _ _ _ Hc) as (l & _ & _ & He).
    by apply He.
Qed.

Lemma sdk_client_fails origin : api_fails_only client_error (sdk_client br origin).
Proof. split; intros; apply call_operation_fails. Qed.

(** How a control-plane call over this client may fail. *)
Definition call_error (e : thrown) : Prop := e = unavailable ∨ client_error e.

Lemma createApiClient_fails : fails_only call_error (createApiClient br).
Proof.
  unfold createApiClient. destruct (client_origin br); [apply fails_ret|].
  apply fails_throw. right. exists "invalid_origin"%string, 0%Z, None. split; [done|]. left. split; [done|].
  set_solver.
Qed.

Lemma createApiClient_client w client w' : createApiClient br w = (Ok client, w') →
  api_fails_only call_error client.
Proof.
  unfold createApiClient. destruct (client_origin br) as [o|]; [|done]. intros [= <- _].
  eapply api_fails_weaken; [|apply sdk_client_fails]. intros e. by right.
Qed.

End typed.

(** * What a call asks for *)

(** The operation of the contract a call of the control plane uses, and the input it
    gives it. *)
Definition call_name {T} (call : GatewayCall T) : string :=
  match call with
  | CallCreateServiceAccount _ _ => "createGatewayServiceAccount"
  | CallDeleteServiceAccount _ _ => "deleteGatewayServiceAccount"
  | CallFindGatewayPlacements _ | CallGetGatewayPlacements _ => "listManagedClusters"
  | CallGetGatewayPlacement _ => "getManagedCluster"
  | CallGetGateway _ => "getGateway"
  | CallGetServiceAccount _ _ => "getGatewayServiceAccount"
  | CallListGateways _ => "listGateways"
  | CallListServiceAccounts _ _ => "listGatewayServiceAccounts"
  | CallProvisionGateway _ => "createGateway"
  | CallRemoveGateway _ => "deleteGateway"
  | CallRenameGateway _ _ => "updateGateway"
  | CallRevokeServiceAccount _ _ => "revokeGatewayServiceAccount"
  end.

Definition call_input {T} (call : GatewayCall T) : jsval :=
  match call with
  | CallCreateServiceAccount g i =>
      VObj [text_of "gateway_id" g;
            (js "body", account_body {| sb_description := si_description i; sb_expires_at := si_expiresAt i;
                                        sb_name := si_name i; sb_role := si_role i |})]
  | CallDeleteServiceAccount g a | CallGetServiceAccount g a | CallRevokeServiceAccount g a => account_input g a
  | CallFindGatewayPlacements s =>
      list_input {| lq_orderBy := js "name asc"; lq_page := NInt 1; lq_search := placementSearch (trim s);
                    lq_size := placementPageSize |}
  | CallGetGatewayPlacements cs => list_input (placements_query (normalizeGatewayPlacementClusterIds cs))
  | CallGetGatewayPlacement c => id_input c
  | CallGetGateway g | CallRemoveGateway g => id_input g
  | CallListGateways r => list_input (gateway_query r)
  | CallListServiceAccounts g r => account_list_input g r
  | CallProvisionGateway i =>
      VObj [(js "body", gateway_body {| gb_cluster_id := pi_clusterId i; gb_name := pi_name i;
                                        gb_release_id := []; gb_route := enabled_route |})]
  | CallRenameGateway g n => VObj [text_of "id" g; (js "body", VObj [text_of "name" n])]
  end.

(** Nothing, or what the operation of that name sends for the input. *)
Definition named_requests {W Ctl} (br : Browser W Ctl) (name : string) (input : jsval) (l : list FetchRequest) : Prop :=
  l = [] ∨ ∃ origin op, client_origin br = Some origin ∧ prop_get contract_operations (js name) = Some op ∧
    operation_requests br origin op input l.

(** What a call sends, [Q], follows from what its operation sends with the options its
    requests are given. *)
Section requests.
Context {W Ctl : Type} `{!Lens W SdkState} (br : Browser W Ctl) (log : W → list FetchRequest)
  (tp : option (jsstring → M thrown W (option jsstring))) (ctx : GatewayInvocationContext)
  (Q : string → jsval → list FetchRequest → Prop) (options : RequestOptions → Prop)
  (Hnone : ∀ name input, Q name input [])
  (Htp : spec log (λ r l, l = [] ∧ ∀ o, r = Ok o → options o) (requestOptions tp ctx))
  (Hop : ∀ origin name A (RT : ResponseType name A) input o, client_origin br = Some origin → options o →
     spec log (λ _ l, Q name input l) (call_operation br origin name (A := A) input o)).

Lemma call_api_sends {T} name input (k : GatewayApiClient W → RequestOptions → M thrown W T) :
  (∀ origin o, client_origin br = Some origin → options o →
     spec log (λ _ l, Q name input l) (k (sdk_client br origin) o)) →
  spec log (λ _ l, Q name input l) (call_api (λ _, createApiClient br) tp ctx k).
Proof.
  intros Hk w r w' H. unfold call_api, createApiClient in H.
  destruct (client_origin br) as [origin|] eqn:Ho; [|injection H as <- <-; exists []; by rewrite app_nil_r].
  assert (Hrest : spec log (λ _ l, Q name input l)
            (requestOptions tp ctx ≫= λ o, k (sdk_client br origin) o)); [|exact (Hrest w r w' H)].
  eapply spec_bind; [exact Htp|by intros e l [-> _]|]. intros o l [-> Ho']. apply Hk; auto.
Qed.

Ltac quiet_rest :=
  repeat first [ apply quiet_ret | apply quiet_throw | apply quiet_lift
               | apply (quiet_sends log); [|done|intros ?] | case_match ].

Lemma adapter_task_sends {T} J (call : GatewayCall T) :
  spec log (λ _ l, Q (call_name call) (call_input call) l)
    (adapter_task J (λ _, createApiClient br) tp call ctx).
Proof.
  destruct call; cbn [adapter_task call_name call_input];
    unfold createServiceAccount_task, deleteServiceAccount_task, findGatewayPlacements_task,
      getGatewayPlacement_task, getGatewayPlacements_task, getGateway_task, getServiceAccount_task,
      listGateways_task, listServiceAccounts_task, provisionGateway_task, removeGateway_task,
      renameGateway_task, revokeServiceAccount_task;
    try (case_decide; [eapply spec_weaken; [apply (quiet_ret log)|by intros r l ->]|]);
    first [ apply call_api_sends; intros origin o Ho Ho'; by apply Hop
          | eapply sends_quiet;
              [apply call_api_sends; intros origin o Ho Ho'; by apply Hop|done|intros ?; quiet_rest] ].
Qed.
End requests.

Section named.
Context {W Ctl : Type} `{!Lens W SdkState} (br : Browser W Ctl) (log : W → list FetchRequest)
  (Hbr : browser_ok br log).

Lemma call_operation_sends origin name {A} `{!ResponseType name A} input o :
  client_origin br = Some origin →
  spec log (λ _ l, named_requests br name input l) (call_operation br origin name (A := A) input o).
Proof.
  intros Ho. unfold call_operation.
  eapply sends_quiet; [by apply client_operation_spec| |].
  - intros r l [Hl _]. right. exists origin, (rt_operation name A). split_and!; [done|apply rt_named|exact Hl].
  - intros a. destruct (rt_decode _ _ _); [apply quiet_ret|apply quiet_throw].
Qed.

Lemma adapter_sends {T} tp (Htp : ∀ f c, tp = Some f → spec log quiet (f c)) J (call : GatewayCall T) ctx :
  spec log (λ _ l, named_requests br (call_name call) (call_input call) l)
    (adapter_task J (λ _, createApiClient br) tp call ctx).
Proof.
  apply (adapter_task_sends br log tp ctx (named_requests br) (λ _, True)); [by left| |].
  - unfold requestOptions. eapply (quiet_sends log); [|done|intros t; by apply spec_pure].
    destruct tp as [f|]; [by apply Htp|apply quiet_ret].
  - intros. by apply call_operation_sends.
Qed.

(** What the operation of a call sends, each request with the given [traceparent]. *)
Lemma call_operation_carries origin name {A} `{!ResponseType name A} input o :
  spec log (λ _ l, Forall (carries (ro_traceparent o)) l) (call_operation br origin name (A := A) input o).
Proof.
  unfold call_operation. apply each_bind; [by apply client_operation_carries|].
  intros a. apply each_quiet. destruct (rt_decode _ _ _); [apply quiet_ret|apply quiet_throw].
Qed.

Lemma adapter_carries {T} t J (call : GatewayCall T) ctx :
  spec log (λ _ l, named_requests br (call_name call) (call_input call) l ∧ Forall (carries t) l)
    (adapter_task J (λ _, createApiClient br) (Some (λ _, mret t)) call ctx).
Proof.
  apply (adapter_task_sends br log _ ctx (λ n i l, named_requests br n i l ∧ Forall (carries t) l)
           (λ o, ro_traceparent o = t)); [by split; [left|]| |].
  - intros w r w' [= <- <-]. exists []. rewrite app_nil_r. split_and!; [done..|]. by intros o [= <-].
  - intros origin name A RT input o Ho <-. apply spec_and; [by apply call_operation_sends|apply call_operation_carries].
Qed.

(** A request of a call that changes something carries the body of its input. *)
Lemma call_operation_bodies origin name {A} `{!ResponseType name A} input o :
  spec log (λ _ l, Forall (has_body br input) l) (call_operation br origin name (A := A) input o).
Proof.
  unfold call_operation. apply each_bind; [by apply client_operation_bodies|].
  intros a. apply each_quiet. destruct (rt_decode _ _ _); [apply quiet_ret|apply quiet_throw].
Qed.

Lemma adapter_bodies {T} tp (Htp : ∀ f c, tp = Some f → spec log quiet (f c)) J (call : GatewayCall T) ctx :
  spec log (λ _ l, named_requests br (call_name call) (call_input call) l ∧ Forall (has_body br (call_input call)) l)
    (adapter_task J (λ _, createApiClient br) tp call ctx).
Proof.
  apply (adapter_task_sends br log tp ctx (λ n i l, named_requests br n i l ∧ Forall (has_body br i) l) (λ _, True));
    [by split; [left|]| |].
  - unfold requestOptions. eapply (quiet_sends log); [|done|intros t; by apply spec_pure].
    destruct tp as [f|]; [by apply Htp|apply quiet_ret].
  - intros origin name A RT input o Ho _. apply spec_and; [by apply call_operation_sends|apply call_operation_bodies].
Qed.
End named.

(** * What a call that succeeds has done *)

(** A task's result passes the failure mapping, and is never made by it. *)
Lemma mapSDKFailure_Ok {W T} (reauth : option (M thrown W unit)) (task : M thrown W T) w a w' :
  mapSDKFailure reauth task w = (Ok a, w') → task w = (Ok a, w').
Proof.
  unfold mapSDKFailure, try_catch. destruct (task w) as [[x|e] w1]; [done|].
  destruct e; try done. case_decide; by intros (? & ? & _ & [=])%bind_Ok.
Qed.

(** The calls that change something. *)
Definition call_changes {T} (call : GatewayCall T) : bool :=
  match call with
  | CallCreateServiceAccount _ _ | CallDeleteServiceAccount _ _ | CallProvisionGateway _
  | CallRemoveGateway _ | CallRenameGateway _ _ | CallRevokeServiceAccount _ _ => true
  | _ => false
  end.

Section succeeds.
Context {W Ctl : Type} `{!Lens W SdkState} (br : Browser W Ctl) (J : jsstring → option jsval)
  (tp : jsstring → M thrown W (option jsstring)) (Htp : ∀ c w, (tp c w).2 = w).

Lemma call_api_Ok {T} ctx (k : GatewayApiClient W → RequestOptions → M thrown W T) w x w' :
  call_api (λ _, createApiClient br) (Some tp) ctx k w = (Ok x, w') →
  ∃ origin o, client_origin br = Some origin ∧ k (sdk_client br origin) o w = (Ok x, w').
Proof using Htp.
  intros H. apply bind_Ok in H as (client & w1 & Hc & H). unfold createApiClient in Hc.
  destruct (client_origin br) as [origin|]; [|done]. injection Hc as <- <-.
  apply bind_Ok in H as (o & w2 & Ho & H). apply bind_Ok in Ho as (t & w3 & Ht & [= _ <-]).
  specialize (Htp (ctx_correlationId ctx) w). rewrite Ht in Htp. cbn in Htp. subst w3. by exists origin, o.
Qed.

Lemma call_operation_Ok origin name {A} `{!ResponseType name A} input o w x w' :
  call_operation br origin name (A := A) input o w = (Ok x, w') →
  ∃ a, client_operation br origin (rt_operation name A) input (adapter_options o) w = (Ok a, w') ∧
       rt_decode name A (rp_body a) = Some x.
Proof using.
  intros H. apply bind_Ok in H as (a & w1 & Hc & H). destruct (rt_decode _ _ _) as [y|] eqn:Hy; [|done].
  injection H as <- <-. by exists a.
Qed.

Lemma bind_Ok_pure {A B} (m : M thrown W A) (k : A → M thrown W B) w x w' :
  (∀ a w1, (k a w1).2 = w1) → (m ≫= k) w = (Ok x, w') → ∃ a, m w = (Ok a, w').
Proof using.
  intros Hk (a & w1 & Hm & H)%bind_Ok. specialize (Hk a w1). rewrite H in Hk. cbn in Hk. subst w'. by exists a.
Qed.

(** The operation of a call, where it has succeeded. *)
Definition operation_done (name : string) (input : jsval) (w w' : W) : Prop :=
  ∃ origin op o a, client_origin br = Some origin ∧ prop_get contract_operations (js name) = Some op ∧
    client_operation br origin op input (adapter_options o) w = (Ok a, w').

Lemma call_api_done name {A} {RT : ResponseType name A} input (k : GatewayApiClient W → RequestOptions → M thrown W A)
    ctx w (y : A) w' :
  (∀ origin o, k (sdk_client br origin) o = call_operation br origin name input o) →
  call_api (λ _, createApiClient br) (Some tp) ctx k w = (Ok y, w') → operation_done name input w w'.
Proof using Htp.
  intros Hk (origin & o & Ho & H)%call_api_Ok. rewrite Hk in H. apply call_operation_Ok in H as (a & H & _).
  exists origin, (rt_operation name A), o, a. split_and!; [done|apply rt_named|done].
Qed.

Lemma adapter_task_Ok {T} (call : GatewayCall T) ctx w x w' :
  call_changes call = true → adapter_task J (λ _, createApiClient br) (Some tp) call ctx w = (Ok x, w') →
  operation_done (call_name call) (call_input call) w w'.
Proof using Htp.
  destruct call; intros Hc H; try done; cbn [adapter_task call_name call_input] in *;
    try (apply bind_Ok_pure in H as [y H]; [|done]); by eapply call_api_done; [|exact H].
Qed.
End succeeds.

(** * What a call ends with and sends *)

Section calls.
Context {W Ctl : Type} `{!Lens W SdkState} (br : Browser W Ctl) (log : W → list FetchRequest)
  (Hbr : browser_ok br log) (J : jsstring → option jsval) (onReauth : M thrown W unit).

(** The errors of the application: one whose cause is an error of the client, of the
    kind its status is mapped to, or one without a cause that says unavailable. *)
Definition application_error (e : thrown) : Prop :=
  ∃ g, e = ThrowGateway g ∧ ge_operationId g = None ∧
    ((ge_cause g = None ∧ ge_kind g = KUnavailable) ∨
     ∃ s, ge_cause g = Some s ∧ client_error (ThrowSDK s) ∧
          ge_kind g = gatewayFailureKind (sdk_status s)).

Abbreviation control_plane tp :=
  (createGatewayControlPlaneAdapter J (λ _, createApiClient br) (Some onReauth) (Some tp)).

(** Without an address for the client, nothing else goes wrong. *)
Lemma adapter_without_origin {T} tp (call : GatewayCall T) ctx (w w' : W) e :
  (∀ c w1, is_ok (tp c w1).1 = true) → client_origin br = None →
  adapter_task J (λ _, createApiClient br) (Some tp) call ctx w = (Err e, w') →
  e = unavailable ∨ e = ThrowSDK (newSDKError (js "invalid_origin") 0 None).
Proof using.
  clear Hbr. intros Htp Ho H.
  eapply (adapter_fails (λ e, e = unavailable ∨ e = ThrowSDK (newSDKError (js "invalid_origin") 0 None))
            J (λ _, createApiClient br) (Some tp)); [by left| | | |exact H]; unfold createApiClient; rewrite ?Ho.
  - intros _. apply fails_throw. by right.
  - done.
  - intros f c [= <-] w2 e2 w3 Hf. specialize (Htp c w2). by rewrite Hf in Htp.
Qed.

(** Otherwise signing in has failed. *)
Lemma control_plane_error {T} tp (call : GatewayCall T) ctx (w w' : W) e :
  (∀ c w1, is_ok (tp c w1).1 = true) → run_controlPlane (control_plane tp) call ctx w = (Err e, w') →
  application_error e ∨ (is_Some (client_origin br) ∧ ∃ w1 w2, onReauth w1 = (Err e, w2)).
Proof using Hbr.
  intros Htp H. rewrite adapter_wraps in H. unfold mapSDKFailure, try_catch in H.
  destruct (adapter_task J _ _ call ctx w) as [[x|e1] w1] eqn:Ht; [done|].
  assert (call_error e1) as Hce.
  { eapply (adapter_fails call_error J (λ _, createApiClient br) (Some tp));
      [by left|intros; apply (createApiClient_fails br log Hbr)|intros; by eapply (createApiClient_client br log Hbr)| |exact Ht].
    intros f c [= <-] w2 e2 w3 Hf. specialize (Htp c w2). by rewrite Hf in Htp. }
  destruct Hce as [->|Hce].
  - injection H as <- _. left. eexists. split_and!; [done|done|by left].
  - destruct Hce as (code & st & api & -> & Hc).
    assert (e = mapped_error (newSDKError (js code) st api) ∨
            (is_Some (client_origin br) ∧ ∃ w1 w2, onReauth w1 = (Err e, w2))) as [->|Hre]; [|left|by right].
    { unfold mbind, M_bind in H. destruct (decide _) as [Hcode|]; [|left; by injection H].
      destruct (onReauth w1) as [[[]|e2] w2] eqn:Hr; injection H as <- _; [by left|right]. split; [|eauto].
      destruct (client_origin br) as [origin|] eqn:Ho; [by eexists|]. exfalso.
      destruct (adapter_without_origin tp call ctx w w1 _ Htp Ho Ht) as [|He]; [done|].
      injection He as Hi _ _. cbn in Hcode. rewrite Hi in Hcode. by vm_compute in Hcode. }
    eexists. split_and!; [done|done|right]. eexists. split_and!; [done| |done]. by exists code, st, api.
Qed.

(** What the task sends is what the call sends. *)
Lemma control_plane_log {T} tp (call : GatewayCall T) ctx (w w' : W) r (Q : list FetchRequest → Prop) :
  spec log quiet onReauth →
  (∀ r1 w1, adapter_task J (λ _, createApiClient br) (Some tp) call ctx w = (r1, w1) →
     ∃ l, log w1 = log w ++ l ∧ Q l) →
  run_controlPlane (control_plane tp) call ctx w = (r, w') → ∃ l, log w' = log w ++ l ∧ Q l.
Proof using.
  clear Hbr. intros Hre Ht H. rewrite adapter_wraps in H. unfold mapSDKFailure, try_catch in H.
  destruct (adapter_task J _ _ call ctx w) as [r1 w1] eqn:Htask. destruct (Ht r1 w1 eq_refl) as (l & Hl & Hq).
  exists l. split; [|done]. destruct r1 as [x|[e| | | |]]; try (by injection H as _ <-).
  assert (Hquiet : ∀ m : M thrown W unit, spec log quiet m →
    (m ≫= λ _, throw (mapped_error e)) w1 = (r, w') → log w' = log w ++ l).
  { intros m Hm Hb. apply (quiet_sends log quiet) in Hb as (l' & Hl' & ->); [|exact Hm|done|].
    - by rewrite Hl', app_nil_r.
    - intros _. apply quiet_throw. }
  case_decide; (eapply Hquiet; [|exact H]); [exact Hre|apply quiet_ret].
Qed.

(** A header that is only read is the same as one that is given: it is read where the
    request is made, before anything else. *)
Lemma adapter_task_reads {T} tp (call : GatewayCall T) ctx (w : W) t :
  tp (ctx_correlationId ctx) w = (Ok t, w) →
  adapter_task J (λ _, createApiClient br) (Some tp) call ctx w =
  adapter_task J (λ _, createApiClient br) (Some (λ _, mret t)) call ctx w.
Proof using.
  clear Hbr. intros Htp.
  assert (Hcall : ∀ B (k : GatewayApiClient W → RequestOptions → M thrown W B),
    call_api (λ _, createApiClient br) (Some tp) ctx k w =
    call_api (λ _, createApiClient br) (Some (λ _, mret t)) ctx k w).
  { intros B k. unfold call_api, createApiClient. destruct (client_origin br) as [origin|]; [|done].
    unfold requestOptions, mbind, M_bind, mret, M_ret. cbv beta iota. by rewrite Htp. }
  assert (Hbind : ∀ A B (m m' : M thrown W A) (k : A → M thrown W B), m w = m' w → (m ≫= k) w = (m' ≫= k) w)
    by (intros A B m m' k Hm; unfold mbind, M_bind; by rewrite Hm).
  destruct call; cbn [adapter_task];
    unfold createServiceAccount_task, deleteServiceAccount_task, findGatewayPlacements_task,
      getGatewayPlacement_task, getGatewayPlacements_task, getGateway_task, getServiceAccount_task,
      listGateways_task, listServiceAccounts_task, provisionGateway_task, removeGateway_task,
      renameGateway_task, revokeServiceAccount_task;
    try (case_decide; [done|]); first [apply Hcall|apply Hbind, Hcall].
Qed.
End calls.

(** * The session of the shell *)

Definition opt_text (v : jsval) (k : string) : option jsstring := read_text (prop v k).

(** The resource the session adapter reads, from what [client.session] returns. *)
Definition decode_session (v : jsval) : option SessionValue :=
  authenticated ← read_bool (prop v "authenticated");
  roles ← read_array read_text (prop v "roles");
  Some {| sv_authenticated := authenticated;
          sv_expires_at := read_num (prop v "expires_at");
          sv_roles := roles;
          sv_user := if truthy (prop v "user")
                     then let u := prop v "user" in
                          Some {| su_email := opt_text u "email"; su_name := opt_text u "name";
                                  su_preferred_username := opt_text u "preferred_username";
                                  su_sub := opt_text u "sub" |}
                     else None |}.

(** [client.session] as the session adapter calls it. *)
Definition sdk_session {W Ctl} `{!Lens W SdkState} (br : Browser W Ctl) (origin : jsstring) :
    SessionClient W := λ options,
  client_session br origin (match options with Some o => adapter_options o | None => NoOptions end)
    ≫= λ value,
  match decode_session value with
  | Some v => mret v
  | None => throw (ThrowError (js "TypeError"))
  end.

(** The generated client of the session adapter. *)
Definition createSessionClient {W Ctl} `{!Lens W SdkState} (br : Browser W Ctl) :
    M thrown W (SessionClient W) :=
  match client_origin br with
  | Some origin => mret (sdk_session br origin)
  | None => fail "invalid_origin"
  end.

Lemma texts_read n l : forallb (is_text_upto n) l = true → is_Some (mapM read_text l).
Proof.
  intros H. apply mapM_is_Some, Forall_forall. intros v Hv%list_elem_of_In.
  rewrite forallb_forall in H. specialize (H v Hv). destruct v; try done. by eexists.
Qed.

(** Taking the token out of a session leaves what the session adapter reads. *)
Lemma decode_without_token l :
  decode_session (VObj (prop_delete l (js "csrf_token"))) = decode_session (VObj l).
Proof.
  assert (Hp : ∀ k, js k ≠ js "csrf_token" →
    prop (VObj (prop_delete l (js "csrf_token"))) k = prop (VObj l) k).
  { intros k Hk. unfold prop, val_prop. by rewrite prop_get_delete, decide_False. }
  unfold decode_session. rewrite !Hp by (vm_compute; discriminate). done.
Qed.

(** A session of which a subject is known when it is authenticated. *)
Definition identified (s : SessionValue) : Prop :=
  sv_authenticated s = true → ∃ u sub, sv_user s = Some u ∧ su_sub u = Some sub ∧ sub ≠ [].

Lemma session_decodes status v : session_ok status v = true →
  ∃ s, decode_session v = Some s ∧ identified s.
Proof.
  unfold session_ok. rewrite !andb_true_iff. intros [[[[[[[[_ _] Ha] Hr] _] _] _] _] Hs].
  unfold decode_session, roles_ok, is_authenticated, identified, opt_text in *.
  destruct (prop v "authenticated") as [| |b| | | |]; try done. cbn [read_bool mbind option_bind].
  destruct (prop v "roles") as [| | | | |roles|]; try done. apply andb_prop in Hr as [_ Hr].
  destruct (texts_read _ _ Hr) as [rs Hrs]. cbn [read_array]. rewrite Hrs. cbn [mbind option_bind].
  eexists. split; [done|]. cbn [sv_authenticated sv_user]. intros ->.
  rewrite bool_decide_true in Hs by done. cbn [negb orb] in Hs. rewrite !andb_true_iff in Hs.
  destruct Hs as [[_ ->] Hsub].
  destruct (prop (prop v "user") "sub") as [| | | |sub| |]; try done.
  eexists _, sub. split_and!; [done|done|]. by intros ->.
Qed.

(** What [client.session] returns. *)
Lemma client_session_value {W Ctl} `{!Lens W SdkState} (br : Browser W Ctl) (log : W → list FetchRequest)
    (Hbr : browser_ok br log) origin options (w w' : W) v :
  client_session br origin options w = (Ok v, w') →
  prop v "csrf_token" = VUndef ∧ ∃ s, decode_session v = Some s ∧ identified s.
Proof.
  intros H. apply run_Ok in H as (ctl & tp & w1 & w2 & H & _).
  unfold mbind, M_bind in H. destruct (session br origin ctl tp w1) as [[x|e] w3] eqn:Hs; [|done].
  destruct (session_spec br log Hbr origin _ _ _ _ _ Hs) as (l & _ & _ & Hx).
  destruct (Hx x eq_refl) as [Hok _]. destruct (session_decodes _ _ Hok) as (s & Hd & Hi).
  injection H as <- _. destruct x as [| | | | | |o]; try done; [..|rewrite decode_without_token];
    (split; [|by exists s]); try done.
  unfold prop, val_prop. by rewrite prop_get_delete, decide_True.
Qed.

Lemma client_session_fails {W Ctl} `{!Lens W SdkState} (br : Browser W Ctl) (log : W → list FetchRequest)
    (Hbr : browser_ok br log) origin options : fails_only client_error (client_session br origin options).
Proof.
  intros w e w' H.
  assert (Hs : spec log (λ r _, True ∧ ∀ e, r = Err e → client_error e)
                 (client_session br origin options)).
  2: { destruct (Hs _ _ _ H) as (l & _ & _ & He). by apply He. }
  apply (run_spec br log Hbr (λ _, True)); [done|]. intros ctl tp. eapply spec_bind; [by apply session_spec| |].
  - intros e0 l [(_ & He & _) _]. split; [done|]. intros ? [= <-]. by apply He.
  - intros v l _. by apply spec_pure.
Qed.

(** * Properties *)

Section properties.
Context {W Ctl : Type} `{!Lens W SdkState} (br : Browser W Ctl) (log : W → list FetchRequest)
  (Hbr : browser_ok br log).

(** C15 The client's operations, as the adapter calls them, end with a value of the type
    the adapter reads or with an error of the client: whatever an API answers, the
    adapter never meets a value of another shape. *)
Theorem sdk_client_typed (origin : jsstring) : api_fails_only client_error (sdk_client br origin).
Proof. apply (sdk_client_fails br log Hbr). Qed.

(** A control-plane call over this client fails with an application error only: one
    whose cause is an error of the client, of the kind its status is mapped to, or
    one without a cause that says unavailable. *)
Theorem control_plane_fails_as_application {T} (J : jsstring → option jsval)
    (onReauth : M thrown W unit) (tp : jsstring → M thrown W (option jsstring))
    (call : GatewayCall T) (ctx : GatewayInvocationContext) (w w' : W) (e : thrown) :
  (∀ w1, (onReauth w1).1 = Ok tt) → (∀ c w1, is_ok (tp c w1).1 = true) →
  run_controlPlane (createGatewayControlPlaneAdapter J (λ _, createApiClient br) (Some onReauth) (Some tp))
    call ctx w = (Err e, w') →
  ∃ g, e = ThrowGateway g ∧ ge_operationId g = None ∧
    ((ge_cause g = None ∧ ge_kind g = KUnavailable) ∨
     ∃ s, ge_cause g = Some s ∧ client_error (ThrowSDK s) ∧
          ge_kind g = gatewayFailureKind (sdk_status s)).
Proof.
  intros Hre Htp H. destruct (control_plane_error br log Hbr J onReauth tp call ctx w w' e Htp H)
    as [He|(_ & w1 & w2 & Hfail)]; [exact He|]. specialize (Hre w1). by rewrite Hfail in Hre.
Qed.

(** A control-plane call over this client requests nothing, or exactly what its
    operation of the contract sends for the identifiers and values of the call:
    whatever answers come, it is made at most once. *)
Theorem control_plane_sends {T} (J : jsstring → option jsval) (onReauth : M thrown W unit)
    (tp : jsstring → M thrown W (option jsstring)) (call : GatewayCall T)
    (ctx : GatewayInvocationContext) (w w' : W) (r : result thrown T) :
  spec log quiet onReauth → (∀ c, spec log quiet (tp c)) →
  run_controlPlane (createGatewayControlPlaneAdapter J (λ _, createApiClient br) (Some onReauth) (Some tp))
    call ctx w = (r, w') →
  ∃ l, log w' = log w ++ l ∧ named_requests br (call_name call) (call_input call) l.
Proof.
  intros Hre Htp H. eapply (control_plane_log br log J onReauth tp); [exact Hre| |exact H].
  intros r1 w1 Ht. by apply (adapter_sends br log Hbr (Some tp) (λ f c '(eq_refl), Htp c) J call ctx _ _ _ Ht).
Qed.

(** The session the shell gets, over this client, names a subject when it is
    authenticated; and getting it fails with an error of the client only. *)
Theorem session_identified (signal : option AbortSignal) (w w' : W) (r : result thrown BrowserSession) :
  getSession (createSessionClient br) None signal w = (r, w') →
  match r with
  | Ok s => bs_authenticated s = true →
            ∃ u sub, bs_user s = Some u ∧ bu_sub u = Some sub ∧ sub ≠ []
  | Err e => client_error e
  end.
Proof.
  unfold getSession, createSessionClient, mbind, M_bind. destruct (client_origin br) as [origin|].
  2: { intros [= <- _]. apply own_error. set_solver. }
  cbn [mret M_ret]. unfold sdk_session, mbind, M_bind. intros H.
  destruct (client_session br origin _ w) as [[v|e] w1] eqn:Hs.
  - apply (client_session_value br log Hbr) in Hs as (_ & s & Hd & Hi). rewrite Hd in H.
    injection H as <- _. cbn. intros Ha. destruct (Hi Ha) as (u & sub & -> & Hsub & Hne).
    eexists _, sub. split_and!; [done|exact Hsub|exact Hne].
  - injection H as <- _. by eapply client_session_fails.
Qed.
End properties.

(** * The browser of [SdkClient], with the adapters over it *)

Module DemoAdapter.
Import DemoBrowser.
#[local] Existing Instance world_lens.

Definition J : jsstring → option jsval := λ _, None.

Definition plain : GatewayInvocationContext := {| ctx_correlationId := js "c"; ctx_signal := None |}.

(** A gateway is read; one without an identifier is refused by the client. *)
Definition read_gateway (id : jsstring) : result thrown GatewayRecord * world :=
  run_controlPlane
    (createGatewayControlPlaneAdapter J (λ _, createApiClient browser) (Some (mret tt)) (Some (λ _, mret None)))
    (CallGetGateway id) plain initial.

Example gateway_read :
  map fq_url (wd_log (read_gateway (js "a b")).2) = [js "https://console/api/hypershell/v1/gateways/a%20b"].
Proof. vm_compute. done. Qed.

Definition refused : GatewayOperationError := {|
  ge_kind := KUnknown; ge_code := None; ge_operationId := None;
  ge_cause := Some (newSDKError (js "invalid_input") 0 None) |}.

Lemma sdk_client_typed_witness : api_fails_only client_error (sdk_client browser origin).
Proof. refine (sdk_client_typed browser wd_log browser_is_ok origin). Defined.

Lemma control_plane_fails_as_application_witness :
  ∃ g, ThrowGateway refused = ThrowGateway g ∧ ge_operationId g = None ∧
    ((ge_cause g = None ∧ ge_kind g = KUnavailable) ∨
     ∃ s, ge_cause g = Some s ∧ client_error (ThrowSDK s) ∧
          ge_kind g = gatewayFailureKind (sdk_status s)).
Proof.
  refine (control_plane_fails_as_application browser wd_log browser_is_ok J (mret tt) (λ _, mret None)
            (CallGetGateway []) plain initial initial (ThrowGateway refused) _ _ _);
    [done|done|vm_compute; reflexivity].
Defined.

Lemma control_plane_sends_witness :
  ∃ l, wd_log (read_gateway (js "a b")).2 = wd_log initial ++ l ∧
       named_requests browser "getGateway" (id_input (js "a b")) l.
Proof.
  refine (control_plane_sends browser wd_log browser_is_ok J (mret tt) (λ _, mret None)
            (CallGetGateway (js "a b")) plain initial (read_gateway (js "a b")).2
            (read_gateway (js "a b")).1 _ _ _).
  - apply quiet_ret.
  - intros c. apply quiet_ret.
  - unfold read_gateway. by destruct (run_controlPlane _ _ _ _).
Defined.

Definition known : BrowserSession := {|
  bs_authenticated := true; bs_expiresAt := Some (NInt 1); bs_roles := [];
  bs_user := Some {| bu_email := None; bu_name := None; bu_preferredUsername := None;
                     bu_sub := Some (js "u") |} |}.

Lemma session_identified_witness :
  ∃ u sub, bs_user known = Some u ∧ bu_sub u = Some sub ∧ sub ≠ [].
Proof.
  refine (session_identified browser wd_log browser_is_ok None initial
            (getSession (createSessionClient browser) None None initial).2 (Ok known) _ eq_refl).
  vm_compute. reflexivity.
Defined.
End DemoAdapter.
