(* ===== verification/ConsoleClient.v ===== *)
(** The composition root over the generated API client: [createApiClient] of
    [app/adapters/api/api.client.ts] in place of the argument of [Composition], and the
    sign-in that [app/composition/gateway-composition.ts] starts with it. What a gateway
    call of the pages sends to the API is followed through the use cases, the probes, the
    adapter and the client. *)
From S2P Require Export Composition SdkAdapter.

Section console.
Context {Sp Ctx Y Ctl : Type}.
Abbreviation World := (ObsWorld (ConsoleExt Sp Y)).
Context `{!Lens World SdkState} (otel : Otel World Sp Ctx)
  (createBrowserTelemetry : (jsstring → jsstring → M thrown World unit) → Telemetry World Ctx)
  (platform : Platform (ConsoleExt Sp Y)) (JSON_parse : jsstring → option jsval) (br : Browser World Ctl).

(** [createApiClient().login()] *)
Definition start_login (client : GatewayApiClient World) : M thrown World unit :=
  match client_origin br with
  | Some origin => client_login br origin
  | None => fail "invalid_origin"
  end.

(** The use cases of the pages. *)
Definition console_operations : result thrown (GatewayOperations World) :=
  gatewayOperations otel createBrowserTelemetry platform JSON_parse (createApiClient br) start_login.
End console.

(** * Lemmas *)

Section sign_in.
Context {Sp Y Ctl : Type}.
Abbreviation World := (ObsWorld (ConsoleExt Sp Y)).
Context `{!Lens World SdkState} (br : Browser World Ctl) (wire : Y → list FetchRequest)
  (Hbr : browser_ok br (sent_by wire))
  (Hassign : ∀ href w, sent_by wire (br_assign br href w).2 = sent_by wire w).

(** Signing in requests nothing, and fails for one reason only. *)
Lemma start_login_quiet : spec (sent_by wire) quiet (createApiClient br ≫= start_login br).
Proof using Hassign.
  clear Hbr. unfold createApiClient, start_login. intros w r w' H. exists []. rewrite app_nil_r. split; [|done].
  revert H. destruct (client_origin br) as [origin|]; [|by intros [= _ <-]].
  unfold mbind, M_bind, mret, M_ret, client_login. destruct (br_location br w) as [pathname search].
  destruct (return_to br origin pathname search) as [back|]; [|by intros [= _ <-]].
  destruct (br_URL br (js "/auth/login") (Some origin)) as [login|]; [|by intros [= _ <-]].
  pose proof (Hassign (br_with_param br login (js "return_to") back) w) as Ha.
  destruct (br_assign br _ w) as [[[]|e] w1]; intros [= _ <-]; exact Ha.
Qed.

Definition sign_in_error : thrown := ThrowSDK (newSDKError (js "navigation_failed") 0 None).
Lemma start_login_fails w e w' : is_Some (client_origin br) →
  (createApiClient br ≫= start_login br) w = (Err e, w') → e = sign_in_error.
Proof using.
  clear Hbr Hassign. intros [origin Ho] H. revert H. unfold createApiClient, start_login. rewrite Ho.
  unfold mbind, M_bind, mret, M_ret, client_login. destruct (br_location br w) as [pathname search].
  repeat case_match; by intros [= <- _].
Qed.
End sign_in.

(** * Properties *)

Section properties.
Context {Sp Ctx Y Ctl : Type}.
Abbreviation World := (ObsWorld (ConsoleExt Sp Y)).

End properties.

(** * A console, for the witness *)

Module DemoConsoleClient.
Import DemoBrowser.
#[local] Existing Instance world_lens.

(** The world of the console, around that of the browser. *)
Definition console : Type := DemoConsole.world DemoBrowser.world.

Abbreviation Span := DemoTracer.Span.

Definition of_browser (w : console) : DemoBrowser.world := DemoConsole.dy_rest (cx_rest (ow_ext w)).
Definition put_browser (b : DemoBrowser.world) (w : console) : console :=
  let y := cx_rest (ow_ext w) in
  DemoConsole.put_rest {| DemoConsole.dy_calls := DemoConsole.dy_calls y; DemoConsole.dy_next := DemoConsole.dy_next y;
                          DemoConsole.dy_rest := b |} w.

Definition lift {A} (m : M thrown DemoBrowser.world A) : M thrown console A := λ w,
  let '(r, b) := m (of_browser w) in (r, put_browser b w).

#[local] Instance console_sdk_lens : Lens console SdkState.
Proof.
  refine {| lens_get w := wd_state (of_browser w); lens_put s w := put_browser (lens_put s (of_browser w)) w |}; done.
Defined.

Definition console_browser : Browser console unit := {|
  br_location_origin := br_location_origin browser; br_URL := br_URL browser;
  br_URLSearchParams := br_URLSearchParams browser; br_with_param := br_with_param browser;
  br_decoder := br_decoder browser; br_fraction_text := br_fraction_text browser;
  br_start n w := (tt, w); br_follow _ _ w := w; br_stop _ _ w := w;
  br_aborted _ _ := false; br_timedOut _ _ := false;
  br_fetch q ctl := lift (br_fetch browser q ctl); br_cancel a := lift (br_cancel browser a);
  br_location w := br_location browser (of_browser w); br_assign href := lift (br_assign browser href) |}.

Definition sent_wire (y : DemoConsole.Y DemoBrowser.world) : list FetchRequest := wd_log (DemoConsole.dy_rest y).

Lemma console_browser_ok : browser_ok console_browser (sent_by sent_wire).
Proof.
  split; try done.
  - intros q ctl w r w' [= <- <-]. split_and!; [done|done|]. intros a chunks e [= <-]. done.
  - intros a w r w' [= <- <-]. done.
Qed.

Definition otel : Otel console Span (option Span) := DemoConsole.otel.
Definition begun : console := initial_console
  {| DemoConsole.dy_calls := []; DemoConsole.dy_next := None; DemoConsole.dy_rest := initial |}.

Definition operations_of : result thrown (GatewayOperations console) :=
  console_operations otel DemoConsole.createBrowserTelemetry DemoConsole.platform (λ _, None) console_browser.

Definition rename_call : GatewayCall GatewayRecord := CallRenameGateway (js "g/1?") (js "two").

Definition renamed_console : result thrown GatewayRecord * console :=
  match operations_of with Ok ops => run_operation ops rename_call None begun | Err e => (Err e, begun) end.

(** The session and then the change, both with the header of the trace. *)
Example rename_on_the_wire :
  map fq_url (sent_by sent_wire renamed_console.2) =
    [js "https://console/auth/session"; js "https://console/api/hypershell/v1/gateways/g%2F1%3F"] ∧
  forallb (λ q, bool_decide (prop_get (fq_headers q) (js "traceparent") =
                             Some (js "00-0af7651916cd43dd8448eb211c80319c-b7ad6b7169203331-01")))
    (sent_by sent_wire renamed_console.2) = true.
Proof. vm_compute. done. Qed.

Lemma begun_consistent : obs_consistent begun.
Proof. split_and!; done || (simpl; lia). Qed.

End DemoConsoleClient.
