(* ===== verification/Telemetry.v ===== *)
(** The generated browser telemetry ([console/out/browsertelemetry/index.js], of
    which [gateway-console] has a copy), up to what leaves the page: identifiers of
    traces and spans, the bounds on attributes, log records and metrics, and the
    settings of the page. The exporters are in [TelemetryExport].

    The OpenTelemetry packages are third-party code. What the file wraps of them
    appears as outputs of the wrapper: what reaches the SDK's meter and logger, and
    the finite loss categories that are reported. *)
From S2P Require Export SdkClient.

(** * Identifiers *)

Section identifiers.
Context {W : Type} (getRandomValues : nat → M thrown W (list N)).

(** [x.toString(16).padStart(2, "0")] *)
Definition hex_byte (x : N) : jsstring := [lower_hex (x / 16); lower_hex (x mod 16)].

Fixpoint random_attempts (attempts bytes : nat) : M thrown W jsstring :=
  match attempts with
  | O => throw (ThrowError (js "Error"))
  | S attempts' =>
      getRandomValues bytes ≫= λ data,
      if existsb (λ x, negb (x =? 0)%N) data then mret (concat (map hex_byte data))
      else random_attempts attempts' bytes
  end.

Definition randomID (bytes : nat) : M thrown W jsstring := random_attempts 3 bytes.

(** The field [#next] of [RootTraceIdGenerator]. *)
Record IdGenerator := { ig_next : option jsstring }.

Context `{!Lens W IdGenerator}.

Definition is_trace_id (value : jsstring) : bool :=
  bool_decide (length value = 32) && forallb is_lower_hex value &&
  negb (bool_decide (value = repeat 48%N 32)).

Definition primeTraceId (value : jsval) : M thrown W unit := λ w,
  match value with
  | VStr t => if is_trace_id t then (Ok tt, lens_put {| ig_next := Some t |} w)
              else (Err (ThrowError (js "TypeError")), w)
  | _ => (Err (ThrowError (js "TypeError")), w)
  end.

Definition generateTraceId : M thrown W jsstring := λ w,
  let w' := lens_put {| ig_next := None |} w in
  match ig_next (lens_get w) with
  | Some value => (Ok value, w')
  | None => randomID 16 w'
  end.

Definition generateSpanId : M thrown W jsstring := randomID 8.

(** The calls of the generator, as the tracer makes them, with what they return. *)
Inductive IdCall := Prime (value : jsval) | TraceId | SpanId.

Definition id_call (c : IdCall) : M thrown W jsstring :=
  match c with
  | Prime value => primeTraceId value ≫= λ _, mret []
  | TraceId => generateTraceId
  | SpanId => generateSpanId
  end.

Fixpoint id_calls (cs : list IdCall) (w : W) : list (IdCall * result thrown jsstring) :=
  match cs with
  | [] => []
  | c :: cs => let '(r, w') := id_call c w in (c, r) :: id_calls cs w'
  end.
End identifiers.

(** * Attributes, log records *)

Definition attribute_ok (p : jsstring * jsval) : bool :=
  (length p.1 <=? 64) && (0 <? length p.1) &&
  match p.2 with
  | VStr s => (N.of_nat (length s) <=? 256)%N
  | VBool _ => true
  | VNum n => is_finite n
  | _ => false
  end.

Definition validAttributes (attributes : jsval) : bool :=
  match attributes with
  | VUndef => true
  | VObj l => (length l <=? 16) && forallb attribute_ok l
  | _ => false
  end.

(** The finite loss categories. *)
Inductive TelemetrySignal := Traces | Logs | Metrics.
Inductive LossReason := QueueFull | ExportFailed | InvalidRecord.

#[export] Instance TelemetrySignal_eq_dec : EqDecision TelemetrySignal.
Proof. solve_decision. Defined.

#[export] Instance LossReason_eq_dec : EqDecision LossReason.
Proof. solve_decision. Defined.

(** What [healthMeter]'s counters report of a processor's own measurement: the
    attributes' [error.type] and the number that is added. *)
Definition health_report (error : jsval) (value : jsval) : option LossReason :=
  if truthy error && (if value is VNum n then is_finite n && num_lt (NInt 0) n else false)
  then Some (if bool_decide (error = VStr (js "queue_full")) then QueueFull else ExportFailed)
  else None.

(** [queueReport]: the exporter reports the rest. *)
Definition queue_report (error : jsval) (value : jsval) : option LossReason :=
  match health_report error value with
  | Some QueueFull => Some QueueFull
  | _ => None
  end.

(** [boundedLogger]: what reaches the SDK's logger, or what is reported. *)
Definition emit (record : jsval) : jsval + LossReason :=
  if negb (truthy record) ||
     match prop record "body" with
     | VUndef => false
     | VStr s => (512 <? N.of_nat (length s))%N
     | _ => true
     end ||
     negb (validAttributes (prop record "attributes"))
  then inr InvalidRecord else inl record.

(** * Settings *)

Record BrowserSettings := {
  st_traces : bool;
  st_logs : bool;
  st_metrics : bool;
  st_sampleRatio : num
}.

Definition settings_off : BrowserSettings := {|
  st_traces := false; st_logs := false; st_metrics := false; st_sampleRatio := NInt 0 |}.

(** A number of the unit interval. *)
Definition unit_interval (n : num) : bool := is_finite n && negb (num_lt n (NInt 0)) && negb (num_lt (NInt 1) n).

Definition settings_keys : list jsstring :=
  [js "version"; js "traces"; js "logs"; js "metrics"; js "sampleRatio"].

(** The configuration the page holds, once parsed. *)
Definition read_settings (data : jsval) (override : option num) : option BrowserSettings :=
  match data with
  | VObj l =>
      if negb (bool_decide (length l = 5)) ||
         existsb (λ k, negb (bool_decide (k ∈ settings_keys))) l.*1 then None
      else
        match prop data "version", prop data "traces", prop data "logs", prop data "metrics",
              prop data "sampleRatio" with
        | VNum version, VBool traces, VBool logs, VBool metrics, VNum ratio =>
            if num_eqb version (NInt 1) && unit_interval ratio
            then Some {| st_traces := traces; st_logs := logs; st_metrics := metrics;
                         st_sampleRatio := if traces then num_min ratio (default ratio override)
                                           else NInt 0 |}
            else None
        | _, _, _, _, _ => None
        end
  | _ => None
  end.

(** [browserSettings]: [nodes] is the content of each configuration node of the page,
    [None] without the attribute; [J] is [JSON.parse]. *)
Definition browserSettings (J : jsstring → option jsval) (nodes : list (option jsstring))
    (override : option num) : BrowserSettings :=
  match nodes with
  | [] =>
      match override with
      | None => settings_off
      | Some ratio => {| st_traces := true; st_logs := true; st_metrics := true; st_sampleRatio := ratio |}
      end
  | [Some content] =>
      if (256 <? N.of_nat (length content))%N then settings_off
      else default settings_off (data ← J content; read_settings data override)
  | _ => settings_off
  end.

(** * Metrics *)

(** The methods of the meter that create an instrument. *)
Inductive InstrumentKey :=
| CreateCounter
| CreateGauge
| CreateHistogram
| CreateUpDownCounter
| CreateObservableCounter
| CreateObservableGauge
| CreateObservableUpDownCounter.

#[export] Instance InstrumentKey_eq_dec : EqDecision InstrumentKey.
Proof. solve_decision. Defined.

Definition key_str (key : InstrumentKey) : jsstring :=
  match key with
  | CreateCounter => js "createCounter"
  | CreateGauge => js "createGauge"
  | CreateHistogram => js "createHistogram"
  | CreateUpDownCounter => js "createUpDownCounter"
  | CreateObservableCounter => js "createObservableCounter"
  | CreateObservableGauge => js "createObservableGauge"
  | CreateObservableUpDownCounter => js "createObservableUpDownCounter"
  end.

Definition instrument_id (key : InstrumentKey) (name : jsstring) : jsstring := key_str key ++ js ":" ++ name.

(** [/^[a-zA-Z][a-zA-Z0-9_.-]{0,127}$/] *)
Definition instrument_name (name : jsstring) : bool :=
  match name with
  | c :: t => is_letter c && (length t <=? 127) &&
              forallb (λ d, is_letter d || is_digit d || bool_decide (d ∈ js "_.-")) t
  | [] => false
  end.

(** A registered batch callback: callbacks are told apart by a number, instruments
    by their id. *)
Record Batch := { ba_callback : N; ba_selected : list jsstring }.

(** An instrument and the callbacks registered on it. *)
Record Instrument := { in_observable : bool; in_callbacks : list N }.

Record MeterState := {
  me_instruments : list (jsstring * Instrument);
  me_batches : list Batch;
  me_callbackCount : Z
}.

Definition initial_meter : MeterState := {|
  me_instruments := []; me_batches := []; me_callbackCount := 0%Z |}.

(** What reaches the SDK's meter, and what is reported. *)
Inductive MeterOutput :=
| InnerCreate (id : jsstring)
| InnerAddCallback (id : jsstring) (callback : N)
| InnerRemoveCallback (id : jsstring) (callback : N)
| InnerAddBatch (callback : N) (selected : list jsstring)
| InnerRemoveBatch (callback : N) (selected : list jsstring)
| InnerRecord (id : jsstring) (number : jsval) (attributes : jsval)
| InnerObserve (id : jsstring) (number : jsval) (attributes : jsval)
| ReportInvalid.

(** An observation a callback makes. A batch callback names the instrument, if it is
    one of the meter's; any other observes its own. *)
Record Observation := {
  ob_instrument : option jsstring;
  ob_number : jsval;
  ob_attributes : jsval
}.

(** The calls of the meter and of its instruments, and the runs of the callbacks
    when the SDK collects. A callback is [None] when it is no function; the values
    of a batch are [None] when they are no array, and each is the instrument of this
    meter that it is, if any. *)
Inductive MeterEvent :=
| Create (key : InstrumentKey) (name : jsval)
| AddCallback (id : jsstring) (callback : option N)
| RemoveCallback (id : jsstring) (callback : N)
| AddBatch (callback : option N) (values : option (list (option jsstring)))
| RemoveBatch (callback : N) (values : option (list (option jsstring)))
| RecordPoint (id : jsstring) (number : jsval) (attributes : jsval)
| Collect (id : jsstring) (callback : N) (observations : list Observation)
| CollectBatch (batch : Batch) (observations : list Observation).

Definition validPoint (number attributes : jsval) : bool :=
  (if number is VNum n then is_finite n else false) && validAttributes attributes.

Definition is_observable (s : MeterState) (id : jsstring) : bool :=
  match prop_get (me_instruments s) id with Some i => in_observable i | None => false end.

(** [selectedObservables]: a set, in the order of first occurrence. *)
Definition selectedObservables (s : MeterState) (values : option (list (option jsstring))) :
    option (list jsstring) :=
  l ← values;
  if (length l =? 0) || (32 <? length l) then None
  else nub <$> mapM (λ v, id ← v; if is_observable s id then Some id else None) l.

Definition sameSelection (l k : list jsstring) : bool :=
  (length l =? length k) && forallb (λ x, bool_decide (x ∈ k)) l.

Definition is_batch (callback : N) (selected : list jsstring) (b : Batch) : bool :=
  (ba_callback b =? callback)%N && sameSelection (ba_selected b) selected.

(** One run of a callback with its budget of observations; [member] says whether an
    observation is of an instrument the callback may observe. *)
Fixpoint observations (member : jsstring → bool) (remaining : nat) (l : list Observation) :
    list MeterOutput :=
  match l with
  | [] => []
  | o :: l' =>
      match ob_instrument o with
      | Some id =>
          if member id then
            if validPoint (ob_number o) (ob_attributes o) then
              match remaining with
              | O => ReportInvalid :: observations member 0 l'
              | S remaining' =>
                  InnerObserve id (ob_number o) (ob_attributes o) :: observations member remaining' l'
              end
            else ReportInvalid :: observations member remaining l'
          else ReportInvalid :: observations member remaining l'
      | None => ReportInvalid :: observations member remaining l'
      end
  end.

Definition with_instruments (s : MeterState) (l : list (jsstring * Instrument)) (n : Z) : MeterState := {|
  me_instruments := l; me_batches := me_batches s; me_callbackCount := n |}.

Definition with_batches (s : MeterState) (l : list Batch) (n : Z) : MeterState := {|
  me_instruments := me_instruments s; me_batches := l; me_callbackCount := n |}.

(** The first element that satisfies [f] taken out, as [findIndex] and [splice] do. *)
Fixpoint remove_first {A} (f : A → bool) (l : list A) : option (A * list A) :=
  match l with
  | [] => None
  | x :: l' => if f x then Some (x, l') else r ← remove_first f l'; Some (r.1, x :: r.2)
  end.

(** [meter[key](name, options)] *)
Definition create_instrument (key : InstrumentKey) (name : jsval) (s : MeterState) :
    MeterState * list MeterOutput :=
  match name with
  | VStr n =>
      let id := instrument_id key n in
      match prop_get (me_instruments s) id with
      | Some _ => if instrument_name n then (s, []) else (s, [ReportInvalid])
      | None =>
          if instrument_name n && negb (32 <=? length (me_instruments s))
          then (with_instruments s
                  (me_instruments s ++
                   [(id, {| in_observable := startsWith (key_str key) (js "createObservable");
                            in_callbacks := [] |})]) (me_callbackCount s), [InnerCreate id])
          else (s, [ReportInvalid])
      end
  | _ => (s, [ReportInvalid])
  end.

Definition add_callback (id : jsstring) (i : Instrument) (callback : option N) (s : MeterState) :
    MeterState * list MeterOutput :=
  match callback with
  | None => (s, [ReportInvalid])
  | Some c =>
      if bool_decide (c ∈ in_callbacks i) then (s, [])
      else if (32 <=? me_callbackCount s)%Z then (s, [ReportInvalid])
      else (with_instruments s
              (prop_set (me_instruments s) id
                 {| in_observable := in_observable i; in_callbacks := in_callbacks i ++ [c] |})
              (me_callbackCount s + 1)%Z, [InnerAddCallback id c])
  end.

Definition remove_callback (id : jsstring) (i : Instrument) (c : N) (s : MeterState) :
    MeterState * list MeterOutput :=
  match remove_first (N.eqb c) (in_callbacks i) with
  | None => (s, [])
  | Some (_, rest) =>
      (with_instruments s
         (prop_set (me_instruments s) id {| in_observable := in_observable i; in_callbacks := rest |})
         (me_callbackCount s - 1)%Z, [InnerRemoveCallback id c])
  end.

Definition addBatchObservableCallback (callback : option N) (values : option (list (option jsstring)))
    (s : MeterState) : MeterState * list MeterOutput :=
  match callback, selectedObservables s values with
  | Some c, Some selected =>
      if existsb (is_batch c selected) (me_batches s) then (s, [])
      else if (32 <=? me_callbackCount s)%Z then (s, [ReportInvalid])
      else (with_batches s (me_batches s ++ [{| ba_callback := c; ba_selected := selected |}])
              (me_callbackCount s + 1)%Z, [InnerAddBatch c selected])
  | _, _ => (s, [ReportInvalid])
  end.

Definition removeBatchObservableCallback (c : N) (values : option (list (option jsstring)))
    (s : MeterState) : MeterState * list MeterOutput :=
  match selectedObservables s values with
  | None => (s, [])
  | Some selected =>
      match remove_first (is_batch c selected) (me_batches s) with
      | None => (s, [])
      | Some (b, rest) =>
          (with_batches s rest (me_callbackCount s - 1)%Z, [InnerRemoveBatch (ba_callback b) selected])
      end
  end.

(** The wrapped meter. An event of an instrument is offered if the instrument has
    the method: callbacks are for observable ones, [add] and [record] for the
    others. *)
Definition meter_step (s : MeterState) (ev : MeterEvent) : option (MeterState * list MeterOutput) :=
  match ev with
  | Create key name => Some (create_instrument key name s)
  | AddCallback id callback =>
      i ← prop_get (me_instruments s) id;
      if in_observable i then Some (add_callback id i callback s) else None
  | RemoveCallback id callback =>
      i ← prop_get (me_instruments s) id;
      if in_observable i then Some (remove_callback id i callback s) else None
  | AddBatch callback values => Some (addBatchObservableCallback callback values s)
  | RemoveBatch callback values => Some (removeBatchObservableCallback callback values s)
  | RecordPoint id number attributes =>
      i ← prop_get (me_instruments s) id;
      if in_observable i then None
      else Some (s, if validPoint number attributes then [InnerRecord id number attributes]
                    else [ReportInvalid])
  | Collect id callback obs =>
      i ← prop_get (me_instruments s) id;
      if bool_decide (callback ∈ in_callbacks i)
      then Some (s, observations (λ _, true) 32
                      (map (λ o, {| ob_instrument := Some id; ob_number := ob_number o;
                                    ob_attributes := ob_attributes o |}) obs))
      else None
  | CollectBatch b obs =>
      if existsb (is_batch (ba_callback b) (ba_selected b)) (me_batches s)
      then Some (s, observations (λ id', bool_decide (id' ∈ ba_selected b)) 32 obs) else None
  end.

(** * Lemmas: identifiers *)

(** The documented behaviour of [crypto.getRandomValues]: it fills the array with
    bytes. It has nothing to do with the generator. *)
Definition entropy_ok {W} `{!Lens W IdGenerator} (getRandomValues : nat → M thrown W (list N)) : Prop :=
  ∀ n w r w', getRandomValues n w = (r, w') →
    lens_get w' = lens_get w ∧
    ∀ data, r = Ok data → length data = n ∧ Forall (λ x, (x < 256)%N) data.

Lemma lower_hex_digit d : (d < 16)%N → is_lower_hex (lower_hex d) = true.
Proof.
  intros H. unfold lower_hex, is_lower_hex. apply orb_true_iff.
  destruct (N.ltb_spec d 10); [left|right]; apply andb_true_iff; split; apply N.leb_le; lia.
Qed.

Lemma lower_hex_zero d : lower_hex d = 48%N → d = 0%N.
Proof. unfold lower_hex. destruct (N.ltb_spec d 10); lia. Qed.

Lemma hex_bytes_digits data : Forall (λ x, (x < 256)%N) data →
  length (concat (map hex_byte data)) = 2 * length data ∧
  forallb is_lower_hex (concat (map hex_byte data)) = true.
Proof.
  induction 1 as [|x data Hx _ [IHl IHh]]; [done|]. cbn [map concat hex_byte app length forallb].
  rewrite IHl, IHh, !lower_hex_digit; [split; [lia|done]| |];
    [apply N.mod_lt; lia|apply N.Div0.div_lt_upper_bound; lia].
Qed.

Lemma hex_bytes_zero data : concat (map hex_byte data) = repeat 48%N (2 * length data) →
  Forall (λ x, x = 0%N) data.
Proof.
  induction data as [|x data IH]; [by constructor|]. cbn [map concat hex_byte app length].
  replace (2 * S (length data)) with (S (S (2 * length data))) by lia. cbn [repeat].
  intros [= H1%lower_hex_zero H2%lower_hex_zero H]. constructor; [|by apply IH].
  rewrite (N.div_mod x 16), H1, H2; [done|lia].
Qed.

Lemma is_trace_id_spec t : is_trace_id t = true ↔ hex_id 32 t.
Proof.
  unfold is_trace_id, hex_id. rewrite !andb_true_iff, negb_true_iff, bool_decide_eq_true, bool_decide_eq_false.
  naive_solver.
Qed.

Section identifier_lemmas.
Context {W : Type} `{!Lens W IdGenerator} (getRandomValues : nat → M thrown W (list N))
  (Hent : entropy_ok getRandomValues).

Lemma random_attempts_id attempts bytes w r w' :
  random_attempts getRandomValues attempts bytes w = (r, w') →
  lens_get w' = lens_get w ∧ ∀ id, r = Ok id → hex_id (2 * bytes) id.
Proof.
  revert w. induction attempts as [|attempts IH]; intros w H; cbn in H; [by injection H as <- <-|].
  unfold mbind, M_bind in H. destruct (getRandomValues bytes w) as [[data|e] w1] eqn:Hr.
  - destruct (Hent _ _ _ _ Hr) as [Hg Hd]. destruct (Hd data eq_refl) as [Hlen Hb]. destruct (existsb _ data) eqn:Hx.
    + injection H as <- <-. split; [done|]. intros id [= <-].
      destruct (hex_bytes_digits data Hb) as [Hl Hh]. rewrite Hlen in Hl. split_and!; [done|done|].
      rewrite <- Hlen. intros Hz%hex_bytes_zero. apply existsb_exists in Hx as (x & Hin%list_elem_of_In & Hx).
      rewrite Forall_forall in Hz. by rewrite (Hz x Hin) in Hx.
    + apply IH in H. by rewrite Hg in H.
  - injection H as <- <-. split; [|done]. by destruct (Hent _ _ _ _ Hr).
Qed.

(** What identifiers promise, given the trace identifier that was primed: it is the
    next one, once; any other is fresh and well formed. *)
Fixpoint ids_meant (next : option jsstring) (l : list (IdCall * result thrown jsstring)) : Prop :=
  match l with
  | [] => True
  | (Prime value, r) :: l =>
      (∃ t, value = VStr t ∧ hex_id 32 t ∧ r = Ok [] ∧ ids_meant (Some t) l) ∨
      ((¬ ∃ t, value = VStr t ∧ hex_id 32 t) ∧ r = Err (ThrowError (js "TypeError")) ∧ ids_meant next l)
  | (TraceId, r) :: l =>
      match next with
      | Some t => r = Ok t
      | None => ∀ t, r = Ok t → hex_id 32 t
      end ∧ ids_meant None l
  | (SpanId, r) :: l => (∀ t, r = Ok t → hex_id 16 t) ∧ ids_meant next l
  end.

Lemma id_calls_meant cs w : ids_meant (ig_next (lens_get w)) (id_calls getRandomValues cs w).
Proof.
  revert w. induction cs as [|c cs IH]; intros w; [done|]. cbn [id_calls].
  destruct (id_call getRandomValues c w) as [r w1] eqn:Hc. specialize (IH w1). destruct c as [v| |]; cbn [id_call] in Hc; cbn [ids_meant].
  - unfold mbind, M_bind, primeTraceId in Hc.
    assert (Hbad : (¬ ∃ t, v = VStr t ∧ hex_id 32 t) → (Err (ThrowError (js "TypeError")), w) = (r, w1) →
      (¬ ∃ t, v = VStr t ∧ hex_id 32 t) ∧ r = Err (ThrowError (js "TypeError")) ∧
      ids_meant (ig_next (lens_get w)) (id_calls getRandomValues cs w1)).
    { intros Hno [= <- <-]. done. }
    destruct v as [| | | |t| |]; try (right; apply Hbad; [by intros (? & ? & ?)|done]).
    destruct (is_trace_id t) eqn:Ht.
    + left. injection Hc as <- <-. rewrite lens_get_put in IH. exists t. split_and!; [done| |done|done].
      by apply is_trace_id_spec.
    + right. apply Hbad; [|done]. intros (? & [= <-] & H%is_trace_id_spec). congruence.
  - unfold generateTraceId in Hc. destruct (ig_next (lens_get w)) as [t|].
    + injection Hc as <- <-. by rewrite lens_get_put in IH.
    + apply random_attempts_id in Hc as [Hg Hid]. rewrite Hg, lens_get_put in IH. by split.
  - apply random_attempts_id in Hc as [Hg Hid]. rewrite Hg in IH. by split.
Qed.
End identifier_lemmas.

(** * Lemmas: metrics *)

Definition created (o : MeterOutput) : option jsstring :=
  match o with InnerCreate id => Some id | _ => None end.

Definition adds (o : MeterOutput) : bool :=
  match o with InnerAddCallback _ _ | InnerAddBatch _ _ => true | _ => false end.

Definition removes (o : MeterOutput) : bool :=
  match o with InnerRemoveCallback _ _ | InnerRemoveBatch _ _ => true | _ => false end.

Definition observes (o : MeterOutput) : bool :=
  match o with InnerObserve _ _ _ => true | _ => false end.

(** Only valid points reach the SDK. *)
Definition point_ok (o : MeterOutput) : Prop :=
  match o with
  | InnerRecord _ n a | InnerObserve _ n a => validPoint n a = true
  | _ => True
  end.

Lemma count_nil {A} (f : A → bool) : count f [] = 0.
Proof. done. Qed.

Ltac counted := rewrite ?count_cons, ?count_nil; cbn [adds removes observes]; lia.

Definition callbacks_on (l : list (jsstring * Instrument)) : Z :=
  foldr (λ p n, (Z.of_nat (length (in_callbacks p.2)) + n)%Z) 0%Z l.

(** The bounds, and that the count is what it counts. *)
Definition meter_ok (s : MeterState) : Prop :=
  NoDup (me_instruments s).*1 ∧ length (me_instruments s) ≤ 32 ∧
  (me_callbackCount s = callbacks_on (me_instruments s) + Z.of_nat (length (me_batches s)))%Z ∧
  (me_callbackCount s ≤ 32)%Z.

Lemma prop_set_keys {V} (l : list (jsstring * V)) k v : is_Some (prop_get l k) →
  (prop_set l k v).*1 = l.*1.
Proof.
  induction l as [|[j x] l IH]; cbn; [by intros [? ?]|]. case_decide as Hd; [by subst|].
  intros H. cbn. by rewrite IH.
Qed.

Lemma prop_set_length {V} (l : list (jsstring * V)) k v : is_Some (prop_get l k) →
  length (prop_set l k v) = length l.
Proof. intros H. by rewrite <- (length_fmap fst), prop_set_keys, length_fmap. Qed.

Lemma callbacks_on_app l k : callbacks_on (l ++ k) = (callbacks_on l + callbacks_on k)%Z.
Proof. unfold callbacks_on. induction l as [|p l IH]; cbn; [done|]. rewrite IH. lia. Qed.

Lemma callbacks_on_set l id i j : prop_get l id = Some i →
  callbacks_on (prop_set l id j) =
    (callbacks_on l + Z.of_nat (length (in_callbacks j)) - Z.of_nat (length (in_callbacks i)))%Z.
Proof.
  unfold callbacks_on. induction l as [|[k x] l IH]; cbn; [done|]. case_decide as Hd; cbn.
  - intros [= ->]. lia.
  - intros H. rewrite (IH H). lia.
Qed.

Lemma remove_first_length {A} (f : A → bool) l x rest : remove_first f l = Some (x, rest) →
  length l = S (length rest).
Proof.
  revert x rest. induction l as [|y l IH]; cbn; [done|]. intros x rest. destruct (f y); [by intros [= <- <-]|].
  intros ([z r] & Hr & [= <- <-])%bind_Some. cbn. f_equal. by eapply IH.
Qed.

Lemma observations_spec member n l :
  count observes (observations member n l) ≤ n ∧ Forall point_ok (observations member n l) ∧
  omap created (observations member n l) = [] ∧
  count adds (observations member n l) = 0 ∧ count removes (observations member n l) = 0.
Proof.
  revert n. induction l as [|o l IH]; intros n; cbn [observations]; [split_and!; try done; counted|].
  destruct (ob_instrument o) as [id|]; [destruct (member id)|];
    [destruct (validPoint _ _) eqn:Hv; [destruct n as [|n]|]|..];
    match goal with |- context [observations member ?k l] => destruct (IH k) as (Ho & Hp & Hc & Ha & Hr) end;
    rewrite !count_cons; cbn [observes adds removes];
    (split_and!; [lia|by constructor|exact Hc|lia|lia]).
Qed.

(** One step: what it adds to the SDK's instruments and callbacks. *)
Definition meter_step_ok (s s' : MeterState) (out : list MeterOutput) : Prop :=
  (me_instruments s').*1 = (me_instruments s).*1 ++ omap created out ∧
  (me_callbackCount s + Z.of_nat (count adds out) = me_callbackCount s' + Z.of_nat (count removes out))%Z ∧
  Forall point_ok out ∧ count observes out ≤ 32 ∧ meter_ok s'.

Lemma same_state_ok s out : meter_ok s → omap created out = [] → count adds out = 0 → count removes out = 0 →
  count observes out ≤ 32 → Forall point_ok out → meter_step_ok s s out.
Proof. intros Hs Hc Ha Hr Ho Hp. unfold meter_step_ok. rewrite Hc, Ha, Hr, app_nil_r. by split_and!. Qed.

Ltac no_change := apply same_state_ok; try done; try (counted); repeat constructor; auto.

Lemma create_ok key name s : meter_ok s →
  let r := create_instrument key name s in meter_step_ok s r.1 r.2.
Proof.
  intros Hs. unfold create_instrument. destruct name as [| | | |n| |]; try no_change.
  destruct (prop_get (me_instruments s) (instrument_id key n)) eqn:Hg; [destruct (instrument_name n); no_change|].
  destruct (instrument_name n && negb (32 <=? length (me_instruments s))) eqn:Hn; [|no_change].
  apply andb_prop in Hn as [_ Hn%negb_true_iff%Nat.leb_gt]. destruct Hs as (Hnd & _ & Hc & Hb).
  unfold meter_step_ok, meter_ok. cbn -[count callbacks_on]. rewrite fmap_app, length_app, callbacks_on_app.
  set (k := callbacks_on [_]). assert (Hk : k = 0%Z) by done. clearbody k. cbn -[count callbacks_on].
  split_and!; try done; try lia; try (counted); try (apply Forall_singleton; exact I).
  apply NoDup_app. split_and!; [done| |by apply NoDup_singleton].
  intros x Hx ->%list_elem_of_singleton. apply prop_get_is_Some in Hx as [? ?]. congruence.
Qed.

Lemma add_callback_ok id i c s : meter_ok s → prop_get (me_instruments s) id = Some i →
  let r := add_callback id i c s in meter_step_ok s r.1 r.2.
Proof.
  intros Hs Hi. unfold add_callback. destruct c as [c|]; [|no_change].
  case_bool_decide; [no_change|]. destruct (Z.leb_spec 32 (me_callbackCount s)); [no_change|].
  destruct Hs as (Hnd & Hl & Hc & Hb). assert (is_Some (prop_get (me_instruments s) id)) by by eexists.
  unfold meter_step_ok, meter_ok. cbn -[count callbacks_on].
  rewrite prop_set_keys, prop_set_length, (callbacks_on_set _ _ _ _ Hi), app_nil_r by done. cbn -[count callbacks_on].
  rewrite length_app. cbn -[count callbacks_on]. split_and!; try done; try lia; try (counted). by apply Forall_singleton.
Qed.

Lemma remove_callback_ok id i c s : meter_ok s → prop_get (me_instruments s) id = Some i →
  let r := remove_callback id i c s in meter_step_ok s r.1 r.2.
Proof.
  intros Hs Hi. unfold remove_callback. destruct (remove_first _ _) as [[x rest]|] eqn:Hr; [|no_change].
  apply remove_first_length in Hr. destruct Hs as (Hnd & Hl & Hc & Hb).
  assert (is_Some (prop_get (me_instruments s) id)) by by eexists.
  unfold meter_step_ok, meter_ok. cbn -[count callbacks_on].
  rewrite prop_set_keys, prop_set_length, (callbacks_on_set _ _ _ _ Hi), app_nil_r by done. cbn -[count callbacks_on].
  split_and!; try done; try lia; try (counted). by apply Forall_singleton.
Qed.

Lemma add_batch_ok c values s : meter_ok s →
  let r := addBatchObservableCallback c values s in meter_step_ok s r.1 r.2.
Proof.
  intros Hs. unfold addBatchObservableCallback. destruct c as [c|]; [|no_change].
  destruct (selectedObservables s values) as [sel|]; [|no_change].
  destruct (existsb _ _); [no_change|]. destruct (Z.leb_spec 32 (me_callbackCount s)); [no_change|].
  destruct Hs as (Hnd & Hl & Hc & Hb). unfold meter_step_ok, meter_ok. cbn -[count callbacks_on].
  rewrite app_nil_r, length_app. cbn -[count callbacks_on].
  split_and!; try done; try lia; try (counted). by apply Forall_singleton.
Qed.

Lemma remove_batch_ok c values s : meter_ok s →
  let r := removeBatchObservableCallback c values s in meter_step_ok s r.1 r.2.
Proof.
  intros Hs. unfold removeBatchObservableCallback.
  destruct (selectedObservables s values) as [sel|]; [|no_change].
  destruct (remove_first _ _) as [[b rest]|] eqn:Hr; [|no_change].
  apply remove_first_length in Hr. destruct Hs as (Hnd & Hl & Hc & Hb). unfold meter_step_ok, meter_ok. cbn -[count callbacks_on].
  rewrite app_nil_r. split_and!; try done; try lia; try (counted). by apply Forall_singleton.
Qed.

Lemma meter_step_bounded s ev s' out : meter_step s ev = Some (s', out) → meter_ok s →
  meter_step_ok s s' out.
Proof.
  intros H Hs.
  assert (Hcollect : ∀ member obs, meter_step_ok s s (observations member 32 obs)).
  { intros member obs. destruct (observations_spec member 32 obs) as (? & ? & ? & ? & ?).
    by apply same_state_ok. }
  destruct ev as [key name|id c|id c|c values|c values|id n a|id c obs|b obs]; cbn in H.
  - injection H as H. pose proof (create_ok key name s Hs) as Hok. by rewrite H in Hok.
  - apply bind_Some in H as (i & Hi & H). destruct (in_observable i); [|done]. injection H as H.
    pose proof (add_callback_ok id i c s Hs Hi) as Hok. by rewrite H in Hok.
  - apply bind_Some in H as (i & Hi & H). destruct (in_observable i); [|done]. injection H as H.
    pose proof (remove_callback_ok id i c s Hs Hi) as Hok. by rewrite H in Hok.
  - injection H as H. pose proof (add_batch_ok c values s Hs) as Hok. by rewrite H in Hok.
  - injection H as H. pose proof (remove_batch_ok c values s Hs) as Hok. by rewrite H in Hok.
  - apply bind_Some in H as (i & Hi & H). destruct (in_observable i); [done|]. injection H as <- <-.
    destruct (validPoint n a) eqn:Hv; no_change.
  - apply bind_Some in H as (i & Hi & H). case_bool_decide; [|done]. injection H as <- <-. apply Hcollect.
  - destruct (existsb _ _); [|done]. injection H as <- <-. apply Hcollect.
Qed.

Lemma meter_run_bounded s evs s' out : StateMachine.run meter_step s evs s' out → meter_ok s →
  (me_instruments s').*1 = (me_instruments s).*1 ++ omap created out ∧
  (me_callbackCount s + Z.of_nat (count adds out) = me_callbackCount s' + Z.of_nat (count removes out))%Z ∧
  Forall point_ok out ∧ meter_ok s'.
Proof.
  induction 1 as [s|s ev s1 out evs s2 out' Hs _ IH]; intros Hok.
  - rewrite app_nil_r. split_and!; [done|counted|constructor|done].
  - destruct (meter_step_bounded _ _ _ _ Hs Hok) as (Hi & Hc & Hp & _ & Hok1).
    destruct (IH Hok1) as (Hi' & Hc' & Hp' & Hok2). rewrite omap_app, !count_app, Hi', Hi, app_assoc.
    split_and!; [done|lia|by apply Forall_app|done].
Qed.

(** * Lemmas: settings *)

Lemma num_compare_refl a : is_nan a = false → num_compare a a = Some Eq.
Proof.
  destruct a as [z|m e|[]|]; cbn; intros H; rewrite ?Z.compare_refl; done.
Qed.

Lemma unit_interval_spec n : unit_interval n = true →
  is_nan n = false ∧ num_le (NInt 0) n = true.
Proof.
  unfold unit_interval, num_le, num_lt, num_compare. destruct n as [z|m e|[]|]; try done; cbv beta iota;
    rewrite !andb_true_iff, !negb_true_iff; intros [[_ H] _]; (split; [done|]).
  - destruct (Z.compare_spec z 0), (Z.compare_spec 0 z); try done; lia.
  - rewrite Z.mul_0_l in *. destruct (Z.compare_spec m 0), (Z.compare_spec 0 m); try done; lia.
Qed.

Lemma num_min_unit a b : unit_interval a = true → unit_interval b = true →
  unit_interval (num_min a b) = true ∧ num_le (num_min a b) b = true.
Proof.
  intros Ha Hb. unfold num_min. destruct (num_compare a b) as [[]|] eqn:Hc.
  - split; [done|]. unfold num_le. by rewrite Hc.
  - split; [done|]. unfold num_le. by rewrite Hc.
  - split; [done|]. unfold num_le. rewrite num_compare_refl; [done|]. by apply unit_interval_spec.
  - exfalso. apply unit_interval_spec in Ha as [Ha _], Hb as [Hb _].
    by destruct a as [| |[]|], b as [| |[]|].
Qed.

(** What settings promise: a ratio of the unit interval, none where traces are off,
    and never more than the application asked for. *)
Definition settings_ok (override : option num) (s : BrowserSettings) : Prop :=
  unit_interval (st_sampleRatio s) = true ∧ (st_traces s = false → st_sampleRatio s = NInt 0) ∧
  ∀ ratio, override = Some ratio → num_le (st_sampleRatio s) ratio = true.

(** The override [createBrowserTelemetry] lets through. *)
Definition override_ok (override : option num) : Prop :=
  ∀ ratio, override = Some ratio → unit_interval ratio = true.

Lemma settings_off_ok override : override_ok override → settings_ok override settings_off.
Proof.
  intros Ho. split_and!; [done|done|]. intros r Hr. by apply Ho, unit_interval_spec in Hr as [_ ?].
Qed.

Lemma read_settings_ok data override s : override_ok override → read_settings data override = Some s →
  settings_ok override s.
Proof.
  intros Ho H. unfold read_settings in H. destruct data as [| | | | | |l]; try done.
  destruct (_ || _); [done|].
  destruct (prop _ "version"); try done. destruct (prop _ "traces") as [| |tr| | | |]; try done.
  destruct (prop _ "logs"); try done. destruct (prop _ "metrics"); try done.
  destruct (prop _ "sampleRatio") as [| | |ratio| | |]; try done.
  destruct (num_eqb _ _ && unit_interval ratio) eqn:Hu; [|done]. apply andb_prop in Hu as [_ Hu].
  injection H as <-. destruct tr; [|by apply settings_off_ok].
  assert (Hd : unit_interval (default ratio override) = true) by (destruct override; [by apply Ho|done]).
  destruct (num_min_unit _ _ Hu Hd) as [Hm Hle]. split_and!; [done|done|]. intros r ->. exact Hle.
Qed.

(** * Properties *)

(** Identifiers are what the caller meant: a primed trace identifier is the next
    trace's, once; any other identifier is of its width, lower-case hexadecimal and
    not zero; and priming refuses everything else with a [TypeError]. *)
Theorem generated_ids_meant {W} `{!Lens W IdGenerator} (getRandomValues : nat → M thrown W (list N))
    (cs : list IdCall) (w : W) :
  entropy_ok getRandomValues →
  ids_meant (ig_next (lens_get w)) (id_calls getRandomValues cs w).
Proof. intros Hent. by apply id_calls_meant. Qed.

(** C25 Whatever the application does with the meter, the SDK is asked for at most 32
    instruments, none of them twice; at most 32 callbacks are registered with it at
    any time; a run of a callback passes on at most 32 observations; and every point
    that reaches it is a finite number with bounded attributes. *)
Theorem meter_bounded (evs : list MeterEvent) (s : MeterState) (out : list MeterOutput) :
  StateMachine.run meter_step initial_meter evs s out →
  NoDup (omap created out) ∧ length (omap created out) ≤ 32 ∧
  (Z.of_nat (count adds out) - Z.of_nat (count removes out) ≤ 32)%Z ∧
  Forall point_ok out ∧
  ∀ ev s' out', meter_step s ev = Some (s', out') → count observes out' ≤ 32.
Proof.
  intros H. destruct (meter_run_bounded _ _ _ _ H) as (Hi & Hc & Hp & Hok).
  { unfold meter_ok. cbn. split_and!; [constructor|lia..]. }
  cbn in Hi, Hc. destruct Hok as (Hnd & Hl & Hcount & Hb).
  rewrite <- Hi, length_fmap. split_and!; [done|done|lia|done|].
  intros ev s' out' Hs. by apply meter_step_bounded in Hs as (_ & _ & _ & ? & _).
Qed.

(** Whatever configuration a page has, its traces are sampled at a ratio of the unit
    interval that is at most what the application asked for, and not at all where the
    configuration switches traces off. *)
Theorem settings_bounded (J : jsstring → option jsval) (nodes : list (option jsstring)) (override : option num) :
  override_ok override → settings_ok override (browserSettings J nodes override).
Proof.
  intros Ho. pose proof (settings_off_ok _ Ho) as Hoff. unfold browserSettings.
  destruct nodes as [|[content|] [|? ?]]; try done.
  - destruct override as [r|]; [|done]. specialize (Ho r eq_refl). split_and!; [done|done|].
    intros ? [= <-]. unfold num_le. rewrite num_compare_refl; [done|]. by apply unit_interval_spec.
  - destruct (_ <? _)%N; [done|]. destruct (J content ≫= _) as [s|] eqn:Hs; [|done].
    apply bind_Some in Hs as (data & _ & Hs). by eapply read_settings_ok.
Qed.

(** * A page's telemetry *)

Module DemoTelemetry.
(** An entropy source that gives a zero array first. *)
Record world := { wd_next : IdGenerator; wd_draws : N }.

#[local] Instance world_lens : Lens world IdGenerator.
Proof.
  refine {| lens_get := wd_next; lens_put g w := {| wd_next := g; wd_draws := wd_draws w |} |}; done.
Defined.

Definition draw (n : nat) : M thrown world (list N) := λ w,
  (Ok (repeat (wd_draws w mod 256)%N n), {| wd_next := wd_next w; wd_draws := wd_draws w + 1 |}).

Lemma draw_ok : entropy_ok draw.
Proof.
  intros n w r w' [= <- <-]. split; [done|]. intros data [= <-]. split; [apply repeat_length|].
  apply Forall_forall. intros x Hx%list_elem_of_In%repeat_spec. subst x. apply N.mod_lt. lia.
Qed.

Definition fresh : world := {| wd_next := {| ig_next := None |}; wd_draws := 0 |}.

Definition calls : list IdCall :=
  [TraceId; SpanId; Prime (VStr (js "0af7651916cd43dd8448eb211c80319c")); Prime (VStr (js "0")); TraceId; TraceId].

Example ids_drawn :
  map snd (id_calls draw calls fresh) =
    [Ok (js "01010101010101010101010101010101"); Ok (js "0202020202020202"); Ok [];
     Err (ThrowError (js "TypeError")); Ok (js "0af7651916cd43dd8448eb211c80319c");
     Ok (js "03030303030303030303030303030303")].
Proof. vm_compute. done. Qed.

Lemma generated_ids_meant_witness : ids_meant None (id_calls draw calls fresh).
Proof. refine (generated_ids_meant draw calls fresh draw_ok). Defined.

Definition size : jsstring := instrument_id CreateObservableGauge (js "queue.size").

Definition used : list MeterEvent :=
  [Create CreateObservableGauge (VStr (js "queue.size")); Create CreateCounter (VStr (js "2bad"));
   Create CreateObservableGauge (VStr (js "queue.size"));
   AddCallback size (Some 1%N); AddCallback size (Some 1%N); AddBatch (Some 2%N) (Some [Some size; Some size]);
   CollectBatch {| ba_callback := 2; ba_selected := [size] |}
     [{| ob_instrument := Some size; ob_number := VNum (NInt 3); ob_attributes := VUndef |};
      {| ob_instrument := None; ob_number := VNum (NInt 3); ob_attributes := VUndef |};
      {| ob_instrument := Some size; ob_number := VNum NNaN; ob_attributes := VUndef |}];
   RemoveCallback size 1].

Definition used_state : MeterState := {|
  me_instruments := [(size, {| in_observable := true; in_callbacks := [] |})];
  me_batches := [{| ba_callback := 2; ba_selected := [size] |}]; me_callbackCount := 1 |}.

Definition used_out : list MeterOutput :=
  [InnerCreate size; ReportInvalid; InnerAddCallback size 1; InnerAddBatch 2 [size];
   InnerObserve size (VNum (NInt 3)) VUndef; ReportInvalid; ReportInvalid; InnerRemoveCallback size 1].

Lemma meter_bounded_witness :
  NoDup (omap created used_out) ∧ length (omap created used_out) ≤ 32 ∧
  (Z.of_nat (count adds used_out) - Z.of_nat (count removes used_out) ≤ 32)%Z ∧
  Forall point_ok used_out ∧
  ∀ ev s' out', meter_step used_state ev = Some (s', out') → count observes out' ≤ 32.
Proof.
  refine (meter_bounded used used_state used_out _). apply play_run. vm_compute. reflexivity.
Defined.
Lemma settings_bounded_witness :
  settings_ok (Some (NFrac 1 2)) (browserSettings (λ _, Some (VObj
    [(js "version", VNum (NInt 1)); (js "traces", VBool true); (js "logs", VBool true);
     (js "metrics", VBool false); (js "sampleRatio", VNum (NInt 1))])) [Some (js "{}")] (Some (NFrac 1 2))).
Proof. refine (settings_bounded _ _ _ _). by intros ? [= <-]. Defined.
End DemoTelemetry.
