(* ===== verification/TelemetryTrace.v ===== *)
(** The trace sink over the generated telemetry: [beginTrace] is
    [idGenerator.primeTraceId] ([console/out/browsertelemetry/index.js]), and the
    tracer asks that generator for the identifiers of its spans. What the sink relies on
    ([TraceSink.otel_ok]) follows from what the OpenTelemetry SDK documents of a tracer
    that has an identifier generator. *)
From S2P Require Export Composition Telemetry.

Section traced.
Context {W Sp Ctx : Type} `{!Lens W (SpanMap Sp)} `{!Lens W IdGenerator}.

(** [beginTrace: value => idGenerator.primeTraceId(value)] *)
Definition generated_beginTrace (value : jsstring) : M thrown W unit := primeTraceId (VStr value).

Context (getRandomValues : nat → M thrown W (list N)) (tlog : W → list (TraceEvent Sp Ctx)) (otel : Otel W Sp Ctx).

(** What the SDK documents of its tracer: a root span gets the trace id the generator
    returns for it, asked once and as it stands; starting any span takes at most the
    identifier that was primed; nothing else touches the generator; and the generator
    has nothing to do with the record of calls and the sink's map. *)
Record sdk_ok : Prop := {
  sd_calls : otel_calls_ok tlog otel;
  sd_root w n a k s w' : ot_startSpan otel n a k (ot_ROOT_CONTEXT otel) w = (Ok s, w') →
    ∃ w0 w1 t, lens_get (S := IdGenerator) w0 = lens_get w ∧ generateTraceId getRandomValues w0 = (Ok t, w1) ∧
      lens_get (S := IdGenerator) w' = lens_get w1 ∧ belongs otel s t;
  sd_start w n a k c s w' : ot_startSpan otel n a k c w = (Ok s, w') →
    lens_get (S := IdGenerator) w' = lens_get w ∨ ig_next (lens_get w') = None;
  sd_setAttribute w s k v r w' : ot_setAttribute otel s k v w = (r, w') → lens_get (S := IdGenerator) w' = lens_get w;
  sd_setStatus w s c r w' : ot_setStatus otel s c w = (r, w') → lens_get (S := IdGenerator) w' = lens_get w;
  sd_end w s r w' : ot_end otel s w = (r, w') → lens_get (S := IdGenerator) w' = lens_get w;
  sd_log (g : IdGenerator) w : tlog (lens_put g w) = tlog w;
  sd_spans (g : IdGenerator) w : lens_get (S := SpanMap Sp) (lens_put g w) = lens_get w;
  sd_generator (m : SpanMap Sp) w : lens_get (S := IdGenerator) (lens_put m w) = lens_get w
}.

(** * Lemmas *)

Context (Hent : entropy_ok getRandomValues) (Hsdk : sdk_ok).

Lemma generated_begin t w : hex_id 32 t →
  generated_beginTrace t w = (Ok tt, lens_put {| ig_next := Some t |} w).
Proof using. intros Ht%is_trace_id_spec. unfold generated_beginTrace, primeTraceId. by rewrite Ht. Qed.

(** A primed generator returns that identifier and forgets it; any other way it forgets too. *)
Lemma generated_once w t w1 : generateTraceId getRandomValues w = (Ok t, w1) →
  ig_next (lens_get w1) = None ∧ ∀ t', ig_next (lens_get w) = Some t' → t = t'.
Proof using Hent.
  unfold generateTraceId. destruct (ig_next (lens_get w)) as [t'|].
  - intros [= <- <-]. rewrite lens_get_put. split; [done|]. by intros ? [= <-].
  - intros H. apply (random_attempts_id getRandomValues Hent) in H as [-> _]. by rewrite lens_get_put.
Qed.

Lemma primed_root w t n a k s w2 : hex_id 32 t →
  ot_startSpan otel n a k (ot_ROOT_CONTEXT otel) (lens_put {| ig_next := Some t |} w) = (Ok s, w2) →
  belongs otel s t ∧ ig_next (lens_get w2) = None.
Proof using Hent Hsdk.
  intros Ht Hs. apply (sd_root Hsdk) in Hs as (w0 & w1 & t' & H0 & Hg & H2 & Hb).
  apply generated_once in Hg as [Hn Ht']. rewrite H0, lens_get_put in Ht'. rewrite H2.
  by rewrite <- (Ht' t eq_refl).
Qed.

(** The contract of the sink, with the generated [beginTrace]. *)
Lemma generated_otel_ok : otel_ok tlog otel generated_beginTrace.
Proof using Hent Hsdk.
  split; [apply Hsdk| |].
  - intros w t Ht. exists (lens_put {| ig_next := Some t |} w). rewrite generated_begin by done.
    split_and!; [done|apply Hsdk|apply (sd_spans Hsdk)].
  - intros w t w1 n a k s w2 Ht Hb Hs. rewrite generated_begin in Hb by done. injection Hb as <-.
    by apply primed_root in Hs as [? _].
Qed.

(** ** The primed identifier is used up *)

Definition unprimed (w : W) : Prop := ig_next (lens_get w) = None.

(** A step that leaves no identifier primed. *)
Definition uses_up {A} (m : M thrown W A) : Prop := ∀ w a w', unprimed w → m w = (Ok a, w') → unprimed w'.

Lemma uses_up_bind {A B} (m : M thrown W A) (f : A → M thrown W B) :
  uses_up m → (∀ a, uses_up (f a)) → uses_up (m ≫= f).
Proof using.
  intros Hm Hf w b w' Hw H. apply bind_Ok in H as (a & w1 & H1 & H2). eapply Hf; [|exact H2]. by eapply Hm.
Qed.

Lemma uses_up_get : uses_up (get_spans (Sp := Sp)).
Proof using. by intros w a w' Hw [= <- <-]. Qed.

Lemma uses_up_ret {A} (a : A) : uses_up (mret a).
Proof using. by intros w x w' Hw [= <- <-]. Qed.

Lemma uses_up_put (m : SpanMap Sp) : uses_up (put_spans m).
Proof using Hsdk. intros w a w' Hw [= <- <-]. unfold unprimed. by rewrite (sd_generator Hsdk). Qed.

Lemma uses_up_active : uses_up (active otel).
Proof using. by intros w a w' Hw [= <- <-]. Qed.

Lemma uses_up_start n a k c : uses_up (ot_startSpan otel n a k c).
Proof using Hsdk. intros w s w' Hw H. apply (sd_start Hsdk) in H as [H|H]; unfold unprimed in *; congruence. Qed.

Lemma uses_up_attribute s k v : uses_up (ot_setAttribute otel s k v).
Proof using Hsdk. intros w a w' Hw H. apply (sd_setAttribute Hsdk) in H. unfold unprimed in *. congruence. Qed.

Lemma uses_up_status s c : uses_up (ot_setStatus otel s c).
Proof using Hsdk. intros w a w' Hw H. apply (sd_setStatus Hsdk) in H. unfold unprimed in *. congruence. Qed.

Lemma uses_up_end s : uses_up (ot_end otel s).
Proof using Hsdk. intros w a w' Hw H. apply (sd_end Hsdk) in H. unfold unprimed in *. congruence. Qed.

Lemma uses_up_when {A} (o : option A) (f : A → M thrown W unit) : (∀ a, uses_up (f a)) → uses_up (when_some o f).
Proof using. intros Hf. destruct o; [apply Hf|apply uses_up_ret]. Qed.

Ltac uses_up :=
  repeat first
    [ apply uses_up_get | apply uses_up_ret | apply uses_up_put | apply uses_up_active | apply uses_up_start
    | apply uses_up_attribute | apply uses_up_status | apply uses_up_end
    | apply uses_up_when; intros | apply uses_up_bind; intros ].

(** A workflow takes the identifier it has primed. *)
Lemma workflow_uses_up p : traceable p → uses_up (startWorkflow otel generated_beginTrace p).
Proof using Hent Hsdk.
  intros Hp w a w' Hw H. unfold startWorkflow in H. apply bind_Ok in H as (ambient & w1 & [= <- <-] & H).
  apply bind_Ok in H as (parent & w2 & Hparent & H). apply bind_Ok in H as (s & w3 & Hs & H).
  assert (unprimed w3) as H3.
  { destruct (pb_traceId p) as [t|] eqn:Ht.
    - apply bind_Ok in Hparent as (? & w4 & Hb & [= <- <-]). rewrite generated_begin in Hb by by apply Hp.
      injection Hb as _ <-. by apply primed_root in Hs as [_ ?]; [|apply Hp].
    - injection Hparent as <- <-. eapply uses_up_start; [exact Hw|exact Hs]. }
  revert H3 H. assert (Hrest : uses_up (get_spans ≫= λ m, put_spans
    (<[pb_correlationId p := {| se_workflow := s; se_dependency := None |}]> m))) by uses_up.
  apply Hrest.
Qed.

Lemma publish_uses_up p : traceable p → uses_up (trace_publish otel generated_beginTrace p).
Proof using Hent Hsdk.
  intros Hp. unfold trace_publish. destruct (pb_name p); [by apply workflow_uses_up|..];
    unfold startDependency, completeDependency, completeWorkflow, set_dependency, applyTerminalOutcome; uses_up.
Qed.

Lemma all_uses_up ps : Forall traceable ps → uses_up (trace_all otel generated_beginTrace ps).
Proof using Hent Hsdk.
  induction 1 as [|p ps Hp _ IH]; [apply uses_up_ret|]. apply uses_up_bind; [by apply publish_uses_up|done].
Qed.
End traced.

(** The composition over the generated telemetry: the rest of what it relies on. *)
Lemma generated_console_ok {Sp Ctx Y O : Type} `{!Lens (ObsWorld (ConsoleExt Sp Y)) IdGenerator} getRandomValues
    otel createBrowserTelemetry platform (tlog : Y → list (TraceEvent Sp Ctx)) (wire : Y → O) :
  tm_beginTrace (telemetry createBrowserTelemetry) = generated_beginTrace →
  entropy_ok getRandomValues → sdk_ok getRandomValues (trace_log tlog) otel →
  console_quiet otel createBrowserTelemetry platform tlog wire →
  console_ok otel createBrowserTelemetry platform tlog wire.
Proof. intros Hb Hent Hsdk Hq. split; [|done]. rewrite Hb. by eapply generated_otel_ok. Qed.

(** * Properties *)

(** C11 Over the generated telemetry, whatever well-formed probes arrive, of whichever calls
    and in whichever order, every span the sink holds is part of the trace whose id the
    workflow of its call was last started with; the header the adapter is given for the
    call names that trace; and the identifier that was primed for a workflow has been
    used up, so that no other root of the page is taken into the trace. *)
Theorem generated_trace_adopted {W Sp Ctx : Type} `{!Lens W (SpanMap Sp)} `{!Lens W IdGenerator}
    (getRandomValues : nat → M thrown W (list N)) (tlog : W → list (TraceEvent Sp Ctx)) (otel : Otel W Sp Ctx)
    (ps : list GatewayProbe) (w : W) :
  entropy_ok getRandomValues → sdk_ok getRandomValues tlog otel → Forall traceable ps →
  lens_get (S := SpanMap Sp) w = ∅ → unprimed w →
  ∃ w', trace_all otel generated_beginTrace ps w = (Ok tt, w') ∧ unprimed w' ∧
    ∀ c t, chosen c None ps = Some t →
      (∀ s, owns (lens_get (S := SpanMap Sp) w') c s → belongs otel s t) ∧
      (∀ tc, traceParentFor otel w' c = Some tc → ∃ rest, tc_traceparent tc = js "00-" ++ t ++ js "-" ++ rest).
Proof.
  intros Hent Hsdk Hps Hm Hu. pose proof (generated_otel_ok getRandomValues tlog otel Hent Hsdk) as Hok.
  destruct (trace_all_steps tlog otel generated_beginTrace Hok ps w Hps) as (w' & Hw & Hs).
  exists w'. split_and!; [done|exact (all_uses_up getRandomValues tlog otel Hent Hsdk ps Hps w tt w' Hu Hw)|].
  rewrite Hm in Hs. apply (trace_steps_belong _ _ _ _ _ _ (λ _, None)) in Hs; [|intros c s t (e & He & _); by rewrite lookup_empty in He].
  intros c t Ht. assert (Hown : ∀ s, owns (lens_get (S := SpanMap Sp) w') c s → belongs otel s t)
    by (intros s Ho; by eapply Hs). split; [done|].
  intros tc. unfold traceParentFor, active_span. destruct (lens_get w' !! c) as [e|] eqn:He; [|done].
  set (s := default (se_workflow e) (se_dependency e)).
  assert (belongs otel s t) as Hb.
  { apply Hown. exists e. split; [done|]. unfold s, entry_spans. destruct (se_dependency e); set_solver. }
  destruct (ot_isSpanContextValid _ _); [|done]. intros [= <-]. cbn [tc_traceparent].
  unfold render_traceparent. rewrite (Hb w'). by eexists.
Qed.

(** * A tracer over the generator, for the witness *)

Module DemoGenerated.
Import DemoTracer.

Record page := { pg_tracer : world; pg_next : IdGenerator }.

#[local] Instance page_spans : Lens page (SpanMap Span).
Proof.
  refine {| lens_get w := tw_spans (pg_tracer w);
            lens_put m w := {| pg_tracer := {| tw_log := tw_log (pg_tracer w); tw_spans := m;
                                               tw_next := tw_next (pg_tracer w) |};
                               pg_next := pg_next w |} |}; done.
Defined.

#[local] Instance page_generator : Lens page IdGenerator.
Proof.
  refine {| lens_get := pg_next; lens_put g w := {| pg_tracer := pg_tracer w; pg_next := g |} |}; done.
Defined.

Definition log (w : page) : list (TraceEvent Span (option Span)) := tw_log (pg_tracer w).

Definition entropy (n : nat) : M thrown page (list N) := mret (repeat 7%N n).

Definition emitted (e : TraceEvent Span (option Span)) (w : page) : page :=
  {| pg_tracer := snd (emit e (pg_tracer w)); pg_next := pg_next w |}.

(** The trace of the parent, or the one the generator gives. *)
Definition trace_for (c : option Span) : M thrown page jsstring :=
  match c with Some s => mret (sctx_traceId (sp_context s)) | None => generateTraceId entropy end.

Definition start n a k (c : option Span) : M thrown page Span :=
  trace_for c ≫= λ t, (λ w,
    let s := {| sp_number := fresh_number (log w); sp_context := context_of None (Some t) |} in
    (Ok s, emitted (EvStart s n a k c) w)) : M thrown page Span.

Definition tracer : Otel page Span (option Span) := {|
  ot_startSpan := start;
  ot_setAttribute s k v w := (Ok tt, emitted (EvAttribute s k v) w);
  ot_setStatus s c w := (Ok tt, emitted (EvStatus s c) w);
  ot_end s w := (Ok tt, emitted (EvEnd s) w);
  ot_spanContext _ s := sp_context s;
  ot_active _ := None; ot_ROOT_CONTEXT := None; ot_setSpan _ s := Some s;
  ot_setSpanContext c _ := c; ot_isSpanContextValid _ := true |}.

Lemma entropy_fine : entropy_ok entropy.
Proof.
  intros n w r w' [= <- <-]. split; [done|]. intros data [= <-]. split; [apply repeat_length|].
  apply Forall_forall. intros x Hx%list_elem_of_In%repeat_spec. by subst x.
Qed.

Lemma trace_for_ok c w : ∃ t w', trace_for c w = (Ok t, w') ∧ pg_tracer w' = pg_tracer w ∧
  (pg_next w' = pg_next w ∨ ig_next (pg_next w') = None) ∧
  (c = None → generateTraceId entropy w = (Ok t, w')) ∧ (∀ s, c = Some s → t = sctx_traceId (sp_context s)).
Proof.
  destruct c as [s|]; cbn [trace_for]; [eexists _, w; split_and!; naive_solver|].
  unfold generateTraceId. destruct (ig_next (lens_get w)) as [t|]; [by eexists t, _; split_and!; [..|done]; auto|].
  eexists _, _. split_and!; [vm_compute; reflexivity|done|by right|by intros _; vm_compute|done].
Qed.

Lemma tracer_calls : otel_calls_ok log tracer.
Proof.
  split; try (intros; eexists; split_and!; done); try done.
  - intros w n a k c. destruct (trace_for_ok c w) as (t & w1 & Ht & Hw & _). cbn. unfold start.
    rewrite (M_bind_ok _ _ _ _ _ Ht). eexists _, _. split; [done|]. unfold log. cbn. rewrite Hw.
    split_and!; [by apply fresh_number_new|done|done].
  - intros w n a k ambient s d w' t Hs H w0. cbn in H. unfold start in H.
    destruct (trace_for_ok (Some s) w) as (t' & w1 & Ht & _ & _ & _ & He).
    rewrite (M_bind_ok _ _ _ _ _ Ht) in H. injection H as <- _. cbn. rewrite (He s eq_refl). apply (Hs w).
Qed.

Lemma tracer_ok : sdk_ok entropy log tracer.
Proof.
  split; [apply tracer_calls|..]; try done; try (by intros; simplify_eq/=).
  - intros w n a k s w' H. cbn in H. unfold start in H.
    destruct (trace_for_ok None w) as (t & w1 & Ht & _ & _ & Hg & _).
    rewrite (M_bind_ok _ _ _ _ _ Ht) in H. injection H as <- <-. exists w, w1, t.
    split_and!; [done|by apply Hg|done|done].
  - intros w n a k c s w' H. cbn in H. unfold start in H.
    destruct (trace_for_ok c w) as (t & w1 & Ht & _ & Hn & _ & _).
    rewrite (M_bind_ok _ _ _ _ _ Ht) in H. injection H as <- <-. exact Hn.
Qed.

Definition opened_page : page := {| pg_tracer := initial; pg_next := {| ig_next := None |} |}.

(** The first three probes of two calls. *)
Definition begun_calls : list GatewayProbe := take 3 two_calls.

Lemma begun_traceable : Forall traceable begun_calls.
Proof. apply Forall_take, two_calls_traceable. Qed.

Example first_trace_chosen : chosen (js "c1") None begun_calls = Some (repeat 49%N 32).
Proof. vm_compute. done. Qed.

Lemma generated_trace_adopted_witness :
  ∃ w', trace_all tracer generated_beginTrace begun_calls opened_page = (Ok tt, w') ∧ unprimed w' ∧
    (∃ rest, (tc_traceparent <$> traceParentFor tracer w' (js "c1")) =
             Some (js "00-" ++ repeat 49%N 32 ++ js "-" ++ rest)).
Proof.
  refine ((λ T, _) (generated_trace_adopted entropy log tracer begun_calls opened_page entropy_fine tracer_ok
    begun_traceable eq_refl eq_refl)).
  destruct T as (w' & Hw & Hu & Hc). exists w'. split; [exact Hw|]. split; [exact Hu|].
  destruct (Hc (js "c1") (repeat 49%N 32) eq_refl) as [_ Htc].
  assert (is_Some (traceParentFor tracer w' (js "c1"))) as [tc E].
  { assert (H : snd (trace_all tracer generated_beginTrace begun_calls opened_page) = w') by by rewrite Hw.
    rewrite <- H. vm_compute. by eexists. }
  rewrite E. destruct (Htc tc E) as (rest & Hr). exists rest. exact (f_equal Some Hr).
Defined.
End DemoGenerated.
