(* ===== verification/TelemetryExport.v ===== *)
(** The exporters of the generated browser telemetry
    ([console/out/browsertelemetry/index.js]): what one export sends, how exports
    follow one another, and the lives of the telemetries of a page.

    The serializers, the span, log and metric processors and their schedules are
    third-party code. A deadline of five seconds ends an export that is still
    running as a failure; here it is one of the ways an export settles. *)
From S2P Require Export Telemetry.

Definition maxBody : Z := 262144.
Definition maxAnswer : Z := 16384.    (* the file's [maxResponse] *)

Definition signal_str (s : TelemetrySignal) : jsstring :=
  match s with Traces => js "traces" | Logs => js "logs" | Metrics => js "metrics" end.

(** * What one export sends *)

Record TelemetryRequest := {
  tq_url : jsstring;
  tq_method : option jsstring;                 (* a GET without one *)
  tq_headers : list (jsstring * jsstring);
  tq_body : option (list N);
  tq_credentials : jsstring;
  tq_mode : jsstring;
  tq_cache : jsstring;
  tq_redirect : jsstring;
  tq_referrerPolicy : jsstring
}.

Record TelemetryResponse := {
  tr_status : Z;
  tr_contentType : option jsstring;
  tr_contentLength : option jsstring;
  tr_body : option (list (list N) * option thrown)
}.

(** What the deserializer finds rejected: the three counts, each 0 when absent. *)
Record PartialSuccess := { ps_rejected : list num; ps_errorMessage : jsstring }.

(** What the exporter uses of the page and of the OpenTelemetry packages. *)
Record Wire (W : Type) := {
  wi_fetch : TelemetryRequest → M thrown W TelemetryResponse;
  wi_cancel : TelemetryResponse → M thrown W unit;
  wi_decoder : TextDecoder;
  wi_JSON : jsstring → option jsval;
  wi_deserialize : list N → result thrown (option PartialSuccess)
}.
Arguments wi_fetch {W}.
Arguments wi_cancel {W}.
Arguments wi_decoder {W}.
Arguments wi_JSON {W}.
Arguments wi_deserialize {W}.

Definition plain_error : thrown := ThrowError (js "Error").

(** [(header ?? "").split(";")[0].trim().toLowerCase() === type]; no unit outside
    ASCII has a letter of the two types for its lower case. *)
Definition has_type (type : string) (contentType : option jsstring) : bool :=
  bool_decide (ascii_lower (trim (first_part 59 (default [] contentType))) = js type).

Definition declared_too_long (contentLength : option jsstring) : bool :=
  match contentLength with
  | None => false
  | Some d => negb (is_nonempty d && forallb is_digit d) ||
              num_lt (NInt maxAnswer) (number_of_digits d)
  end.

(** The bytes of a body, chunk by chunk. *)
Fixpoint read_parts (chunks : list (list N)) (ended : option thrown) (size : Z) (bytes : list N) :
    result thrown (list N) :=
  match chunks with
  | [] => match ended with Some e => Err e | None => Ok bytes end
  | part :: chunks' =>
      let size' := (size + length_Z part)%Z in
      if (maxAnswer <? size')%Z then Err plain_error
      else read_parts chunks' ended size' (bytes ++ part)
  end.

Section export.
Context {W : Type} (wire : Wire W) (origin : jsstring) (signal : TelemetrySignal).

(** [response.body?.cancel()] *)
Definition cancel_body (response : TelemetryResponse) : M thrown W unit :=
  match tr_body response with Some _ => wi_cancel wire response | None => mret tt end.

Definition boundedBody (response : TelemetryResponse) : M thrown W (list N) :=
  if declared_too_long (tr_contentLength response) then
    cancel_body response ≫= λ _, throw plain_error
  else
    match tr_body response with
    | None => mret []
    | Some (chunks, ended) =>
        match read_parts chunks ended 0 [] with
        | Ok bytes => mret bytes
        | Err e => λ w, (Err e, (wi_cancel wire response w).2)    (* what it throws is dropped *)
        end
    end.

Definition telemetry_request (path : jsstring) (method : option jsstring)
    (headers : list (jsstring * jsstring)) (body : option (list N)) : TelemetryRequest := {|
  tq_url := origin ++ path; tq_method := method; tq_headers := headers; tq_body := body;
  tq_credentials := js "same-origin"; tq_mode := js "same-origin"; tq_cache := js "no-store";
  tq_redirect := js "error"; tq_referrerPolicy := js "no-referrer" |}.

(** The inner [request]: an answer that is ok. *)
Definition fetch_ok (path : jsstring) (method : option jsstring) (headers : list (jsstring * jsstring))
    (body : option (list N)) : M thrown W TelemetryResponse :=
  wi_fetch wire (telemetry_request path method headers body) ≫= λ response,
  if response_ok (tr_status response) then mret response
  else cancel_body response ≫= λ _, throw plain_error.

(** [new TextDecoder("utf-8", { fatal: true }).decode(bytes)] *)
Definition decode_text (bytes : list N) : option jsstring :=
  r ← td_decode (wi_decoder wire) (td_new (wi_decoder wire)) bytes;
  t ← td_flush (wi_decoder wire) r.2; Some (r.1 ++ t).

(** The token of the page's session, which must be authenticated. *)
Definition session_token_of (bytes : list N) : result thrown jsstring :=
  match decode_text bytes with
  | None => Err (ThrowError (js "TypeError"))
  | Some text =>
      match wi_JSON wire text with
      | None => Err (ThrowError (js "SyntaxError"))
      | Some VNull | Some VUndef => Err (ThrowError (js "TypeError"))
      | Some session =>
          if is_authenticated session && is_csrf_token (prop session "csrf_token")
          then match csrf_of session with Some token => Ok token | None => Err plain_error end
          else Err plain_error
      end
  end.

Definition export_session : M thrown W jsstring :=
  fetch_ok (js "/auth/session") None [(js "Accept", js "application/json")] None ≫= λ response,
  if has_type "application/json" (tr_contentType response)
  then boundedBody response ≫= λ bytes, lift_result (session_token_of bytes)
  else throw plain_error.

Definition partially_rejected (p : PartialSuccess) : bool :=
  existsb (λ n, truthy (VNum n)) (ps_rejected p) || is_nonempty (ps_errorMessage p).

(** The answer to the export: empty, or one that rejects nothing. *)
Definition check_answer (response : TelemetryResponse) (body : list N) : result thrown unit :=
  match body with
  | [] => Ok tt
  | _ =>
      if has_type "application/x-protobuf" (tr_contentType response) then
        match wi_deserialize wire body with
        | Err e => Err e
        | Ok (Some p) => if partially_rejected p then Err plain_error else Ok tt
        | Ok None => Ok tt
        end
      else Err plain_error
  end.

Definition export_headers (token : jsstring) : list (jsstring * jsstring) :=
  [(js "Content-Type", js "application/x-protobuf"); (js "Accept", js "application/x-protobuf");
   (js "X-CSRF-Token", token)].

(** The part of [send] that races with the deadline. *)
Definition send (data : list N) : M thrown W unit :=
  export_session ≫= λ token,
  fetch_ok (js "/telemetry/v1/" ++ signal_str signal) (Some (js "POST"))
    (export_headers token) (Some data) ≫= λ response,
  boundedBody response ≫= λ body, lift_result (check_answer response body).
End export.

(** * Exports, one after another *)

(** An exporter: whether it was shut down, the tasks in its set [pending], and those
    of them that are still sending. *)
Record Exporter := { es_stopped : bool; es_pending : list N; es_sending : list N }.

Definition new_exporter : Exporter := {| es_stopped := false; es_pending := []; es_sending := [] |}.

(** [export(records, callback)] with the size of what the serializer makes of the
    records, if it makes bytes; a task settles; a task that has settled leaves the
    set; [shutdown()]. *)
Inductive ExportEvent :=
| Export (task : N) (size : option Z)
| Settled (task : N) (ok : bool)
| Forgotten (task : N)
| ShutDown.

(** The callback is called with a code; a loss is reported; a task begins. *)
Inductive ExportOutput := Answered (task : N) (ok : bool) | ReportFailed | Sending (task : N) (size : Z).

Definition finish (task : N) (ok : bool) : list ExportOutput :=
  if ok then [Answered task true] else [ReportFailed; Answered task false].

Definition export_step (s : Exporter) (ev : ExportEvent) : option (Exporter * list ExportOutput) :=
  match ev with
  | Export task size =>
      if decide (task ∈ es_pending s) then None
      else if es_stopped s || (1 <=? length (es_pending s)) then Some (s, finish task false)
      else match size with
           | Some n =>
               if (maxBody <? n)%Z then Some (s, finish task false)
               else Some ({| es_stopped := es_stopped s; es_pending := es_pending s ++ [task];
                             es_sending := es_sending s ++ [task] |}, [Sending task n])
           | None => Some (s, finish task false)
           end
  | Settled task ok =>
      if decide (task ∈ es_sending s)
      then Some ({| es_stopped := es_stopped s; es_pending := es_pending s;
                    es_sending := filter (λ t, t ≠ task) (es_sending s) |}, finish task ok)
      else None
  | Forgotten task =>
      if decide (task ∈ es_pending s ∧ (task ∉ es_sending s))
      then Some ({| es_stopped := es_stopped s; es_pending := filter (λ t, t ≠ task) (es_pending s);
                    es_sending := es_sending s |}, [])
      else None
  | ShutDown =>
      Some ({| es_stopped := true; es_pending := es_pending s; es_sending := es_sending s |}, [])
  end.

(** * The telemetries of a page *)

Inductive CallbackOption := NoCallback | CallbackGiven | NotAFunction.

Inductive TelemetryOptions :=
| OptionsNotObject
| OptionsGiven (keys : list jsstring) (sampleRatio : option num) (callback : CallbackOption).

Definition options_ok (options : TelemetryOptions) : bool :=
  match options with
  | OptionsNotObject => false
  | OptionsGiven keys sampleRatio callback =>
      forallb (λ k, bool_decide (k ∈ [js "sampleRatio"; js "reportDeliveryFailure"])) keys &&
      unit_interval (default (NInt 0) sampleRatio) &&
      (if callback is NotAFunction then false else true)
  end.

(** What the page's global object has: an address, unless the page is rendered on a
    server, [fetch], and a source of entropy. *)
Record PageGlobals := { pg_location : option URL; pg_fetch : bool; pg_entropy : bool }.

Inductive ShutdownTask := NotShutDown | AwaitsFlush | ProvidersEnding | Ended.

(** One telemetry: whether [flushTask] is set, and its [shutdownTask]. *)
Record Telemetry := { te_flushing : bool; te_shutdown : ShutdownTask }.

(** The module's variable [instances], and the telemetries it counts. *)
Record Page := { pa_instances : Z; pa_telemetries : list Telemetry }.

Definition new_page : Page := {| pa_instances := 0; pa_telemetries := [] |}.

(** [createBrowserTelemetry(options)]; the calls of the telemetry [i] and the ends of
    what they await; the page is hidden. *)
Inductive PageEvent :=
| CreateTelemetry (options : TelemetryOptions) (globals : PageGlobals)
| ForceFlush (i : nat)
| FlushSettled (i : nat)
| Shutdown (i : nat)
| ShutdownProceeds (i : nat)
| ShutdownSettled (i : nat)
| PageHidden.

Inductive PageOutput :=
| Created (i : nat)
| CreatedInert
| Refused
| ProvidersFlush (i : nat)
| ProvidersShutdown (i : nat).

Definition is_shut (t : Telemetry) : bool := if te_shutdown t is NotShutDown then false else true.

(** [forceFlush]: nothing new while a flush is running or after a shutdown. *)
Definition forceFlush (i : nat) (t : Telemetry) : Telemetry * list PageOutput :=
  if is_shut t then (t, [])
  else if te_flushing t then (t, [])
  else ({| te_flushing := true; te_shutdown := te_shutdown t |}, [ProvidersFlush i]).

(** The listeners of the telemetries that still have them. *)
Fixpoint flush_on_hide (i : nat) (l : list Telemetry) : list Telemetry * list PageOutput :=
  match l with
  | [] => ([], [])
  | t :: l =>
      let r := forceFlush i t in let r' := flush_on_hide (S i) l in (r.1 :: r'.1, r.2 ++ r'.2)
  end.

Definition runtime_ok (url : URL) (globals : PageGlobals) (instances : Z) : bool :=
  bool_decide (url_protocol url = js "https:") && negb (is_nonempty (url_username url)) &&
  negb (is_nonempty (url_password url)) && pg_fetch globals && pg_entropy globals &&
  negb (4 <=? instances)%Z.

Definition with_telemetry (s : Page) (i : nat) (t : Telemetry) : Page := {|
  pa_instances := pa_instances s; pa_telemetries := <[i:=t]> (pa_telemetries s) |}.

Definition page_step (s : Page) (ev : PageEvent) : option (Page * list PageOutput) :=
  match ev with
  | CreateTelemetry options globals =>
      if negb (options_ok options) then Some (s, [Refused])
      else match pg_location globals with
           | None => Some (s, [CreatedInert])
           | Some url =>
               if runtime_ok url globals (pa_instances s)
               then Some ({| pa_instances := pa_instances s + 1;
                             pa_telemetries := pa_telemetries s ++
                               [{| te_flushing := false; te_shutdown := NotShutDown |}] |},
                          [Created (length (pa_telemetries s))])
               else Some (s, [Refused])
           end
  | ForceFlush i =>
      t ← pa_telemetries s !! i;
      let r := forceFlush i t in Some (with_telemetry s i r.1, r.2)
  | FlushSettled i =>
      t ← pa_telemetries s !! i;
      if te_flushing t
      then Some (with_telemetry s i {| te_flushing := false; te_shutdown := te_shutdown t |}, [])
      else None
  | Shutdown i =>
      t ← pa_telemetries s !! i;
      if is_shut t then Some (s, [])
      else Some (with_telemetry s i {| te_flushing := te_flushing t; te_shutdown := AwaitsFlush |}, [])
  | ShutdownProceeds i =>
      t ← pa_telemetries s !! i;
      match te_flushing t, te_shutdown t with
      | false, AwaitsFlush =>
          Some (with_telemetry s i {| te_flushing := false; te_shutdown := ProvidersEnding |},
                [ProvidersShutdown i])
      | _, _ => None
      end
  | ShutdownSettled i =>
      t ← pa_telemetries s !! i;
      match te_shutdown t with
      | ProvidersEnding =>
          Some ({| pa_instances := pa_instances s - 1;
                   pa_telemetries := <[i:={| te_flushing := te_flushing t; te_shutdown := Ended |}]>
                                       (pa_telemetries s) |}, [])
      | _ => None
      end
  | PageHidden =>
      let r := flush_on_hide 0 (pa_telemetries s) in
      Some ({| pa_instances := pa_instances s; pa_telemetries := r.1 |}, r.2)
  end.

(** * Lemmas: what one export sends *)

(** Requests are sent by [fetch] only. *)
Record wire_ok {W} (wire : Wire W) (log : W → list TelemetryRequest) : Prop := {
  wo_fetch q w : log (wi_fetch wire q w).2 = log w ++ [q];
  wo_cancel a w : log (wi_cancel wire a w).2 = log w
}.

Section sends.
Context {W : Type} (wire : Wire W) (log : W → list TelemetryRequest) (Hwire : wire_ok wire log)
  (origin : jsstring) (signal : TelemetrySignal).

Lemma cancel_quiet a : spec log quiet (cancel_body wire a).
Proof.
  unfold cancel_body. destruct (tr_body a); [|apply (quiet_ret log)]. intros w r w' H. exists [].
  pose proof (wo_cancel _ _ Hwire a w) as Hc. rewrite H in Hc. by rewrite app_nil_r.
Qed.

Lemma boundedBody_quiet a : spec log quiet (boundedBody wire a).
Proof.
  unfold boundedBody. destruct (declared_too_long _).
  { apply (sends_quiet log quiet _ _ (λ l, l = [])); [apply cancel_quiet|by intros ? ?|]. intros _. by apply spec_pure. }
  destruct (tr_body a) as [[chunks ended]|]; [|apply (quiet_ret log)].
  destruct (read_parts _ _ _ _); [apply (quiet_ret log)|]. intros w r w' [= <- <-]. exists [].
  by rewrite app_nil_r, (wo_cancel _ _ Hwire).
Qed.

Lemma fetch_ok_sends path method headers body :
  spec log (λ _ l, l = [telemetry_request origin path method headers body])
    (fetch_ok wire origin path method headers body).
Proof.
  unfold fetch_ok. set (q := telemetry_request _ _ _ _ _).
  apply (sends_quiet log (λ _ l, l = [q]) _ _ (λ l, l = [q])); [|done|].
  - intros w r w' H. exists [q]. split; [|done]. pose proof (wo_fetch _ _ Hwire q w) as Hf. by rewrite H in Hf.
  - intros a. destruct (response_ok _); [apply (quiet_ret log)|].
    apply (sends_quiet log quiet _ _ (λ l, l = [])); [apply cancel_quiet|by intros ? ?|]. intros _. by apply spec_pure.
Qed.

(** The request for the session, and the export itself. *)
Definition session_request : TelemetryRequest :=
  telemetry_request origin (js "/auth/session") None [(js "Accept", js "application/json")] None.

Definition export_request (token : jsstring) (data : list N) : TelemetryRequest :=
  telemetry_request origin (js "/telemetry/v1/" ++ signal_str signal) (Some (js "POST"))
    (export_headers token) (Some data).

Lemma session_token_ok bytes token : session_token_of wire bytes = Ok token → is_csrf_token (VStr token) = true.
Proof.
  unfold session_token_of. destruct (decode_text _ _) as [text|]; [|done].
  destruct (wi_JSON wire text) as [v|]; [|done].
  assert (H : ∀ v, (if is_authenticated v && is_csrf_token (prop v "csrf_token")
             then match csrf_of v with Some token => Ok token | None => Err plain_error end
             else Err plain_error) = Ok token → is_csrf_token (VStr token) = true).
  { intros x. destruct (is_authenticated x); [|done]. cbn [andb].
    unfold csrf_of. destruct (prop x "csrf_token") as [| | | |t| |]; try done.
    destruct (is_csrf_token (VStr t)) eqn:Ht; [|done]. by intros [= <-]. }
  destruct v; try done; apply H.
Qed.

Lemma export_session_sends :
  spec log (λ r l, l = [session_request] ∧ ∀ token, r = Ok token → is_csrf_token (VStr token) = true)
    (export_session wire origin).
Proof.
  unfold export_session. eapply spec_bind; [apply fetch_ok_sends|by intros ? ? ->|].
  intros a l ->. destruct (has_type _ _); [|by apply spec_pure].
  eapply spec_bind; [apply boundedBody_quiet|by intros ? ? ->|]. intros bytes l ->.
  apply spec_pure. split; [done|]. intros token H. by eapply session_token_ok.
Qed.

(** An export asks for the session, and then at most sends its data with the
    session's token; both are needed to succeed. *)
Definition export_requests (data : list N) (r : result thrown unit) (l : list TelemetryRequest) : Prop :=
  (l = [session_request] ∧ r ≠ Ok tt) ∨
  ∃ token, is_csrf_token (VStr token) = true ∧ l = [session_request; export_request token data].

Lemma send_sends data : spec log (export_requests data) (send wire origin signal data).
Proof.
  unfold send. eapply spec_bind; [apply export_session_sends| |].
  { intros e l [-> _]. by left. }
  intros token l [-> Ht]. specialize (Ht token eq_refl).
  assert (Hdone : ∀ r, export_requests data r ([session_request] ++ [export_request token data])).
  { intros r. right. by exists token. }
  eapply spec_weaken with (P := λ _ l, l = [export_request token data]); [|by intros r l ->].
  apply (sends_quiet log (λ _ l, l = [export_request token data]) _ _ (λ l, l = [export_request token data]));
    [apply fetch_ok_sends|done|].
  intros a. apply (sends_quiet log quiet _ _ (λ l, l = [])); [apply boundedBody_quiet|by intros ? ?|].
  intros body. apply (quiet_lift log).
Qed.
End sends.

(** * Lemmas: exports, one after another *)

Definition is_answer (task : N) (o : ExportOutput) : bool :=
  match o with Answered t _ => (t =? task)%N | _ => false end.

Definition asks_export (task : N) (ev : ExportEvent) : bool :=
  match ev with Export t _ => (t =? task)%N | _ => false end.

Definition is_failure (o : ExportOutput) : bool := match o with Answered _ ok => negb ok | _ => false end.
Definition is_report (o : ExportOutput) : bool := match o with ReportFailed => true | _ => false end.

Definition sent_ok (o : ExportOutput) : Prop :=
  match o with Sending _ n => (n ≤ maxBody)%Z | _ => True end.

Definition in_flight (s : Exporter) (task : N) : nat := count (λ t, (t =? task)%N) (es_sending s).

(** At most one task is in the set, and what is sending is in it. *)
Definition exporter_ok (s : Exporter) : Prop :=
  length (es_pending s) ≤ 1 ∧ (es_sending s = [] ∨ es_sending s = es_pending s).

Lemma finish_counts k task ok :
  count (is_answer k) (finish task ok) = (if (task =? k)%N then 1 else 0) ∧
  count is_report (finish task ok) = count is_failure (finish task ok) ∧ Forall sent_ok (finish task ok).
Proof.
  destruct ok; cbn [finish]; rewrite !count_cons, !count_nil; cbn [is_answer is_report is_failure negb];
    (split_and!; [destruct (task =? k)%N; lia|lia|by repeat constructor]).
Qed.

#[local] Arguments finish : simpl never.

(** One step: the answers and what is still in flight account for what was asked. *)
Definition export_accounts (s : Exporter) (ev : ExportEvent) (s' : Exporter) (out : list ExportOutput) : Prop :=
  exporter_ok s' ∧
  (∀ k, count (is_answer k) out + in_flight s' k = count (asks_export k) [ev] + in_flight s k) ∧
  count is_report out = count is_failure out ∧ Forall sent_ok out ∧
  (es_stopped s = true → es_stopped s' = true ∧ ∀ task n, (Sending task n ∉ out)).

Lemma export_refused s task size : exporter_ok s →
  export_accounts s (Export task size) s (finish task false).
Proof.
  intros Hok. split_and!; [done| |by apply (finish_counts 0 task)|by apply (finish_counts 0 task)|].
  - intros k. destruct (finish_counts k task false) as (-> & _ & _).
    rewrite count_cons, count_nil. cbn [asks_export]. lia.
  - intros Hs. split; [done|]. intros t n. unfold finish. set_solver.
Qed.

Lemma export_step_ok s ev s' out : export_step s ev = Some (s', out) → exporter_ok s →
  export_accounts s ev s' out.
Proof.
  intros H Hok. pose proof Hok as [Hl Hsend].
  destruct ev as [task size|task ok|task|]; cbn [export_step] in H.
  - case_decide as Hin; [done|]. destruct (es_stopped s || (1 <=? length (es_pending s))) eqn:Hb.
    { injection H as <- <-. by apply export_refused. }
    destruct size as [n|]; [|injection H as <- <-; by apply export_refused].
    destruct (Z.ltb_spec maxBody n) as [Hn|Hn]; [injection H as <- <-; by apply export_refused|].
    apply orb_false_elim in Hb as [Hstop Hp%Nat.leb_gt]. injection H as <- <-.
    destruct (es_pending s) as [|? ?] eqn:Hpend; cbn in Hp; [|lia].
    assert (Hs0 : es_sending s = []) by (destruct Hsend as [->| ->]; done).
    unfold export_accounts, exporter_ok, in_flight. cbn [es_pending es_sending es_stopped app length]. rewrite Hs0.
    split_and!; [lia|by right| |done| |congruence].
    + intros k. rewrite !count_cons, !count_nil. cbn [is_answer asks_export app]. rewrite count_cons, count_nil. lia.
    + by apply Forall_singleton.
  - case_decide as Hin; [|done]. injection H as <- <-.
    assert (Hs1 : es_sending s = [task]).
    { destruct Hsend as [E|E]; rewrite E in *; [by apply not_elem_of_nil in Hin|].
      destruct (es_pending s) as [|t [|? ?]]; cbn in Hl; try lia; [by apply not_elem_of_nil in Hin|].
      by apply list_elem_of_singleton in Hin as ->. }
    unfold export_accounts, exporter_ok, in_flight. cbn [es_pending es_sending es_stopped]. rewrite Hs1.
    assert (filter (λ t, t ≠ task) [task] = []) as ->.
    { rewrite filter_cons, decide_False; [done|]. by intros []. }
    split_and!; [done|by left| | | |].
    + intros k. destruct (finish_counts k task ok) as (-> & _ & _).
      rewrite !count_cons, !count_nil. cbn [asks_export]. lia.
    + by apply (finish_counts 0 task).
    + by apply (finish_counts 0 task).
    + intros Hs. split; [done|]. intros t n. unfold finish. destruct ok; set_solver.
  - case_decide as Hin; [|done]. destruct Hin as [Hin Hnot]. injection H as <- <-.
    assert (Hs0 : es_sending s = []) by (destruct Hsend as [->|E]; [done|by rewrite E in Hnot]).
    unfold export_accounts, exporter_ok, in_flight. cbn [es_pending es_sending es_stopped].
    split_and!; [etransitivity; [apply length_filter|exact Hl]|by left|done|done|by constructor|].
    intros Hs. split; [done|]. intros t n. apply not_elem_of_nil.
  - injection H as <- <-. split_and!; [by split|done|done|by constructor|].
    intros _. split; [done|]. intros t n. apply not_elem_of_nil.
Qed.

Lemma export_run_ok s evs s' out : StateMachine.run export_step s evs s' out → exporter_ok s →
  exporter_ok s' ∧
  (∀ k, count (is_answer k) out + in_flight s' k = count (asks_export k) evs + in_flight s k) ∧
  count is_report out = count is_failure out ∧ Forall sent_ok out ∧
  (es_stopped s = true → ∀ task n, (Sending task n ∉ out)).
Proof.
  induction 1 as [s|s ev s1 out evs s2 out' Hs _ IH]; intros Hok.
  - split_and!; [done|done|done|by constructor|]. intros _ t n. apply not_elem_of_nil.
  - destruct (export_step_ok _ _ _ _ Hs Hok) as (Hok1 & Hc & Hr & Hf & Hstop).
    destruct (IH Hok1) as (Hok2 & Hc' & Hr' & Hf' & Hstop'). split_and!; [done| | | |].
    + intros k. specialize (Hc k). specialize (Hc' k). rewrite count_cons, count_nil in Hc.
      rewrite count_app, count_cons. lia.
    + rewrite !count_app. lia.
    + by apply Forall_app.
    + intros Hst. destruct (Hstop Hst) as [Hst1 Hno]. intros t n [Hin|Hin]%elem_of_app; [by eapply Hno|].
      by eapply Hstop'.
Qed.

(** * Lemmas: the telemetries of a page *)

Definition is_live (t : Telemetry) : bool := if te_shutdown t is Ended then false else true.

(** Whether the providers of a telemetry have been shut down. *)
Definition ending (t : Telemetry) : bool :=
  match te_shutdown t with ProvidersEnding | Ended => true | _ => false end.

Definition ends_providers (i : nat) (o : PageOutput) : bool :=
  match o with ProvidersShutdown j => j =? i | _ => false end.

(** No flush is running once the providers are being shut down. *)
Definition telemetry_ok (t : Telemetry) : Prop := ending t = true → te_flushing t = false.

Definition page_ok (s : Page) : Prop :=
  pa_instances s = Z.of_nat (count is_live (pa_telemetries s)) ∧ (pa_instances s ≤ 4)%Z ∧
  Forall telemetry_ok (pa_telemetries s).

(** The telemetry [i] has had its providers shut down. *)
Definition ended_at (s : Page) (i : nat) : nat :=
  match pa_telemetries s !! i with Some t => if ending t then 1 else 0 | None => 0 end.

Lemma count_insert {A} (f : A → bool) l i x y : l !! i = Some x →
  count f (<[i:=y]> l) + (if f x then 1 else 0) = count f l + (if f y then 1 else 0).
Proof.
  revert i. induction l as [|z l IH]; intros [|i] H; try done.
  - injection H as ->. change (<[0:=y]> (x :: l)) with (y :: l). rewrite !count_cons. lia.
  - change (<[S i:=y]> (z :: l)) with (z :: <[i:=y]> l). rewrite !count_cons. specialize (IH i H). lia.
Qed.

(** A telemetry is replaced by one that is as live. *)
Lemma with_telemetry_ok s i t t' : page_ok s → pa_telemetries s !! i = Some t → is_live t' = is_live t →
  telemetry_ok t' → page_ok (with_telemetry s i t').
Proof.
  intros (Hc & Hb & Hf) Ht Hlive Hok. unfold page_ok; cbn [pa_instances pa_telemetries with_telemetry]. pose proof (count_insert is_live _ _ _ t' Ht) as Hi.
  rewrite Hlive in Hi. split_and!; [destruct (is_live t); lia|done|]. by apply Forall_insert.
Qed.

Lemma ended_insert s i t t' j : pa_telemetries s !! i = Some t →
  ended_at (with_telemetry s i t') j =
    if decide (i = j) then (if ending t' then 1 else 0) else ended_at s j.
Proof.
  intros Ht. unfold ended_at; cbn [pa_instances pa_telemetries with_telemetry]. case_decide as Hd.
  - subst. by rewrite list_lookup_insert_eq by (by eapply lookup_lt_Some).
  - by rewrite list_lookup_insert_ne.
Qed.

Lemma ended_at_lookup s i t : pa_telemetries s !! i = Some t → ended_at s i = if ending t then 1 else 0.
Proof. intros Ht. unfold ended_at. by rewrite Ht. Qed.

Lemma forceFlush_spec i t : let r := forceFlush i t in
  te_shutdown r.1 = te_shutdown t ∧ (telemetry_ok t → telemetry_ok r.1) ∧
  (∀ j, count (ends_providers j) r.2 = 0).
Proof.
  unfold forceFlush, is_shut, telemetry_ok, ending.
  destruct (te_shutdown t) eqn:Hs; cbn; rewrite ?Hs; [destruct (te_flushing t) eqn:Hf; cbn; rewrite ?Hs|..]; done.
Qed.

Lemma flush_on_hide_spec i l : let r := flush_on_hide i l in
  count is_live r.1 = count is_live l ∧ (Forall telemetry_ok l → Forall telemetry_ok r.1) ∧
  (∀ j, count (ends_providers j) r.2 = 0) ∧
  (∀ j, (λ t, ending t) <$> r.1 !! j = (λ t, ending t) <$> l !! j).
Proof.
  revert i. induction l as [|t l IH]; intros i; [done|]. destruct (IH (S i)) as (Hc & Hf & He & Hl).
  destruct (forceFlush_spec i t) as (Hs & Hok & Hn). cbn [flush_on_hide fst snd]. rewrite !count_cons.
  assert (is_live (forceFlush i t).1 = is_live t) as -> by (unfold is_live; by rewrite Hs).
  split_and!; [lia| | |].
  - intros [? ?]%Forall_cons. constructor; auto.
  - intros j. rewrite count_app, Hn, He. done.
  - intros [|j]; [|by apply Hl]. cbn. f_equal. unfold ending. by rewrite Hs.
Qed.

(** One step: the invariant, and which providers have been shut down. *)
Definition page_accounts (s s' : Page) (out : list PageOutput) : Prop :=
  page_ok s' ∧ ∀ i, count (ends_providers i) out + ended_at s i = ended_at s' i.

Lemma created_ok s url globals : page_ok s → runtime_ok url globals (pa_instances s) = true →
  page_accounts s {| pa_instances := pa_instances s + 1;
                     pa_telemetries := pa_telemetries s ++
                       [{| te_flushing := false; te_shutdown := NotShutDown |}] |}
    [Created (length (pa_telemetries s))].
Proof.
  intros (Hc & Hb & Hf) Hr. unfold runtime_ok in Hr. rewrite !andb_true_iff in Hr.
  destruct Hr as [_ Hr%negb_true_iff%Z.leb_gt]. split.
  - unfold page_ok; cbn [pa_instances pa_telemetries]. rewrite count_app, count_cons, count_nil.
    cbn [is_live te_shutdown]. split_and!; [lia|lia|]. apply Forall_app. split; [done|]. by apply Forall_singleton.
  - intros i. rewrite count_cons, count_nil. unfold ended_at; cbn [pa_telemetries].
    destruct (decide (i < length (pa_telemetries s))) as [Hi|Hi].
    + by rewrite lookup_app_l.
    + rewrite (lookup_ge_None_2 (pa_telemetries s)) by lia.
      rewrite lookup_app_r by lia. by destruct (i - length (pa_telemetries s)).
Qed.

Lemma settled_ok s i t : page_ok s → pa_telemetries s !! i = Some t → te_shutdown t = ProvidersEnding →
  page_accounts s {| pa_instances := pa_instances s - 1;
                     pa_telemetries := <[i:={| te_flushing := te_flushing t; te_shutdown := Ended |}]>
                                         (pa_telemetries s) |} [].
Proof.
  set (t' := {| te_flushing := _; te_shutdown := Ended |}). intros (Hc & Hb & Hf) Ht Hsh. split.
  - unfold page_ok; cbn [pa_instances pa_telemetries]. pose proof (count_insert is_live _ _ _ t' Ht) as Hi.
    unfold is_live in Hi at 2 4. rewrite Hsh in Hi. cbn in Hi.
    split_and!; [lia|lia|]. apply Forall_insert; [done|]. intros _.
    eapply Forall_lookup_1 in Hf; [|exact Ht]. apply Hf. unfold ending. by rewrite Hsh.
  - intros j. rewrite count_nil. pose proof (ended_insert s i t t' j Ht) as He.
    unfold ended_at in *; cbn [pa_telemetries with_telemetry] in *.
    rewrite He. case_decide as Hd; [|done]. subst. rewrite Ht. unfold ending. by rewrite Hsh.
Qed.

Lemma page_step_ok s ev s' out : page_step s ev = Some (s', out) → page_ok s →
  page_accounts s s' out.
Proof.
  intros H Hs. assert (Hsame : ∀ o, (s, [o]) = (s', out) → (∀ i, ends_providers i o = false) → page_accounts s s' out).
  { intros o [= <- <-] Ho. split; [done|]. intros i. by rewrite count_cons, count_nil, Ho. }
  destruct ev as [options globals|i|i|i|i|i|]; cbn [page_step] in H.
  - destruct (negb _); [injection H as H1 H2; by eapply Hsame; [rewrite H1, H2|]|].
    destruct (pg_location globals) as [url|]; [|injection H as H1 H2; by eapply Hsame; [rewrite H1, H2|]].
    destruct (runtime_ok _ _ _) eqn:Hr; [|injection H as H1 H2; by eapply Hsame; [rewrite H1, H2|]].
    injection H as <- <-. by eapply created_ok.
  - apply bind_Some in H as (t & Ht & [= <- <-]). destruct (forceFlush_spec i t) as (Hsh & Hok & Hn).
    assert (Forall telemetry_ok (pa_telemetries s)) as Hf by apply Hs.
    split.
    + eapply with_telemetry_ok; [done|exact Ht|unfold is_live; by rewrite Hsh|].
      apply Hok. by eapply Forall_lookup_1.
    + intros j. rewrite Hn, (ended_insert _ _ _ _ _ Ht). case_decide as Hd; [|done]. subst.
      rewrite (ended_at_lookup _ _ _ Ht). unfold ending. by rewrite Hsh.
  - apply bind_Some in H as (t & Ht & H). destruct (te_flushing t) eqn:Hfl; [|done]. injection H as <- <-.
    split.
    + by eapply with_telemetry_ok.
    + intros j. rewrite count_nil, (ended_insert _ _ _ _ _ Ht). case_decide as Hd; [|done]. subst.
      by rewrite (ended_at_lookup _ _ _ Ht).
  - apply bind_Some in H as (t & Ht & H). unfold is_shut in H.
    destruct (te_shutdown t) eqn:Hsh; injection H as <- <-; try (split; [done|]; intros j; by rewrite count_nil).
    split.
    + eapply with_telemetry_ok; [done|exact Ht|unfold is_live; by rewrite Hsh|]. done.
    + intros j. rewrite count_nil, (ended_insert _ _ _ _ _ Ht). case_decide as Hd; [|done]. subst.
      rewrite (ended_at_lookup _ _ _ Ht). unfold ending. by rewrite Hsh.
  - apply bind_Some in H as (t & Ht & H).
    destruct (te_flushing t) eqn:Hfl, (te_shutdown t) eqn:Hsh; try done. injection H as <- <-. split.
    + eapply with_telemetry_ok; [done|exact Ht|unfold is_live; by rewrite Hsh|]. done.
    + intros j. rewrite count_cons, count_nil, (ended_insert _ _ _ _ _ Ht). cbn [ends_providers].
      case_decide as Hd; [subst; rewrite Nat.eqb_refl|rewrite (proj2 (Nat.eqb_neq i j)) by done; done].
      rewrite (ended_at_lookup _ _ _ Ht). unfold ending. by rewrite Hsh.
  - apply bind_Some in H as (t & Ht & H). destruct (te_shutdown t) eqn:Hsh; try done. injection H as <- <-.
    by apply settled_ok.
  - injection H as <- <-. destruct (flush_on_hide_spec 0 (pa_telemetries s)) as (Hc & Hf & Hn & Hl).
    destruct Hs as (Hci & Hb & Hok). split.
    + unfold page_ok; cbn [pa_instances pa_telemetries with_telemetry]. split_and!; [by rewrite Hc|done|by apply Hf].
    + intros j. rewrite Hn. unfold ended_at; cbn [pa_instances pa_telemetries with_telemetry]. specialize (Hl j).
      destruct ((flush_on_hide 0 (pa_telemetries s)).1 !! j), (pa_telemetries s !! j); cbn in Hl; try done.
      by injection Hl as ->.
Qed.

Lemma page_run_ok s evs s' out : StateMachine.run page_step s evs s' out → page_ok s →
  page_ok s' ∧ ∀ i, count (ends_providers i) out + ended_at s i = ended_at s' i.
Proof.
  induction 1 as [s|s ev s1 out evs s2 out' Hs _ IH]; intros Hok; [done|].
  destruct (page_step_ok _ _ _ _ Hs Hok) as [Hok1 Hc]. destruct (IH Hok1) as [Hok2 Hc']. split; [done|].
  intros i. specialize (Hc i). specialize (Hc' i). rewrite count_app. lia.
Qed.

(** * Properties *)



(** A page counts exactly its telemetries that are not shut down, never more than
    four; a telemetry's providers are shut down at most once, and none of them is
    flushed while or after they are. *)
Theorem telemetries_bounded (evs : list PageEvent) (s : Page) (out : list PageOutput) :
  StateMachine.run page_step new_page evs s out →
  pa_instances s = Z.of_nat (count is_live (pa_telemetries s)) ∧ (pa_instances s ≤ 4)%Z ∧
  ∀ i, count (ends_providers i) out ≤ 1 ∧
    ∀ t, pa_telemetries s !! i = Some t → ending t = true →
      te_flushing t = false ∧ ∀ s' out', page_step s (ForceFlush i) = Some (s', out') → out' = [].
Proof.
  intros H. destruct (page_run_ok _ _ _ _ H) as [(Hc & Hb & Hf) He]; [by split_and!|].
  split_and!; [done|done|]. intros i. split.
  - specialize (He i). unfold ended_at in He. destruct (pa_telemetries s !! i) as [t|]; [|cbn in He; lia].
    destruct (ending t); cbn in He; lia.
  - intros t Ht Hend. split; [by eapply Forall_lookup_1 in Hf; [apply Hf|exact Ht]|].
    intros s' out' Hs. cbn in Hs. rewrite Ht in Hs. injection Hs as _ <-.
    unfold forceFlush, is_shut, ending in *. by destruct (te_shutdown t).
Qed.

(** * An exporter at work *)

Module DemoExport.
Definition session_bytes : list N :=
  backquoted "{`authenticated`:true,`csrf_token`:`aaaaaaaaaabbbbbbbbbbccccccccccddddddddddeee`}".

Definition answer (type : string) (bytes : list N) : TelemetryResponse := {|
  tr_status := 200; tr_contentType := Some (js type); tr_contentLength := None;
  tr_body := Some ([bytes], None) |}.

(** The session is authenticated, and the collector answers with nothing. *)
Definition wire : Wire (list TelemetryRequest) := {|
  wi_fetch q w :=
    (Ok (if tq_method q is None then answer "application/json" session_bytes
         else answer "application/x-protobuf" []), w ++ [q]);
  wi_cancel _ w := (Ok tt, w);
  wi_decoder := DemoBrowser.ascii_decoder;
  wi_JSON := parseJSON;
  wi_deserialize _ := Ok None
|}.

Lemma wire_is_ok : wire_ok wire id.
Proof. by split. Qed.

Definition exported : result thrown unit * list TelemetryRequest :=
  send wire (js "https://console") Traces [1; 2; 3]%N [].

Example exported_to_collector :
  exported.1 = Ok tt ∧
  map tq_url exported.2 = [js "https://console/auth/session"; js "https://console/telemetry/v1/traces"].
Proof. vm_compute. done. Qed.


Definition asked : list ExportEvent :=
  [Export 1 (Some 10%Z); Export 2 (Some 10%Z); Settled 1 true; Forgotten 1; Export 3 (Some 300000%Z);
   Export 4 None; Export 5 (Some 20%Z)].

Definition asked_state : Exporter := {| es_stopped := false; es_pending := [5%N]; es_sending := [5%N] |}.

Definition asked_out : list ExportOutput :=
  [Sending 1 10; ReportFailed; Answered 2 false; Answered 1 true; ReportFailed; Answered 3 false;
   ReportFailed; Answered 4 false; Sending 5 20].


Definition at_home : PageGlobals := {|
  pg_location := Some {| url_protocol := js "https:"; url_origin := js "https://console"; url_username := [];
    url_password := []; url_pathname := js "/"; url_search := []; url_hash := [];
    url_href := js "https://console/" |};
  pg_fetch := true; pg_entropy := true |}.

Definition lived : list PageEvent :=
  [CreateTelemetry (OptionsGiven [] None NoCallback) at_home; ForceFlush 0; Shutdown 0; PageHidden;
   FlushSettled 0; ShutdownProceeds 0; Shutdown 0; ShutdownSettled 0;
   CreateTelemetry (OptionsGiven [js "ratio"] None NoCallback) at_home].

Definition lived_state : Page := {|
  pa_instances := 0; pa_telemetries := [{| te_flushing := false; te_shutdown := Ended |}] |}.

Definition lived_out : list PageOutput := [Created 0; ProvidersFlush 0; ProvidersShutdown 0; Refused].

Lemma telemetries_bounded_witness :
  pa_instances lived_state = Z.of_nat (count is_live (pa_telemetries lived_state)) ∧
  (pa_instances lived_state ≤ 4)%Z ∧
  ∀ i, count (ends_providers i) lived_out ≤ 1 ∧
    ∀ t, pa_telemetries lived_state !! i = Some t → ending t = true →
      te_flushing t = false ∧ ∀ s' out', page_step lived_state (ForceFlush i) = Some (s', out') → out' = [].
Proof.
  refine (telemetries_bounded lived lived_state lived_out _). apply play_run. vm_compute. reflexivity.
Defined.
End DemoExport.
