(* ===== verification/TrustedDom.v ===== *)
(** Trusted render output in the gateway console
    ([gateway-console/out/browser/dom/index.js]): the scanner that renames style
    attributes before a text is parsed as HTML, the walk over the parsed nodes that
    puts the styles back, and the element that carries the document's nonce.

    The scanner is modelled on positions of its text, as it is written. Its
    specification is a grammar of texts, comments and tags with a rendering: a text is
    accepted exactly when it renders a list of allowed items, and the result renders
    the same list with the style attributes renamed. *)
From S2P Require Export JsCore.

(** * The scanner *)

Definition maxHTML : Z := 1024 * 1024.
Definition maxNodes : Z := 16384.
Definition storedStyle : jsstring := js "data-stego-render-style".
Definition forbiddenTags : list jsstring :=
  js <$> ["script"; "style"; "template"; "iframe"; "object"; "embed"; "link"; "meta"; "base"; "textarea";
          "title"; "noscript"; "xmp"; "plaintext"; "noembed"; "noframes"].

(** What the functions throw. *)
Inductive DomError := TypeFailure (message : jsstring) | RangeFailure (message : jsstring).

Definition space (c : N) : bool := (c =? 9)%N || (c =? 10)%N || (c =? 12)%N || (c =? 13)%N || (c =? 32)%N.

Definition is_letter (c : N) : bool := ((65 <=? c) && (c <=? 90) || (97 <=? c) && (c <=? 122))%N.

(** [[A-Za-z0-9_:.-]] *)
Definition name_unit (c : N) : bool :=
  is_letter c || ((48 <=? c) && (c <=? 57) || (c =? 95) || (c =? 58) || (c =? 46) || (c =? 45))%N.

(** The length of the longest prefix of units with [p]. *)
Fixpoint run_length (p : N → bool) (s : jsstring) : nat :=
  match s with
  | c :: s => if p c then S (run_length p s) else 0
  | [] => 0
  end.

(** The variables of [deferStyles]. *)
Record Scan := { sn_output : list jsstring; sn_copied : nat; sn_at : nat }.

Definition move (s : Scan) (position : nat) : Scan :=
  {| sn_output := sn_output s; sn_copied := sn_copied s; sn_at := position |}.

(** A loop was left, failed, or has no fuel. *)
Inductive Step := Go (s : Scan) | Fails | NoFuel.

Section scanner.
Context (value : jsstring).

Definition slice (first last : nat) : jsstring := take (last - first) (drop first value).

(** [value[at]] is the unit. *)
Definition is_at (position : nat) (c : N) : bool :=
  match value !! position with Some d => (c =? d)%N | None => false end.

Definition is_space_at (position : nat) : bool :=
  match value !! position with Some c => space c | None => false end.

(** [while (space(value[at])) at++;] *)
Definition skip_spaces (position : nat) : nat := position + run_length space (drop position value).

(** [name()]: the name in lower case and the position after it. *)
Definition name (position : nat) : option (jsstring * nat) :=
  match run_length name_unit (drop position value) with
  | O => None
  | n => Some (ascii_lower (slice position (position + n)), position + n)
  end.

Definition refused_attribute (attributes : list jsstring) (attribute : jsstring) : bool :=
  bool_decide (attribute ∈ attributes) || bool_decide (attribute = storedStyle) ||
  bool_decide (attribute = js "nonce") || startsWith attribute (js "on").

(** The attribute named at [start], read up to [after]. *)
Definition take_name (attribute : jsstring) (start after : nat) (s : Scan) : Scan :=
  if decide (attribute = js "style")
  then {| sn_output := sn_output s ++ [slice (sn_copied s) start; storedStyle]; sn_copied := after; sn_at := after |}
  else move s after.

(** The value of an attribute, if it has one: where its scan goes on. *)
Definition value_end (afterName : nat) : option nat :=
  let equals := skip_spaces afterName in
  if negb (is_at equals 61) then Some afterName
  else
    let quoted := skip_spaces (equals + 1) in
    match value !! quoted with
    | None => None
    | Some quote =>
        if negb ((quote =? 34)%N || (quote =? 39)%N) then None
        else (λ n, quoted + 1 + n + 1) <$> indexOf (drop (quoted + 1) value) [quote]
    end.

(** The loop over the attributes of a tag, up to its end. *)
Fixpoint attribute_loop (fuel : nat) (closing : bool) (attributes : list jsstring) (s : Scan) : Step :=
  match fuel with
  | O => NoFuel
  | S fuel =>
      let separated := is_space_at (sn_at s) in
      let position := skip_spaces (sn_at s) in
      if is_at position 62 then Go (move s (position + 1))
      else if is_at position 47 && is_at (position + 1) 62 && negb closing then Go (move s (position + 2))
      else if closing || negb separated || (length value <=? position) then Fails
      else
        match name position with
        | None => Fails
        | Some (attribute, afterName) =>
            if refused_attribute attributes attribute then Fails
            else
              let s := take_name attribute position afterName s in
              match value_end afterName with
              | None => Fails
              | Some next => attribute_loop fuel closing (attribute :: attributes) (move s next)
              end
        end
  end.

Definition refused_comment (comment : jsstring) : bool :=
  startsWith comment (js ">") || startsWith comment (js "->") || includes comment (js "--") ||
  bool_decide (last comment = Some 45%N).

(** The comment whose [!--] is at [position]. *)
Definition comment_step (position : nat) (s : Scan) : Step :=
  match indexOf (drop (position + 3) value) (js "-->") with
  | None => Fails
  | Some n =>
      if refused_comment (slice (position + 3) (position + 3 + n)) then Fails
      else Go (move s (position + 3 + n + 3))
  end.

(** The tag that opens before [position]. *)
Definition tag_step (position : nat) (s : Scan) : Step :=
  let closing := is_at position 47 in
  let position := if closing then position + 1 else position in
  match value !! position with
  | None => Fails
  | Some c =>
      if negb (is_letter c) then Fails
      else match name position with
           | None => Fails
           | Some (tag, afterName) =>
               if bool_decide (tag ∈ forbiddenTags) then Fails
               else attribute_loop (length value) closing [] (move s afterName)
           end
  end.

(** The loop over the text. *)
Fixpoint markup_loop (fuel : nat) (s : Scan) : Step :=
  match value !! sn_at s with
  | None => Go s
  | Some c =>
      match fuel with
      | O => NoFuel
      | S fuel =>
          let position := sn_at s + 1 in
          if negb (c =? 60)%N then markup_loop fuel (move s position)
          else
            match (if startsWith (drop position value) (js "!--") then comment_step position s else tag_step position s) with
            | Go s => markup_loop fuel s
            | r => r
            end
      end
  end.

Definition unsupported_syntax : DomError := TypeFailure (js "Unsupported trusted render syntax").

(** The result, [None] when the fuel is used up. *)
Definition deferStyles : option (result DomError jsstring) :=
  match markup_loop (length value) {| sn_output := []; sn_copied := 0; sn_at := 0 |} with
  | Go s => Some (Ok (mjoin (sn_output s ++ [slice (sn_copied s) (length value)])))
  | Fails => Some (Err unsupported_syntax)
  | NoFuel => None
  end.
End scanner.

(** * Fragments *)

(** A node of a parsed fragment: an element with its attributes and the text given
    to its style declaration, or another node. *)
Inductive DomNode :=
| Element (localName : jsstring) (attributes : list (jsstring * jsstring)) (cssText : option jsstring)
| OtherNode.

(** What is given to be rendered: a string, a value the document takes for trusted
    HTML, with its text, or neither. *)
Inductive RenderInput := RenderString (text : jsstring) | RenderTrusted (text : jsstring) | RenderOther.

Definition refused_node_attribute (n : jsstring) : bool :=
  startsWith (ascii_lower n) (js "on") || bool_decide (n = js "nonce").

(** The walk over the nodes in document order. *)
Fixpoint walk (count : Z) (nodes : list DomNode) : result DomError (list DomNode) :=
  match nodes with
  | [] => Ok []
  | node :: nodes =>
      if (maxNodes <? count + 1)%Z then Err (RangeFailure (js "Trusted render node limit"))
      else
        let next node :=
          match walk (count + 1) nodes with
          | Ok nodes => Ok (node :: nodes)
          | Err e => Err e
          end in
        match node with
        | OtherNode => next OtherNode
        | Element localName attributes cssText =>
            if bool_decide (localName ∈ forbiddenTags) then
              Err (TypeFailure (js "Unsupported trusted render element"))
            else if existsb (λ a, refused_node_attribute a.1) attributes then
              Err (TypeFailure (js "Unsupported trusted render attribute"))
            else
              next (match prop_get attributes storedStyle with
                    | Some css => Element localName (prop_delete attributes storedStyle) (Some css)
                    | None => Element localName attributes cssText
                    end)
        end
  end.

Definition invalid_input : DomError := TypeFailure (js "Invalid trusted render input").

Section fragment.
Context (parseHTML : jsstring → list DomNode).

(** [trustedFragment]: the nodes of the fragment, in document order. *)
Definition trustedFragment (value : RenderInput) : option (result DomError (list DomNode)) :=
  match (match value with RenderString text | RenderTrusted text => Some text | RenderOther => None end) with
  | None => Some (Err invalid_input)
  | Some text =>
      if (maxHTML <? Z.of_nat (length text))%Z then Some (Err invalid_input)
      else
        r ← deferStyles text;
        Some (match r with
              | Ok deferred => walk 0 (parseHTML deferred)
              | Err e => Err e
              end)
  end.

(** The nodes of a target after the call, and what it throws. *)
Definition replaceTrustedHTML (target : list DomNode) (value : RenderInput) : option (list DomNode * option DomError) :=
  r ← trustedFragment value;
  Some (match r with Ok fragment => (fragment, None) | Err e => (target, Some e) end).

Definition appendTrustedHTML (target : list DomNode) (value : RenderInput) : option (list DomNode * option DomError) :=
  r ← trustedFragment value;
  Some (match r with Ok fragment => (target ++ fragment, None) | Err e => (target, Some e) end).
End fragment.

(** [[A-Za-z0-9_-]{43}] *)
Definition is_nonce (s : jsstring) : bool :=
  (length s =? 43) && forallb (λ c, is_letter c || ((48 <=? c) && (c <=? 57) || (c =? 95) || (c =? 45))%N) s.

(** The style element, given the contents of the document's nonce elements. *)
Definition createStyleElement (contents : list jsstring) : result DomError DomNode :=
  match contents with
  | [nonce] => if is_nonce nonce then Ok (Element (js "style") [(js "nonce", nonce)] None)
               else Err (TypeFailure (js "Missing document style nonce"))
  | _ => Err (TypeFailure (js "Missing document style nonce"))
  end.

(** * The grammar *)

(** An attribute as it is written: the white space before it, its name, and a value
    with the white space around its equals sign and its quote. *)
Record Attr := {
  at_space : jsstring;
  at_name : jsstring;
  at_value : option (jsstring * jsstring * N * jsstring)
}.

Inductive Item :=
| TextUnit (c : N)
| Comment (body : jsstring)
| Tag (closing : bool) (tag : jsstring) (attributes : list Attr) (trailing : jsstring) (selfClosing : bool).

Definition render_value (v : option (jsstring * jsstring * N * jsstring)) : jsstring :=
  match v with
  | None => []
  | Some (before, after, quote, text) => before ++ [61%N] ++ after ++ [quote] ++ text ++ [quote]
  end.

Section render.
Context (rename : jsstring → jsstring).

Definition render_attr (a : Attr) : jsstring := at_space a ++ rename (at_name a) ++ render_value (at_value a).

Definition render_close (selfClosing : bool) : jsstring := if selfClosing then [47%N; 62%N] else [62%N].

Definition render_item (i : Item) : jsstring :=
  match i with
  | TextUnit c => [c]
  | Comment body => js "<!--" ++ body ++ js "-->"
  | Tag closing tag attributes trailing selfClosing =>
      [60%N] ++ (if closing then [47%N] else []) ++ tag ++ (attributes ≫= render_attr) ++ trailing ++
      render_close selfClosing
  end.

Definition render (items : list Item) : jsstring := items ≫= render_item.
End render.

(** The renaming of the scanner. *)
Definition defer_name (n : jsstring) : jsstring := if decide (ascii_lower n = js "style") then storedStyle else n.

Definition is_name (n : jsstring) : Prop := n ≠ [] ∧ Forall (λ c, name_unit c = true) n.
Definition is_space (s : jsstring) : Prop := Forall (λ c, space c = true) s.

Definition value_ok (v : option (jsstring * jsstring * N * jsstring)) : Prop :=
  match v with
  | None => True
  | Some (before, after, quote, text) => is_space before ∧ is_space after ∧ (quote = 34%N ∨ quote = 39%N) ∧ (quote ∉ text)
  end.

(** An attribute name in lower case that may follow those of [seen]: not one of them,
    not the one that stores styles, no nonce and no event handler. *)
Definition allowed_attribute (seen : list jsstring) (n : jsstring) : Prop :=
  (n ∉ seen) ∧ n ≠ storedStyle ∧ n ≠ js "nonce" ∧ ¬ (∃ t, n = js "on" ++ t).

(** A comment that ends where its first end is. *)
Definition comment_ok (body : jsstring) : Prop :=
  ¬ (∃ t, body = js ">" ++ t) ∧ ¬ (∃ t, body = js "->" ++ t) ∧ ¬ (∃ a b, body = a ++ js "--" ++ b) ∧
  ¬ (∃ a, body = a ++ js "-").

(** The allowed attributes after those of [seen]. *)
Fixpoint attrs_ok (seen : list jsstring) (l : list Attr) : Prop :=
  match l with
  | [] => True
  | a :: l =>
      at_space a ≠ [] ∧ is_space (at_space a) ∧ is_name (at_name a) ∧
      allowed_attribute seen (ascii_lower (at_name a)) ∧ value_ok (at_value a) ∧
      attrs_ok (ascii_lower (at_name a) :: seen) l
  end.

Definition item_ok (i : Item) : Prop :=
  match i with
  | TextUnit c => c ≠ 60%N
  | Comment body => comment_ok body
  | Tag closing tag attributes trailing selfClosing =>
      is_name tag ∧ (∃ c, head tag = Some c ∧ is_letter c = true) ∧ (ascii_lower tag ∉ forbiddenTags) ∧
      attrs_ok [] attributes ∧ is_space trailing ∧ (closing = true → attributes = [] ∧ selfClosing = false)
  end.

(** * Lemmas: reading *)

Lemma startsWith_false s p : startsWith s p = false ↔ ¬ (∃ t, s = p ++ t).
Proof. rewrite <- startsWith_spec. by destruct (startsWith s p). Qed.

Lemma refused_attribute_spec seen n : refused_attribute seen n = false ↔ allowed_attribute seen n.
Proof.
  unfold refused_attribute, allowed_attribute.
  rewrite !orb_false_iff, !bool_decide_eq_false, startsWith_false. tauto.
Qed.

Lemma refused_comment_spec body : refused_comment body = false ↔ comment_ok body.
Proof.
  unfold refused_comment, comment_ok. rewrite !orb_false_iff, !startsWith_false, bool_decide_eq_false.
  assert (H1 : includes body (js "--") = false ↔ ¬ (∃ a b, body = a ++ js "--" ++ b))
    by (rewrite <- includes_spec; by destruct (includes _ _)).
  assert (H2 : last body = Some 45%N ↔ ∃ a, body = a ++ js "-").
  { split; [intros (a & ->)%last_Some; by exists a|]. intros (a & ->). apply last_snoc. }
  rewrite H1, H2. tauto.
Qed.

Lemma run_length_spec p s : Forall (λ c, p c = true) (take (run_length p s) s) ∧
  ∀ c, head (drop (run_length p s) s) = Some c → p c = false.
Proof.
  induction s as [|c s [IH1 IH2]]; [done|]. cbn [run_length]. destruct (p c) eqn:Hc.
  - cbn [take drop]. split; [by constructor|done].
  - cbn [take drop head]. split; [by constructor|]. by intros d [= <-].
Qed.

Lemma run_length_app p k r : Forall (λ c, p c = true) k → (∀ c, head r = Some c → p c = false) →
  run_length p (k ++ r) = length k.
Proof.
  induction 1 as [|c k Hc _ IH]; intros Hr; cbn [app run_length length].
  - destruct r as [|d r]; [done|]. cbn. by rewrite (Hr d eq_refl).
  - rewrite Hc. f_equal. by apply IH.
Qed.

Lemma run_length_le p s : run_length p s ≤ length s.
Proof. induction s as [|c s IH]; cbn; [lia|]. destruct (p c); lia. Qed.

Section reading.
Context (value : jsstring).

Abbreviation slice := (slice value).

(** The rest of the text at a position. *)
Definition rest (position : nat) : jsstring := drop position value.

(** What has been output, with the text that is still to be copied. *)
Definition emitted (s : Scan) : jsstring := mjoin (sn_output s) ++ slice (sn_copied s) (sn_at s).

Definition in_range (s : Scan) : Prop := sn_copied s ≤ sn_at s ≤ length value.

(** From [s] to [s'] the text [k] is read and [o] output for it. *)
Record reads (s : Scan) (k o : jsstring) (s' : Scan) : Prop := {
  reads_text : rest (sn_at s) = k ++ rest (sn_at s');
  reads_at : sn_at s' = sn_at s + length k;
  reads_range : in_range s → in_range s';
  reads_emitted : in_range s → emitted s' = emitted s ++ o
}.

Lemma reads_refl s : reads s [] [] s.
Proof. split; [done|cbn; lia|done|]. intros _. by rewrite app_nil_r. Qed.

Lemma reads_trans s1 k1 o1 s2 k2 o2 s3 : reads s1 k1 o1 s2 → reads s2 k2 o2 s3 → reads s1 (k1 ++ k2) (o1 ++ o2) s3.
Proof.
  intros [T1 A1 R1 E1] [T2 A2 R2 E2]. split; [by rewrite T1, T2, <- app_assoc|rewrite length_app; lia|auto|].
  intros Hr. rewrite E2, E1, <- app_assoc by auto. done.
Qed.

Lemma rest_lookup position n : rest position !! n = value !! (position + n).
Proof. apply lookup_drop. Qed.

Lemma rest_app position k r : rest position = k ++ r → rest (position + length k) = r.
Proof. unfold rest. intros H. rewrite <- drop_drop, H. apply drop_app_length. Qed.

(** Reading on without touching the output. *)
Lemma reads_move s k r : rest (sn_at s) = k ++ r → reads s k k (move s (sn_at s + length k)).
Proof.
  intros Hk. pose proof (rest_app _ _ _ Hk) as Hr.
  assert (Hlen : k ≠ [] → sn_at s + length k ≤ length value).
  { intros Hne. apply (f_equal length) in Hk. unfold rest in Hk. rewrite length_drop, length_app in Hk.
    destruct k; [done|]. cbn in *. lia. }
  split; cbn [move sn_at sn_copied sn_output]; [by rewrite Hr|done| |].
  - intros [H1 H2]. unfold in_range. cbn [move sn_at sn_copied sn_output]. destruct k; [cbn; lia|]. specialize (Hlen ltac:(done)). cbn in *. lia.
  - intros [H1 H2]. unfold emitted. cbn [move sn_at sn_copied sn_output]. rewrite <- app_assoc. f_equal. unfold TrustedDom.slice.
    replace (sn_at s + length k - sn_copied s) with ((sn_at s - sn_copied s) + length k) by lia.
    rewrite <- take_take_drop, drop_drop. f_equal. replace (sn_copied s + (sn_at s - sn_copied s)) with (sn_at s) by lia.
    unfold rest in Hk. by rewrite Hk, take_app_length.
Qed.

Lemma reads_move_to s k r position : rest (sn_at s) = k ++ r → position = sn_at s + length k →
  reads s k k (move s position).
Proof. intros Hk ->. by apply (reads_move s k r). Qed.

Lemma slice_rest first k r : rest first = k ++ r → slice first (first + length k) = k.
Proof.
  unfold TrustedDom.slice, rest. intros ->. replace (first + length k - first) with (length k) by lia.
  apply take_app_length.
Qed.

(** Reading the name of an attribute. *)
Lemma reads_attr_name s k r : rest (sn_at s) = k ++ r →
  reads s k (defer_name k) (take_name value (ascii_lower k) (sn_at s) (sn_at s + length k) s).
Proof.
  intros Hk. unfold defer_name, take_name. case_decide; [|by apply (reads_move s k r)].
  pose proof (reads_move s k r Hk) as [_ _ Hrange _]. pose proof (rest_app _ _ _ Hk) as Hr.
  split; cbn [move sn_at sn_copied sn_output]; [by rewrite Hr|done| |].
  - intros Hin. specialize (Hrange Hin). unfold in_range in *. cbn in *. lia.
  - intros Hin. unfold emitted. cbn [move sn_at sn_copied sn_output]. rewrite join_app. cbn [mjoin list_join]. rewrite app_nil_r.
    assert (slice (sn_at s + length k) (sn_at s + length k) = []) as ->
      by (unfold TrustedDom.slice; by rewrite Nat.sub_diag).
    by rewrite app_nil_r, <- app_assoc.
Qed.

(** The primitives, forwards. *)
Lemma is_at_rest position c : is_at value position c = true ↔ ∃ r, rest position = c :: r ∧ rest (position + 1) = r.
Proof.
  unfold is_at. rewrite <- (Nat.add_0_r position), <- rest_lookup, Nat.add_0_r. split.
  - destruct (rest position) as [|d r] eqn:E; cbn [lookup list_lookup]; [done|]. intros ->%N.eqb_eq. exists r. split; [done|].
    by apply (rest_app position [d] r).
  - intros (r & -> & _). cbn. apply N.eqb_refl.
Qed.

Lemma skip_spaces_spec position : ∃ k, is_space k ∧ rest position = k ++ rest (skip_spaces value position) ∧
  skip_spaces value position = position + length k.
Proof.
  unfold skip_spaces. set (n := run_length space (drop position value)).
  destruct (run_length_spec space (drop position value)) as [Hs _]. fold n in Hs.
  pose proof (run_length_le space (drop position value)) as Hn. fold n in Hn.
  exists (take n (drop position value)). split; [done|]. rewrite length_take, Nat.min_l by done.
  split; [|done]. unfold rest. by rewrite <- drop_drop, take_drop.
Qed.

Lemma skip_spaces_complete position k r : rest position = k ++ r → is_space k →
  (∀ c, head r = Some c → space c = false) → skip_spaces value position = position + length k.
Proof. intros Hk Hs Hr. unfold skip_spaces. unfold rest in Hk. by rewrite Hk, run_length_app. Qed.

Lemma name_spec position a after : name value position = Some (a, after) →
  ∃ k, is_name k ∧ rest position = k ++ rest after ∧ after = position + length k ∧ a = ascii_lower k.
Proof.
  unfold name. destruct (run_length name_unit (drop position value)) as [|n'] eqn:Hn; [done|].
  destruct (run_length_spec name_unit (drop position value)) as [Hs _].
  pose proof (run_length_le name_unit (drop position value)) as Hle. rewrite Hn in *. set (n := S n') in *.
  intros [= <- <-]. exists (take n (drop position value)).
  assert (Hl : length (take n (drop position value)) = n) by (rewrite length_take; lia).
  rewrite Hl. split_and!; [split; [by intros H; rewrite H in Hl|done]| |done|].
  - unfold rest. by rewrite <- drop_drop, take_drop.
  - f_equal. unfold TrustedDom.slice. by replace (position + n - position) with n by lia.
Qed.

Lemma name_complete position k r : rest position = k ++ r → is_name k →
  (∀ c, head r = Some c → name_unit c = false) → name value position = Some (ascii_lower k, position + length k).
Proof.
  intros Hk [Hne Hf] Hr. unfold name. unfold rest in Hk. rewrite Hk at 1. rewrite run_length_app by done.
  destruct k as [|c k]; [done|]. cbn [length]. f_equal. f_equal. f_equal.
  by apply (slice_rest position (c :: k) r).
Qed.

(** A name is not read across a unit that ends it. *)
Lemma space_not_name c : space c = true → name_unit c = false.
Proof.
  unfold space. rewrite !orb_true_iff, !N.eqb_eq. intros [[[[-> | ->]| ->]| ->]| ->]; done.
Qed.

Lemma in_range_rest s c r : rest (sn_at s) = c :: r → sn_at s < length value.
Proof. intros H. apply (f_equal length) in H. unfold rest in H. rewrite length_drop in H. cbn in H. lia. Qed.

Lemma startsWith_unit c d t : startsWith (d :: t) [c] = (c =? d)%N.
Proof. cbn [startsWith]. by destruct t; rewrite andb_true_r. Qed.

Lemma indexOf_unit t c n : indexOf t [c] = Some n → ∃ a b, t = a ++ c :: b ∧ length a = n ∧ (c ∉ a).
Proof.
  revert n. induction t as [|d t IH]; intros n; cbn [indexOf]; [done|].
  rewrite startsWith_unit.
  destruct (N.eqb_spec c d) as [->|Hd].
  - intros [= <-]. exists [], t. split_and!; [done..|set_solver].
  - destruct (indexOf t [c]) as [m|]; [|done]. intros [= <-]. destruct (IH m eq_refl) as (a & b & -> & <- & Hc).
    exists (d :: a), b. split_and!; [done..|set_solver].
Qed.

Lemma indexOf_unit_app a c b : c ∉ a → indexOf (a ++ c :: b) [c] = Some (length a).
Proof.
  induction a as [|d a IH]; intros Hc; cbn [app indexOf].
  - by rewrite startsWith_unit, N.eqb_refl.
  - rewrite startsWith_unit.
    destruct (N.eqb_spec c d) as [->|]; [set_solver|]. rewrite IH by set_solver. done.
Qed.

Lemma lookup_rest position c r : rest position = c :: r → value !! position = Some c ∧ rest (position + 1) = r.
Proof.
  intros H. split; [by rewrite <- (Nat.add_0_r position), <- rest_lookup, H|]. by apply (rest_app _ [c]).
Qed.

Lemma rest_lookup_Some position c : value !! position = Some c → rest position = c :: rest (position + 1).
Proof. intros H. unfold rest. rewrite Nat.add_1_r. by apply drop_S. Qed.

Lemma value_end_sound position next : value_end value position = Some next →
  ∃ v, value_ok v ∧ rest position = render_value v ++ rest next ∧ next = position + length (render_value v).
Proof.
  unfold value_end. destruct (skip_spaces_spec position) as (before & Hbefore & Hrest & Hequals).
  destruct (is_at value (skip_spaces value position) 61) eqn:H61; cbn [negb].
  2: { intros [= <-]. exists None. split_and!; [done..|cbn; lia]. }
  apply is_at_rest in H61 as (r & H1 & H2).
  destruct (skip_spaces_spec (skip_spaces value position + 1)) as (after & Hafter & Hrest2 & Hquoted).
  set (quoted := skip_spaces value (skip_spaces value position + 1)) in *.
  destruct (value !! quoted) as [q|] eqn:Hq; [|done].
  destruct (negb ((q =? 34)%N || (q =? 39)%N)) eqn:Hquote; [done|].
  apply negb_false_iff, orb_true_iff in Hquote. rewrite !N.eqb_eq in Hquote.
  destruct (indexOf (drop (quoted + 1) value) [q]) as [n|] eqn:Hn; [|done]. intros [= <-].
  apply indexOf_unit in Hn as (text & b & Ht & <- & Hnot). apply rest_lookup_Some in Hq.
  assert (Hend : rest (quoted + 1 + length text + 1) = b).
  { apply (rest_app _ [q]). by apply (rest_app _ text). }
  exists (Some (before, after, q, text)). split; [done|]. rewrite Hend. split.
  - rewrite Hrest, H1, <- H2, Hrest2, Hq. unfold rest at 1. rewrite Ht. cbn [render_value]. by list_norm.
  - rewrite Hquoted, Hequals. cbn [render_value]. rewrite !length_app. cbn. lia.
Qed.

(** White space, a name and what follows it are an attribute. *)
Lemma reads_attr s k nm v position after s2 : rest (sn_at s) = k ++ rest position → position = sn_at s + length k →
  rest position = nm ++ rest after → after = position + length nm →
  reads (take_name value (ascii_lower nm) position after s) (render_value v) (render_value v) s2 →
  reads s (render_attr id {| at_space := k; at_name := nm; at_value := v |})
          (render_attr defer_name {| at_space := k; at_name := nm; at_value := v |}) s2.
Proof.
  intros Hk Hpos Hnm Hafter R3. set (s0 := move s position).
  assert (R1 : reads s k k s0) by (subst s0; rewrite Hpos; by apply (reads_move s k (rest position))).
  pose proof (reads_attr_name s0 nm (rest after) Hnm) as R2. cbn [move sn_at s0] in R2. rewrite <- Hafter in R2.
  assert (Hs1 : take_name value (ascii_lower nm) position after s = take_name value (ascii_lower nm) position after s0)
    by (subst s0; unfold take_name; by case_decide).
  rewrite Hs1 in R3. pose proof (reads_trans _ _ _ _ _ _ _ R1 (reads_trans _ _ _ _ _ _ _ R2 R3)) as R.
  exact R.
Qed.

Lemma take_name_at a start after s : sn_at (take_name value a start after s) = after.
Proof. unfold take_name. by case_decide. Qed.

(** ** Soundness *)

(** What the loop over attributes reads. *)
Definition attrs_read (closing : bool) (seen : list jsstring) (s s' : Scan) : Prop :=
  ∃ l trailing selfClosing,
    reads s ((l ≫= render_attr id) ++ trailing ++ render_close selfClosing)
            ((l ≫= render_attr defer_name) ++ trailing ++ render_close selfClosing) s' ∧
    attrs_ok seen l ∧ is_space trailing ∧ (closing = true → l = [] ∧ selfClosing = false).

Lemma attrs_read_cons seen k nm v s s2 s' : k ≠ [] → is_space k → is_name nm →
  allowed_attribute seen (ascii_lower nm) → value_ok v →
  reads s (render_attr id {| at_space := k; at_name := nm; at_value := v |})
          (render_attr defer_name {| at_space := k; at_name := nm; at_value := v |}) s2 →
  attrs_read false (ascii_lower nm :: seen) s2 s' → attrs_read false seen s s'.
Proof.
  intros Hkne Hk Hnm Href Hv R (l & tr & sc & R4 & Hl & Htr & _).
  exists ({| at_space := k; at_name := nm; at_value := v |} :: l), tr, sc. split_and!; [|done..].
  cbn [mbind list_bind]. rewrite <- !app_assoc. by apply (reads_trans _ _ _ _ _ _ _ R).
Qed.

(** The end of a tag. *)
Lemma attrs_read_end (closing selfClosing : bool) seen s k position r :
  is_space k → rest (sn_at s) = k ++ rest position → position = sn_at s + length k →
  rest position = render_close selfClosing ++ r → (closing = true → selfClosing = false) →
  attrs_read closing seen s (move s (position + length (render_close selfClosing))).
Proof.
  intros Hk Hrest Hpos Hclose Hsc. exists [], k, selfClosing. split_and!; [|done|done|auto].
  cbn [mbind list_bind app]. replace (position + length (render_close selfClosing))
    with (sn_at s + length (k ++ render_close selfClosing)) by (rewrite Hpos, length_app; lia).
  apply (reads_move s _ r). by rewrite Hrest, Hclose, <- app_assoc.
Qed.

Lemma separated_nonempty s k nm after position : is_space_at value (sn_at s) = true →
  rest (sn_at s) = k ++ rest position → is_name nm → rest position = nm ++ rest after → k ≠ [].
Proof.
  intros Hsep Hk [Hne Hf] Hnm ->. unfold is_space_at in Hsep.
  rewrite <- (Nat.add_0_r (sn_at s)), <- rest_lookup in Hsep. rewrite Hk, Hnm in Hsep.
  destruct nm as [|c nm]; [done|]. cbn in Hsep. inversion Hf. apply space_not_name in Hsep. congruence.
Qed.

Lemma attribute_loop_sound fuel closing seen s s' :
  attribute_loop value fuel closing seen s = Go s' → attrs_read closing seen s s'.
Proof.
  revert seen s. induction fuel as [|fuel IH]; intros seen s; [done|]. cbn [attribute_loop].
  destruct (skip_spaces_spec (sn_at s)) as (k & Hk & Hrest & Hpos). set (position := skip_spaces value (sn_at s)) in *.
  destruct (is_at value position 62) eqn:H62.
  { apply is_at_rest in H62 as (r & H1 & _). intros [= <-]. by apply (attrs_read_end closing false seen s k position r). }
  destruct (is_at value position 47 && is_at value (position + 1) 62 && negb closing) eqn:H47.
  { apply andb_prop in H47 as [[H47 H62']%andb_prop Hcl%negb_true_iff].
    apply is_at_rest in H47 as (r & H1 & H2). apply is_at_rest in H62' as (r' & H3 & _). intros [= <-].
    apply (attrs_read_end closing true seen s k position r'); try done; [|congruence]. cbn. by rewrite H1, <- H3, <- H2. }
  destruct (closing || negb (is_space_at value (sn_at s)) || (length value <=? position)) eqn:Hguard; [done|].
  apply orb_false_iff in Hguard as [[-> Hsep%negb_false_iff]%orb_false_iff _].
  destruct (name value position) as [[a after]|] eqn:Hname; [|done].
  destruct (name_spec _ _ _ Hname) as (nm & Hnm & Hrest2 & Hafter & ->).
  destruct (refused_attribute seen (ascii_lower nm)) eqn:Hrefused; [done|]. apply refused_attribute_spec in Hrefused.
  destruct (value_end value after) as [next|] eqn:Hnext; [|done].
  destruct (value_end_sound _ _ Hnext) as (v & Hv & Hrest3 & ->). intros Hloop.
  pose proof (separated_nonempty s k nm after position Hsep Hrest Hnm Hrest2) as Hkne.
  refine (attrs_read_cons seen k nm v s _ s' Hkne Hk Hnm Hrefused Hv _ (IH _ _ Hloop)).
  apply (reads_attr s k nm v position after); [done..|].
  pose proof (take_name_at (ascii_lower nm) position after s) as Hat.
  apply (reads_move_to _ _ (rest (after + length (render_value v)))); by rewrite Hat.
Qed.

(** Items read. *)
Definition items_read (s s' : Scan) : Prop :=
  ∃ items, reads s (render id items) (render defer_name items) s' ∧ Forall item_ok items.

Lemma items_read_refl s : items_read s s.
Proof. exists []. split; [apply reads_refl|done]. Qed.

Lemma items_read_cons s i s1 s' : reads s (render_item id i) (render_item defer_name i) s1 → item_ok i →
  items_read s1 s' → items_read s s'.
Proof.
  intros R Hi (items & R' & Hitems). exists (i :: items). split; [|by constructor].
  exact (reads_trans _ _ _ _ _ _ _ R R').
Qed.

(** A markup construct, from its opening bracket. *)
Definition opened (s : Scan) (r : jsstring) : Prop := rest (sn_at s) = 60%N :: r.

Lemma comment_step_sound s r s' : opened s r → startsWith r (js "!--") = true →
  comment_step value (sn_at s + 1) s = Go s' →
  ∃ body, reads s (render_item id (Comment body)) (render_item defer_name (Comment body)) s' ∧ item_ok (Comment body).
Proof.
  intros Hopen (t & Ht)%startsWith_spec. unfold comment_step.
  assert (Hrest : rest (sn_at s + 1 + 3) = t).
  { apply (rest_app _ (js "!--")). rewrite <- Ht. by apply (rest_app _ [60%N]). }
  unfold rest in Hrest. rewrite Hrest.
  destruct (indexOf t (js "-->")) as [n|] eqn:Hn; [|done]. destruct (indexOf_Some _ _ _ Hn) as (body & b & -> & <-).
  assert (Hslice : slice (sn_at s + 1 + 3) (sn_at s + 1 + 3 + length body) = body)
    by by apply (slice_rest _ _ (js "-->" ++ b)).
  rewrite Hslice. destruct (refused_comment body) eqn:Href; [done|]. apply refused_comment_spec in Href. intros [= <-]. exists body. split; [|done].
  cbn [render_item].
  replace (sn_at s + 1 + 3 + length body + 3) with (sn_at s + length (js "<!--" ++ body ++ js "-->"))
    by (rewrite !length_app; vm_compute (length (js "<!--")); vm_compute (length (js "-->")); lia).
  apply (reads_move s _ b). rewrite Hopen, Ht. by rewrite <- !app_assoc.
Qed.

Lemma tag_step_sound s r s' : opened s r → tag_step value (sn_at s + 1) s = Go s' →
  ∃ i, reads s (render_item id i) (render_item defer_name i) s' ∧ item_ok i.
Proof.
  intros Hopen. unfold tag_step. set (closing := is_at value (sn_at s + 1) 47).
  set (slash := if closing then [47%N] else []).
  assert (Hr : rest (sn_at s + 1) = r) by by apply (rest_app _ [60%N]).
  assert (Hslash : r = slash ++ rest (sn_at s + 1 + length slash)).
  { subst slash. destruct closing eqn:Hc; [|cbn; by rewrite Nat.add_0_r].
    apply is_at_rest in Hc as (r' & H1 & H2). cbn [length app]. rewrite H2. congruence. }
  replace (if closing then sn_at s + 1 + 1 else sn_at s + 1) with (sn_at s + 1 + length slash)
    by (subst slash; destruct closing; cbn; lia).
  set (position := sn_at s + 1 + length slash) in *.
  destruct (value !! position) as [c|] eqn:Hat; [|done]. destruct (is_letter c) eqn:Hletter; [|done]. cbn [negb].
  destruct (name value position) as [[a after]|] eqn:Hname; [|done].
  destruct (name_spec _ _ _ Hname) as (tag & Htag & Hrest & Hafter & ->).
  case_bool_decide as Hforbidden; [done|]. intros (l & tr & sc & R & Hl & Htr & Hclose)%attribute_loop_sound.
  exists (Tag closing tag l tr sc). split.
  - assert (R1 : reads s ([60%N] ++ slash ++ tag) ([60%N] ++ slash ++ tag) (move s after)).
    { replace after with (sn_at s + length ([60%N] ++ slash ++ tag)) by (rewrite !length_app; cbn; lia).
      apply (reads_move s _ (rest after)). rewrite Hopen, Hslash, Hrest. by list_norm. }
    pose proof (reads_trans _ _ _ _ _ _ _ R1 R) as R2. cbn [render_item]. fold slash.
    rewrite <- !app_assoc in R2. exact R2.
  - cbn [item_ok]. split_and!; try done. exists c. split; [|done].
    rewrite <- (Nat.add_0_r position), <- rest_lookup, Hrest in Hat. destruct Htag as [Hne _]. by destruct tag.
Qed.

Lemma markup_loop_sound fuel s s' : markup_loop value fuel s = Go s' → items_read s s' ∧ value !! sn_at s' = None.
Proof.
  revert s. induction fuel as [|fuel IH]; intros s; cbn [markup_loop].
  { destruct (value !! sn_at s) eqn:Hat; [done|]. intros [= <-]. split; [apply items_read_refl|done]. }
  destruct (value !! sn_at s) as [c|] eqn:Hat; [|intros [= <-]; split; [apply items_read_refl|done]].
  assert (Hrest : rest (sn_at s) = c :: rest (sn_at s + 1)) by (unfold rest; rewrite Nat.add_1_r; by apply drop_S).
  destruct (N.eqb_spec c 60) as [->|Hc]; cbn [negb].
  - set (step := if startsWith (drop (sn_at s + 1) value) (js "!--") then _ else _).
    assert (Hstep : ∀ s1, step = Go s1 → ∃ i, reads s (render_item id i) (render_item defer_name i) s1 ∧ item_ok i).
    { intros s1. subst step. destruct (startsWith _ _) eqn:Hstart; [|by apply (tag_step_sound s (rest (sn_at s + 1)))].
      intros Hs. destruct (comment_step_sound s _ s1 Hrest Hstart Hs) as (b & R & Hb). by exists (Comment b). }
    destruct step as [s1| |]; [|done..]. intros Hloop. destruct (Hstep s1 eq_refl) as (i & R & Hi).
    destruct (IH s1 Hloop) as [Hitems Hend]. split; [|done]. by apply (items_read_cons s i s1).
  - intros Hloop. destruct (IH _ Hloop) as [Hitems Hend]. split; [|done].
    apply (items_read_cons s (TextUnit c) (move s (sn_at s + 1))); [|done|done].
    by apply (reads_move s [c] (rest (sn_at s + 1))).
Qed.

(** ** Completeness *)

(** What may follow an attribute or a tag's name: white space, then neither a name's
    end nor an equals sign is missing. *)
Definition follows (t : jsstring) : Prop :=
  (∀ c, head t = Some c → name_unit c = false) ∧
  ∃ sp c t', t = sp ++ c :: t' ∧ is_space sp ∧ space c = false ∧ c ≠ 61%N.

Lemma name_head_facts n : is_name n → ∃ c n', n = c :: n' ∧ name_unit c = true ∧ space c = false ∧
  c ≠ 61%N ∧ c ≠ 62%N ∧ c ≠ 47%N.
Proof.
  intros [Hne Hf]. destruct n as [|c n]; [done|]. inversion Hf as [|? ? Hc _]; subst. exists c, n.
  split_and!; try done; [destruct (space c) eqn:Hs; [apply space_not_name in Hs; congruence|done]|..];
    intros ->; done.
Qed.

Lemma space_head sp t c : is_space sp → sp ≠ [] → head (sp ++ t) = Some c → name_unit c = false.
Proof. intros Hs Hne. destruct Hs as [|d sp Hd _]; [done|]. intros [= <-]. by apply space_not_name. Qed.

Lemma end_follows seen l trailing (selfClosing : bool) r : attrs_ok seen l → is_space trailing →
  follows ((l ≫= render_attr id) ++ trailing ++ render_close selfClosing ++ r).
Proof.
  intros Hl Htr. destruct l as [|a l]; cbn [mbind list_bind app].
  - split.
    + destruct (decide (trailing = [])) as [->|Hne]; [|intros c; by apply space_head].
      destruct selfClosing; by intros c [= <-].
    + exists trailing. destruct selfClosing; eexists _, _; split_and!; try done.
  - destruct Hl as (Hne & Hsp & Hnm & _). destruct (name_head_facts _ Hnm) as (c & n' & Hn & Hc & Hcs & H61 & _).
    unfold render_attr at 1. cbn [id]. rewrite Hn. split.
    + intros d. rewrite <- !app_assoc. by apply space_head.
    + eexists (at_space a), c, _. split_and!; [|done..]. by rewrite <- !app_assoc.
Qed.

Lemma rest_nonempty position c r : rest position = c :: r → (length value <=? position) = false.
Proof. intros H. apply Nat.leb_gt. apply (f_equal length) in H. unfold rest in H. rewrite length_drop in H. cbn in H. lia. Qed.

Lemma is_at_head position c d r : rest position = d :: r → is_at value position c = (c =? d)%N.
Proof. intros H. unfold is_at. by rewrite <- (Nat.add_0_r position), <- rest_lookup, H. Qed.

Lemma attribute_end_complete fuel (closing selfClosing : bool) seen s trailing r :
  rest (sn_at s) = trailing ++ render_close selfClosing ++ r → is_space trailing →
  (closing = true → selfClosing = false) →
  ∃ s', attribute_loop value (S fuel) closing seen s = Go s' ∧
    reads s (trailing ++ render_close selfClosing) (trailing ++ render_close selfClosing) s' ∧ rest (sn_at s') = r.
Proof.
  intros Hrest Htr Hclosing. cbn [attribute_loop].
  rewrite (skip_spaces_complete _ _ _ Hrest Htr) by (destruct selfClosing; by intros c [= <-]).
  pose proof (rest_app _ _ _ Hrest) as Hend.
  assert (Hgo : reads s (trailing ++ render_close selfClosing) (trailing ++ render_close selfClosing)
            (move s (sn_at s + length trailing + length (render_close selfClosing)))).
  { rewrite <- Nat.add_assoc, <- length_app. apply (reads_move s _ r). by rewrite <- app_assoc. }
  pose proof (rest_app _ _ _ Hend) as Hend'.
  destruct selfClosing; cbn [render_close app] in Hend.
  - pose proof (rest_app _ [47%N] _ Hend) as Hend2. cbn [length] in Hend2.
    rewrite (is_at_head _ 62 _ _ Hend), (is_at_head _ 47 _ _ Hend), (is_at_head _ 62 _ _ Hend2).
    destruct closing; [by specialize (Hclosing eq_refl)|]. by eexists.
  - rewrite (is_at_head _ _ _ _ Hend). by eexists.
Qed.

Lemma value_end_complete position v t : rest position = render_value v ++ t → value_ok v → follows t →
  value_end value position = Some (position + length (render_value v)).
Proof.
  intros Hrest Hv [_ (sp & c & t' & Ht & Hsp & Hc & H61)]. unfold value_end.
  destruct v as [[[[before after] q] text]|]; cbn [render_value app length] in *.
  - destruct Hv as (Hbefore & Hafter & Hq & Htext).
    assert (Hrest1 : rest position = before ++ 61%N :: after ++ q :: text ++ q :: t) by (rewrite Hrest; by list_norm).
    clear Hrest. rename Hrest1 into Hrest. rewrite (skip_spaces_complete _ _ _ Hrest Hbefore) by by intros ? [= <-].
    pose proof (rest_app _ _ _ Hrest) as Hrest2. cbn [app] in Hrest2.
    rewrite (is_at_head _ _ _ _ Hrest2), N.eqb_refl. cbn [negb].
    pose proof (rest_app _ [61%N] _ Hrest2) as Hrest3. cbn [length] in Hrest3.
    rewrite (skip_spaces_complete _ _ _ Hrest3 Hafter) by (cbn; intros ? [= <-]; by destruct Hq as [-> | ->]).
    pose proof (rest_app _ _ _ Hrest3) as Hrest4. cbn [app] in Hrest4.
    destruct (lookup_rest _ _ _ Hrest4) as [-> Hrest5].
    assert (((q =? 34)%N || (q =? 39)%N) = true) as -> by (by destruct Hq as [-> | ->]). cbn [negb].
    unfold rest in Hrest5. rewrite Hrest5, indexOf_unit_app by done. cbn. f_equal. rewrite !length_app. cbn.
    rewrite !length_app. cbn. rewrite length_app. cbn. lia.
  - rewrite (skip_spaces_complete position sp (c :: t')); [|by rewrite Hrest|done|by intros ? [= <-]].
    assert (rest (position + length sp) = c :: t') as Hr by (apply rest_app; by rewrite Hrest).
    rewrite (is_at_head _ _ _ _ Hr), (proj2 (N.eqb_neq 61 c)) by done. cbn. f_equal. lia.
Qed.

Lemma value_not_name v t : value_ok v → follows t → ∀ c, head (render_value v ++ t) = Some c → name_unit c = false.
Proof.
  intros Hv [Hnot _]. destruct v as [[[[before after] q] text]|]; [|done]. destruct Hv as (Hbefore & _).
  destruct Hbefore as [|b before Hb _]; cbn; intros c [= <-]; [done|by apply space_not_name].
Qed.

(** One round of the loop reads one attribute. *)
Lemma attribute_round fuel seen s a t : rest (sn_at s) = render_attr id a ++ t → follows t →
  at_space a ≠ [] → is_space (at_space a) → is_name (at_name a) →
  allowed_attribute seen (ascii_lower (at_name a)) → value_ok (at_value a) →
  ∃ s1, attribute_loop value (S fuel) false seen s = attribute_loop value fuel false (ascii_lower (at_name a) :: seen) s1 ∧
    reads s (render_attr id a) (render_attr defer_name a) s1 ∧ rest (sn_at s1) = t.
Proof.
  intros Hrest Hfollows Hne Hk Hnm Href%refused_attribute_spec Hv. cbn [attribute_loop].
  destruct a as [k nm v]. unfold render_attr in Hrest. cbn [at_space at_name at_value id] in *.
  rewrite <- !app_assoc in Hrest. destruct (name_head_facts _ Hnm) as (d & nm' & Hd & Hdn & Hds & _ & H62 & H47).
  rewrite (skip_spaces_complete _ _ _ Hrest Hk) by (rewrite Hd; by intros ? [= <-]).
  set (position := sn_at s + length k). pose proof (rest_app _ _ _ Hrest) as Hrest2. fold position in Hrest2.
  assert (Hhead : rest position = d :: (nm' ++ render_value v ++ t)) by by rewrite Hrest2, Hd.
  rewrite (is_at_head _ 62 _ _ Hhead), (is_at_head _ 47 _ _ Hhead), (rest_nonempty _ _ _ Hhead).
  rewrite (proj2 (N.eqb_neq 62 d)), (proj2 (N.eqb_neq 47 d)) by done. cbn [andb orb].
  assert (is_space_at value (sn_at s) = true) as ->.
  { unfold is_space_at. rewrite <- (Nat.add_0_r (sn_at s)), <- rest_lookup, Hrest. by destruct Hk. }
  cbn [negb]. pose proof (rest_app _ _ _ Hrest2) as Hrest3.
  rewrite (name_complete _ _ _ Hrest2 Hnm) by by apply value_not_name.
  set (after := position + length nm) in *. rewrite Href, (value_end_complete _ _ _ Hrest3) by done.
  eexists. split; [done|]. split; [|cbn; by apply rest_app].
  assert (Hend : rest (after + length (render_value v)) = t) by by apply rest_app.
  apply (reads_attr s k nm v position after); [by rewrite Hrest, Hrest2|done|by rewrite Hrest2, Hrest3|done|].
  pose proof (take_name_at (ascii_lower nm) position after s) as Hat.
  apply (reads_move_to _ _ t); by rewrite Hat.
Qed.

Lemma attribute_loop_complete fuel (closing selfClosing : bool) seen s l trailing r :
  rest (sn_at s) = (l ≫= render_attr id) ++ trailing ++ render_close selfClosing ++ r →
  attrs_ok seen l → is_space trailing → (closing = true → l = [] ∧ selfClosing = false) →
  length (rest (sn_at s)) ≤ fuel →
  ∃ s', attribute_loop value fuel closing seen s = Go s' ∧
    reads s ((l ≫= render_attr id) ++ trailing ++ render_close selfClosing)
            ((l ≫= render_attr defer_name) ++ trailing ++ render_close selfClosing) s' ∧ rest (sn_at s') = r.
Proof.
  revert fuel seen s. induction l as [|a l IH]; intros fuel seen s Hrest Hl Htr Hclosing Hfuel.
  - destruct fuel as [|fuel].
    { exfalso. rewrite Hrest in Hfuel. cbn in Hfuel. rewrite !length_app in Hfuel. destruct selfClosing; cbn in Hfuel; lia. }
    cbn [mbind list_bind app] in *. apply attribute_end_complete; [done..|by intros [_ ?]%Hclosing].
  - destruct closing; [by destruct (Hclosing eq_refl)|]. destruct Hl as (Hne & Hk & Hnm & Href & Hv & Hl).
    cbn [mbind list_bind] in Hrest. rewrite <- app_assoc in Hrest. destruct fuel as [|fuel].
    { exfalso. rewrite Hrest in Hfuel. unfold render_attr in Hfuel. rewrite !length_app in Hfuel.
      destruct (at_space a); [done|]. cbn in Hfuel. lia. }
    destruct (attribute_round fuel seen s a _ Hrest (end_follows _ _ _ _ _ Hl Htr) Hne Hk Hnm Href Hv)
      as (s1 & Hround & R1 & Hrest1).
    destruct (IH fuel _ s1 Hrest1 Hl Htr ltac:(done)) as (s' & Hloop & R & Hr).
    { rewrite Hrest1. rewrite Hrest in Hfuel. rewrite length_app in Hfuel. unfold render_attr in Hfuel at 1.
      rewrite !length_app in Hfuel. destruct (at_space a); [done|]. cbn in Hfuel. rewrite !length_app in *. lia. }
    exists s'. split; [by rewrite Hround|]. split; [|done]. cbn [mbind list_bind]. rewrite <- !app_assoc.
    by apply (reads_trans _ _ _ _ _ _ _ R1).
Qed.

Lemma includes_cons c body p : includes (c :: body) p = false → includes body p = false.
Proof.
  intros H. destruct (includes body p) eqn:E; [|done]. apply includes_spec in E as (a & b & ->).
  assert (includes (c :: a ++ p ++ b) p = true); [|congruence]. apply includes_spec. by exists (c :: a), b.
Qed.

Lemma comment_end body r : includes body (js "--") = false → last body ≠ Some 45%N →
  indexOf (body ++ js "-->" ++ r) (js "-->") = Some (length body).
Proof.
  induction body as [|c body IH]; intros Hin Hlast.
  { pose proof (startsWith_app (js "-->") r) as Hp. cbn [app length].
    change (js "-->" ++ r) with (45%N :: 45%N :: 62%N :: r) in *. cbn [indexOf]. by rewrite Hp. }
  assert (Hno : startsWith (c :: body ++ js "-->" ++ r) (js "-->") = false).
  { change (js "-->") with [45%N; 45%N; 62%N]. destruct (startsWith _ _) eqn:E; [|done]. exfalso.
    cbn [startsWith] in E. destruct (N.eqb_spec 45 c) as [<-|]; [|done]. destruct body as [|d body]; [done|].
    cbn [app startsWith] in E. destruct (N.eqb_spec 45 d) as [<-|]; [|done].
    assert (includes (45%N :: 45%N :: body) (js "--") = true); [|congruence]. apply includes_spec. by exists [], body. }
  cbn [app indexOf length]. rewrite Hno, IH; [done|by eapply includes_cons|by destruct body].
Qed.

Lemma comment_step_complete s body r : opened s (js "!--" ++ body ++ js "-->" ++ r) → comment_ok body →
  ∃ s', comment_step value (sn_at s + 1) s = Go s' ∧
    reads s (render_item id (Comment body)) (render_item defer_name (Comment body)) s' ∧ rest (sn_at s') = r.
Proof.
  intros Hopen Href%refused_comment_spec. pose proof Href as Href'. unfold refused_comment in Href'.
  apply orb_false_iff in Href' as [[_ Hin]%orb_false_iff Hlast%bool_decide_eq_false].
  pose proof (rest_app _ _ _ (rest_app _ [60%N] _ Hopen)) as Hrest.
  change (length [60%N]) with 1 in Hrest. change (length (js "!--")) with 3 in Hrest.
  unfold comment_step. unfold rest in Hrest. rewrite Hrest, comment_end by done.
  rewrite (slice_rest _ _ (js "-->" ++ r)) by done. rewrite Href. eexists. split; [done|].
  pose proof (rest_app _ _ _ Hrest) as Hrest2. apply (rest_app _ (js "-->")) in Hrest2. split; [|done].
  cbn [render_item]. apply (reads_move_to _ _ r); [rewrite Hopen; by rewrite <- !app_assoc|].
  rewrite !length_app. change (length (js "<!--")) with 4. change (length (js "-->")) with 3. lia.
Qed.

Lemma letter_name c : is_letter c = true → name_unit c = true ∧ c ≠ 47%N ∧ c ≠ 33%N.
Proof. intros H. unfold name_unit. rewrite H. split_and!; [done|by intros ->..]. Qed.

Lemma tag_step_complete s (closing : bool) tag l trailing (selfClosing : bool) r :
  opened s ((if closing then [47%N] else []) ++ tag ++ (l ≫= render_attr id) ++ trailing ++ render_close selfClosing ++ r) →
  item_ok (Tag closing tag l trailing selfClosing) →
  ∃ s', tag_step value (sn_at s + 1) s = Go s' ∧
    reads s (render_item id (Tag closing tag l trailing selfClosing))
            (render_item defer_name (Tag closing tag l trailing selfClosing)) s' ∧ rest (sn_at s') = r.
Proof.
  intros Hopen (Htag & (c & Hc & Hletter) & Hforbidden & Hl & Htr & Hclosing).
  set (slash := if closing then [47%N] else []) in *. pose proof (rest_app _ [60%N] _ Hopen) as Hrest.
  destruct (letter_name c Hletter) as (_ & H47 & _). destruct tag as [|c' tag]; [done|]. injection Hc as ->.
  assert (Hcl : is_at value (sn_at s + 1) 47 = closing).
  { subst slash. destruct closing; rewrite (is_at_head _ _ _ _ Hrest); [done|]. by apply N.eqb_neq. }
  unfold tag_step. rewrite Hcl.
  replace (if closing then sn_at s + 1 + 1 else sn_at s + 1) with (sn_at s + 1 + length slash)
    by (subst slash; destruct closing; cbn; lia).
  pose proof (rest_app _ _ _ Hrest) as Hrest2. change (length [60%N]) with 1 in Hrest2.
  set (position := sn_at s + 1 + length slash) in *. destruct (lookup_rest _ _ _ Hrest2) as [-> _].
  rewrite Hletter. cbn [negb]. destruct (end_follows [] l trailing selfClosing r Hl Htr) as [Hnot _].
  rewrite (name_complete _ _ _ Hrest2 Htag Hnot). rewrite bool_decide_false by done.
  pose proof (rest_app _ _ _ Hrest2) as Hrest3. set (after := position + length (c :: tag)) in *.
  destruct (attribute_loop_complete (length value) closing selfClosing [] (move s after) l trailing r)
    as (s' & Hloop & R & Hr); [exact Hrest3|exact Hl|exact Htr|exact Hclosing|unfold rest; rewrite length_drop; lia|].
  exists s'. split; [done|]. split; [|done].
  assert (R1 : reads s ([60%N] ++ slash ++ c :: tag) ([60%N] ++ slash ++ c :: tag) (move s after)).
  { apply (reads_move_to _ _ ((l ≫= render_attr id) ++ trailing ++ render_close selfClosing ++ r)).
    - rewrite Hopen. by rewrite <- !app_assoc.
    - subst after position. rewrite !length_app. cbn. lia. }
  pose proof (reads_trans _ _ _ _ _ _ _ R1 R) as R2. cbn [render_item]. fold slash.
  rewrite <- !app_assoc in R2. exact R2.
Qed.

(** An item is read in one round of the outer loop. *)
Lemma markup_round fuel s i r : rest (sn_at s) = render_item id i ++ r → item_ok i →
  ∃ s1, markup_loop value (S fuel) s = markup_loop value fuel s1 ∧
    reads s (render_item id i) (render_item defer_name i) s1 ∧ rest (sn_at s1) = r.
Proof.
  intros Hrest Hi. destruct i as [c|body|closing tag l trailing selfClosing].
  - cbn [render_item app] in Hrest. destruct (lookup_rest _ _ _ Hrest) as [Hat Hr]. exists (move s (sn_at s + 1)).
    cbn [markup_loop]. rewrite Hat, (proj2 (N.eqb_neq c 60)) by done. split; [done|]. split; [|done].
    by apply (reads_move s [c] r).
  - assert (Hopen : opened s (js "!--" ++ body ++ js "-->" ++ r)).
    { unfold opened. rewrite Hrest. cbn [render_item]. by rewrite <- !app_assoc. }
    destruct (comment_step_complete s body r Hopen Hi) as (s1 & Hs & R & Hr). exists s1. split; [|done].
    cbn [markup_loop]. destruct (lookup_rest _ _ _ Hopen) as [-> Hr1]. cbn [N.eqb Pos.eqb negb].
    unfold rest in Hr1. rewrite Hr1, startsWith_app, Hs. done.
  - assert (Hopen : opened s ((if closing then [47%N] else []) ++ tag ++ (l ≫= render_attr id) ++ trailing ++
                              render_close selfClosing ++ r)).
    { unfold opened. rewrite Hrest. cbn [render_item]. by rewrite <- !app_assoc. }
    destruct (tag_step_complete s closing tag l trailing selfClosing r Hopen Hi) as (s1 & Hs & R & Hr).
    exists s1. split; [|done]. cbn [markup_loop]. destruct (lookup_rest _ _ _ Hopen) as [-> Hr1].
    cbn [N.eqb Pos.eqb negb]. unfold rest in Hr1. rewrite Hr1.
    destruct Hi as (_ & (c & Hc & (_ & _ & H33)%letter_name) & _). destruct tag as [|c' tag]; [done|]. injection Hc as ->.
    assert (∀ t, startsWith ((if closing then [47%N] else []) ++ (c :: tag) ++ t) (js "!--") = false) as ->; [|by rewrite Hs].
    intros t. change (js "!--") with [33%N; 45%N; 45%N]. destruct closing; cbn [app startsWith]; [done|].
    rewrite (proj2 (N.eqb_neq 33 c)); [done|congruence].
Qed.

Lemma render_item_nonempty f i : render_item f i ≠ [].
Proof. by destruct i. Qed.

Lemma markup_loop_complete fuel s items : rest (sn_at s) = render id items → Forall item_ok items →
  length (rest (sn_at s)) ≤ fuel →
  ∃ s', markup_loop value fuel s = Go s' ∧ reads s (render id items) (render defer_name items) s' ∧ rest (sn_at s') = [].
Proof.
  intros Hrest Hitems. revert fuel s Hrest. induction Hitems as [|i items Hi _ IH]; intros fuel s Hrest Hfuel.
  - exists s. split; [|split; [apply reads_refl|done]].
    assert (value !! sn_at s = None) as Hat by (by rewrite <- (Nat.add_0_r (sn_at s)), <- rest_lookup, Hrest).
    destruct fuel; cbn [markup_loop]; by rewrite Hat.
  - change (render id (i :: items)) with (render_item id i ++ render id items) in Hrest.
    assert (0 < length (render_item id i)) by (pose proof (render_item_nonempty id i); destruct (render_item id i); [done|cbn; lia]).
    rewrite Hrest, length_app in Hfuel. destruct fuel as [|fuel]; [lia|].
    destruct (markup_round fuel s i _ Hrest Hi) as (s1 & -> & R1 & Hr1).
    destruct (IH fuel s1 Hr1) as (s' & Hloop & R & Hr); [rewrite Hr1; lia|].
    exists s'. split; [done|]. split; [|done]. exact (reads_trans _ _ _ _ _ _ _ R1 R).
Qed.

(** ** Termination *)

Lemma attribute_loop_ends fuel closing seen s : length (rest (sn_at s)) < fuel →
  attribute_loop value fuel closing seen s ≠ NoFuel.
Proof.
  revert seen s. induction fuel as [|fuel IH]; intros seen s Hfuel; [lia|]. cbn [attribute_loop].
  destruct (skip_spaces_spec (sn_at s)) as (k & _ & Hrest & _). set (position := skip_spaces value (sn_at s)) in *.
  repeat case_match; try done. simplify_eq. apply IH. cbn [move sn_at].
  match goal with H : name value position = Some _ |- _ => destruct (name_spec _ _ _ H) as (nm & [Hne _] & Hrest2 & _) end.
  match goal with H : value_end value _ = Some _ |- _ => destruct (value_end_sound _ _ H) as (v & _ & Hrest3 & _) end.
  rewrite Hrest, Hrest2, Hrest3, !length_app in Hfuel. destruct nm; [done|]. cbn in Hfuel. lia.
Qed.

Lemma tag_step_ends s r : opened s r → tag_step value (sn_at s + 1) s ≠ NoFuel.
Proof.
  intros Hopen. apply in_range_rest in Hopen. unfold tag_step.
  set (position := if is_at value (sn_at s + 1) 47 then _ else _).
  assert (sn_at s < position) by (subst position; case_match; lia).
  destruct (value !! position) as [c|]; [|done]. destruct (negb (is_letter c)); [done|].
  destruct (name value position) as [[a after]|] eqn:Hname; [|done]. case_bool_decide; [done|].
  destruct (name_spec _ _ _ Hname) as (nm & _ & _ & -> & _). apply attribute_loop_ends. cbn [move sn_at].
  unfold rest. rewrite length_drop. lia.
Qed.

Lemma markup_loop_ends fuel s : length (rest (sn_at s)) ≤ fuel → markup_loop value fuel s ≠ NoFuel.
Proof.
  revert s. induction fuel as [|fuel IH]; intros s Hfuel; cbn [markup_loop].
  { destruct (value !! sn_at s) as [c|] eqn:Hat; [|done]. apply rest_lookup_Some in Hat. rewrite Hat in Hfuel. cbn in Hfuel. lia. }
  destruct (value !! sn_at s) as [c|] eqn:Hat; [|done]. apply rest_lookup_Some in Hat.
  assert (Hnext : ∀ i s1, reads s (render_item id i) (render_item defer_name i) s1 → markup_loop value fuel s1 ≠ NoFuel).
  { intros i s1 R. apply IH. rewrite (reads_text _ _ _ _ R), length_app in Hfuel.
    pose proof (render_item_nonempty id i). destruct (render_item id i); [done|]. cbn in Hfuel. lia. }
  destruct (N.eqb_spec c 60) as [->|Hc]; cbn [negb].
  - destruct (startsWith _ _) eqn:Hstart.
    + destruct (comment_step value (sn_at s + 1) s) as [s1| |] eqn:Hs; [|done|].
      * destruct (comment_step_sound s _ s1 Hat Hstart Hs) as (b & R & _). by apply (Hnext (Comment b)).
      * unfold comment_step in Hs. by repeat case_match.
    + destruct (tag_step value (sn_at s + 1) s) as [s1| |] eqn:Hs; [|done|by apply (tag_step_ends s _ Hat) in Hs].
      destruct (tag_step_sound s _ s1 Hat Hs) as (i & R & _). by apply (Hnext i).
  - apply IH. cbn [move sn_at]. rewrite Hat in Hfuel. cbn in Hfuel. lia.
Qed.
End reading.

(** * Properties of the scanner *)

Definition scan_start : Scan := {| sn_output := []; sn_copied := 0; sn_at := 0 |}.

(** The names of the attributes of a tag. *)
Definition tag_names_ok (P : jsstring → Prop) (i : Item) : Prop :=
  match i with Tag _ _ attributes _ _ => Forall (λ a, P (at_name a)) attributes | _ => True end.

Lemma deferred_not_style n : ascii_lower (defer_name n) ≠ js "style".
Proof. unfold defer_name. case_decide; [|done]. by vm_compute. Qed.

(** What was output when the whole text is read. *)
Lemma scanned_text value s k o : reads value scan_start k o s → rest value (sn_at s) = [] →
  mjoin (sn_output s ++ [slice value (sn_copied s) (length value)]) = o.
Proof.
  intros [T A R E] Hr. assert (Hstart : in_range value scan_start) by (split; cbn; lia).
  specialize (R Hstart). specialize (E Hstart). destruct R as [_ Hle].
  assert (Hat : sn_at s = length value).
  { apply (f_equal length) in Hr. unfold rest in Hr. rewrite length_drop in Hr. cbn in Hr. lia. }
  unfold emitted in E. rewrite Hat in E. cbn in E. rewrite join_app. cbn [mjoin list_join]. by rewrite app_nil_r.
Qed.

(** The texts that are accepted, and what becomes of them. *)
Lemma deferStyles_spec (value : jsstring) :
  match deferStyles value with
  | None => False
  | Some (Ok out) => ∃ items, Forall item_ok items ∧ value = render id items ∧ out = render defer_name items ∧
      Forall (tag_names_ok (λ n, ascii_lower (defer_name n) ≠ js "style")) items
  | Some (Err e) => e = unsupported_syntax ∧ ∀ items, Forall item_ok items → value ≠ render id items
  end ∧
  (∀ items, Forall item_ok items → deferStyles (render id items) = Some (Ok (render defer_name items))).
Proof.
  assert (Hcomplete : ∀ items, Forall item_ok items →
    deferStyles (render id items) = Some (Ok (render defer_name items))).
  { intros items Hitems. set (text := render id items). unfold deferStyles. fold scan_start.
    destruct (markup_loop_complete text (length text) scan_start items eq_refl Hitems) as (s' & -> & R & Hr).
    { unfold rest. rewrite length_drop. cbn. lia. }
    by rewrite (scanned_text text s' (render id items) (render defer_name items) R Hr). }
  split; [|exact Hcomplete]. unfold deferStyles. fold scan_start.
  destruct (markup_loop value (length value) scan_start) as [s'| |] eqn:Hloop.
  - destruct (markup_loop_sound _ _ _ _ Hloop) as ((items & R & Hitems) & Hend).
    assert (Hr : rest value (sn_at s') = []) by (unfold rest; apply drop_ge; by apply lookup_ge_None).
    exists items. split; [done|]. rewrite (scanned_text value s' _ _ R Hr). split_and!; [|done|].
    2: { apply Forall_forall. intros [| |? ? l ? ?] _; [done..|]. apply Forall_forall. intros a _. apply deferred_not_style. }
    pose proof (reads_text _ _ _ _ _ R) as Ht. by rewrite Hr, app_nil_r in Ht.
  - split; [done|]. intros items Hitems ->. specialize (Hcomplete items Hitems). unfold deferStyles in Hcomplete.
    fold scan_start in Hcomplete. by rewrite Hloop in Hcomplete.
  - revert Hloop. apply markup_loop_ends. unfold rest. rewrite length_drop. cbn. lia.
Qed.

(** C32 The scanner always ends. It accepts exactly the texts that render allowed items:
    no forbidden element, no attribute twice, no event handler, nonce or stored style,
    values in quotes, and comments an HTML parser ends where the scanner does. Its
    output renders the same items with every style attribute renamed, so that none is
    left, in whatever case it was written. *)
Theorem deferStyles_renames (value : jsstring) :
  match deferStyles value with
  | None => False
  | Some (Ok out) => ∃ items, Forall item_ok items ∧ value = render id items ∧ out = render defer_name items ∧
      Forall (tag_names_ok (λ n, ascii_lower (defer_name n) ≠ js "style")) items
  | Some (Err e) => e = unsupported_syntax ∧ ∀ items, Forall item_ok items → value ≠ render id items
  end ∧
  (∀ items, Forall item_ok items → deferStyles (render id items) = Some (Ok (render defer_name items))).
Proof. apply deferStyles_spec. Qed.

(** * Properties of the fragments *)

(** A node that may be shown: no forbidden element, no event handler or nonce, and
    no style still stored. *)
Definition node_ok (n : DomNode) : Prop :=
  match n with
  | OtherNode => True
  | Element localName attributes _ =>
      (localName ∉ forbiddenTags) ∧ Forall (λ a, a.1 ≠ js "nonce" ∧ ¬ (∃ t, ascii_lower a.1 = js "on" ++ t)) attributes ∧
      prop_get attributes storedStyle = None
  end.

(** A parsed node and the node shown for it: the stored style is applied, and nothing
    else changes. *)
Definition shown_as (parsed node : DomNode) : Prop :=
  match parsed, node with
  | OtherNode, OtherNode => True
  | Element l a css, Element l' a' css' =>
      l' = l ∧ a' = prop_delete a storedStyle ∧
      css' = match prop_get a storedStyle with Some s => Some s | None => css end
  | _, _ => False
  end.

Lemma prop_delete_absent {V} (l : list (jsstring * V)) k : prop_get l k = None → prop_delete l k = l.
Proof.
  unfold prop_delete. induction l as [|[k' v] l IH]; [done|]. cbn [prop_get]. case_decide; [done|]. intros Habsent.
  rewrite filter_cons_True by (cbn; congruence). by rewrite IH.
Qed.

Lemma walk_spec count nodes out : walk count nodes = Ok out → (0 <= count <= maxNodes)%Z →
  Forall node_ok out ∧ Forall2 shown_as nodes out ∧ (count + Z.of_nat (length nodes) <= maxNodes)%Z.
Proof.
  revert count out. induction nodes as [|node nodes IH]; intros count out; cbn [walk]; [intros [= <-] ?; split_and!; [done..|cbn; lia]|].
  destruct (maxNodes <? count + 1)%Z eqn:Hlimit; [done|]. intros Hw Hc. assert (Hc1 : (0 <= count + 1 <= maxNodes)%Z) by bool_lia.
  destruct node as [l a css|].
  - case_bool_decide as Htag; [done|]. destruct (existsb _ a) eqn:Hattr; [done|].
    destruct (walk (count + 1) nodes) as [out'|] eqn:Hrest; [|done]. destruct (IH _ _ Hrest Hc1) as (H1 & H2 & H3).
    injection Hw as <-. assert (Ha : Forall (λ a, a.1 ≠ js "nonce" ∧ ¬ (∃ t, ascii_lower a.1 = js "on" ++ t)) a).
    { apply Forall_forall. intros x Hx.
      enough (refused_node_attribute x.1 = false) as [Hon Hnonce%bool_decide_eq_false]%orb_false_iff
        by (apply startsWith_false in Hon; done).
      destruct (refused_node_attribute x.1) eqn:E; [|done]. exfalso.
      assert (existsb (λ a, refused_node_attribute a.1) a = true); [|congruence].
      apply existsb_exists. exists x. split; [by apply list_elem_of_In|done]. }
    split_and!; [constructor; [|done]|constructor; [|done]|cbn [length]; lia]; cbn [shown_as node_ok];
      destruct (prop_get a storedStyle) as [s|] eqn:Hs; split_and!; try done.
    + unfold prop_delete. apply Forall_forall. intros x [_ Hx]%list_elem_of_filter. rewrite Forall_forall in Ha. by apply Ha.
    + rewrite prop_get_delete. by case_decide.
    + by rewrite prop_delete_absent.
  - destruct (walk (count + 1) nodes) as [out'|] eqn:Hrest; [|done]. destruct (IH _ _ Hrest Hc1) as (H1 & H2 & H3).
    injection Hw as <-. split_and!; [by constructor|by constructor|cbn [length]; lia].
Qed.

(** C33 Whatever the document's parser makes of a text, rendering it shows either nothing
    new, when an error is thrown, or exactly the parsed nodes with their stored styles
    applied: the text was a string or trusted HTML within the limit and rendered
    allowed items, what was parsed had its style attributes renamed, and no node is a
    forbidden element or carries an event handler, a nonce or a stored style. *)
Theorem trusted_html_shown (parseHTML : jsstring → list DomNode) (target : list DomNode) (value : RenderInput) :
  match replaceTrustedHTML parseHTML target value with
  | None => False
  | Some (nodes, Some e) => nodes = target ∧ appendTrustedHTML parseHTML target value = Some (target, Some e)
  | Some (nodes, None) =>
      appendTrustedHTML parseHTML target value = Some (target ++ nodes, None) ∧
      ∃ text items, (value = RenderString text ∨ value = RenderTrusted text) ∧
        (Z.of_nat (length text) <= maxHTML)%Z ∧ Forall item_ok items ∧ text = render id items ∧
        Forall2 shown_as (parseHTML (render defer_name items)) nodes ∧ Forall node_ok nodes ∧
        (Z.of_nat (length nodes) <= maxNodes)%Z
  end.
Proof.
  unfold replaceTrustedHTML, appendTrustedHTML, trustedFragment.
  set (text := match value with RenderString t | RenderTrusted t => Some t | RenderOther => None end).
  destruct text as [t|] eqn:Ht; [|by cbn].
  assert (Hvalue : value = RenderString t ∨ value = RenderTrusted t)
    by (subst text; destruct value; simplify_eq; auto).
  destruct (maxHTML <? Z.of_nat (length t))%Z eqn:Hlimit; [by cbn|].
  destruct (deferStyles_spec t) as [Hspec _]. destruct (deferStyles t) as [[out|e]|]; [|by cbn|done].
  destruct Hspec as (items & Hitems & Htext & -> & _). cbn [mbind option_bind].
  destruct (walk 0 _) as [nodes|e] eqn:Hwalk; [|by cbn].
  destruct (walk_spec _ _ _ Hwalk) as (Hok & Hshown & Hcount); [unfold maxNodes; lia|].
  split; [done|]. exists t, items. split_and!; try done; [bool_lia|].
  rewrite <- (Forall2_length _ _ _ Hshown). lia.
Qed.

(** A list item whose style is written in capitals, and a picture with an event
    handler. *)
Module DemoRender.
Definition styled : jsstring := js "<p STYLE='color: red' id='a'>x<br/></p>".
Definition unsafe : jsstring := js "<img src='a' onerror='b'>".

Definition parsed (s : jsstring) : list DomNode :=
  if decide (s = js "<p data-stego-render-style='color: red' id='a'>x<br/></p>")
  then [Element (js "p") [(storedStyle, js "color: red"); (js "id", js "a")] None; OtherNode; Element (js "br") [] None]
  else [].

Example styled_deferred : deferStyles styled = Some (Ok (js "<p data-stego-render-style='color: red' id='a'>x<br/></p>")).
Proof. vm_compute. reflexivity. Qed.

Example unsafe_refused : replaceTrustedHTML parsed [OtherNode] (RenderString unsafe) = Some ([OtherNode], Some unsupported_syntax).
Proof. vm_compute. reflexivity. Qed.

Example styled_shown : replaceTrustedHTML parsed [] (RenderString styled) =
  Some ([Element (js "p") [(js "id", js "a")] (Some (js "color: red")); OtherNode; Element (js "br") [] None], None).
Proof. vm_compute. reflexivity. Qed.
End DemoRender.
