(* ===== verification/DashboardTelemetry.v ===== *)
(** The telemetry of the gateway console's dashboard
    ([components/gateway-dashboard/frontend/telemetry.stego.tsx]): the fixed name of a
    route, and the span, the log record and the count of each document, over the
    bounded logger and meter of [Telemetry].

    The names are specified on the segments of a path; the theorems say that no path
    puts anything else into what is recorded, and that every document is recorded
    once, within the bounds of the runtime. *)
From S2P Require Export Telemetry.

(** * Route names *)

(** The parts of the route patterns: a fixed text, one or more units that are no
    slash, and an optional slash. *)
Inductive PatternPart := Fixed (text : jsstring) | Segment | OptionalSlash.

(** Whether the pattern, anchored at both ends, matches. *)
Fixpoint pattern_test (p : list PatternPart) (s : jsstring) : bool :=
  match p with
  | [] => match s with [] => true | _ => false end
  | Fixed text :: p => startsWith s text && pattern_test p (drop (length text) s)
  | OptionalSlash :: p =>
      startsWith s [47%N] && pattern_test p (drop 1 s) || pattern_test p s
  | Segment :: p =>
      existsb (λ n, forallb (λ c, negb (c =? 47)%N) (take n s) && pattern_test p (drop n s)) (seq 1 (length s))
  end.

Definition routes : list (list PatternPart * jsstring) :=
  [([Fixed (js "/")], js "/");
   ([Fixed (js "/gateway"); OptionalSlash], js "/gateway");
   ([Fixed (js "/global-policy"); OptionalSlash], js "/global-policy");
   ([Fixed (js "/settings"); OptionalSlash], js "/settings");
   ([Fixed (js "/workspaces"); OptionalSlash], js "/workspaces");
   ([Fixed (js "/workspaces/"); Segment; OptionalSlash], js "/workspaces/{id}");
   ([Fixed (js "/workspaces/"); Segment; Fixed (js "/sandboxes/"); Segment; OptionalSlash],
    js "/workspaces/{id}/sandboxes/{id}");
   ([Fixed (js "/workspaces/"); Segment; Fixed (js "/providers/"); Segment; OptionalSlash],
    js "/workspaces/{id}/providers/{id}")].

Definition unmatched : jsstring := js "unmatched".

(** [routes.find] *)
Definition find_route (pathname : jsstring) : option jsstring :=
  snd <$> find (λ r, pattern_test r.1 pathname) routes.

Definition dashboardRoute (pathname : jsstring) : jsstring :=
  if (4096 <? Z.of_nat (length pathname))%Z then unmatched else default unmatched (find_route pathname).

(** * A document *)

Definition document_rendered : jsstring := js "dashboard.document.rendered".
Definition document_views : jsstring := js "dashboard.document.views".

Definition document_attributes (route : jsstring) : jsval := VObj [(js "http.route", VStr route)].

(** What is done with the runtime: the span of the tracer, the record that reaches
    the SDK's logger or is reported, and what the meter does. *)
Inductive DocumentOutput :=
| SpanStarted (name : jsstring) (attributes : jsval)
| LogPassed (record : jsval)
| LogReported (reason : LossReason)
| MeterDid (o : MeterOutput)
| SpanEnded
| EffectThrew.

Section document.
Context (context : jsval).

Definition document_record (route : jsstring) : jsval :=
  VObj [(js "body", VStr document_rendered); (js "severityNumber", VNum (NInt 9));
        (js "severityText", VStr (js "INFO")); (js "attributes", document_attributes route); (js "context", context)].

(** The counter is created, which gives the same one again, and one is added. *)
Definition count_document (route : jsstring) (m : MeterState) : MeterState * list MeterOutput :=
  let r := create_instrument CreateCounter (VStr document_views) m in
  match meter_step r.1 (RecordPoint (instrument_id CreateCounter document_views) (VNum (NInt 1)) (document_attributes route)) with
  | Some (m', out) => (m', r.2 ++ out)
  | None => r
  end.

(** [recordDocument]; [runtime] holds the meter once it was created, and [created]
    says whether the creation succeeds. [None] when that throws. *)
Definition recordDocument (created : bool) (route : jsstring) (runtime : option MeterState) :
    option (MeterState * list DocumentOutput) :=
  let record m :=
    let r := count_document route m in
    (r.1, [SpanStarted document_rendered (document_attributes route);
           match emit (document_record route) with inl record => LogPassed record | inr reason => LogReported reason end] ++
          map MeterDid r.2 ++ [SpanEnded]) in
  match runtime with
  | Some m => Some (record m)
  | None => if created then Some (record initial_meter) else None
  end.

(** The component: the path its effect last ran for, and the module's runtime. *)
Record Dashboard := { da_pathname : option jsstring; da_runtime : option MeterState }.

Definition new_dashboard : Dashboard := {| da_pathname := None; da_runtime := None |}.

Inductive DashboardEvent := Rendered (pathname : jsstring) (created : bool) | Remounted.

Definition dashboard_step (s : Dashboard) (ev : DashboardEvent) : option (Dashboard * list DocumentOutput) :=
  match ev with
  | Remounted => Some ({| da_pathname := None; da_runtime := da_runtime s |}, [])
  | Rendered pathname created =>
      Some (if decide (da_pathname s = Some pathname) then (s, [])
            else match recordDocument created (dashboardRoute pathname) (da_runtime s) with
                 | Some (m, out) => ({| da_pathname := Some pathname; da_runtime := Some m |}, out)
                 | None => ({| da_pathname := Some pathname; da_runtime := da_runtime s |}, [EffectThrew])
                 end)
  end.
End document.

(** * Paths by segments *)

(** A path that is written with its segments, and a slash at its end or not. *)
Definition path_of (segments : list jsstring) (slash : bool) : jsstring :=
  match segments with
  | [] => js "/"
  | _ => (segments ≫= λ s, 47%N :: s) ++ (if slash then [47%N] else [])
  end.

Definition segment_ok (s : jsstring) : Prop := s ≠ [] ∧ (47%N ∉ s).

(** The name of the route with these segments. *)
Definition route_name (segments : list jsstring) : option jsstring :=
  match segments with
  | [] => Some (js "/")
  | [s] =>
      if decide (s ∈ [js "gateway"; js "global-policy"; js "settings"; js "workspaces"]) then Some (47%N :: s) else None
  | [s; _] => if decide (s = js "workspaces") then Some (js "/workspaces/{id}") else None
  | [s; _; t; _] =>
      if decide (s = js "workspaces" ∧ t = js "sandboxes") then Some (js "/workspaces/{id}/sandboxes/{id}")
      else if decide (s = js "workspaces" ∧ t = js "providers") then Some (js "/workspaces/{id}/providers/{id}")
      else None
  | _ => None
  end.

(** All that is ever recorded of a path. *)
Definition route_names : list jsstring := unmatched :: routes.*2.

(** * Lemmas: patterns *)

(** What a pattern matches. *)
Inductive pattern_matches : list PatternPart → jsstring → Prop :=
| matches_nil : pattern_matches [] []
| matches_fixed text p s : pattern_matches p s → pattern_matches (Fixed text :: p) (text ++ s)
| matches_segment seg p s : segment_ok seg → pattern_matches p s → pattern_matches (Segment :: p) (seg ++ s)
| matches_slash (b : bool) p s : pattern_matches p s → pattern_matches (OptionalSlash :: p) ((if b then [47%N] else []) ++ s).

Lemma pattern_test_spec p s : pattern_test p s = true ↔ pattern_matches p s.
Proof.
  revert s. induction p as [|[text| |] p IH]; intros s; cbn [pattern_test].
  - split; [destruct s; [constructor|done]|by inversion 1].
  - rewrite andb_true_iff, IH. split.
    + intros [(t & ->)%startsWith_spec H]. rewrite drop_app_length in H. by constructor.
    + inversion 1; subst. split; [apply startsWith_app|by rewrite drop_app_length].
  - rewrite existsb_exists. split.
    + intros (n & Hn%in_seq & [Hs H%IH]%andb_prop). rewrite forallb_forall in Hs. rewrite <- (take_drop n s). constructor; [|done].
      split; [destruct n; [lia|]; destruct s; [cbn in Hn; lia|done]|].
      intros Hin%list_elem_of_In. apply Hs in Hin. done.
    + inversion 1 as [| |seg p' s' [Hne Hseg] H' |]; subst. exists (length seg). rewrite take_app_length, drop_app_length.
      split; [apply in_seq; rewrite length_app; destruct seg; [done|cbn; lia]|]. apply andb_true_iff. split; [|by apply IH].
      apply forallb_forall. intros c Hc%list_elem_of_In. destruct (N.eqb_spec c 47) as [->|]; [done|done].
  - rewrite orb_true_iff, andb_true_iff, !IH. split.
    + intros [[(t & ->)%startsWith_spec H]|H]; [by apply (matches_slash true)|by apply (matches_slash false)].
    + inversion 1 as [| | |[] p' s' H']; subst; [|by right]. left. by split; [apply startsWith_app|].
Qed.

(** ** Shapes *)

(** The segments a pattern asks for: a fixed one, or any. *)
Definition shape_parts (shape : list (option jsstring)) : list PatternPart :=
  (shape ≫= λ o, match o with Some s => [Fixed (47%N :: s)] | None => [Fixed [47%N]; Segment] end) ++ [OptionalSlash].

Definition fits (o : option jsstring) (s : jsstring) : bool :=
  match o with Some t => bool_decide (t = s) | None => true end.

Fixpoint fit (shape : list (option jsstring)) (segments : list jsstring) : bool :=
  match shape, segments with
  | [], [] => true
  | o :: shape, s :: segments => fits o s && fit shape segments
  | _, _ => false
  end.

Definition tail_text (slash : bool) : jsstring := if slash then [47%N] else [].

Lemma matches_fixed_inv text p s : pattern_matches (Fixed text :: p) s ↔ ∃ r, s = text ++ r ∧ pattern_matches p r.
Proof. split; [inversion 1; subst; eauto|]. intros (r & -> & H). by constructor. Qed.

Lemma matches_fixed_app a b p s : pattern_matches (Fixed (a ++ b) :: p) s ↔ pattern_matches (Fixed a :: Fixed b :: p) s.
Proof.
  rewrite !matches_fixed_inv. split.
  - intros (r & -> & H). exists (b ++ r). split; [by rewrite <- app_assoc|by constructor].
  - intros (r & -> & (r' & -> & H)%matches_fixed_inv). exists r'. by rewrite <- app_assoc.
Qed.

(** A text that is empty or goes on with a slash. *)
Definition at_slash (s : jsstring) : Prop := ∀ c, head s = Some c → c = 47%N.

Lemma slash_free_split a b x y : (47%N ∉ a) → (47%N ∉ b) → at_slash x → at_slash y → a ++ x = b ++ y → a = b ∧ x = y.
Proof.
  intros Ha Hb Hx Hy. revert b Hb. induction a as [|c a IH]; intros [|d b] Hb H; cbn [app] in H.
  - done.
  - exfalso. subst x. specialize (Hx d eq_refl). subst d. set_solver.
  - exfalso. subst y. specialize (Hy c eq_refl). subst c. set_solver.
  - injection H as -> H. apply IH in H as [-> ->]; [done|set_solver|set_solver].
Qed.

Lemma shape_at_slash shape s : pattern_matches (shape_parts shape) s → at_slash s.
Proof.
  destruct shape as [|[t|] shape]; unfold shape_parts; cbn [mbind list_bind app].
  - intros H. inversion H as [| | |b p' s' H']; subst. inversion H'; subst. destruct b; by intros c [= <-].
  - intros (r & -> & _)%matches_fixed_inv. by intros c [= <-].
  - intros (r & -> & _)%matches_fixed_inv. by intros c [= <-].
Qed.

Lemma segments_at_slash (segments : list jsstring) slash : at_slash ((segments ≫= λ s, 47%N :: s) ++ tail_text slash).
Proof. destruct segments; [destruct slash|]; by intros c [= <-]. Qed.

Lemma shape_matches shape segments slash :
  Forall (λ o, ∀ t, o = Some t → segment_ok t) shape → Forall segment_ok segments →
  pattern_matches (shape_parts shape) ((segments ≫= λ s, 47%N :: s) ++ tail_text slash) ↔ fit shape segments = true.
Proof.
  intros Hshape. revert segments. induction Hshape as [|o shape Ho _ IH]; intros segments Hsegs.
  - split.
    + intros H. inversion H as [| | |b p' s' H' Hp Hs]; subst. inversion H'; subst. rewrite app_nil_r in Hs.
      destruct segments as [|s segments]; [done|]. inversion Hsegs as [|? ? [Hne _] _]; subst. destruct s as [|c s]; [done|].
      by destruct b.
    + destruct segments; [|done]. intros _. cbn. rewrite <- (app_nil_r (tail_text slash)). apply (matches_slash slash). constructor.
  - destruct Hsegs as [|s segments [Hne Hs] Hsegs].
    { split; [|done]. intros H. exfalso. destruct o as [t|]; unfold shape_parts in H; cbn [mbind list_bind app] in H;
        apply matches_fixed_inv in H as (r & Hr & H).
      - destruct (Ho t eq_refl) as [Htne _]. destruct t; [done|]. destruct slash; cbn in Hr; [|done]. by destruct r.
      - destruct slash; [|done]. destruct r; [|done]. inversion H as [| |seg p' s' [Hsne _] H' Hp Hnil|]; subst.
        by destruct seg. }
    specialize (IH segments Hsegs). cbn [fit mbind list_bind].
    set (rest := (segments ≫= λ s, 47%N :: s) ++ tail_text slash) in *.
    replace (((47%N :: s) ++ (segments ≫= λ s, 47%N :: s)) ++ tail_text slash) with (47%N :: s ++ rest)
      by (subst rest; by rewrite <- app_assoc).
    pose proof (segments_at_slash segments slash) as Hrest. fold rest in Hrest.
    unfold shape_parts. rewrite bind_cons, <- app_assoc. fold (shape_parts shape).
    destruct o as [t|]; cbn [app fits]; rewrite andb_true_iff, <- IH, matches_fixed_inv.
    + destruct (Ho t eq_refl) as [_ Ht]. rewrite bool_decide_eq_true. split.
      * intros (r & Hr & H). injection Hr as Hr. pose proof (shape_at_slash _ _ H) as Hslash.
        destruct (slash_free_split s t rest r) as [-> ->]; done.
      * intros [-> H]. by exists rest.
    + split.
      * intros (r & Hr & H). injection Hr as Hr. subst r. inversion H as [| |seg p' s' [_ Hseg] H' Hp Hs'|]; subst.
        destruct (slash_free_split seg s s' rest) as [-> ->]; try done. by apply shape_at_slash in H'.
      * intros [_ H]. exists (s ++ rest). split; [done|]. by constructor.
Qed.

Lemma matches_cons x p q : (∀ s, pattern_matches p s ↔ pattern_matches q s) →
  ∀ s, pattern_matches (x :: p) s ↔ pattern_matches (x :: q) s.
Proof. intros Hpq s. split; inversion 1; subst; constructor; try done; by apply Hpq. Qed.

(** The patterns of the list below the first, by their shapes. *)
Definition route_shapes : list (list (option jsstring) * jsstring) :=
  [([Some (js "gateway")], js "/gateway");
   ([Some (js "global-policy")], js "/global-policy");
   ([Some (js "settings")], js "/settings");
   ([Some (js "workspaces")], js "/workspaces");
   ([Some (js "workspaces"); None], js "/workspaces/{id}");
   ([Some (js "workspaces"); None; Some (js "sandboxes"); None], js "/workspaces/{id}/sandboxes/{id}");
   ([Some (js "workspaces"); None; Some (js "providers"); None], js "/workspaces/{id}/providers/{id}")].

Lemma workspaces_pattern p s : pattern_matches (Fixed (js "/workspaces/") :: Segment :: p) s ↔
  pattern_matches (Fixed (47%N :: js "workspaces") :: Fixed [47%N] :: Segment :: p) s.
Proof. exact (matches_fixed_app (js "/workspaces") (js "/") (Segment :: p) s). Qed.

Lemma below_workspaces t s :
  pattern_matches [Fixed (js "/workspaces/"); Segment; Fixed (47%N :: t ++ [47%N]); Segment; OptionalSlash] s ↔
  pattern_matches (shape_parts [Some (js "workspaces"); None; Some t; None]) s.
Proof.
  rewrite workspaces_pattern. do 3 (apply matches_cons; clear s; intros s).
  exact (matches_fixed_app (47%N :: t) [47%N] [Segment; OptionalSlash] s).
Qed.

Lemma routes_shapes : Forall2 (λ r t, r.2 = t.2 ∧ ∀ s, pattern_matches r.1 s ↔ pattern_matches (shape_parts t.1) s)
  (tail routes) route_shapes.
Proof.
  repeat (constructor; [split; [done|]|]); try (intros s; done).
  - apply workspaces_pattern.
  - apply (below_workspaces (js "sandboxes")).
  - apply (below_workspaces (js "providers")).
  - constructor.
Qed.

Lemma find_shapes (rs : list (list PatternPart * jsstring)) (shapes : list (list (option jsstring) * jsstring)) segments slash : Forall segment_ok segments → segments ≠ [] →
  Forall (λ t, Forall (λ o, ∀ u, o = Some u → segment_ok u) t.1) shapes →
  Forall2 (λ r t, r.2 = t.2 ∧ ∀ s, pattern_matches r.1 s ↔ pattern_matches (shape_parts t.1) s) rs shapes →
  snd <$> find (λ r, pattern_test r.1 (path_of segments slash)) rs = snd <$> find (λ t, fit t.1 segments) shapes.
Proof.
  intros Hsegs Hne Hshapes H. induction H as [|r t rs shapes [Hname Hpat] _ IH]; [done|].
  inversion Hshapes as [|? ? Ht Hts]; subst. cbn [find].
  assert (Htest : pattern_test r.1 (path_of segments slash) = fit t.1 segments).
  { apply eq_true_iff_eq. rewrite pattern_test_spec, Hpat, <- (shape_matches t.1 segments slash) by done.
    by destruct segments. }
  rewrite Htest. destruct (fit t.1 segments); [cbn; by rewrite Hname|by apply IH].
Qed.

Lemma shapes_ok : Forall (λ t, Forall (λ o, ∀ u, o = Some u → segment_ok u) t.1) route_shapes.
Proof.
  unfold route_shapes. repeat (apply Forall_cons; split); try apply Forall_nil_2; try done; cbn [fst];
    repeat (apply Forall_cons; split); try apply Forall_nil_2; try done; intros u [= <-]; (split; [done|decide_fact]).
Qed.

Lemma find_route_segments segments slash : Forall segment_ok segments →
  find_route (path_of segments slash) = route_name segments.
Proof.
  intros Hsegs. destruct (decide (segments = [])) as [->|Hne]; [done|].
  assert (H1 : pattern_test [Fixed (js "/")] (path_of segments slash) = false).
  { destruct segments as [|s segments]; [done|]. inversion Hsegs as [|? ? [Hs _] _]; subst. by destruct s. }
  assert (find_route (path_of segments slash) =
    snd <$> find (λ r, pattern_test r.1 (path_of segments slash)) (tail routes)) as ->.
  { unfold find_route. change (find ?f routes) with (if pattern_test [Fixed (js "/")] (path_of segments slash) then Some ([Fixed (js "/")], js "/") else find f (tail routes)).
    by rewrite H1. }
  rewrite (find_shapes _ _ segments slash Hsegs Hne shapes_ok routes_shapes). clear -Hne.
  destruct segments as [|a [|b [|c [|d [|e segments]]]]]; cbn [find route_shapes fst fit fits route_name];
    rewrite ?andb_false_r, ?andb_true_r, ?andb_true_l; try done.
  - repeat case_bool_decide; subst; case_decide as Hin; try done; exfalso; set_solver.
  - case_bool_decide; case_decide; subst; done.
  - repeat case_bool_decide; subst; repeat case_decide; naive_solver.
Qed.

(** What a pattern of the list matches is a path of segments. *)
Lemma shape_segments shape s : Forall (λ o, ∀ t, o = Some t → segment_ok t) shape →
  pattern_matches (shape_parts shape) s →
  ∃ segments slash, Forall segment_ok segments ∧ s = (segments ≫= λ t, 47%N :: t) ++ tail_text slash ∧
    length segments = length shape.
Proof.
  intros Hshape. revert s. induction Hshape as [|o shape Ho _ IH]; intros s H.
  - inversion H as [| | |b p' s' H']; subst. inversion H'; subst. exists [], b. split_and!; [done| |done]. by rewrite app_nil_r.
  - unfold shape_parts in H. rewrite bind_cons, <- app_assoc in H. fold (shape_parts shape) in H.
    destruct o as [t|]; cbn [app] in H; apply matches_fixed_inv in H as (r & -> & H).
    + destruct (IH _ H) as (segs & slash & Hs & -> & Hl). exists (t :: segs), slash.
      split_and!; [constructor; [by apply Ho|done]|by rewrite bind_cons, <- app_assoc|cbn; by rewrite Hl].
    + inversion H as [| |seg p' s' Hseg H'|]; subst. destruct (IH _ H') as (segs & slash & Hs & -> & Hl).
      exists (seg :: segs), slash. split_and!; [by constructor| |cbn; by rewrite Hl].
      rewrite bind_cons, <- app_assoc. done.
Qed.

Lemma find_route_path pathname name : find_route pathname = Some name →
  name ∈ routes.*2 ∧ ∃ segments slash, Forall segment_ok segments ∧ pathname = path_of segments slash.
Proof.
  unfold find_route. destruct (find _ routes) as [r|] eqn:Hf; [|done]. intros [= <-].
  apply find_some in Hf as [Hin Ht%pattern_test_spec]. split; [apply list_elem_of_fmap; exists r; split; [done|by apply list_elem_of_In]|].
  change routes with (([Fixed (js "/")], js "/") :: tail routes) in Hin. destruct Hin as [<-|Hin].
  - exists [], false. split; [done|]. apply matches_fixed_inv in Ht as (s & -> & H). inversion H; subst. by rewrite app_nil_r.
  - apply list_elem_of_In, list_elem_of_lookup in Hin as (i & Hi).
    destruct (Forall2_lookup_l _ _ _ _ _ routes_shapes Hi) as (t & Hti & _ & Hpat). apply Hpat in Ht.
    pose proof (Forall_lookup_1 _ _ _ _ shapes_ok Hti) as Hok. destruct (shape_segments _ _ Hok Ht) as (segs & slash & Hsegs & -> & Hl).
    exists segs, slash. split; [done|]. destruct segs; [|done]. exfalso.
    assert (Forall (λ t : list (option jsstring) * jsstring, t.1 ≠ []) route_shapes) as Hall
      by (repeat (apply Forall_cons; split; [done|]); apply Forall_nil_2).
    pose proof (Forall_lookup_1 _ _ _ _ Hall Hti) as Hne. cbn in Hne. by destruct t.1.
Qed.

(** * Lemmas: documents *)

Lemma dashboardRoute_known pathname : dashboardRoute pathname ∈ route_names.
Proof.
  unfold dashboardRoute, route_names. case_match; [by left|].
  destruct (find_route pathname) as [name|] eqn:Hf; [|by left]. right. by apply (find_route_path pathname).
Qed.

Lemma known_attributes r : r ∈ route_names → validAttributes (document_attributes r) = true.
Proof.
  intros Hr. assert (Hall : forallb (λ r, validAttributes (document_attributes r)) route_names = true) by (vm_compute; reflexivity).
  rewrite forallb_forall in Hall. apply Hall. by apply list_elem_of_In.
Qed.

(** What a document comes to: the counter is created with the first. *)
Definition counter : jsstring := instrument_id CreateCounter document_views.

Definition document (context : jsval) (first : bool) (route : jsstring) : list DocumentOutput :=
  [SpanStarted document_rendered (document_attributes route); LogPassed (document_record context route)] ++
  (if first then [MeterDid (InnerCreate counter)] else []) ++
  [MeterDid (InnerRecord counter (VNum (NInt 1)) (document_attributes route)); SpanEnded].

(** One document for each change of the path, named by its route. *)
Fixpoint documents (context : jsval) (last : option jsstring) (live : bool) (evs : list DashboardEvent) :
    list DocumentOutput :=
  match evs with
  | [] => []
  | Remounted :: evs => documents context None live evs
  | Rendered pathname created :: evs =>
      if decide (last = Some pathname) then documents context last live evs
      else if live || created
      then document context (negb live) (dashboardRoute pathname) ++ documents context (Some pathname) true evs
      else EffectThrew :: documents context (Some pathname) false evs
  end.

Definition counted_meter : MeterState := {|
  me_instruments := [(counter, {| in_observable := false; in_callbacks := [] |})];
  me_batches := []; me_callbackCount := 0%Z |}.

Lemma document_emitted context r : r ∈ route_names → emit (document_record context r) = inl (document_record context r).
Proof.
  intros Hr. unfold emit. change (prop (document_record context r) "attributes") with (document_attributes r).
  rewrite known_attributes by done. done.
Qed.

Lemma document_counted (live : bool) r : r ∈ route_names →
  count_document r (if live then counted_meter else initial_meter) =
    (counted_meter, (if live then [] else [InnerCreate counter]) ++
                    [InnerRecord counter (VNum (NInt 1)) (document_attributes r)]).
Proof.
  intros Hr. unfold count_document.
  assert (Hc : create_instrument CreateCounter (VStr document_views) (if live then counted_meter else initial_meter) =
    (counted_meter, if live then [] else [InnerCreate counter])) by (destruct live; vm_compute; reflexivity).
  rewrite Hc. cbn [fst snd meter_step]. change (prop_get (me_instruments counted_meter) _) with
    (Some {| in_observable := false; in_callbacks := [] |}). cbn [mbind option_bind in_observable].
  unfold validPoint. rewrite known_attributes by done. done.
Qed.

Lemma recorded context (live created : bool) r : r ∈ route_names →
  recordDocument context created r (if live then Some counted_meter else None) =
    if live || created then Some (counted_meter, document context (negb live) r) else None.
Proof.
  intros Hr. unfold recordDocument. destruct live; cbn [orb negb]; [|destruct created; [|done]];
    [rewrite (document_counted true r Hr)|rewrite (document_counted false r Hr)];
    rewrite document_emitted by done; done.
Qed.

Definition live_dashboard (s : Dashboard) (live : bool) : Prop :=
  da_runtime s = if live then Some counted_meter else None.

Lemma dashboard_documents context s evs s' out : StateMachine.run (dashboard_step context) s evs s' out →
  ∀ live, live_dashboard s live → out = documents context (da_pathname s) live evs.
Proof.
  induction 1 as [|s ev s1 out evs s' out' Hs _ IH]; intros live Hlive; [done|].
  destruct ev as [pathname created|]; cbn [dashboard_step documents] in *.
  - destruct (decide (da_pathname s = Some pathname)) as [Hp|Hp]; [injection Hs as <- <-; by apply IH|].
    rewrite Hlive, recorded in Hs by apply dashboardRoute_known.
    destruct (live || created) eqn:Hor; injection Hs as <- <-; [by rewrite (IH true)|].
    apply orb_false_iff in Hor as [-> ->]. by rewrite (IH false).
  - injection Hs as <- <-. by apply IH.
Qed.

(** What an output says of a path. *)
Definition names_route (o : DocumentOutput) : Prop :=
  match o with
  | SpanStarted _ attributes | MeterDid (InnerRecord _ _ attributes) =>
      ∃ r, r ∈ route_names ∧ attributes = document_attributes r
  | LogPassed record => ∃ r, r ∈ route_names ∧ prop record "attributes" = document_attributes r
  | MeterDid (InnerCreate id) => id = counter
  | SpanEnded | EffectThrew => True
  | LogReported _ | MeterDid _ => False
  end.

Lemma documents_named context last live evs : Forall names_route (documents context last live evs).
Proof.
  revert last live. induction evs as [|[pathname created|] evs IH]; intros last live; cbn [documents]; [done| |by apply IH].
  case_decide; [by apply IH|]. destruct (live || created); [|by constructor].
  apply Forall_app. split; [|by apply IH]. pose proof (dashboardRoute_known pathname).
  unfold document. destruct live; repeat constructor; cbn; eauto.
Qed.

(** * Properties *)

(** A path that is written by its segments gets the name its segments have, and no
    other path gets a name; whatever the path is, one of nine fixed texts is used for
    it, so that nothing a path holds is in it. *)
Theorem routes_named_by_segments (pathname : jsstring) :
  dashboardRoute pathname ∈ route_names ∧
  (∀ segments slash, Forall segment_ok segments → pathname = path_of segments slash →
     dashboardRoute pathname =
       if (4096 <? Z.of_nat (length pathname))%Z then unmatched else default unmatched (route_name segments)) ∧
  (dashboardRoute pathname ≠ unmatched →
     ∃ segments slash, Forall segment_ok segments ∧ pathname = path_of segments slash).
Proof.
  split_and!; [apply dashboardRoute_known| |].
  - intros segments slash Hsegs ->. unfold dashboardRoute. by rewrite find_route_segments.
  - unfold dashboardRoute. case_match; [done|]. destruct (find_route pathname) as [name|] eqn:Hf; [|done].
    intros _. by apply (find_route_path pathname name).
Qed.

(** C35 However the dashboard is rendered and mounted, it records one document for each
    change of its path once its runtime was created, in order: a span, a log record
    and one count, each under the fixed name of the route and none refused by the
    runtime's bounds, with the counter created once. *)
Theorem documents_recorded (context : jsval) (evs : list DashboardEvent) (s : Dashboard) (out : list DocumentOutput) :
  StateMachine.run (dashboard_step context) new_dashboard evs s out →
  out = documents context None false evs ∧ Forall names_route out.
Proof.
  intros Hr. pose proof (dashboard_documents _ _ _ _ _ Hr false eq_refl) as ->.
  split; [done|]. apply documents_named.
Qed.

(** A sandbox is opened, and its workspace returned to. *)
Module DemoDashboard.
Definition visits : list DashboardEvent :=
  [Rendered (js "/workspaces/acme/sandboxes/s-17") true; Rendered (js "/workspaces/acme/sandboxes/s-17") true;
   Rendered (js "/workspaces/acme/") true; Rendered (js "/elsewhere") true].

Definition visited : Dashboard * list DocumentOutput :=
  default (new_dashboard, []) (play (dashboard_step VNull) new_dashboard visits).

Lemma routes_named_by_segments_witness :
  dashboardRoute (js "/workspaces/acme/sandboxes/s-17/") = js "/workspaces/{id}/sandboxes/{id}".
Proof.
  refine ((λ T, eq_trans (proj1 (proj2 T) [js "workspaces"; js "acme"; js "sandboxes"; js "s-17"] true _ _) _)
    (routes_named_by_segments (js "/workspaces/acme/sandboxes/s-17/"))).
  - repeat constructor; decide_fact.
  - vm_compute. reflexivity.
  - vm_compute. reflexivity.
Defined.

Lemma documents_recorded_witness :
  visited.2 = document VNull true (js "/workspaces/{id}/sandboxes/{id}") ++
              document VNull false (js "/workspaces/{id}") ++ document VNull false unmatched.
Proof.
  refine (eq_trans (proj1 (documents_recorded VNull visits visited.1 visited.2 _)) _).
  - apply play_run. vm_compute. reflexivity.
  - vm_compute. reflexivity.
Defined.
End DemoDashboard.
