(* ===== verification/PageViews.v ===== *)
(** What the pages show ([pages/gateway-pages.tsx],
    [service-accounts/service-accounts-page.tsx], [gateways/gateway-load-state.tsx],
    [gateways/gateway-status.tsx], [shared/resource-refresh-button.tsx]): which body
    a page has for the state of its query, the alerts after a deletion or a renaming,
    and the cells of the tables.

    The query library is third-party: a page is a function of the result of its
    query, and [query_ok] is what the library documents of it. *)
From S2P Require Export GatewayPages StateMachine.

(** * Query results *)

(** What the pages read of the result of [useQuery]. *)
Record Query (A : Type) := {
  q_data : option A;
  q_isPending : bool;
  q_isError : bool;
  q_isFetching : bool
}.

Arguments q_data {A}. Arguments q_isPending {A}. Arguments q_isError {A}. Arguments q_isFetching {A}.

(** The documented statuses: pending without data and without an error; failed,
    perhaps with the data of an earlier fetch; or there with its data. *)
Definition query_ok {A} (q : Query A) : Prop :=
  (q_isPending q = true → q_data q = None ∧ q_isError q = false) ∧
  (q_isPending q = false → q_isError q = false → is_Some (q_data q)).

(** * Shared parts *)

Inductive LoadState := Loading | LoadError.

Definition GatewayLoadState (isError : bool) : LoadState := if isError then LoadError else Loading.

(** The button is disabled while a refresh is under way. *)
Definition refresh_offered (isRefreshing : bool) : bool := negb isRefreshing.

Inductive StatusIcon := BanIcon | CheckIcon | WarningIcon | DangerIcon | PendingIcon | StatusSpinner | UnknownIcon.

Definition GatewayStatusIcon (a : GatewayStatusAppearance) : StatusIcon :=
  match a with
  | Inactive => BanIcon
  | Success => CheckIcon
  | Warning => WarningIcon
  | Danger => DangerIcon
  | PendingAppearance => PendingIcon
  | Progress => StatusSpinner
  | UnknownAppearance => UnknownIcon
  end.

(** The icon, whether it is set back in colour, and the text. *)
Definition GatewayStatus (toLocaleLowerCase : jsstring → jsstring) (label : option jsstring) (status : jsstring) :
    StatusIcon * bool * jsstring :=
  let appearance := gatewayStatusAppearance toLocaleLowerCase status in
  (GatewayStatusIcon appearance, match appearance with UnknownAppearance | Inactive => true | _ => false end,
   default status label).

(** * Cells *)

Section dates.
Context (getTime : jsstring → option num).

(** A date that is shown, with its [dateTime], or the text for one that is not
    there or is none; [getTime] is [None] for an invalid date. *)
Definition LocalDate (value : jsstring) : option jsstring :=
  match getTime value with Some _ => Some value | None => None end.

Definition GatewayCreatedDate (createdAt : option jsstring) : option jsstring :=
  match truthy createdAt with Some value => LocalDate value | None => None end.
End dates.

Definition optional_cell (value : option jsstring) : NameCell :=
  match value with Some text => CellName text | None => CellNotAvailable end.

(** The cells of a gateway's row, by column. *)
Section gateway_row.
Context (toLocaleLowerCase : jsstring → jsstring) (num_str : num → jsstring) (getTime : jsstring → option num).

Inductive GatewayCell :=
| LinkCell (gatewayId name : jsstring)
| TextCell (c : NameCell)
| StatusCell (icon : StatusIcon) (muted : bool) (text : jsstring)
| DateCell (dateTime : option jsstring).

Definition gateway_row (isLoading : bool) (names : gmap jsstring jsstring) (g : GatewayConnection) :
    list (jsstring * GatewayCell) :=
  let status := GatewayStatus toLocaleLowerCase None (gc_status g) in
  [(js "name", LinkCell (gc_id g) (gc_name g));
   (js "activeSandboxes", TextCell (optional_cell (num_str <$> gc_activeSandboxCount g)));
   (js "cluster", TextCell (collection_cluster_cell g isLoading names));
   (js "status", StatusCell status.1.1 status.1.2 status.2);
   (js "created", DateCell (GatewayCreatedDate getTime (gc_createdAt g)));
   (js "owner", TextCell (optional_cell (gc_createdBy g)));
   (js "endpoint", TextCell (optional_cell (gc_endpoint g)))].
End gateway_row.

(** The cluster of the gateway page: [None] when the gateway names none, otherwise
    its lookup, and whether it can be tried again. *)
Definition detail_cluster_enabled (g : GatewayConnection) : bool := bool_decide (is_Some (truthy (gc_clusterId g))).

Definition GatewayDetailClusterName (g : GatewayConnection) (q : Query GatewayPlacement) : NameCell * bool :=
  match truthy (gc_clusterId g) with
  | None => (CellName (gc_clusterName g), false)
  | Some _ =>
      if q_isPending q then (CellLoading, false)
      else if q_isError q then (CellNotAvailable, true)
      else match q_data q with Some p => (CellName (pl_name p), false) | None => (CellNotAvailable, false) end
  end.

(** * The collection of gateways *)

Record CollectionPage := {
  cp_items : list GatewayConnection;
  cp_page : num;
  cp_size : num;
  cp_total : num
}.

Inductive CollectionBody := CollectionLoad (l : LoadState) | CollectionTable (itemCount : num) (rows : list GatewayConnection).

(** [visiblePage]: the gateways the host gives, or the query's. *)
Definition visiblePage (gateways : option (list GatewayConnection)) (current : GatewayListRequest)
    (q : Query CollectionPage) : option CollectionPage :=
  match gateways with
  | Some items => Some {| cp_items := items; cp_page := lr_page current; cp_size := lr_size current;
                          cp_total := NInt (Z.of_nat (length items)) |}
  | None => q_data q
  end.

Definition gateways_body (visible : option CollectionPage) (q : Query CollectionPage) : CollectionBody :=
  match visible with
  | None =>
      if q_isPending q then CollectionLoad (GatewayLoadState false)
      else if q_isError q then CollectionLoad (GatewayLoadState true)
      else CollectionTable (NInt 0) []
  | Some p => CollectionTable (cp_total p) (cp_items p)
  end.

(** The refresh button: none, or what it does. *)
Inductive RefreshAction := HostRefresh | Refetch.

Definition gateways_refresh (gateways : option (list GatewayConnection)) (hasOnRefresh : bool) : option RefreshAction :=
  if bool_decide (gateways = None) || hasOnRefresh then Some (if hasOnRefresh then HostRefresh else Refetch) else None.

(** ** Its state *)

Inductive ToastAlert := GatewayRenamedAlert (name : jsstring) | GatewayDeletedAlert (name : jsstring).

Definition GatewaySuccessAlerts (deletedGatewayName renamedGatewayName : option jsstring) : list ToastAlert :=
  match truthy renamedGatewayName with Some n => [GatewayRenamedAlert n] | None => [] end ++
  match truthy deletedGatewayName with Some n => [GatewayDeletedAlert n] | None => [] end.

(** The page's state and the properties it was last rendered with. *)
Record Collection := {
  co_deletedGatewayName : option jsstring;
  co_isInitialDeletionDismissed : bool;
  co_renamedGatewayName : option jsstring;
  co_local : GatewayListRequest;
  co_props_state : option GatewayListRequest;
  co_props_deleted : option jsstring
}.

Definition new_collection (collectionState : option GatewayListRequest) (deletedGatewayName : option jsstring) : Collection := {|
  co_deletedGatewayName := None; co_isInitialDeletionDismissed := false; co_renamedGatewayName := None;
  co_local := defaultGatewayListRequest; co_props_state := collectionState; co_props_deleted := deletedGatewayName |}.

Definition currentCollectionState (s : Collection) : GatewayListRequest := default (co_local s) (co_props_state s).

Definition collection_alerts (s : Collection) : list ToastAlert :=
  GatewaySuccessAlerts
    (match co_deletedGatewayName s with
     | Some n => Some n
     | None => if co_isInitialDeletionDismissed s then None else co_props_deleted s
     end) (co_renamedGatewayName s).

Inductive CollectionEvent :=
| TableAction (ev : TableEvent)
| DeletionAccepted (gatewayName : jsstring)
| Renamed (gatewayName : jsstring)
| DismissDeleted
| DismissRenamed
| CollectionProps (collectionState : option GatewayListRequest) (deletedGatewayName : option jsstring).

Inductive CollectionOutput :=
| CollectionStateChange (next : GatewayListRequest) (reason : ChangeReason)
| DismissedDeletedGateway.

Definition set_toasts (deleted : option jsstring) (dismissed : bool) (renamed : option jsstring) (s : Collection) : Collection := {|
  co_deletedGatewayName := deleted; co_isInitialDeletionDismissed := dismissed; co_renamedGatewayName := renamed;
  co_local := co_local s; co_props_state := co_props_state s; co_props_deleted := co_props_deleted s |}.

Section collection.
(** Whether the host gave [onCollectionStateChange]. *)
Context (hasOnChange : bool).

Definition changeTableState (next : GatewayListRequest) (reason : ChangeReason) (s : Collection) :
    Collection * list CollectionOutput :=
  if hasOnChange then (s, [CollectionStateChange next reason])
  else ({| co_deletedGatewayName := co_deletedGatewayName s;
           co_isInitialDeletionDismissed := co_isInitialDeletionDismissed s;
           co_renamedGatewayName := co_renamedGatewayName s; co_local := next;
           co_props_state := co_props_state s; co_props_deleted := co_props_deleted s |}, []).

Definition collection_step (s : Collection) (ev : CollectionEvent) : option (Collection * list CollectionOutput) :=
  match ev with
  | TableAction ev =>
      (λ n, changeTableState n.1 n.2 s) <$> gateway_event (currentCollectionState s) ev
  | DeletionAccepted n => Some (set_toasts (Some n) (co_isInitialDeletionDismissed s) (co_renamedGatewayName s) s, [])
  | Renamed n => Some (set_toasts (co_deletedGatewayName s) (co_isInitialDeletionDismissed s) (Some n) s, [])
  | DismissDeleted =>
      if existsb (λ a, match a with GatewayDeletedAlert _ => true | _ => false end) (collection_alerts s)
      then Some (set_toasts None true (co_renamedGatewayName s) s, [DismissedDeletedGateway]) else None
  | DismissRenamed =>
      if existsb (λ a, match a with GatewayRenamedAlert _ => true | _ => false end) (collection_alerts s)
      then Some (set_toasts (co_deletedGatewayName s) (co_isInitialDeletionDismissed s) None s, []) else None
  | CollectionProps collectionState deletedGatewayName =>
      Some ({| co_deletedGatewayName := co_deletedGatewayName s;
               co_isInitialDeletionDismissed := co_isInitialDeletionDismissed s;
               co_renamedGatewayName := co_renamedGatewayName s; co_local := co_local s;
               co_props_state := collectionState; co_props_deleted := deletedGatewayName |}, [])
  end.
End collection.

(** ** The route of the collection ([app/routes/home.tsx]) *)

(** [deletedGatewayName] of the location's state. *)
Definition home_deletedGatewayName (state : jsval) : option jsstring :=
  match val_prop state (js "deletedGatewayName") with VStr n => Some n | _ => None end.

(** The location's state, as the page navigates; its search parameters are
    [UrlState]'s. *)
Record Home := { ho_state : jsval; ho_request : GatewayListRequest; ho_page : Collection }.

Definition render_home (state : jsval) (request : GatewayListRequest) (page : Collection) : Home := {|
  ho_state := state; ho_request := request;
  ho_page := {| co_deletedGatewayName := co_deletedGatewayName page;
                co_isInitialDeletionDismissed := co_isInitialDeletionDismissed page;
                co_renamedGatewayName := co_renamedGatewayName page; co_local := co_local page;
                co_props_state := Some request; co_props_deleted := home_deletedGatewayName state |} |}.

Definition open_home (state : jsval) (request : GatewayListRequest) : Home :=
  render_home state request (new_collection (Some request) (home_deletedGatewayName state)).

(** A navigation the route asks for: replacing the current entry or not, the list's
    request in the address and the state. *)
Record Navigation := { nv_replace : bool; nv_request : GatewayListRequest; nv_state : jsval }.

(** The page's events; the route answers its calls by navigating, which renders it
    again: a dismissal keeps the address and clears the state, a change of the
    request has none. *)
Definition home_step (s : Home) (ev : CollectionEvent) : option (Home * list Navigation) :=
  match ev with
  | CollectionProps _ _ => None
  | _ =>
      r ← collection_step true (ho_page s) ev;
      Some (match r.2 with
            | [DismissedDeletedGateway] =>
                (render_home VNull (ho_request s) r.1, [{| nv_replace := true; nv_request := ho_request s; nv_state := VNull |}])
            | [CollectionStateChange next reason] =>
                (render_home VNull next r.1,
                 [{| nv_replace := match reason with ReasonFilter => true | _ => false end; nv_request := next; nv_state := VNull |}])
            | _ => (render_home (ho_state s) (ho_request s) r.1, [])
            end)
  end.

(** * The gateway page *)

Inductive GatewayBody := GatewayLoad (l : LoadState) | GatewayShown (g : GatewayRecord).

Definition gateway_query_enabled (gateway : option GatewayRecord) (gatewayId : jsstring) : bool :=
  bool_decide (gateway = None) && is_nonempty gatewayId.

Definition gateway_body (gateway : option GatewayRecord) (q : Query GatewayRecord) : GatewayBody :=
  match (match gateway with Some g => Some g | None => q_data q end) with
  | Some g => GatewayShown g
  | None =>
      if q_isPending q then GatewayLoad (GatewayLoadState false)
      else if q_isError q then GatewayLoad (GatewayLoadState true)
      else GatewayLoad (GatewayLoadState true)
  end.

(** After a deletion was accepted: the host is told, or the collection is opened with
    the gateway's name in its state. *)
Inductive DeletionRoute := HostDeletion (name : jsstring) | OpenCollection (state : jsval).

Definition deletion_accepted (hasOnDeletionAccepted : bool) (g : GatewayConnection) : DeletionRoute :=
  if hasOnDeletionAccepted then HostDeletion (gc_name g)
  else OpenCollection (VObj [(js "deletedGatewayName", VStr (gc_name g))]).

(** * The service accounts *)

Record AccountsView := {
  vw_ownScope : bool;
  vw_createDenied : bool;
  vw_loadError : bool;
  vw_loading : bool;
  vw_table : option ServiceAccountPage;
  vw_createEnabled : bool;
  vw_dialog : option ServiceAccountCapabilities
}.

Definition accounts_view (isCreateOpen : bool) (q : Query ServiceAccountPage) : AccountsView :=
  let page := q_data q in
  let capabilities := sp_capabilities <$> page in
  {| vw_ownScope := match capabilities with Some c => negb (cap_canManageAll c) | None => false end;
     vw_createDenied := match capabilities with Some c => negb (cap_canCreate c) | None => false end;
     vw_loadError := q_isError q;
     vw_loading := match page with None => q_isPending q | Some _ => false end;
     vw_table := page;
     vw_createEnabled := match page with Some p => cap_canCreate (sp_capabilities p) | None => false end;
     vw_dialog := if isCreateOpen then capabilities else None |}.

(** [isCreateOpen], and the query's results as they come. *)
Record AccountsPage := { ap_isCreateOpen : bool; ap_query : Query ServiceAccountPage }.

Inductive AccountsEvent := OpenCreate | CloseCreate | AccountsResult (q : Query ServiceAccountPage).

Definition accounts_step (s : AccountsPage) (ev : AccountsEvent) : option (AccountsPage * list unit) :=
  let v := accounts_view (ap_isCreateOpen s) (ap_query s) in
  match ev with
  | OpenCreate =>
      if vw_createEnabled v then Some ({| ap_isCreateOpen := true; ap_query := ap_query s |}, []) else None
  | CloseCreate =>
      match vw_dialog v with
      | Some _ => Some ({| ap_isCreateOpen := false; ap_query := ap_query s |}, [])
      | None => None
      end
  | AccountsResult q => Some ({| ap_isCreateOpen := ap_isCreateOpen s; ap_query := q |}, [])
  end.

(** * Lemmas: alerts *)

(** The name in the deletion alert, and the effect of the page's events on it: the
    last accepted deletion, else the one of the location's state until that is
    replaced. *)
Definition shown_deletion (s : Home) : option jsstring :=
  truthy (match co_deletedGatewayName (ho_page s) with
          | Some n => Some n
          | None => if co_isInitialDeletionDismissed (ho_page s) then None else co_props_deleted (ho_page s)
          end).

Lemma shown_deletion_alert s n : GatewayDeletedAlert n ∈ collection_alerts (ho_page s) ↔ shown_deletion s = Some n.
Proof.
  unfold collection_alerts, GatewaySuccessAlerts, shown_deletion.
  set (d := truthy (match co_deletedGatewayName (ho_page s) with Some _ => _ | None => _ end)).
  destruct (truthy (co_renamedGatewayName (ho_page s))) as [r|], d as [m|]; set_solver.
Qed.

(** Nothing announces a deletion, here or where the location would be opened again. *)
Definition silent (s : Home) : Prop :=
  co_deletedGatewayName (ho_page s) = None ∧ co_props_deleted (ho_page s) = None ∧ ho_state s = VNull.

(** The location's state is still the one the page was opened with. *)
Definition announces (state : jsval) (s : Home) : Prop :=
  co_deletedGatewayName (ho_page s) = None ∧ co_isInitialDeletionDismissed (ho_page s) = false ∧
  ho_state s = state ∧ co_props_deleted (ho_page s) = home_deletedGatewayName state.

Lemma silent_nothing s : silent s → shown_deletion s = None ∧
  ∀ request, shown_deletion (open_home (ho_state s) request) = None.
Proof.
  intros (Hd & Hp & Hs). unfold shown_deletion. rewrite Hd, Hp, Hs.
  split; [by destruct (co_isInitialDeletionDismissed _)|done].
Qed.

Definition is_deletion (ev : CollectionEvent) : bool := match ev with DeletionAccepted _ => true | _ => false end.

(** Events that leave the deletion alert alone. *)
Definition keeps_deletion (ev : CollectionEvent) : bool :=
  match ev with Renamed _ | DismissRenamed => true | _ => false end.

Lemma table_action_home s ev s' out : home_step s (TableAction ev) = Some (s', out) →
  ho_state s' = VNull ∧ co_props_deleted (ho_page s') = None ∧
  co_deletedGatewayName (ho_page s') = co_deletedGatewayName (ho_page s).
Proof.
  cbn [home_step collection_step]. destruct (gateway_event _ ev) as [[next reason]|]; [|done].
  cbn. by intros [= <- _].
Qed.

Lemma dismissed_home s s' out : home_step s DismissDeleted = Some (s', out) →
  silent s' ∧ out = [{| nv_replace := true; nv_request := ho_request s; nv_state := VNull |}] ∧
  is_Some (shown_deletion s).
Proof.
  cbn [home_step collection_step]. destruct (existsb _ _) eqn:Hex; [|done]. cbn. intros [= <- <-].
  split_and!; [done|done|]. apply existsb_exists in Hex as ([n|n] & Hin%list_elem_of_In & Ha); [done|].
  exists n. by apply shown_deletion_alert.
Qed.

Lemma silent_step s ev s' out : home_step s ev = Some (s', out) → is_deletion ev = false → silent s → silent s'.
Proof.
  intros Hs Hev Hsil. pose proof Hsil as (Hd & Hp & Hst). destruct ev as [ev|n|n| | |r d]; try done.
  - destruct (table_action_home _ _ _ _ Hs) as (H1 & H2 & H3). split_and!; [by rewrite H3|done|done].
  - cbn in Hs. injection Hs as <- _. unfold silent. cbn. by rewrite Hst.
  - by destruct (dismissed_home _ _ _ Hs).
  - cbn [home_step collection_step] in Hs. destruct (existsb _ _); [|done]. cbn in Hs. injection Hs as <- _.
    unfold silent. cbn. by rewrite Hst.
Qed.

Lemma announces_step state s ev s' out : home_step s ev = Some (s', out) → keeps_deletion ev = true →
  announces state s → announces state s'.
Proof.
  intros Hs Hev (Hd & Hi & Hst & Hp). destruct ev as [ev|n|n| | |r d]; try done; cbn [home_step collection_step] in Hs;
    [|destruct (existsb _ _); [|done]]; cbn in Hs; injection Hs as <- _; unfold announces; cbn; by rewrite Hst.
Qed.

Lemma run_keeps {S E O} (step : S → E → option (S * list O)) (P : S → Prop) (f : E → bool) :
  (∀ s ev s' out, step s ev = Some (s', out) → f ev = true → P s → P s') →
  ∀ s evs s' out, StateMachine.run step s evs s' out → forallb f evs = true → P s → P s'.
Proof.
  intros HP. induction 1 as [|s ev s1 out evs s' out' Hs _ IH]; [done|]. cbn. intros [Hf Hfs]%andb_prop Hs0. eauto.
Qed.

(** * Properties *)

(** A page shows its data whenever there is some, given by the host or fetched, also
    when the last fetch failed; it waits only while nothing is known and reports an
    error only when there is nothing else to show, so that a table is never empty
    for want of an answer. *)
Theorem pages_show_queries (gateways : option (list GatewayConnection)) (current : GatewayListRequest)
    (q : Query CollectionPage) (gateway : option GatewayRecord) (detail : Query GatewayRecord)
    (isCreateOpen : bool) (accounts : Query ServiceAccountPage) :
  query_ok q → query_ok detail → query_ok accounts →
  match gateways_body (visiblePage gateways current q) q with
  | CollectionTable n rows =>
      ∃ p, visiblePage gateways current q = Some p ∧ n = cp_total p ∧ rows = cp_items p
  | CollectionLoad Loading => gateways = None ∧ q_isPending q = true
  | CollectionLoad LoadError => gateways = None ∧ q_isError q = true ∧ q_data q = None
  end ∧
  match gateway_body gateway detail with
  | GatewayShown g => gateway = Some g ∨ gateway = None ∧ q_data detail = Some g
  | GatewayLoad Loading => gateway = None ∧ q_isPending detail = true
  | GatewayLoad LoadError => gateway = None ∧ q_isError detail = true ∧ q_data detail = None
  end ∧
  (let v := accounts_view isCreateOpen accounts in
   (vw_table v = None → vw_loading v = negb (vw_loadError v)) ∧
   (vw_loading v = true → vw_table v = None ∧ vw_loadError v = false) ∧
   (vw_createDenied v = true → vw_createEnabled v = false) ∧
   (is_Some (vw_dialog v) ↔ isCreateOpen = true ∧ is_Some (vw_table v))).
Proof.
  intros [Hp Hd] [Hp' Hd'] [Hp'' Hd'']. split_and!.
  - unfold gateways_body. destruct gateways as [items|]; cbn [visiblePage]; [by eexists|].
    destruct (q_data q) as [p|] eqn:E; [by exists p|]. destruct (q_isPending q); [done|].
    destruct (q_isError q); [done|]. by destruct (Hd eq_refl eq_refl).
  - unfold gateway_body. destruct gateway as [g|]; [by left|]. destruct (q_data detail) as [g|] eqn:E; [by right|].
    destruct (q_isPending detail); [done|]. destruct (q_isError detail); [done|]. by destruct (Hd' eq_refl eq_refl).
  - unfold accounts_view. cbn. split_and!.
    + intros Hnone. rewrite Hnone. destruct (q_isPending accounts) eqn:E; [by rewrite (proj2 (Hp'' eq_refl))|].
      destruct (q_isError accounts) eqn:E'; [done|]. destruct (Hd'' eq_refl eq_refl). congruence.
    + destruct (q_data accounts); [done|]. intros E. split; [done|]. by apply Hp''.
    + destruct (q_data accounts) as [p|]; [|done]. cbn. by destruct (cap_canCreate _).
    + destruct isCreateOpen; [|split; [by intros []|by intros []]]. rewrite fmap_is_Some. tauto.
Qed.

(** C34 A deletion accepted on the gateway's own page is announced on the collection it
    opens, through renamings and their alerts; once it is dismissed, the address is
    kept, its state is cleared in place, and nothing announces it again, whatever is
    done on the page and when the location is opened anew. *)
Theorem deletion_announced_once (g : GatewayConnection) (state : jsval) (request : GatewayListRequest)
    (evs evs' : list CollectionEvent) (s s' : Home) (out out' : list Navigation) :
  gc_name g ≠ [] → deletion_accepted false g = OpenCollection state →
  forallb keeps_deletion evs = true → StateMachine.run home_step (open_home state request) evs s out →
  forallb (λ ev, negb (is_deletion ev)) evs' = true → StateMachine.run home_step s (DismissDeleted :: evs') s' out' →
  GatewayDeletedAlert (gc_name g) ∈ collection_alerts (ho_page s) ∧
  head out' = Some {| nv_replace := true; nv_request := request; nv_state := VNull |} ∧
  (∀ n, GatewayDeletedAlert n ∉ collection_alerts (ho_page s')) ∧
  (∀ n r, GatewayDeletedAlert n ∉ collection_alerts (ho_page (open_home (ho_state s') r))).
Proof.
  intros Hname Hstate Hkeep Hrun Hno Hrun'. injection Hstate as <-.
  set (state := VObj [(js "deletedGatewayName", VStr (gc_name g))]) in *.
  assert (Hann : announces state s ∧ ho_request s = request).
  { apply (run_keeps home_step (λ s, announces state s ∧ ho_request s = request) keeps_deletion) in Hrun; try done.
    clear. intros s ev s' out Hs Hev [Ha Hr]. split; [by apply (announces_step state s ev s' out)|].
    destruct ev as [ev|n|n| | |r d]; try done; cbn [home_step collection_step] in Hs;
      [|destruct (existsb _ _); [|done]]; cbn in Hs; by injection Hs as <- _. }
  destruct Hann as ((Hd & Hi & Hst & Hp) & Hreq). inversion Hrun' as [|? ? s1 out1 ? ? out2 Hs1 Hrest]; subst.
  destruct (dismissed_home _ _ _ Hs1) as (Hsil & -> & _).
  assert (Hsil' : silent s').
  { apply (run_keeps home_step silent (λ ev, negb (is_deletion ev))) in Hrest; try done.
    clear. intros s ev s' out Hs Hev%negb_true_iff. by apply (silent_step s ev s' out). }
  destruct (silent_nothing _ Hsil') as [Hnone Hopen]. split_and!.
  - apply shown_deletion_alert. unfold shown_deletion. rewrite Hd, Hi, Hp. cbn. by destruct (gc_name g).
  - done.
  - intros n Hin%shown_deletion_alert. congruence.
  - intros n r Hin%shown_deletion_alert. by rewrite Hopen in Hin.
Qed.

(** The dialog in which an account is created is shown only over a loaded list: when
    a fetch for another request fails it is taken away though it is still open, and
    it comes back, new, with the next answer. *)
Lemma list_failure_unmounts_dialog (q answer : Query ServiceAccountPage) (p : ServiceAccountPage) :
  q_data q = None → q_data answer = Some p →
  vw_dialog (accounts_view true q) = None ∧ vw_dialog (accounts_view true answer) = Some (sp_capabilities p).
Proof. intros Hq Ha. unfold accounts_view. cbn. by rewrite Hq, Ha. Qed.

Module DemoViews.
(** A collection whose refresh failed, a gateway still fetched, and accounts that were
    not fetched. *)
Definition failed_refresh : Query CollectionPage := {|
  q_data := Some {| cp_items := []; cp_page := NInt 1; cp_size := NInt 20; cp_total := NInt 3 |};
  q_isPending := false; q_isError := true; q_isFetching := false |}.

Definition fetching {A} : Query A := {| q_data := None; q_isPending := true; q_isError := false; q_isFetching := true |}.
Definition failed {A} : Query A := {| q_data := None; q_isPending := false; q_isError := true; q_isFetching := false |}.

Lemma pages_show_queries_witness :
  query_ok failed_refresh ∧
  (∃ p, visiblePage None defaultGatewayListRequest failed_refresh = Some p ∧ NInt 3 = cp_total p ∧ [] = cp_items p) ∧
  vw_loading (accounts_view true failed) = false.
Proof.
  refine ((λ T, conj _ (conj (proj1 T) _)) (pages_show_queries None defaultGatewayListRequest failed_refresh None fetching
    true failed _ _ _)); try (split; cbn; by eauto).
Defined.

Definition gateway : GatewayConnection := {|
  gc_activeSandboxCount := None; gc_clusterId := None; gc_clusterName := js "hub";
  gc_consoleUrl := None; gc_createdAt := None; gc_createdBy := None;
  gc_endpoint := None; gc_id := js "g1"; gc_name := js "alpha";
  gc_oidcAudience := None; gc_oidcClientId := None; gc_oidcIssuer := None;
  gc_phase := Some (js "deleting"); gc_status := js "Deleting" |}.

Definition deleted_state : jsval := VObj [(js "deletedGatewayName", VStr (js "alpha"))].
Definition before : list CollectionEvent := [Renamed (js "beta"); DismissRenamed].
Definition afterwards : list CollectionEvent := [TableAction (OnSearch (js "a")); Renamed (js "gamma")].
Definition home0 : Home := open_home deleted_state defaultGatewayListRequest.
Definition home1 : Home * list Navigation := default (home0, []) (play home_step home0 before).
Definition home2 : Home * list Navigation := default (home0, []) (play home_step home1.1 (DismissDeleted :: afterwards)).

Lemma deletion_announced_once_witness :
  GatewayDeletedAlert (js "alpha") ∈ collection_alerts (ho_page home1.1) ∧
  collection_alerts (ho_page home2.1) = [GatewayRenamedAlert (js "gamma")].
Proof.
  refine ((λ T, conj (proj1 T) _) (deletion_announced_once gateway deleted_state defaultGatewayListRequest before afterwards
    home1.1 home2.1 home1.2 home2.2 _ _ _ _ _ _)).
  - vm_compute. reflexivity.
  - done.
  - reflexivity.
  - reflexivity.
  - apply play_run. vm_compute. reflexivity.
  - reflexivity.
  - apply play_run. vm_compute. reflexivity.
Defined.
End DemoViews.
