(* ===== verification/ActionViews.v ===== *)
(** What the actions on a gateway show: the menus of a row and of the detail page
    ([gateways/gateway-row-actions.tsx], [gateway-detail-header.tsx]) with the rename
    and delete dialogs they mount ([gateway-rename-dialog.tsx],
    [gateway-delete-dialog.tsx]), and the detail page around them
    ([pages/gateway-pages.tsx]). The state and the handlers are those of
    [GatewayDialogs] and [ServiceAccountDialog]. *)
From S2P Require Export PageViews.

(** * The dialogs *)

(** The rename dialog: whose name is in the title, the alert of a failed request, the
    field with its text, the error below it, and what can be used; a submission is
    shown as loading while its request is pending. *)
Record RenameView := {
  rv_gatewayName : jsstring;
  rv_isError : bool;
  rv_value : jsstring;
  rv_isRequiredShown : bool;
  rv_inputEnabled : bool;
  rv_submitEnabled : bool;
  rv_submitLoading : bool;
  rv_cancelEnabled : bool;
  rv_closable : bool
}.

Definition rename_view (gatewayName : jsstring) (d : RenameDialog) : RenameView := {|
  rv_gatewayName := gatewayName;
  rv_isError := isError (rn_mutation d);
  rv_value := rn_name d;
  rv_isRequiredShown := rn_showRequired d;
  rv_inputEnabled := negb (isPending (rn_mutation d));
  rv_submitEnabled := negb (isPending (rn_mutation d) || bool_decide (trim (rn_name d) = gatewayName));
  rv_submitLoading := isPending (rn_mutation d);
  rv_cancelEnabled := negb (isPending (rn_mutation d));
  rv_closable := negb (isPending (rn_mutation d)) |}.

(** The delete dialog; the warning names how many sandboxes are active. *)
Record DeleteView := {
  dl_gatewayName : jsstring;
  dl_activeSandboxes : option num;
  dl_isError : bool;
  dl_confirmEnabled : bool;
  dl_confirmLoading : bool;
  dl_cancelEnabled : bool;
  dl_closable : bool
}.

Definition delete_view (g : GatewayConnection) (deletion : Mutation) : DeleteView := {|
  dl_gatewayName := gc_name g;
  dl_activeSandboxes := match gc_activeSandboxCount g with
                        | Some n => if num_gt n (NInt 0) then Some n else None
                        | None => None
                        end;
  dl_isError := isError deletion;
  dl_confirmEnabled := negb (isPending deletion);
  dl_confirmLoading := isPending deletion;
  dl_cancelEnabled := negb (isPending deletion);
  dl_closable := negb (isPending deletion) |}.

(** * The menus *)

Inductive MenuItem := ConsoleItem (href : jsstring) | CopyItem | RenameItem | DeleteItem.

Record MenuView := { mn_toggleEnabled : bool; mn_isExpanded : bool; mn_items : list MenuItem }.

(** A menu with what it has mounted: the dialogs, and the toast that says whether the
    command was copied. *)
Record ActionsView := {
  av_menu : MenuView;
  av_rename : option RenameView;
  av_delete : option DeleteView;
  av_copyToast : option bool
}.

Section views.
Context (toLocaleLowerCase : jsstring → jsstring).
Abbreviation isGatewayDeleting := (isGatewayDeleting toLocaleLowerCase).
Abbreviation handleRow := (handleRow toLocaleLowerCase).
Abbreviation handleDetail := (handleDetail toLocaleLowerCase).

Definition row_items (g : GatewayConnection) : list MenuItem :=
  match truthy (gc_consoleUrl g) with Some url => [ConsoleItem url] | None => [] end ++
  match buildGatewayAddCommand toLocaleLowerCase g with Some _ => [CopyItem] | None => [] end ++
  [RenameItem; DeleteItem].

Definition detail_items : list MenuItem := [RenameItem; DeleteItem].

Definition menu_view (items : list MenuItem) (s : Actions) : MenuView := {|
  mn_toggleEnabled := negb (isGatewayDeleting (ac_gateway s));
  mn_isExpanded := ac_isMenuOpen s;
  mn_items := if ac_isMenuOpen s && negb (isGatewayDeleting (ac_gateway s)) then items else [] |}.

Definition rename_shown (s : Actions) : option RenameView := rename_view (gc_name (ac_gateway s)) <$> ac_rename s.

Definition delete_dialog (s : Actions) : option DeleteView :=
  if ac_isDeleteOpen s && negb (isGatewayDeleting (ac_gateway s))
  then Some (delete_view (ac_gateway s) (ac_deletion s)) else None.

Definition row_view (s : Actions) : ActionsView := {|
  av_menu := menu_view (row_items (ac_gateway s)) s;
  av_rename := rename_shown s;
  av_delete := delete_dialog s;
  av_copyToast := ac_copyResult s |}.

Definition detail_view (s : Actions) : ActionsView := {|
  av_menu := menu_view detail_items s;
  av_rename := rename_shown s;
  av_delete := delete_dialog s;
  av_copyToast := None |}.

(** The event of an item; the first is a link. *)
Definition item_event (i : MenuItem) : option ActionEvent :=
  match i with
  | ConsoleItem _ => None
  | CopyItem => Some SelectCopy
  | RenameItem => Some SelectRename
  | DeleteItem => Some SelectDelete
  end.

(** * The detail page *)

Inductive DetailTerm := TermStatus | TermCluster | TermEndpoint | TermNamespace | TermReleaseId.

Inductive DetailCell :=
| DetailStatus (icon : StatusIcon) (muted : bool) (text : jsstring)
| DetailCluster (name : NameCell) (retry : bool)
| DetailEndpoint (endpoint : option jsstring)
| DetailText (text : jsstring).

Definition detail_rows (record : GatewayRecord) (connection : GatewayConnection) (cluster : Query GatewayPlacement) :
    list (DetailTerm * DetailCell) :=
  let status := GatewayStatus toLocaleLowerCase None (gc_status connection) in
  let name := GatewayDetailClusterName connection cluster in
  [(TermStatus, DetailStatus status.1.1 status.1.2 status.2);
   (TermCluster, DetailCluster name.1 name.2);
   (TermEndpoint, DetailEndpoint (truthy (gc_endpoint connection)));
   (TermNamespace, DetailText (gr_namespace record));
   (TermReleaseId, DetailText (gr_releaseId record))].

(** What the open tab holds: the steps below a button to the service accounts, the
    accounts or, for a gateway that is being deleted, its status, or the details. *)
Inductive TabContent :=
| ConnectionContent (manageEnabled : bool)
| AccountsContent
| AccountsUnavailable (status : jsstring)
| DetailsContent (rows : list (DetailTerm * DetailCell)).

Record DetailPage := {
  dp_name : jsstring;
  dp_status : StatusIcon * bool * jsstring;
  dp_console : option ConsoleButton;
  dp_tabs : list (GatewayDetailTab * bool);
  dp_content : TabContent
}.

Definition tab_content (record : GatewayRecord) (connection : GatewayConnection) (cluster : Query GatewayPlacement)
    (tab : GatewayDetailTab) : TabContent :=
  match tab with
  | TabConnection => ConnectionContent (negb (isGatewayDeleting connection))
  | TabServiceAccounts => if isGatewayDeleting connection then AccountsUnavailable (gc_status connection)
                          else AccountsContent
  | TabDetails => DetailsContent (detail_rows record connection cluster)
  end.

Definition detail_page (hub : jsstring) (record : GatewayRecord) (consoleWaitStartedAt : option num) (now : num)
    (cluster : Query GatewayPlacement) (tab : GatewayDetailTab) : DetailPage :=
  let connection := toGatewayConnection toLocaleLowerCase record hub in
  {| dp_name := gc_name connection;
     dp_status := GatewayStatus toLocaleLowerCase None (gc_status connection);
     dp_console := console_button toLocaleLowerCase connection consoleWaitStartedAt now;
     dp_tabs := [(TabConnection, true); (TabServiceAccounts, negb (isGatewayDeleting connection)); (TabDetails, true)];
     dp_content := tab_content record connection cluster tab |}.
End views.

(** * The copy buttons *)

(** [GatewayCliCopy]: nothing without a command; [copied] is shown until the tooltip is
    hidden. *)
Inductive CopyEvent := CopyClick | TooltipHidden.

Definition cli_copy_step (toLocaleLowerCase : jsstring → jsstring) (g : GatewayConnection) (copied : bool)
    (ev : CopyEvent) : option (bool * list Call) :=
  match buildGatewayAddCommand toLocaleLowerCase g with
  | None => None
  | Some connectionCommand =>
      Some match ev with
           | CopyClick => (true, [WriteClipboard connectionCommand])
           | TooltipHidden => (false, [])
           end
  end.

Definition GatewayEndpointCopy (g : GatewayConnection) : option jsstring := truthy (gc_endpoint g).

(** * Lemmas: what is offered is handled *)

(** The controls of a view, by the event they raise. *)
Definition is_control (ev : ActionEvent) : bool :=
  match ev with
  | MenuToggle | SelectCopy | SelectRename | SelectDelete | RenameChange _ | RenameSubmit | RenameClose
  | DeleteConfirm | DeleteClose => true
  | _ => false
  end.

Definition offered (v : ActionsView) (ev : ActionEvent) : Prop :=
  match ev with
  | MenuToggle => mn_toggleEnabled (av_menu v) = true
  | SelectCopy => CopyItem ∈ mn_items (av_menu v)
  | SelectRename => RenameItem ∈ mn_items (av_menu v)
  | SelectDelete => DeleteItem ∈ mn_items (av_menu v)
  | RenameChange _ => ∃ r, av_rename v = Some r ∧ rv_inputEnabled r = true
  | RenameSubmit => ∃ r, av_rename v = Some r ∧ rv_submitEnabled r = true
  | RenameClose => ∃ r, av_rename v = Some r ∧ rv_closable r = true
  | DeleteConfirm => ∃ d, av_delete v = Some d ∧ dl_confirmEnabled d = true
  | DeleteClose => ∃ d, av_delete v = Some d ∧ dl_closable d = true
  | _ => False
  end.

Lemma when {A} (b : bool) (x : A) : true = true ∧ b = true ↔ is_Some (if b then Some x else None).
Proof. destruct b; [by split; [by eexists|]|]. split; [by intros []|by intros [? [=]]]. Qed.

Lemma when_not {A} (b : bool) (x : A) : negb b = true ↔ is_Some (if b then None else Some x).
Proof. destruct b; [split; [done|by intros [? [=]]]|by split; [by eexists|]]. Qed.

Lemma not_offered {A} (P : Prop) : false = true ∧ P ↔ is_Some (None : option A).
Proof. split; [by intros []|by intros [? [=]]]. Qed.

Lemma mounted {A B} (o : option A) (P : A → Prop) (f : A → option B) :
  (∀ a, P a ↔ is_Some (f a)) → (∃ a, o = Some a ∧ P a) ↔ is_Some (o ≫= f).
Proof.
  intros Hf. destruct o as [a|]; cbn; [rewrite <- Hf|]; (split; [by intros (? & [= <-] & ?)|]).
  - intros H. by exists a.
  - by intros [? [=]].
Qed.

Section offers.
Context (toLocaleLowerCase : jsstring → jsstring).
Abbreviation handleRow := (handleRow toLocaleLowerCase).
Abbreviation handleDetail := (handleDetail toLocaleLowerCase).
Abbreviation row_view := (row_view toLocaleLowerCase).
Abbreviation detail_view := (detail_view toLocaleLowerCase).
Abbreviation isGatewayDeleting := (isGatewayDeleting toLocaleLowerCase).

Lemma copy_item g : CopyItem ∈ row_items toLocaleLowerCase g ↔ is_Some (buildGatewayAddCommand toLocaleLowerCase g).
Proof.
  unfold row_items. destruct (buildGatewayAddCommand _ g) as [c|].
  - split; [by eexists|]. intros _. apply elem_of_app. right. by left.
  - split; [|by intros []]. destruct (truthy _); cbn [app]; rewrite !elem_of_cons, elem_of_nil;
      intros H; exfalso; repeat destruct H as [H|H]; done.
Qed.

Lemma common_items g : RenameItem ∈ row_items toLocaleLowerCase g ∧ DeleteItem ∈ row_items toLocaleLowerCase g.
Proof. unfold row_items. rewrite !elem_of_app, !elem_of_cons. tauto. Qed.

(** The dialogs' controls, where the rest of the view is the same. *)
Lemma dialogs_offered v s ev :
  av_rename v = rename_shown s → av_delete v = delete_dialog toLocaleLowerCase s →
  ev ∈ [RenameSubmit; RenameClose; DeleteConfirm; DeleteClose] ∨ (∃ x, ev = RenameChange x) →
  offered v ev ↔ is_Some (handleRow s ev).
Proof.
  intros Hr Hd Hev. assert (Hren : ∀ P : RenameView → Prop, (∃ r, av_rename v = Some r ∧ P r) ↔
    ∃ d, ac_rename s = Some d ∧ P (rename_view (gc_name (ac_gateway s)) d)).
  { intros P. rewrite Hr. unfold rename_shown. destruct (ac_rename s); naive_solver. }
  assert (Hdel : ∀ P : DeleteView → Prop, (∃ d, av_delete v = Some d ∧ P d) ↔
    delete_shown toLocaleLowerCase s = true ∧ P (delete_view (ac_gateway s) (ac_deletion s))).
  { intros P. rewrite Hd. unfold delete_dialog, delete_shown. destruct (_ && _); naive_solver. }
  rewrite !elem_of_cons, elem_of_nil in Hev.
  destruct Hev as [[->|[->|[->|[->|[]]]]]|[x ->]]; cbn [offered]; rewrite ?Hren, ?Hdel;
    cbn [GatewayDialogs.handleRow handleRename handleDelete rename_view delete_view rv_submitEnabled rv_closable
         rv_inputEnabled dl_confirmEnabled dl_closable]; clear Hren Hdel Hr Hd.
  - apply mounted. intros d. unfold rename_disabled. destruct (rename_submit _ d). apply when_not.
  - apply mounted. intros d. apply when_not.
  - destruct (delete_shown _ s); [|apply not_offered]. cbn [andb]. apply when.
  - destruct (delete_shown _ s); [|apply not_offered]. cbn [andb]. apply when.
  - apply mounted. intros d. apply when_not.
Qed.

Lemma row_offered s ev : is_control ev = true → offered (row_view s) ev ↔ is_Some (handleRow s ev).
Proof.
  intros Hc. destruct (common_items (ac_gateway s)) as [Hi Hj]. pose proof (copy_item (ac_gateway s)) as Hk.
  destruct ev as [| | | | | | |x| | | | | | | | | |]; try done; try (apply dialogs_offered; set_solver);
    cbn [offered row_view av_menu menu_view mn_toggleEnabled mn_items GatewayDialogs.handleRow ActionViews.row_view];
    unfold menu_shown; destruct (isGatewayDeleting _), (ac_isMenuOpen s); cbn [negb andb];
    rewrite ?elem_of_nil; try naive_solver.
  rewrite Hk. destruct (buildGatewayAddCommand _ _); naive_solver.
Qed.

Lemma detail_offered s ev : is_control ev = true → offered (detail_view s) ev ↔ is_Some (handleDetail s ev).
Proof.
  intros Hc. destruct ev as [| | | | | | |x| | | | | | | | | |]; try done;
    try (apply dialogs_offered; set_solver);
    cbn [offered detail_view av_menu menu_view mn_toggleEnabled mn_items GatewayDialogs.handleRow
         GatewayDialogs.handleDetail ActionViews.detail_view];
    unfold menu_shown, detail_items; destruct (isGatewayDeleting _), (ac_isMenuOpen s); cbn [negb andb];
    rewrite ?elem_of_cons, ?elem_of_nil; naive_solver.
Qed.

(** A renaming is in flight as long as its request is pending. *)
Definition renames_awaited (s : Actions) : Prop := ∀ d, ac_rename s = Some d → rn_mutation d ≠ MPending true.

Lemma handleRow_awaited s ev s' out : handleRow s ev = Some (s', out) → renames_awaited s → renames_awaited s'.
Proof.
  intros H Hs d Hd. unfold renames_awaited in Hs.
  unfold GatewayDialogs.handleRow, handleRename, handleDelete, rename_submit, rename_change, mbind, option_bind in H.
  destruct (ac_rename s) as [d0|] eqn:E;
    destruct ev; repeat (case_match; simplify_eq/=); simplify_eq/=; try congruence; by apply Hs.
Qed.
End offers.

(** * Properties *)


(** The detail page offers a tab, and the button to the service accounts, exactly when the
    page acts on its choice; the accounts are there exactly when a dialog can be opened
    from them; the console is never linked for a gateway that is being deleted; and the
    endpoint that is shown is the one its button copies. *)
Theorem detail_page_consistent (toLocaleLowerCase : jsstring → jsstring) (hub : jsstring) (record : GatewayRecord)
    (consoleWaitStartedAt : option num) (now : num) (cluster : Query GatewayPlacement) (tab : GatewayDetailTab) :
  let g := toGatewayConnection toLocaleLowerCase record hub in
  let v := detail_page toLocaleLowerCase hub record consoleWaitStartedAt now cluster tab in
  let page dialog := {| pg_tab := tab; pg_deleting := isGatewayDeleting toLocaleLowerCase g; pg_dialog := dialog |} in
  (∀ t d, (t, true) ∈ dp_tabs v ↔ is_Some (step (page d) (EvTab t))) ∧
  (∀ b d, dp_content v = ConnectionContent b → b = true ↔ is_Some (step (page d) (EvTab TabServiceAccounts))) ∧
  (dp_content v = AccountsContent ↔ is_Some (step (page None) EvOpen)) ∧
  (∀ url, dp_console v = Some (ConsoleLink url) → isGatewayDeleting toLocaleLowerCase g = false) ∧
  (∀ rows e, dp_content v = DetailsContent rows → (TermEndpoint, e) ∈ rows → e = DetailEndpoint (GatewayEndpointCopy g)).
Proof.
  cbn zeta. unfold step, detail_page. cbn [dp_tabs dp_content dp_console handle pg_dialog pg_deleting pg_tab].
  set (g := toGatewayConnection _ record hub). split_and!.
  - intros t d. rewrite fmap_is_Some, !elem_of_cons, elem_of_nil.
    destruct (isGatewayDeleting _ g), t; cbn; (split; [intros H|intros [? H]]); try (by eexists); try done; auto;
      repeat destruct H as [H|H]; done.
  - intros b d Hb. rewrite fmap_is_Some. unfold tab_content in Hb.
    destruct tab; try done; [|by destruct (isGatewayDeleting _ g)]. injection Hb as <-.
    destruct (isGatewayDeleting _ g); cbn; (split; [done || by intros _; eexists|by intros [? H]]).
  - rewrite fmap_is_Some. unfold tab_content.
    destruct tab, (isGatewayDeleting _ g); cbn; (split; [done || by intros _; eexists|by intros [? H]]).
  - intros url. unfold console_button, isGatewayReadyToConnect, isGatewayDeleting, phase_is.
    destruct (gc_phase g) as [phase|]; [|done]. destruct (_ && _) eqn:H; [|done]. intros _.
    apply andb_prop in H as [->%bool_decide_eq_true _]. by apply bool_decide_eq_false.
  - intros rows e Hc Hin. unfold tab_content in Hc. destruct tab; try done; [by destruct (isGatewayDeleting _ g)|].
    injection Hc as <-. unfold detail_rows in Hin. rewrite !elem_of_cons, elem_of_nil in Hin.
    repeat destruct Hin as [Hin|Hin]; try done. by injection Hin as ->.
Qed.

(** * The row of a gateway, for the witness *)

Module DemoActions.
Definition gateway : GatewayConnection := GatewayDialogs.Demo.gateway.

(** A rename is sent and fails; then the menu is opened for the removal. *)
Definition used : list ActionEvent :=
  [MenuToggle; SelectRename; RenameChange (js "beta"); RenameSubmit; RenameFailed; MenuToggle; SelectDelete; DeleteConfirm].

Definition state : Actions := (default (new_actions gateway, []) (play (handleRow id) (new_actions gateway) used)).1.
Definition calls : list Call := (default (new_actions gateway, []) (play (handleRow id) (new_actions gateway) used)).2.

(** The rename can be tried again; the removal waits for its answer. *)
Example used_view :
  (rv_isError <$> av_rename (row_view id state)) = Some true ∧
  (rv_submitEnabled <$> av_rename (row_view id state)) = Some true ∧
  (dl_closable <$> av_delete (row_view id state)) = Some false ∧
  row_items id gateway = [CopyItem; RenameItem; DeleteItem].
Proof. vm_compute. done. Qed.

End DemoActions.
