(* ===== verification/CollectionFlow.v ===== *)
(** From the address to the table: the collection of gateways
    ([pages/gateway-pages.tsx]) over the whole console. The state that is read from
    the address becomes a request of the page's query, the query asks the use cases,
    and what the API answered is mapped to the rows the page shows. *)
From S2P Require Export PageViews ConsoleClient UrlState.

(** * The query of the page *)

Section query.
Context (toLocaleLowerCase : jsstring → jsstring) (hubCluster : jsstring).

(** What the query makes of the page the use case returns. *)
Definition fetchedPage (result : GatewayPage GatewayRecord) : CollectionPage := {|
  cp_items := map (λ gateway, toGatewayConnection toLocaleLowerCase gateway hubCluster) (gp_items result);
  cp_page := gp_page result; cp_size := gp_size result; cp_total := gp_total result |}.

(** [queryFn]; whether the page polls is [shouldPollStatus] of the same items. *)
Definition gateways_queryFn {W : Type} (gatewayOperations : GatewayOperations W) (request : GatewayListRequest)
    (signal : option AbortSignal) : M thrown W CollectionPage :=
  run_operation gatewayOperations (CallListGateways request) signal ≫= λ result, mret (fetchedPage result).
End query.

(** * What is asked for *)

Definition list_operation : ContractOperation :=
  operation GET "/gateways" list_parameters None [("200", Some (ref_to "GatewayList"))].

(** The parameters of the address the API is asked with: the page, the size and the
    order of the state, and the search expression of what is searched for. *)
Definition list_query (request : GatewayListRequest) (page size : Z) : list (jsstring * jsstring) :=
  [(js "orderBy", lq_orderBy (gateway_query request)); (js "page", string_of_Z page)] ++
  match gatewaySearch (lr_search request) with Some search => [(js "search", search)] | None => [] end ++
  [(js "size", string_of_Z size)].

Definition with_query (path suffix : jsstring) : jsstring :=
  if is_nonempty suffix then path ++ js "?" ++ suffix else path.

Definition list_path {W Ctl} (br : Browser W Ctl) (request : GatewayListRequest) (page size : Z) : jsstring :=
  with_query (js "/api/hypershell/v1/gateways") (br_URLSearchParams br (list_query request page size)).

(** * Lemmas *)

Lemma list_operation_named : rt_operation "listGateways" (ApiList ApiGateway) = list_operation.
Proof. vm_compute. reflexivity. Qed.

(** One step of the loop over the parameters, for one of the query that is given. *)
Lemma query_parameter {W Ctl} (br : Browser W Ctl) name schema ps input path query v r :
  val_prop input (js name) = v → bool_decide (js name ∈ own_keys input) = true →
  parameters br (query_param name schema :: ps) input path query = Some r →
  parameters br ps input path (prop_set query (js name) (js_String (br_fraction_text br) v)) = Some r.
Proof.
  intros <- Hin H. cbn [parameters query_param pm_name pm_required pm_in pm_schema] in H.
  rewrite Hin in H.
  destruct (validate_input br schema (val_prop input (js name))); [|by destruct (val_prop input (js name))].
  by destruct (val_prop input (js name)).
Qed.

Lemma absent_parameter {W Ctl} (br : Browser W Ctl) name schema ps input path query :
  bool_decide (js name ∈ own_keys input) = false →
  parameters br (query_param name schema :: ps) input path query = parameters br ps input path query.
Proof.
  intros Hin. cbn [parameters query_param pm_name pm_required pm_in pm_schema]. rewrite Hin.
  by destruct (val_prop input (js name)).
Qed.

(** The path of the request, where the input passes the client's checks. *)
Lemma list_path_asked {W Ctl} (br : Browser W Ctl) request page size path :
  lr_page request = NInt page → lr_size request = NInt size →
  operation_path br list_operation (list_input (gateway_query request)) = Some path →
  path = list_path br request page size.
Proof.
  intros Hpage Hsize. unfold operation_path. destruct (negb (bounded _)); [done|].
  cbn [list_input negb]. destruct (existsb _ _); [done|]. intros H. apply bind_Some in H as ([p query] & H & Hp).
  assert (p = js "/api/hypershell/v1/gateways" ∧ query = list_query request page size) as [-> ->].
  { revert H. change (co_parameters list_operation) with list_parameters. unfold list_parameters, list_query.
    unfold list_input. cbn [lq_page lq_size lq_search gateway_query]. rewrite Hpage, Hsize.
    destruct (gatewaySearch (lr_search request)) as [search|]; cbn [given fmap option_fmap option_map app];
      intros H; (rewrite absent_parameter in H; [|by vm_compute]);
      do 2 (eapply query_parameter in H; [|reflexivity|by vm_compute]).
    - do 2 (eapply query_parameter in H; [|reflexivity|by vm_compute]).
      injection H as <- <-. split; [done|]. vm_compute. reflexivity.
    - rewrite absent_parameter in H; [|by vm_compute].
      eapply query_parameter in H; [|reflexivity|by vm_compute].
      injection H as <- <-. split; [done|]. vm_compute. reflexivity. }
  revert Hp. cbn [fst snd]. destruct (_ && _); [done|]. destruct (_ && _); [done|]. by intros [= <-].
Qed.

(** A listing that succeeds asked once, and its page is made of an answer the
    contract allows. *)
Section answered.
Context {W Ctl : Type} `{!Lens W SdkState} (br : Browser W Ctl) (log : W → list FetchRequest)
  (Hbr : browser_ok br log) (J : jsstring → option jsval).

Record answered (request : GatewayListRequest) (page size : Z) (q : FetchRequest) (response : ApiList ApiGateway) : Prop := {
  an_asked : ∃ origin, client_origin br = Some origin ∧
    sent br origin (list_path br request page size) (js "GET") None q;
  an_body : ∃ body, conforms contract_models (valid_URL br) Response (ref_to "GatewayList") body ∧
    decode_list decode_gateway body = Some response
}.

Lemma call_operation_answered origin request page size o w response w' :
  client_origin br = Some origin → lr_page request = NInt page → lr_size request = NInt size →
  call_operation br origin "listGateways" (A := ApiList ApiGateway) (list_input (gateway_query request)) o w =
    (Ok response, w') →
  ∃ q, log w' = log w ++ [q] ∧ answered request page size q response.
Proof.
  intros Ho Hpage Hsize H. unfold call_operation in H. rewrite list_operation_named in H.
  apply bind_Ok in H as (a & w1 & Hc & H). pose proof (client_operation_conforms _ _ _ _ _ _ _ _ Hc) as (schema & Hs & Hb).
  apply (reading_answered br log Hbr) in Hc as (path & q & Hp & Hl & Hq); [|done].
  apply (list_path_asked br request page size path Hpage Hsize) in Hp as ->.
  apply prop_get_elem in Hs. apply list_elem_of_singleton in Hs. injection Hs as Hstatus ->.
  destruct (rt_decode "listGateways" (ApiList ApiGateway) (rp_body a)) as [x|] eqn:Hd; [|done].
  injection H as <- <-. exists q. split; [done|]. split; [by exists origin|]. by exists (rp_body a).
Qed.

Lemma listGateways_answered tp request page size ctx w pg w' :
  (∀ c w1, (tp c w1).2 = w1) → lr_page request = NInt page → lr_size request = NInt size →
  listGateways_task J (λ _, createApiClient br) (Some tp) request ctx w = (Ok pg, w') →
  ∃ q response, log w' = log w ++ [q] ∧ answered request page size q response ∧
    gateway_page J request response = Ok pg.
Proof using Hbr.
  intros Htp Hpage Hsize H. apply bind_Ok in H as (response & w1 & Hc & H).
  assert (gateway_page J request response = Ok pg ∧ w1 = w') as [Hpg <-].
  { revert H. unfold gateway_page, mbind, M_bind, lift_result.
    destruct (requirePage response) as [[[page' total] items]|]; [|done].
    destruct (_ || _); [done|]. destruct (map_result _ items); [|done]. by intros [= <- <-]. }
  apply (call_api_Ok br tp Htp) in Hc as (origin & o & Ho & Hc).
  destruct (call_operation_answered origin request page size o w response w1 Ho Hpage Hsize Hc) as (q & Hl & Ha).
  by exists q, response.
Qed.
End answered.

(** ** The rows *)

(** The row of a gateway of the answer. *)
Definition row_of (J : jsstring → option jsval) (lower : jsstring → jsstring) (hub : jsstring)
    (g : ApiGateway) (row : GatewayConnection) : Prop :=
  ag_id g = Some (gc_id row) ∧ gc_id row ≠ [] ∧ gc_name row = ag_name g ∧
  ∃ record, toGatewayRecord J g = Ok record ∧ row = toGatewayConnection lower record hub.

Lemma record_row J lower hub g record :
  toGatewayRecord J g = Ok record → row_of J lower hub g (toGatewayConnection lower record hub).
Proof.
  intros H. pose proof H as Hr. unfold toGatewayRecord in Hr. destruct (ag_id g) as [[|c t]|] eqn:E; [done| |done].
  injection Hr as Hr. split_and!; [| | |by exists record]; by subst record.
Qed.

Lemma fetched_rows J lower hub items pg :
  Forall2 (λ g record, toGatewayRecord J g = Ok record) items (gp_items pg) →
  Forall2 (row_of J lower hub) items (cp_items (fetchedPage lower hub pg)).
Proof. cbn. induction 1; cbn; constructor; [by apply record_row|done]. Qed.

(** A size the address can hold is a whole number of rows. *)
Lemma page_size_int n : n ∈ gatewayListPageSizes → ∃ size, n = NInt size ∧ (1 ≤ size ≤ max_safe)%Z.
Proof.
  unfold gatewayListPageSizes. rewrite !elem_of_cons, elem_of_nil.
  intros [->|[->|[->|[->|[]]]]]; eexists; (split; [reflexivity|]); unfold max_safe; lia.
Qed.

(** What the query library documents of a query whose function has settled: what it
    returns is the data; a failure is an error, whatever data there is. *)
Definition settled {A} (q : Query A) (r : result thrown A) : Prop :=
  match r with
  | Ok data => q_data q = Some data
  | Err _ => q_isError q = true ∧ q_isPending q = false
  end.

(** * Properties *)

Section properties.
Context {Sp Ctx Y Ctl : Type}.
Abbreviation World := (ObsWorld (ConsoleExt Sp Y)).

(** C4 From the address to the table. Whatever the address holds and whatever is
    searched for, the state read from it asks for a page from one on and one of the
    sizes on offer. If the query's function returns, exactly one request was sent, for the
    gateways, with that page, that size, that order and the search expression; the
    answer is one the contract allows; and the table shows the answer's total and its
    gateways in order, each under its own identifier and name, exactly as many as that
    page of that total holds. If it fails, it does so with an error of the application
    or because signing in failed, nothing else was asked for, and the page keeps the
    table it has or reports the failure. *)
Theorem collection_from_address_to_table (lower : jsstring → jsstring) (hub : jsstring)
    `{!Lens World SdkState} (otel : Otel World Sp Ctx) createBrowserTelemetry platform J (br : Browser World Ctl)
    (tlog : Y → list (TraceEvent Sp Ctx)) (wire : Y → list FetchRequest) ops (p : params) (search : jsstring)
    (sg : option AbortSignal) (w w' : World) (r : result thrown CollectionPage) (q : Query CollectionPage) :
  console_ok otel createBrowserTelemetry platform tlog wire →
  browser_ok br (sent_by wire) → (∀ href w, sent_by wire (br_assign br href w).2 = sent_by wire w) →
  console_operations otel createBrowserTelemetry platform J br = Ok ops →
  (∀ k v, url_get p k = Some v → to_usv v = v) →
  let current := parseGatewayListState p in
  let request := gatewayRequest current search in
  gateways_queryFn lower hub ops request sg w = (r, w') → settled q r →
  ∃ page size, lr_page current = NInt page ∧ (1 ≤ page ≤ max_safe)%Z ∧
    lr_size current = NInt size ∧ NInt size ∈ gatewayListPageSizes ∧
  match r with
  | Ok _ => ∃ asked response items total rows,
      sent_by wire w' = sent_by wire w ++ [asked] ∧ answered br request page size asked response ∧
      al_items response = Some items ∧ al_total response = Some (NInt total) ∧
      gateways_body (visiblePage None current q) q = CollectionTable (NInt total) rows ∧
      Forall2 (row_of J lower hub) items rows ∧
      Z.of_nat (length rows) = Z.max 0 (Z.min size (total - (page - 1) * size))
  | Err e => (application_error e ∨ e = sign_in_error) ∧
      (∃ l, sent_by wire w' = sent_by wire w ++ l ∧
         named_requests br "listGateways" (list_input (gateway_query request)) l) ∧
      gateways_body (visiblePage None current q) q =
        match q_data q with
        | Some kept => CollectionTable (cp_total kept) (cp_items kept)
        | None => CollectionLoad LoadError
        end
  end.
Proof.
  intros Hok Hbr Hassign Hops Hp current request Hrun Hq.
  destruct (parse_valid p Hp) as ((page & Hpage & Hpb) & Hsize & _). fold current in Hpage, Hsize.
  destruct (page_size_int _ Hsize) as (size & Hs & Hsb). rewrite Hs in Hsize.
  exists page, size. split; [done|]. split; [done|]. split; [done|]. split; [done|].
  destruct (operations_steps otel createBrowserTelemetry platform J _ _ tlog wire Hok ops (CallListGateways request) sg w Hops)
    as (c & t & t1 & t2 & t3 & t4 & w1 & r1 & w2 & w3 & Hcp & Hrun' & (_ & W1 & _) & (_ & W2 & _)).
  unfold gateways_queryFn, mbind, M_bind, mret, M_ret in Hrun. rewrite Hrun' in Hrun.
  set (ctx := {| ctx_correlationId := c; ctx_signal := sg |}) in Hcp. unfold gatewayControlPlane in Hcp.
  destruct r1 as [pg|e1]; injection Hrun as <- <-.
  - rewrite adapter_wraps in Hcp. apply mapSDKFailure_Ok in Hcp.
    destruct (listGateways_answered br (sent_by wire) Hbr J (traceparent_reader otel) request page size ctx w1 pg w2
      ltac:(done) Hpage Hs Hcp) as (asked & response & Hl & Ha & Hpg).
    apply (gateway_page_consistent J request page size response pg Hpage Hs Hpb Hsb) in Hpg
      as (total & items & _ & Htotal & Hitems & _ & Hlen & Hrec & _ & _ & Hgt).
    exists asked, response, items, total, (cp_items (fetchedPage lower hub pg)).
    pose proof (fetched_rows J lower hub items pg Hrec) as Hrows.
    split; [by rewrite W2, Hl, W1|]. split; [done|]. split; [done|]. split; [done|]. split; [|split; [done|]].
    + cbn in Hq. unfold gateways_body, visiblePage. rewrite Hq. cbn. by rewrite Hgt.
    + by rewrite <- (Forall2_length _ _ _ Hrows).
  - split_and!.
    + destruct (control_plane_error br (sent_by wire) Hbr J _ (traceparent_reader otel) _ _ _ _ _
        ltac:(done) Hcp) as [He|(Ho & w4 & w5 & He)]; [by left|right]. exact (start_login_fails br _ _ _ Ho He).
    + eapply (control_plane_log br (sent_by wire) J _ (traceparent_reader otel)) in Hcp as (l & Hl & Hnamed);
        [|exact (start_login_quiet br wire Hassign)|].
      * exists l. split; [by rewrite W2, Hl, W1|exact Hnamed].
      * intros r0 w0 H0. apply (adapter_sends br (sent_by wire) Hbr (Some (traceparent_reader otel))) in H0; [exact H0|].
        intros f c' [= <-] w4 r4 w5 [= <- <-]. exists []. by rewrite app_nil_r.
    + destruct Hq as [He Hpend]. unfold gateways_body, visiblePage. destruct (q_data q); [done|]. by rewrite Hpend, He.
Qed.
End properties.

(** * A console whose API answers a list, for the witness *)

Module DemoCollection.
Import DemoConsoleClient.
#[local] Existing Instance console_sdk_lens.

Definition list_json : jsstring :=
  backquoted "{`kind`:`GatewayList`,`page`:2,`size`:1,`total`:11,`items`:[{`id`:`g11`,`name`:`two`,`cluster_id`:``,`release_id`:``,`namespace`:`ns`}]}".

Definition fetch (q : FetchRequest) (w : DemoBrowser.world) : result thrown FetchResponse * DemoBrowser.world :=
  (Ok (DemoBrowser.answer list_json), {| DemoBrowser.wd_state := DemoBrowser.wd_state w; DemoBrowser.wd_log := DemoBrowser.wd_log w ++ [q] |}).

Definition list_browser : Browser console unit := {|
  br_location_origin := br_location_origin console_browser; br_URL := br_URL console_browser;
  br_URLSearchParams := br_URLSearchParams console_browser; br_with_param := br_with_param console_browser;
  br_decoder := br_decoder console_browser; br_fraction_text := br_fraction_text console_browser;
  br_start := br_start console_browser; br_follow := br_follow console_browser;
  br_stop := br_stop console_browser; br_aborted := br_aborted console_browser;
  br_timedOut := br_timedOut console_browser; br_fetch q _ := lift (fetch q);
  br_cancel := br_cancel console_browser; br_location := br_location console_browser;
  br_assign := br_assign console_browser |}.

Lemma list_browser_ok : browser_ok list_browser (sent_by sent_wire).
Proof.
  split; try done.
  - intros q ctl w r w' [= <- <-]. split_and!; [done|done|]. intros a chunks e [= <-]. done.
  - intros a w r w' [= <- <-]. done.
Qed.

Definition operations_of : result thrown (GatewayOperations console) :=
  console_operations otel DemoConsole.createBrowserTelemetry DemoConsole.platform (λ _, None) list_browser.

Definition address : params := [(js "page", js "2"); (js "size", js "10"); (js "direction", js "desc")].
Definition current : GatewayListRequest := parseGatewayListState address.
Definition request : GatewayListRequest := gatewayRequest current (js "tw").

Definition run_page (sg : option AbortSignal) : result thrown CollectionPage * console :=
  match operations_of with Ok ops => gateways_queryFn id (js "Hub") ops request sg begun | Err e => (Err e, begun) end.

Definition listed : CollectionPage := {|
  cp_items := match (run_page None).1 with Ok data => cp_items data | Err _ => [] end;
  cp_page := NInt 2; cp_size := NInt 10; cp_total := NInt 11 |}.

(** The eleventh gateway, on the second page of ten. *)
Example second_page_shown :
  (run_page None).1 = Ok listed ∧ map gc_id (cp_items listed) = [js "g11"] ∧
  map fq_url (sent_by sent_wire (run_page None).2) =
    [js "https://console" ++ list_path list_browser request 2 10].
Proof. vm_compute. done. Qed.
Definition shown : Query CollectionPage := {|
  q_data := Some listed; q_isPending := false; q_isError := false; q_isFetching := false |}.

Lemma collection_from_address_to_table_witness : ∃ page size, lr_page current = NInt page ∧ (1 ≤ page ≤ max_safe)%Z ∧
  lr_size current = NInt size ∧ NInt size ∈ gatewayListPageSizes ∧
  ∃ asked response items total rows,
    sent_by sent_wire (run_page None).2 = [] ++ [asked] ∧ answered list_browser request page size asked response ∧
    al_items response = Some items ∧ al_total response = Some (NInt total) ∧
    gateways_body (visiblePage None current shown) shown = CollectionTable (NInt total) rows ∧
    Forall2 (row_of (λ _, None) id (js "Hub")) items rows ∧
    Z.of_nat (length rows) = Z.max 0 (Z.min size (total - (page - 1) * size)).
Proof.
  destruct operations_of as [ops|] eqn:E; [|done].
  refine ((λ T, T) (collection_from_address_to_table id (js "Hub") otel DemoConsole.createBrowserTelemetry
    DemoConsole.platform (λ _, None) list_browser DemoConsole.dy_calls sent_wire ops address (js "tw") None begun (run_page None).2
    (Ok listed) shown (DemoConsole.demo_ok DemoBrowser.wd_log) list_browser_ok _ E _ _ _)).
  - done.
  - intros k v H. apply to_usv_plain. revert H. unfold url_get, address, prop_get.
    repeat case_decide; by intros [= <-].
  - unfold run_page. rewrite E. assert (H : (run_page None).1 = Ok listed) by by destruct second_page_shown.
    unfold run_page in H. rewrite E in H. by destruct (gateways_queryFn _ _ _ _ _ _) as [r w0]; cbn in H; subst r.
  - done.
Defined.
End DemoCollection.
