(* ===== verification/ServiceAccountViews.v ===== *)
(** What the service accounts show: the form of the creation dialog with its two
    selections, the content and the buttons of that dialog, the setup view
    ([service-accounts/service-account-create-dialog.tsx], [service-account-setup.tsx]),
    the dialog with the setup of an existing account
    ([service-account-row-actions.tsx]) and the rows of the accounts
    ([service-accounts-page.tsx]). The state and the handlers of the dialog are those of
    [ServiceAccountDialog]. *)
From S2P Require Export ServiceAccountDialog ServiceAccountSetup PageViews.

(** * The form *)

(** The fields, the two selections, and whether a creation is in flight. *)
Record AccountForm := {
  af_values : FormValues;
  af_isRoleOpen : bool;
  af_isExpirationOpen : bool;
  af_isPending : bool
}.

Definition new_form (c : ServiceAccountCapabilities) : AccountForm := {|
  af_values := defaultValues c; af_isRoleOpen := false; af_isExpirationOpen := false; af_isPending := false |}.

Definition with_values (v : FormValues) (f : AccountForm) : AccountForm := {|
  af_values := v; af_isRoleOpen := af_isRoleOpen f; af_isExpirationOpen := af_isExpirationOpen f;
  af_isPending := af_isPending f |}.
Definition with_open (role expiration : bool) (f : AccountForm) : AccountForm := {|
  af_values := af_values f; af_isRoleOpen := role; af_isExpirationOpen := expiration;
  af_isPending := af_isPending f |}.
Definition with_pending (pending : bool) (f : AccountForm) : AccountForm := {|
  af_values := af_values f; af_isRoleOpen := af_isRoleOpen f; af_isExpirationOpen := af_isExpirationOpen f;
  af_isPending := pending |}.

Definition with_description (description : jsstring) (v : FormValues) : FormValues := {|
  fv_description := description; fv_expirationSeconds := fv_expirationSeconds v;
  fv_name := fv_name v; fv_role := fv_role v |}.
Definition with_role (role : jsstring) (v : FormValues) : FormValues := {|
  fv_description := fv_description v; fv_expirationSeconds := fv_expirationSeconds v;
  fv_name := fv_name v; fv_role := role |}.
Definition with_expiration (seconds : jsstring) (v : FormValues) : FormValues := {|
  fv_description := fv_description v; fv_expirationSeconds := seconds;
  fv_name := fv_name v; fv_role := fv_role v |}.

Inductive FormEvent :=
| NameInput (value : jsstring)
| DescriptionInput (value : jsstring)
| RoleToggle | RoleOpenChange (isOpen : bool) | RoleSelect (value : option jsstring)
| ExpirationToggle | ExpirationOpenChange (isOpen : bool) | ExpirationSelect (value : option jsstring)
| SubmitForm
| CreationSettled.

(** [creation.mutate] with the values of the schema. *)
Definition FormOutput : Type := jsstring * num * jsstring * ServiceAccountRole.

Section form.
Context (c : ServiceAccountCapabilities).

Definition role_texts : list jsstring := role_str <$> cap_allowedRoles c.
Definition expiration_texts : list jsstring := (λ o, number_to_string (eo_seconds o)) <$> expirationOptions c.

(** The value selected, if it is a text among the offered ones. *)
Definition selected (offered : list jsstring) (value : option jsstring) : option jsstring :=
  match value with
  | Some v => if decide (v ∈ offered) then Some v else None
  | None => None
  end.

(** The fields and the toggles are disabled while a creation is in flight, and so is
    the button; the list of a selection that is open is not. *)
Definition form_step (f : AccountForm) (ev : FormEvent) : option (AccountForm * list FormOutput) :=
  let idle (r : AccountForm * list FormOutput) := if af_isPending f then None else Some r in
  match ev with
  | NameInput value => idle (with_values (with_name value (af_values f)) f, [])
  | DescriptionInput value => idle (with_values (with_description value (af_values f)) f, [])
  | RoleToggle => idle (with_open (negb (af_isRoleOpen f)) (af_isExpirationOpen f) f, [])
  | RoleOpenChange isOpen => Some (with_open isOpen (af_isExpirationOpen f) f, [])
  | RoleSelect value =>
      if af_isRoleOpen f then
        let f' := with_open false (af_isExpirationOpen f) f in
        Some (match selected role_texts value with
              | Some role => with_values (with_role role (af_values f)) f'
              | None => f'
              end, [])
      else None
  | ExpirationToggle => idle (with_open (af_isRoleOpen f) (negb (af_isExpirationOpen f)) f, [])
  | ExpirationOpenChange isOpen => Some (with_open (af_isRoleOpen f) isOpen f, [])
  | ExpirationSelect value =>
      if af_isExpirationOpen f then
        let f' := with_open (af_isRoleOpen f) false f in
        Some (match selected expiration_texts value with
              | Some seconds => with_values (with_expiration seconds (af_values f)) f'
              | None => f'
              end, [])
      else None
  | SubmitForm =>
      idle (match validate_form c (af_values f) with
            | Some v => (with_pending true f, [v])
            | None => (f, [])
            end)
  | CreationSettled => if af_isPending f then Some (with_pending false f, []) else None
  end.

(** The days the toggle names, and the instant the preview shows. *)
Definition selectedExpirationDays (f : AccountForm) : option Z :=
  eo_days <$> head (filter (λ o, num_eqb (eo_seconds o) (string_to_number (fv_expirationSeconds (af_values f))) = true)
                      (expirationOptions c)).

Definition expiration_preview (currentTime : num) (f : AccountForm) : num :=
  num_add currentTime (num_mul (string_to_number (fv_expirationSeconds (af_values f))) (NInt 1000)).
End form.

(** * The setup view *)

(** A value that can be copied, or the text for one that is not there. *)
Definition CopyableValue (value : jsstring) : option jsstring := match value with [] => None | _ => Some value end.

Inductive SecretNotice := SecretOnce | SecretUnavailable.

(** What the view shows besides the scripts' texts and the state of its controls. *)
Record SetupContent := {
  st_notice : SecretNotice;
  st_clientId : option jsstring;
  st_secret : option jsstring;
  st_subject : option jsstring;
  st_membership : bool;
  st_scripts : list (option jsstring);
  st_acknowledgement : option bool
}.

Definition ServiceAccountSetupView (account : ServiceAccountRecord) (clientSecret : option jsstring)
    (connection : ServiceAccountConnection) (isAcknowledged : bool) : SetupContent := {|
  st_notice := match truthy clientSecret with Some _ => SecretOnce | None => SecretUnavailable end;
  st_clientId := CopyableValue (cn_clientId connection);
  st_secret := truthy clientSecret;
  st_subject := CopyableValue (sa_subject account);
  st_membership := match sa_role account with OpenshellUser => true | OpenshellAdmin => false end;
  st_scripts := setup_scripts account connection;
  st_acknowledgement := (λ _, isAcknowledged) <$> truthy clientSecret |}.

(** * The creation dialog *)

Inductive DialogTitle := LeaveTitle | SetupTitle (name : jsstring) | CreateTitle.
Inductive DialogBody := LossBody | SetupBody (content : SetupContent) | FormBody (alert : option CreateFailure).
Inductive DialogButton := LeaveButton | ReturnButton | FinishButton | CreateButton | CancelButton.

(** Its parts; whether it can be closed; and its buttons, enabled or not. *)
Record DialogView := {
  dv_title : DialogTitle;
  dv_closable : bool;
  dv_body : DialogBody;
  dv_footer : list (DialogButton * bool)
}.

Definition dialog_view (d : Dialog) : DialogView := {|
  dv_title := if dg_isConfirmingLoss d then LeaveTitle
              else match dg_handoff d with Some r => SetupTitle (sa_name (sc_serviceAccount r)) | None => CreateTitle end;
  dv_closable := negb (dg_isPending d);
  dv_body := if dg_isConfirmingLoss d then LossBody
             else match dg_handoff d with
                  | Some r =>
                      SetupBody (ServiceAccountSetupView (sc_serviceAccount r) (Some (cr_clientSecret (sc_credential r)))
                                   (cr_connection (sc_credential r)) (dg_isAcknowledged d))
                  | None => FormBody (create_failure <$> dg_error d)
                  end;
  dv_footer := if dg_isConfirmingLoss d then [(LeaveButton, true); (ReturnButton, true)]
               else match dg_handoff d with
                    | Some _ => [(FinishButton, dg_isAcknowledged d)]
                    | None => [(CreateButton, negb (dg_isPending d)); (CancelButton, negb (dg_isPending d))]
                    end |}.

(** The event of a button. *)
Definition button_event (b : DialogButton) : ServiceAccountDialog.Event :=
  match b with
  | LeaveButton => EvLeave
  | ReturnButton => EvReturn
  | FinishButton => EvFinish
  | CreateButton => EvSubmit
  | CancelButton => EvRequestClose
  end.

(** * The setup of an existing account *)

Inductive ExistingBody := ExistingLoading | ExistingError | ExistingSetup (content : SetupContent).

Definition ExistingServiceAccountSetupDialog (isOpen : bool) (detail : Query ServiceAccountDetail) : option ExistingBody :=
  if isOpen then
    Some (if q_isPending detail then ExistingLoading
          else if q_isError detail then ExistingError
          else match q_data detail with
               | Some d => ExistingSetup (ServiceAccountSetupView (sd_serviceAccount d) None (sd_connection d) false)
               | None => ExistingError
               end)
  else None.

(** * The rows *)

(** The message of a status, by its key. *)
Definition serviceAccountStatusLabel (status : ServiceAccountStatus) : jsstring :=
  match status with
  | Degraded => js "serviceAccountStatusDegraded"
  | Deleting => js "serviceAccountStatusDeleting"
  | StatusError => js "serviceAccountStatusError"
  | Expired => js "serviceAccountStatusExpired"
  | Provisioning => js "serviceAccountStatusProvisioning"
  | Ready => js "serviceAccountStatusReady"
  | Revoked => js "serviceAccountStatusRevoked"
  | Revoking => js "serviceAccountStatusRevoking"
  end.

Section rows.
Context (toLocaleLowerCase : jsstring → jsstring) (getTime : jsstring → option num)
  (formatMessage : jsstring → jsstring).

(** The details that can be expanded below the name. *)
Record AccountDetails := {
  dt_description : NameCell;
  dt_clientId : jsstring;
  dt_subject : jsstring;
  dt_created : option jsstring
}.

Definition account_details (a : ServiceAccountRecord) : AccountDetails := {|
  dt_description := optional_cell (sa_description a);
  dt_clientId := sa_clientId a;
  dt_subject := sa_subject a;
  dt_created := LocalDate getTime (sa_createdAt a) |}.

Definition account_status (status : ServiceAccountStatus) : StatusIcon * bool * jsstring :=
  GatewayStatus toLocaleLowerCase (Some (formatMessage (serviceAccountStatusLabel status))) (status_str status).

Inductive AccountCell :=
| AccountNameCell (name : jsstring) (details : AccountDetails)
| AccountTextCell (text : jsstring)
| AccountStatusCell (icon : StatusIcon) (muted : bool) (text : jsstring)
| AccountDateCell (dateTime : option jsstring).

Definition accounts_row (a : ServiceAccountRecord) : list (jsstring * AccountCell) :=
  let status := account_status (sa_status a) in
  [(js "name", AccountNameCell (sa_name a) (account_details a));
   (js "role", AccountTextCell (role_str (sa_role a)));
   (js "status", AccountStatusCell status.1.1 status.1.2 status.2);
   (js "expires_at", AccountDateCell (LocalDate getTime (sa_expiresAt a)))].
End rows.

(** * Lemmas: the form *)

Section form_lemmas.
Context (c : ServiceAccountCapabilities).

(** The selections are among what is offered. *)
Definition form_ok (f : AccountForm) : Prop :=
  fv_role (af_values f) ∈ role_texts c ∧ fv_expirationSeconds (af_values f) ∈ expiration_texts c.

Lemma selected_offered l v t : selected l v = Some t → t ∈ l.
Proof. unfold selected. destruct v as [v|]; [|done]. case_decide; [|done]. by intros [= ->]. Qed.

Lemma new_form_ok : expirationOptions c ≠ [] → cap_allowedRoles c ≠ [] → form_ok (new_form c).
Proof.
  intros Ho Hr. unfold form_ok, new_form, role_texts, expiration_texts. cbn. split.
  - case_decide as Hu; [exact (list_elem_of_fmap_2 role_str _ _ Hu)|].
    destruct (cap_allowedRoles c) as [|r rs]; [done|]. apply list_elem_of_here.
  - destruct (defaultExpirationSeconds c) as [n|] eqn:Hn; [|by apply defaultExpirationSeconds_None in Hn].
    destruct (defaultExpirationSeconds_offered c n Hn) as (o & Hoin & <-).
    destruct (offered_seconds_text c o Hoin) as [-> _]. by apply (list_elem_of_fmap_2 (λ o, number_to_string (eo_seconds o))).
Qed.

Lemma form_step_ok f ev f' out : form_step c f ev = Some (f', out) → form_ok f → form_ok f'.
Proof.
  intros Hs Hf. destruct ev as [v|v| |b|v| |b|v| |]; cbn [form_step] in Hs;
    try (destruct (af_isPending f); [done|]); try (injection Hs as <- _; exact Hf).
  - destruct (af_isRoleOpen f); [|done]. injection Hs as <- _.
    destruct (selected _ v) as [t|] eqn:Ht; [|exact Hf]. apply selected_offered in Ht. by split; [|apply Hf].
  - destruct (af_isExpirationOpen f); [|done]. injection Hs as <- _.
    destruct (selected _ v) as [t|] eqn:Ht; [|exact Hf]. apply selected_offered in Ht. by split; [apply Hf|].
  - destruct (validate_form c (af_values f)); injection Hs as <- _; exact Hf.
  - destruct (af_isPending f); [|done]. injection Hs as <- _. exact Hf.
Qed.

(** With such selections a form is refused for a blank name only. *)
Lemma form_ok_valid f : form_ok f →
  is_Some (validate_form c (af_values f)) ↔ trim (fv_name (af_values f)) ≠ [].
Proof.
  intros [(r & Hr & Hin)%list_elem_of_fmap (o & Ho & Hoin)%list_elem_of_fmap].
  unfold validate_form. rewrite Hr, literal_of_role, Ho by done.
  destruct (offered_seconds_text c o Hoin) as [_ ->].
  replace (existsb _ _) with true.
  - cbn [andb]. destruct (trim (fv_name (af_values f))); cbn [is_nonempty]; [split; [by intros []|done]|].
    split; [done|by eexists].
  - symmetry. apply existsb_exists. exists o. rewrite <- list_elem_of_In. split; [done|].
    apply expirationOptions_spec in Hoin as [H _]. rewrite !elem_of_cons in H.
    destruct H as [->|[->|[->|[]%elem_of_nil]]]; apply num_eqb_refl_int.
Qed.

Lemma form_ok_days f : form_ok f →
  ∃ days, selectedExpirationDays c f = Some days ∧ days ∈ expirationDays.
Proof.
  intros [_ (o & Ho & Hoin)%list_elem_of_fmap]. unfold selectedExpirationDays. rewrite Ho.
  destruct (offered_seconds_text c o Hoin) as [_ ->].
  assert (Heq : num_eqb (eo_seconds o) (eo_seconds o) = true).
  { apply expirationOptions_spec in Hoin as [H _]. rewrite !elem_of_cons in H.
    destruct H as [->|[->|[->|[]%elem_of_nil]]]; apply num_eqb_refl_int. }
  assert (Hin : o ∈ filter (λ o', num_eqb (eo_seconds o') (eo_seconds o) = true) (expirationOptions c))
    by (by apply list_elem_of_filter).
  destruct (filter _ _) as [|o' os] eqn:E; [by apply elem_of_nil in Hin|]. exists (eo_days o'). split; [done|].
  assert (H : o' ∈ o' :: os) by left. rewrite <- E in H. apply list_elem_of_filter in H as [_ H].
  unfold expirationOptions in H. apply list_elem_of_filter in H as [_ (days & -> & Hd)%list_elem_of_fmap]. done.
Qed.

(** What a request may ask for. *)
Definition allowed_request (v : FormOutput) : Prop :=
  let '(_, seconds, name, role) := v in
  (∃ o, o ∈ expirationOptions c ∧ num_eqb (eo_seconds o) seconds = true) ∧
  role ∈ cap_allowedRoles c ∧ name ≠ [] ∧ trim name = name.

Lemma validated_allowed v out : validate_form c v = Some out → allowed_request out.
Proof.
  unfold validate_form. destruct (literal_of _ _ _) as [r|] eqn:Hr; [|done].
  apply literal_of_Some in Hr as [Hr _]. destruct (_ && _) eqn:H; [|done]. intros [= <-].
  apply andb_prop in H as [[o [Ho He]]%existsb_exists Hn].
  split_and!; [exists o; by rewrite list_elem_of_In|done| |apply trim_idemp]. by destruct (trim (fv_name v)).
Qed.

Lemma form_step_requests f ev f' out : form_step c f ev = Some (f', out) → True → True ∧ Forall allowed_request out.
Proof.
  intros Hs _. split; [done|]. destruct ev as [v|v| |b|v| |b|v| |]; cbn [form_step] in Hs;
    try (destruct (af_isPending f); [done|]); try (injection Hs as _ <-; constructor).
  - destruct (af_isRoleOpen f); [|done]. by injection Hs as _ <-.
  - destruct (af_isExpirationOpen f); [|done]. by injection Hs as _ <-.
  - destruct (validate_form c (af_values f)) as [v|] eqn:Hv; injection Hs as _ <-; [|constructor].
    by repeat constructor; apply validated_allowed in Hv.
  - destruct (af_isPending f); [|done]. by injection Hs as _ <-.
Qed.

Definition is_settled (ev : FormEvent) : bool := match ev with CreationSettled => true | _ => false end.

Lemma form_step_balance f ev f' out : form_step c f ev = Some (f', out) →
  count (λ _, true) out + Nat.b2n (af_isPending f) = count is_settled [ev] + Nat.b2n (af_isPending f').
Proof.
  intros Hs. destruct ev as [v|v| |b|v| |b|v| |]; cbn [form_step] in Hs;
    try (destruct (af_isPending f) eqn:Hp; [done|]);
    try (injection Hs as <- <-; cbn; by rewrite ?Hp).
  - destruct (af_isRoleOpen f); [|done]. injection Hs as <- <-. by destruct (selected _ v).
  - destruct (af_isExpirationOpen f); [|done]. injection Hs as <- <-. by destruct (selected _ v).
  - destruct (validate_form c (af_values f)); injection Hs as <- <-; cbn; by rewrite ?Hp.
  - destruct (af_isPending f) eqn:Hp; [|done]. by injection Hs as <- <-.
Qed.
End form_lemmas.

(** The appearance of an account's status. *)
Definition appearance_of (s : ServiceAccountStatus) : GatewayStatusAppearance :=
  match s with
  | Ready => Success
  | Degraded => Warning
  | Expired | Revoked => Inactive
  | Provisioning | Revoking | Deleting => Progress
  | StatusError => Danger
  end.

Lemma account_appearance toLocaleLowerCase s :
  (∀ l, Forall (λ u, 97 <= u <= 122)%N l → toLocaleLowerCase l = l) →
  gatewayStatusAppearance toLocaleLowerCase (status_str s) = appearance_of s.
Proof.
  intros Hlower. assert (Hs : toLocaleLowerCase (trim (status_str s)) = status_str s).
  { replace (trim (status_str s)) with (status_str s) by (by destruct s).
    apply Hlower. by destruct s; apply (bool_decide_unpack _); vm_compute. }
  unfold gatewayStatusAppearance. rewrite Hs. by destruct s; vm_compute.
Qed.

(** What is offered is handled: both sides are decided by the dialog's flags. *)
Ltac offered_iff :=
  intuition (first [congruence | by eexists | match goal with H : is_Some None |- _ => by destruct H end]).

(** * Properties *)

(** C37 Whatever is typed and selected, while the policy leaves an option and a role, the
    form can be sent as soon as its name is not blank, and is refused for a blank name
    only; each request asks for an option of the policy and a role that may be
    granted, with a trimmed name; and no request is made while another is in flight. *)
Theorem account_form_sendable (c : ServiceAccountCapabilities) (evs : list FormEvent) (f : AccountForm)
    (out : list FormOutput) :
  expirationOptions c ≠ [] → cap_allowedRoles c ≠ [] →
  StateMachine.run (form_step c) (new_form c) evs f out →
  (is_Some (validate_form c (af_values f)) ↔ trim (fv_name (af_values f)) ≠ []) ∧
  (∃ days, selectedExpirationDays c f = Some days ∧ days ∈ expirationDays) ∧
  Forall (allowed_request c) out ∧
  length out = count is_settled evs + Nat.b2n (af_isPending f).
Proof.
  intros Ho Hr Hrun.
  assert (Hok : form_ok c f) by (apply (run_invariant _ _ (form_step_ok c) _ _ _ _ Hrun), new_form_ok; done).
  destruct (run_outputs _ _ _ (form_step_requests c) _ _ _ _ Hrun I) as [_ Hout].
  pose proof (run_balance _ _ _ _ (form_step_balance c) _ _ _ _ Hrun) as Hb.
  split_and!; [by apply form_ok_valid| |done|].
  - by apply form_ok_days.
  - assert (Hc : ∀ l : list FormOutput, count (λ _, true) l = length l)
      by (induction l as [|v l IH]; [done|by rewrite count_cons, IH]).
    rewrite Hc in Hb. cbn -[count] in Hb. lia.
Qed.


(** The icon of an account says what its page does: it is never the one for an unknown
    status, it is the success icon exactly when the setup is offered, it shows progress
    or a warning exactly while the page polls, and an account set back in colour can
    no longer be revoked, while every other one that is not being removed can. *)
Theorem account_icons_meant (toLocaleLowerCase formatMessage : jsstring → jsstring) (a : AccountRow) :
  (∀ l, Forall (λ u, 97 <= u <= 122)%N l → toLocaleLowerCase l = l) →
  let status := sa_status (ar_account a) in
  let shown := account_status toLocaleLowerCase formatMessage status in
  shown.1.1 ≠ UnknownIcon ∧
  (shown.1.1 = CheckIcon ↔ is_Some (handleAccountRow [] (set_row true (ar_isSetupOpen a) (ar_account a) a) RowSetup)) ∧
  (shown.1.1 ∈ [StatusSpinner; WarningIcon] ↔ serviceAccountNeedsPolling status = true) ∧
  (shown.1.2 = true ↔ status ∈ [Expired; Revoked]) ∧
  (shown.1.2 = true → canRevoke status = false) ∧
  (shown.1.2 = false → canRevoke status = negb (bool_decide (status ∈ [Deleting; Revoking]))) ∧
  shown.2 = formatMessage (serviceAccountStatusLabel status).
Proof.
  intros Hlower. cbn zeta. unfold account_status, GatewayStatus.
  rewrite (account_appearance toLocaleLowerCase (sa_status (ar_account a)) Hlower).
  cbn [handleAccountRow set_row ar_isMenuOpen ar_account]. destruct (sa_status (ar_account a)); cbn;
    split_and!; try done; try (split; [by intros []|done]); try (by split; [eexists|]); try set_solver.
Qed.

(** The setup of an existing account has no secret to show, to copy or to acknowledge;
    its values and scripts are those the creation showed for the same connection. *)
Theorem existing_setup_without_secret (detail : Query ServiceAccountDetail) (content : SetupContent) :
  ExistingServiceAccountSetupDialog true detail = Some (ExistingSetup content) →
  ∃ d, q_data detail = Some d ∧ st_secret content = None ∧ st_notice content = SecretUnavailable ∧
    st_acknowledgement content = None ∧
    (∀ evs v out, StateMachine.run (setup_step None) initial_setup evs v out → out = []) ∧
    ∀ secret isAcknowledged,
      let created := ServiceAccountSetupView (sd_serviceAccount d) secret (sd_connection d) isAcknowledged in
      st_clientId content = st_clientId created ∧ st_subject content = st_subject created ∧
      st_scripts content = st_scripts created.
Proof.
  unfold ExistingServiceAccountSetupDialog. destruct (q_isPending detail); [done|]. destruct (q_isError detail); [done|].
  destruct (q_data detail) as [d|]; [|done]. intros [= <-]. exists d. split_and!; try done.
  intros evs v out Hr. destruct (run_outputs _ _ _ (setup_step_ok None) _ _ _ _ Hr ltac:(done)) as [_ Hout].
  destruct Hout as [|o out Ho _]; [done|]. destruct o; cbn in Ho; [done|by destruct Ho].
Qed.

(** A form in which a role that is not offered and another expiration are chosen, and
    which is sent twice; a secret on display; an account that is ready. *)
Module DemoViewsOfAccounts.
Definition caps : ServiceAccountCapabilities := {|
  cap_allowedRoles := [OpenshellAdmin]; cap_canCreate := true; cap_canManageAll := true;
  cap_expirationPolicy := {| ep_defaultSeconds := NInt 2592000; ep_maximumSeconds := NInt 5184000;
                             ep_minimumSeconds := NInt 3600 |} |}.

Definition filling : list FormEvent :=
  [NameInput (js " ci "); RoleToggle; RoleSelect (Some (js "openshell-user")); ExpirationToggle;
   ExpirationSelect (Some (js "5184000")); SubmitForm; CreationSettled; NameInput (js "ci-2"); SubmitForm].
Definition filled : AccountForm * list FormOutput :=
  default (new_form caps, []) (play (form_step caps) (new_form caps) filling).

Lemma account_form_sendable_witness :
  filled.2 = [([], NInt 5184000, js "ci", OpenshellAdmin); ([], NInt 5184000, js "ci-2", OpenshellAdmin)] ∧
  Forall (allowed_request caps) filled.2 ∧ length filled.2 = 1 + Nat.b2n (af_isPending filled.1).
Proof.
  split; [vm_compute; reflexivity|].
  refine ((λ T, conj (proj1 (proj2 (proj2 T))) (proj2 (proj2 (proj2 T))))
            (account_form_sendable caps filling filled.1 filled.2 _ _ _)).
  - vm_compute. discriminate.
  - discriminate.
  - apply play_run. vm_compute. reflexivity.
Defined.

Definition secret_page : Page := ServiceAccountDialog.Demo.shown.
Definition secret_dialog : Dialog := default new_dialog (pg_dialog secret_page).


Lemma account_icons_meant_witness :
  (account_status (λ l, l) (λ k, k) Ready).1.1 = CheckIcon ∧
  is_Some (handleAccountRow [] (set_row true false ServiceAccountDialog.Demo.account (new_row ServiceAccountDialog.Demo.account)) RowSetup).
Proof.
  refine ((λ T, conj eq_refl (proj1 (proj1 (proj2 T)) eq_refl))
            (account_icons_meant (λ l, l) (λ k, k) (new_row ServiceAccountDialog.Demo.account) _)).
  done.
Defined.
End DemoViewsOfAccounts.
