(* ===== verification/ConsoleShell.v ===== *)
(** The shell of the console ([app/features/shell/application-shell.tsx],
    [app/root.tsx], [app/lib/page-meta.ts], [app/i18n/catalog.ts]), the links of the
    gateway pages ([ui/gateway-ui-provider.tsx]), and the metrics dashboard
    ([ui/metrics]).

    The router, the query library and [fetch] are third-party: what is read of them is
    an argument. *)
From S2P Require Export PageViews Shell SdkText.

(** * Navigation *)

Definition collectionHref : jsstring := js "/".
Definition createHref : jsstring := js "/gateways/new".

(** [detailHref]; it throws for a text that is no well-formed string. *)
Definition detailHref (gatewayId : jsstring) : option jsstring :=
  (λ t, js "/gateways/" ++ t) <$> encodeURIComponent gatewayId.

(** A click as a link reads it. *)
Record LinkClick := {
  lk_defaultPrevented : bool;
  lk_button : N;
  lk_metaKey : bool;
  lk_ctrlKey : bool;
  lk_shiftKey : bool;
  lk_altKey : bool
}.

(** The click of [useGatewayLink]: left to the browser, or prevented there and
    followed in the application. *)
Inductive LinkAction := LeftToBrowser | Navigated (href : jsstring).

Definition useGatewayLink (href : jsstring) (event : LinkClick) : LinkAction :=
  if lk_defaultPrevented event || negb (lk_button event =? 0)%N || lk_metaKey event ||
     lk_ctrlKey event || lk_shiftKey event || lk_altKey event
  then LeftToBrowser else Navigated href.

(** * The breadcrumb *)

(** [s.split(c)] for a unit [c]. *)
Fixpoint split_unit (c : N) (s : jsstring) : list jsstring :=
  match s with
  | [] => [[]]
  | d :: s =>
      if (c =? d)%N then [] :: split_unit c s
      else match split_unit c s with t :: ts => (d :: t) :: ts | [] => [[d]] end
  end.

(** [pathname.split("/").filter(Boolean)] *)
Definition path_segments (pathname : jsstring) : list jsstring :=
  filter (λ s, is_nonempty s = true) (split_unit 47 pathname).

(** What the path shows: a gateway, by the segment that names it, or the form. *)
Definition gatewaySegment (pathname : jsstring) : option jsstring :=
  match path_segments pathname with
  | first :: rest => if decide (first = js "gateways") then head rest else None
  | [] => None
  end.

Definition isNewGateway (pathname : jsstring) : bool := bool_decide (gatewaySegment pathname = Some (js "new")).

Definition shell_gatewayId (pathname : jsstring) : option jsstring :=
  if isNewGateway pathname then None else gatewaySegment pathname.

Inductive Crumb := CollectionCrumb (to : jsstring) | GatewayCrumb (name : option jsstring) | ProvisionCrumb.

(** The breadcrumb, given the name the gateway's query holds; a crumb without a name
    has the general text. *)
Definition breadcrumb (pathname : jsstring) (name : option jsstring) : list Crumb :=
  match shell_gatewayId pathname with
  | Some _ => [CollectionCrumb (js "/"); GatewayCrumb name]
  | None => if isNewGateway pathname then [CollectionCrumb (js "/"); ProvisionCrumb] else []
  end.

(** The query behind it: the identifier it asks for and its key, if it is enabled. *)
Definition shell_query (pathname : jsstring) : option (jsstring * list jsval) :=
  (λ gatewayId, (gatewayId, gatewayQueryKey gatewayId)) <$> shell_gatewayId pathname.

(** * Texts of the document *)

(** An entry of the catalog file. *)
Record MessageDescriptor := { md_defaultMessage : jsstring; md_description : jsstring }.

(** [englishMessages]: the default message of each entry of the catalog. *)
Definition englishMessages (catalog : list (jsstring * MessageDescriptor)) : list (jsstring * jsstring) :=
  map (λ e, (e.1, md_defaultMessage e.2)) catalog.

Definition message_text (catalog : list (jsstring * MessageDescriptor)) (id : jsstring) : jsstring :=
  default (js "undefined") (prop_get (englishMessages catalog) id).

(** [createPageMeta]: the title and the description. *)
Definition createPageMeta (catalog : list (jsstring * MessageDescriptor)) (titleId descriptionId productId : jsstring) :
    jsstring * option jsstring :=
  (message_text catalog productId ++ js " - " ++ message_text catalog titleId,
   prop_get (englishMessages catalog) descriptionId).

(** [ErrorBoundary]: whether the page was not found; [None] for an error that is no
    route response. *)
Inductive BoundaryText := NotFoundText | ErrorText.

Definition ErrorBoundary (routeStatus : option num) : BoundaryText :=
  match routeStatus with
  | Some status => if num_eqb status (NInt 404) then NotFoundText else ErrorText
  | None => ErrorText
  end.

(** * The identity menu *)

Inductive MenuEvent := MenuToggled | MenuSelected | MenuOpenChange (isOpen : bool).

Definition menu_step (isOpen : bool) (ev : MenuEvent) : bool :=
  match ev with MenuToggled => negb isOpen | MenuSelected => false | MenuOpenChange b => b end.

(** * Metrics *)

Inductive GatewayPhase := PhaseRunning | PhaseProvisioning | PhaseDegraded | PhaseFailed.

Definition gatewayPhases : list GatewayPhase := [PhaseRunning; PhaseProvisioning; PhaseDegraded; PhaseFailed].

Definition phase_str (p : GatewayPhase) : jsstring :=
  match p with
  | PhaseRunning => js "Running"
  | PhaseProvisioning => js "Provisioning"
  | PhaseDegraded => js "Degraded"
  | PhaseFailed => js "Failed"
  end.

Definition phaseColor (p : GatewayPhase) : jsstring :=
  match p with
  | PhaseRunning => js "var(--pf-t--global--color--status--success--default)"
  | PhaseProvisioning => js "var(--pf-t--global--color--status--info--default)"
  | PhaseDegraded => js "var(--pf-t--global--color--status--warning--default)"
  | PhaseFailed => js "var(--pf-t--global--color--status--danger--default)"
  end.

(** The counts, whose values nothing checks. *)
Record GatewayPhaseCounts := { pc_Running : jsval; pc_Provisioning : jsval; pc_Degraded : jsval; pc_Failed : jsval }.

Definition phase_count (c : GatewayPhaseCounts) (p : GatewayPhase) : jsval :=
  match p with
  | PhaseRunning => pc_Running c
  | PhaseProvisioning => pc_Provisioning c
  | PhaseDegraded => pc_Degraded c
  | PhaseFailed => pc_Failed c
  end.

Definition gatewayMetricsQueryKey : list jsval := [VStr (js "gateways"); VStr (js "metrics")].

(** [v ?? 0] *)
Definition or_zero (v : jsval) : jsval := match v with VUndef | VNull => VNum (NInt 0) | _ => v end.

Definition is_nullish (v : jsval) : bool := match v with VUndef | VNull => true | _ => false end.

(** What [fetch] is asked, and what it answers: whether the status is a success, and
    the parsed body. *)
Record MetricsRequest := { mq_path : jsstring; mq_credentials : jsstring }.
Record MetricsResponse := { mr_ok : bool; mr_json : result thrown jsval }.

Definition metrics_request : MetricsRequest := {|
  mq_path := js "/api/hypershell/v1/metrics/gateways"; mq_credentials := js "same-origin" |}.

(** The counts of an answer; an absent [counts] makes reading it throw. The message of
    an error, which nothing reads, is left out. *)
Definition fetchGatewayMetrics (answer : result thrown MetricsResponse) : result thrown GatewayPhaseCounts :=
  match answer with
  | Err e => Err e
  | Ok response =>
      if negb (mr_ok response) then
        Err (ThrowError (js "Error"))
      else
        match mr_json response with
        | Err e => Err e
        | Ok body =>
            let counts := val_prop body (js "counts") in
            if is_nullish body || is_nullish counts then Err (ThrowError (js "TypeError"))
            else
              let count p := or_zero (val_prop counts (phase_str p)) in
              Ok {| pc_Running := count PhaseRunning; pc_Provisioning := count PhaseProvisioning;
                    pc_Degraded := count PhaseDegraded; pc_Failed := count PhaseFailed |}
        end
  end.

(** The dashboard: waiting, an error, or a card for each phase. *)
Inductive MetricsDashboard := DashboardLoading | DashboardError | DashboardCards (cards : list (GatewayPhase * jsstring * jsval)).

Definition GatewayMetricsDashboard (q : Query GatewayPhaseCounts) : MetricsDashboard :=
  if q_isPending q && q_isFetching q then DashboardLoading
  else match q_isError q, q_data q with
       | false, Some data => DashboardCards (map (λ p, (p, phaseColor p, phase_count data p)) gatewayPhases)
       | _, _ => DashboardError
       end.

Definition metrics_refetchInterval : num := NInt 30000.

(** * Lemmas *)

Lemma split_unit_clean c s : (c ∉ s) → split_unit c s = [s].
Proof.
  induction s as [|d s IH]; [done|]. intros [Hd Hs]%not_elem_of_cons. cbn [split_unit].
  rewrite (proj2 (N.eqb_neq _ _)) by done. by rewrite IH.
Qed.

Lemma split_unit_app c s t : (c ∉ s) → split_unit c (s ++ c :: t) = s :: split_unit c t.
Proof.
  induction s as [|d s IH]; cbn [split_unit app]; [by rewrite N.eqb_refl|].
  intros [Hd Hs]%not_elem_of_cons. rewrite (proj2 (N.eqb_neq _ _)) by done. by rewrite IH.
Qed.

(** The segments of the path of a gateway. *)
Lemma gateway_path_segments t : t ≠ [] → (47%N ∉ t) →
  path_segments (js "/gateways/" ++ t) = [js "gateways"; t].
Proof.
  intros Hne Ht. unfold path_segments. change (js "/gateways/" ++ t) with ([] ++ 47%N :: (js "gateways" ++ 47%N :: t)).
  rewrite !split_unit_app, split_unit_clean by first [done|by apply (bool_decide_unpack _); vm_compute].
  destruct t; [done|]. by vm_compute.
Qed.

(** A written text is as long as the text it writes only if it is that text. *)
Lemma escaped_point_longer p : is_scalar_value p →
  length (utf16 p) ≤ length (escaped_point p) ∧
  (length (escaped_point p) ≤ length (utf16 p) → utf16 p = [p] ∧ is_unreserved p = true).
Proof.
  intros Hp. unfold escaped_point. destruct (is_unreserved p) eqn:Hu.
  - apply is_unreserved_range in Hu as Hr. unfold utf16. rewrite (proj2 (N.ltb_lt _ _)) by lia. done.
  - assert (3 ≤ length (utf8_of p ≫= percent)) by (unfold utf8_of; repeat case_match; simpl; lia).
    assert (length (utf16 p) ≤ 2) by (unfold utf16; repeat case_match; simpl; lia). lia.
Qed.

Lemma encodeURIComponent_fixed s : wf_units s → unicode s = true →
  encodeURIComponent s = Some s ↔ Forall (λ c, is_unreserved c = true) s.
Proof.
  intros Hs Hu. split.
  - destruct (unicode_scalars s Hs Hu) as (ps & Hps & ->). rewrite encode_points by done. intros [= He].
    assert (Hl : length (ps ≫= escaped_point) ≤ length (ps ≫= utf16)) by (by rewrite He). clear He Hs Hu.
    assert (Hge : ∀ qs, Forall is_scalar_value qs → length (qs ≫= utf16) ≤ length (qs ≫= escaped_point)).
    { induction 1 as [|q qs Hq _ IH]; [done|]. rewrite !bind_cons, !length_app.
      pose proof (proj1 (escaped_point_longer q Hq)). lia. }
    induction Hps as [|p ps Hp Hps IH]; [constructor|]. rewrite !bind_cons, !length_app in *.
    specialize (Hge ps Hps) as Hps'. destruct (escaped_point_longer p Hp) as [H1 H2].
    destruct H2 as [-> Hup]; [lia|]. constructor; [done|]. apply IH. simpl in *. lia.
  - clear Hs Hu. induction 1 as [|c s Hc _ IH]; [done|]. cbn [encodeURIComponent]. by rewrite Hc, IH.
Qed.

(** What a link to a gateway holds after its prefix. *)
Lemma gateway_link_text id : wf_units id → unicode id = true → id ≠ [] →
  ∃ t, encodeURIComponent id = Some t ∧ decodeURIComponent t = Some id ∧ t ≠ [] ∧ (47%N ∉ t).
Proof.
  intros Hw Hu Hne. destruct (encodeURIComponent_shape id Hw Hu) as (t & He & Hd & Hf & Ht).
  exists t. split_and!; [done|done|by apply Ht|]. intros Hin.
  rewrite Forall_forall in Hf. by destruct (Hf _ Hin).
Qed.


(** Counts that were fetched: each is the answer's number, or zero. *)
Lemma fetched_counts answer d : fetchGatewayMetrics answer = Ok d →
  ∃ response body, answer = Ok response ∧ mr_ok response = true ∧ mr_json response = Ok body ∧
    is_nullish (val_prop body (js "counts")) = false ∧
    ∀ p, phase_count d p = or_zero (val_prop (val_prop body (js "counts")) (phase_str p)).
Proof.
  unfold fetchGatewayMetrics. intros Hd. destruct answer as [response|]; [|done].
  destruct (mr_ok response) eqn:Hok; [|done]. cbn [negb] in Hd. destruct (mr_json response) as [body|] eqn:Hj; [|done].
  destruct (is_nullish body || is_nullish (val_prop body (js "counts"))) eqn:Hn; [done|].
  apply orb_false_iff in Hn as [_ Hn]. injection Hd as <-. exists response, body. split_and!; try done. by intros [].
Qed.

Lemma or_zero_there v : is_nullish (or_zero v) = false.
Proof. by destruct v. Qed.

(** * Properties *)

(** C40 The link to a gateway leads to that gateway: its path has the two segments
    [gateways] and the escaped identifier, which reads back as the identifier. It is
    never the path of the form unless the gateway is called [new]; elsewhere the
    breadcrumb has the collection and the gateway. The name in it is asked for under
    the escaped text, which is the identifier exactly when the identifier has
    unreserved characters only. *)
Theorem gateway_link_leads_there (id : jsstring) (name : option jsstring) :
  wf_units id → unicode id = true → id ≠ [] →
  ∃ href t, detailHref id = Some href ∧ path_segments href = [js "gateways"; t] ∧
    decodeURIComponent t = Some id ∧
    (href = createHref ↔ id = js "new") ∧
    (id ≠ js "new" → breadcrumb href name = [CollectionCrumb collectionHref; GatewayCrumb name] ∧
                     shell_query href = Some (t, gatewayQueryKey t)) ∧
    (t = id ↔ Forall (λ c, is_unreserved c = true) id).
Proof.
  intros Hw Hu Hne. destruct (gateway_link_text id Hw Hu Hne) as (t & He & Hd & Ht & Hs).
  pose proof (gateway_path_segments t Ht Hs) as Hp.
  assert (Hnew : t = js "new" ↔ id = js "new").
  { split; intros ->.
    - assert (decodeURIComponent (js "new") = Some (js "new")) by reflexivity. congruence.
    - assert (encodeURIComponent (js "new") = Some (js "new")) by reflexivity. congruence. }
  exists (js "/gateways/" ++ t), t. unfold detailHref. rewrite He. split_and!; try done.
  - rewrite <- Hnew. change createHref with (js "/gateways/" ++ js "new"). split; [by intros ?%app_inv_head|by intros ->].
  - rewrite <- Hnew. intros Hn. unfold shell_query, breadcrumb, shell_gatewayId, isNewGateway, gatewaySegment.
    rewrite Hp. rewrite decide_True by done. cbn [head]. by rewrite bool_decide_eq_false_2 by congruence.
  - rewrite <- (encodeURIComponent_fixed id Hw Hu), He. split; congruence.
Qed.

(** The metrics dashboard shows four phases, always in the same order, each with
    the number the answer has for it, or zero where it has none; with an error, also
    one after counts were fetched, it shows the error only, and it says that it is
    loading only while the first answer is being fetched. Counts come only from a
    success with a [counts] member. *)
Theorem metrics_dashboard_shows (q : Query GatewayPhaseCounts) (answer : result thrown MetricsResponse) :
  query_ok q → (∀ d, q_data q = Some d → fetchGatewayMetrics answer = Ok d) →
  match GatewayMetricsDashboard q with
  | DashboardCards cards =>
      q_isError q = false ∧
      ∃ response body, answer = Ok response ∧ mr_ok response = true ∧ mr_json response = Ok body ∧
        is_nullish (val_prop body (js "counts")) = false ∧
        map (λ c, c.1.1) cards = gatewayPhases ∧ NoDup (map (λ c, c.1.2) cards) ∧
        ∀ p colour n, (p, colour, n) ∈ cards →
          n = or_zero (val_prop (val_prop body (js "counts")) (phase_str p)) ∧ is_nullish n = false
  | DashboardLoading => q_data q = None ∧ q_isFetching q = true ∧ q_isError q = false
  | DashboardError => q_isError q = true ∨ (q_data q = None ∧ q_isFetching q = false)
  end.
Proof.
  intros [Hpending Hdone] Hd. unfold GatewayMetricsDashboard. destruct (q_isPending q) eqn:Hp.
  { destruct (Hpending eq_refl) as [-> ->]. destruct (q_isFetching q) eqn:Hf; cbn [andb]; by eauto. }
  cbn [andb]. destruct (q_isError q) eqn:He; [by left|]. destruct (Hdone eq_refl eq_refl) as [d Hq].
  rewrite Hq. split; [done|]. destruct (fetched_counts answer d (Hd d Hq)) as (response & body & ? & ? & ? & ? & Hc).
  exists response, body. split_and!; [done..| |].
  - apply (bool_decide_unpack _). by vm_compute.
  - intros p colour n. rewrite list_elem_of_fmap. intros (p' & [= -> -> ->] & _). rewrite Hc. split; [done|apply or_zero_there].
Qed.

Module DemoShell.
(** An identifier with a space, a slash and a letter outside ASCII. *)
Definition odd_id : jsstring := js "team a/" ++ [0xe9]%N.

Lemma gateway_link_leads_there_witness :
  wf_units odd_id ∧ detailHref odd_id = Some (js "/gateways/team%20a%2F%C3%A9") ∧
  shell_query (js "/gateways/team%20a%2F%C3%A9") = Some (js "team%20a%2F%C3%A9", gatewayQueryKey (js "team%20a%2F%C3%A9")) ∧
  ∃ href t, detailHref odd_id = Some href ∧ decodeURIComponent t = Some odd_id ∧ path_segments href = [js "gateways"; t].
Proof.
  assert (wf_units odd_id) as Hw by (repeat constructor). split; [done|]. do 2 (split; [reflexivity|]).
  refine ((λ T, _) (gateway_link_leads_there odd_id None Hw _ _)); [|done..].
  destruct T as (href & t & ? & ? & ? & _). by exists href, t.
Defined.

Definition counts_answer : result thrown MetricsResponse := Ok {|
  mr_ok := true;
  mr_json := Ok (VObj [(js "counts", VObj [(js "Running", VNum (NInt 3)); (js "Failed", VNull)])]) |}.
Definition counted : Query GatewayPhaseCounts := {|
  q_data := match fetchGatewayMetrics counts_answer with Ok d => Some d | Err _ => None end;
  q_isPending := false; q_isError := false; q_isFetching := false |}.

Lemma metrics_dashboard_shows_witness : query_ok counted ∧
  match GatewayMetricsDashboard counted with
  | DashboardCards cards => map (λ c, c.1.1) cards = gatewayPhases ∧
      map snd cards = [VNum (NInt 3); VNum (NInt 0); VNum (NInt 0); VNum (NInt 0)]
  | _ => False
  end.
Proof.
  split; [split; cbn; by eauto|]. refine ((λ T, _) (metrics_dashboard_shows counted counts_answer _ _)).
  - destruct T as (_ & _ & _ & _ & _ & _ & _ & Hp & _). by split.
  - split; cbn; by eauto.
  - vm_compute. congruence.
Defined.
End DemoShell.
