(* ===== verification/FormFlow.v ===== *)
(** From the forms and dialogs of the pages to the API: what a control that changes
    something calls, with what was typed and selected for it ([GatewayDialogs],
    [ServiceAccountViews], [ServiceAccountData]), followed through the use cases, the
    probes, the adapter and the generated client ([ConsoleClient]) to the text that is
    sent. *)
From S2P Require Export ServiceAccountData ServiceAccountViews ConsoleClient.

(** * What the controls ask for *)

(** The body asked for by the provisioning form. *)
Definition provision_body (v : GatewayFormValues) : jsval :=
  VObj [text_of "cluster_id" (default [] (gf_clusterId v)); text_of "name" (trim (gf_name v));
        text_of "release_id" []; text_of "route" enabled_route].

(** The one asked for by the rename dialog. *)
Definition rename_body (d : RenameDialog) : jsval := VObj [text_of "name" (trim (rn_name d))].

Section changes.
Context (toLocaleLowerCase : jsstring → jsstring) (toISOString : num → jsstring).

(** The one asked for by the form of a service account, at some time. *)
Definition new_account_body (now : num) (v : FormValues) : jsval :=
  VObj (given "description" (VStr <$> match trim (fv_description v) with [] => None | t => Some t end) ++
        [text_of "expires_at" (toISOString (num_add now (num_mul (string_to_number (fv_expirationSeconds v)) (NInt 1000))));
         text_of "name" (trim (fv_name v)); text_of "role" (fv_role v)]).

(** The calls the controls make, each with the body asked for. *)
Inductive user_change : ∀ {T}, GatewayCall T → option jsval → Prop :=
| change_provision m v m' out input :
    handleCreate m (CreateSubmit v) = Some (m', out) → CallProvision input ∈ out →
    user_change (CallProvisionGateway input) (Some (provision_body v))
| change_rename s d s' out i n :
    handleRename s RenameSubmit = Some (s', out) → ac_rename s = Some d → CallRename i n ∈ out →
    user_change (CallRenameGateway i n) (Some (rename_body d))
| change_remove s s' out i :
    handleDelete toLocaleLowerCase s DeleteConfirm = Some (s', out) → CallRemove i ∈ out →
    user_change (CallRemoveGateway i) None
| change_account c f f' out v gatewayId now :
    form_step c f SubmitForm = Some (f', out) → v ∈ out →
    user_change (CallCreateServiceAccount gatewayId (create_input toISOString now v))
      (Some (new_account_body now (af_values f)))
| change_revoke gatewayId s s' out g i :
    handleAccountRow gatewayId s RowConfirm = Some (s', out) → CallRevoke g i ∈ out →
    user_change (CallRevokeServiceAccount g i) None
| change_delete gatewayId s s' out g i :
    handleAccountRow gatewayId s RowConfirm = Some (s', out) → CallDelete g i ∈ out →
    user_change (CallDeleteServiceAccount g i) None.

(** * Lemmas *)

(** The input of the call has that body, if any. *)
Definition body_asked (input : jsval) (asked : option jsval) : Prop :=
  match asked with
  | Some v => ∃ l, input = VObj l ∧ (js "body", v) ∈ l ∧
                   has_own input "body" = true ∧ prop input "body" = v
  | None => has_own input "body" = false
  end.

Lemma user_change_input {T} (call : GatewayCall T) asked :
  user_change call asked → call_changes call = true ∧ body_asked (call_input call) asked.
Proof.
  intros [m v m' out input H Hin|s d s' out i n H Hd Hin|s s' out i H Hin|c f f' out v g now H Hin| |];
    (split; [done|]); [| |done| |done|done]; cbn [body_asked call_input].
  - unfold handleCreate, validate_gateway_form in H. destruct (isPending m); [done|].
    destruct (gf_clusterId v) as [cluster|] eqn:Hc; [|injection H as _ <-; by apply elem_of_nil in Hin].
    destruct (trim (gf_name v)) as [|u t] eqn:Hn; injection H as _ <-; [by apply elem_of_nil in Hin|].
    apply list_elem_of_singleton in Hin as [= ->]. unfold provision_body. rewrite Hc, Hn.
    eexists. split_and!; [done| |done|done]. by left.
  - unfold handleRename in H. rewrite Hd in H. cbn [mbind option_bind] in H.
    destruct (rename_disabled _ _); [done|]. unfold rename_submit, rename_body in *.
    destruct (trim (rn_name d)) as [|u t] eqn:Hn; injection H as _ <-; [by apply elem_of_nil in Hin|].
    apply list_elem_of_singleton in Hin as [= -> ->]. eexists. split_and!; [done| |done|done]. right. by left.
  - cbn [form_step] in H. destruct (af_isPending f); [done|]. unfold validate_form in H.
    destruct (literal_of _ _ _) as [r|] eqn:Hr; [|injection H as _ <-; by apply elem_of_nil in Hin].
    apply literal_of_Some in Hr as [_ Hr].
    destruct (_ && _); injection H as _ <-; [|by apply elem_of_nil in Hin].
    apply list_elem_of_singleton in Hin as ->. unfold new_account_body. rewrite <- Hr.
    eexists. split_and!; [done| |done|done]. right. by left.
Qed.
End changes.

(** What is asked for is written as a text that is read back as it. *)
Section written.
Context {W Ctl : Type} `{!Lens W SdkState} (br : Browser W Ctl).

Definition writes_body (asked : option jsval) (q : FetchRequest) : Prop :=
  match asked with
  | Some v => ∃ t, fq_body q = Some t ∧ parseJSON t = Some v
  | None => fq_body q = None
  end.

Lemma operation_body_written op input asked path q :
  operation_path br op input = Some path → body_asked input asked →
  (∀ v, asked = Some v → wf_val (prints (br_fraction_text br)) v) →
  fq_body q = operation_body br input → writes_body asked q.
Proof.
  intros Hp Hasked Hwf Hq. unfold writes_body. rewrite Hq. clear Hq. unfold operation_body, body_asked in *.
  assert (Hb : bounded input = true).
  { unfold operation_path in Hp. by destruct (bounded input). }
  destruct asked as [v|]; [|by rewrite Hasked]. destruct Hasked as (l & -> & Hin & -> & ->).
  destruct (bounded_part (br_fraction_text br) l (js "body") v Hb Hin (Hwf v eq_refl)) as (t & Ht & Hparse).
  by exists t.
Qed.

(** A call that changes something uses an operation that does. *)
Lemma changes_method {T} (call : GatewayCall T) op : call_changes call = true →
  prop_get contract_operations (js (call_name call)) = Some op → co_method op ≠ GET.
Proof. destruct call; try done; intros _; vm_compute; by intros [= <-]. Qed.

Lemma named_bodies {T} (call : GatewayCall T) asked l :
  body_asked (call_input call) asked → (∀ v, asked = Some v → wf_val (prints (br_fraction_text br)) v) →
  named_requests br (call_name call) (call_input call) l → Forall (has_body br (call_input call)) l →
  Forall (λ q, fq_method q ≠ js "GET" → writes_body asked q) l.
Proof.
  intros Hasked Hwf Hnamed Hl. destruct Hnamed as [->|(origin & op & _ & _ & [->|(path & Hp & _)])]; [done..|].
  eapply Forall_impl; [exact Hl|]. intros q Hq Hm. by eapply operation_body_written; [| | |apply Hq].
Qed.
End written.

(** * Properties *)

Section properties.
Context {Sp Ctx Y Ctl : Type}.
Abbreviation World := (ObsWorld (ConsoleExt Sp Y)).

End properties.

(** * A name with a quotation mark, typed into the rename dialog, for the witness *)

Module DemoForm.
Import DemoConsoleClient.
#[local] Existing Instance console_sdk_lens.

(** Blanks around a name that has a quotation mark and a backslash in it. *)
Definition typed_name : jsstring := js "  tw" ++ [34; 92]%N ++ js "o ".

Definition typing : Actions := GatewayDialogs.Demo.at_events [MenuToggle; SelectRename; RenameChange typed_name].
Definition submitted : Actions * list Call :=
  default (typing, []) (handleRename typing RenameSubmit).
Definition dialog : RenameDialog := default (new_rename []) (ac_rename typing).

Definition change : GatewayCall GatewayRecord := CallRenameGateway (js "g1") (trim typed_name).

Definition changed : result thrown GatewayRecord * console :=
  match operations_of with Ok ops => run_operation ops change None begun | Err e => (Err e, begun) end.

(** The text that is sent escapes the mark and the backslash. *)
Example change_sent : is_ok changed.1 = true ∧
  map fq_body (sent_by sent_wire changed.2) =
    [None; Some (backquoted "{`name`:`tw\`\\o`}")].
Proof. vm_compute. done. Qed.

End DemoForm.
