(* ===== verification/Messages.v ===== *)
(** The texts of the console: the messages the sources declare ([ui/messages.ts],
    [app/i18n/messages.ts], [ui/metrics]), the catalogue that is extracted from them and
    that the page's [IntlProvider] is given ([app/i18n/catalog.ts],
    [components/web-console/locales/en.json], [app/root.tsx]), and what is shown for a
    message: the catalogue's text where it has one, else the declared one, as the
    provider documents. *)
From S2P Require Export ConsoleShell ServiceAccountViews.

(** * Messages *)

Record Message := {
  ms_key : jsstring;
  ms_id : jsstring;
  ms_defaultMessage : jsstring;
  ms_description : jsstring
}.

Definition message (key id defaultMessage description : string) : Message := {|
  ms_key := js key; ms_id := js id; ms_defaultMessage := js defaultMessage; ms_description := js description |}.

Definition entry (id defaultMessage description : string) : jsstring * MessageDescriptor :=
  (js id, {| md_defaultMessage := js defaultMessage; md_description := js description |}).

(** [messages] of [ui/messages.ts], lines 4 to 142. *)
Definition gateway_messages_1 : list Message := [
  message "actions" "app.table.column.actions"
    "Actions"
    "Accessible heading for table row actions.";
  message "activeSandboxes" "app.gateway.column.activeSandboxes"
    "Active sandboxes"
    "Heading for the gateways table column showing the number of active sandbox sessions.";
  message "cancel" "app.action.cancel"
    "Cancel"
    "Action that leaves a form without submitting it.";
  message "clearClusterSearch" "app.gateway.cluster.clearSearch"
    "Clear cluster search"
    "Accessible label for clearing the cluster typeahead input.";
  message "clearFilters" "app.table.clearFilters"
    "Clear filters"
    "Action that clears collection filters.";
  message "cliConnection" "app.gateway.cliConnection"
    "CLI connection"
    "Label for a gateway's OpenShell CLI connection command.";
  message "cliConnectionCommandCopied" "app.gateway.cliConnectionCommandCopied"
    "CLI connection command for {gatewayName} copied"
    "Success notification after copying a gateway CLI command.";
  message "cliConnectionCommandCopyFailed" "app.gateway.cliConnectionCommandCopyFailed"
    "CLI connection command for {gatewayName} could not be copied"
    "Error notification when copying a gateway CLI command fails.";
  message "close" "app.action.close"
    "Close"
    "Accessible label for closing an overlay.";
  message "cluster" "app.gateway.cluster"
    "Cluster"
    "Heading for the gateway placement cluster column.";
  message "clusterLoadError" "app.gateway.cluster.loadError.title"
    "Managed clusters could not be loaded"
    "Title shown when remote gateway placements cannot be loaded.";
  message "clusterLoadErrorBody" "app.gateway.cluster.loadError.body"
    "You can provision on Hub cluster (default), or try loading managed clusters again."
    "Recovery guidance when remote gateway placements cannot be loaded.";
  message "clusterProvider" "app.gateway.cluster.provider"
    "Provider: {provider}"
    "Provider context that distinguishes a managed cluster option.";
  message "clusterProviderAndRegion" "app.gateway.cluster.providerAndRegion"
    "Provider: {provider}; region: {region}"
    "Provider and region context that distinguishes a managed cluster option.";
  message "clusterRegion" "app.gateway.cluster.region"
    "Region: {region}"
    "Region context that distinguishes a managed cluster option.";
  message "connectionInstallLink" "app.gateway.connection.installLink"
    "Install the OpenShell CLI"
    "Link text pointing to the NVIDIA OpenShell installation documentation.";
  message "connectionInstallLinkNewTab" "app.gateway.connection.installLinkNewTab"
    "Install the OpenShell CLI (opens in a new tab)"
    "Accessible name for the OpenShell CLI install docs link, including that it opens in a new tab.";
  message "connectionInstallPrereq" "app.gateway.connection.installPrereq"
    "The OpenShell CLI must be installed before running the commands below."
    "Prerequisite note shown above the connection steps directing operators to install the CLI first.";
  message "connectionInstallPrereqTitle" "app.gateway.connection.installPrereqTitle"
    "Prerequisite"
    "Title for the CLI installation prerequisite alert.";
  message "connectionLoginUnavailable" "app.gateway.connection.login.unavailable"
    "This gateway is still provisioning. Its connection command becomes available once the gateway is running."
    "Shown in the login step while the gateway has not yet reached a running, ready-to-connect phase.";
  message "connectionSandboxDescription" "app.gateway.connection.sandbox.description"
    "Once setup is done, run this whenever you want a fresh sandbox running Claude through this gateway."
    "Supporting text for the create-sandbox connection step.";
  message "connectionSandboxTitle" "app.gateway.connection.sandbox.title"
    "Create a sandbox"
    "Title for the create-sandbox connection step.";
  message "connectionSetupDescription" "app.gateway.connection.setup.description"
    "Run these once to log in, add the Claude on Vertex AI provider, and select the model."
    "Supporting text for the one-time setup connection step.";
  message "connectionSetupTitle" "app.gateway.connection.setup.title"
    "One-time setup"
    "Title for the consolidated one-time setup connection step.";
  message "connectionTab" "app.gateway.connection.tab"
    "Connection"
    "Label for the default gateway detail Connection tab."].

(** [messages] of [ui/messages.ts], lines 143 to 282. *)
Definition gateway_messages_2 : list Message := [
  message "connectionTabsLabel" "app.gateway.connection.tabsLabel"
    "Gateway connection, service accounts, and details"
    "Accessible label for the gateway detail tabs.";
  message "copied" "app.clipboard.copied"
    "Copied"
    "Confirmation shown after text is copied to the clipboard.";
  message "copy" "app.clipboard.copy"
    "Copy"
    "Tooltip for a button that copies text to the clipboard.";
  message "copyCliConnectionCommand" "app.gateway.copyCliConnectionCommand"
    "Copy CLI connection command"
    "Menu action that copies a gateway's CLI connection command.";
  message "copyConnectionCommand" "app.gateway.copyConnectionCommand"
    "Copy connection command for {gatewayName}"
    "Accessible label for copying a specific gateway's CLI connection command.";
  message "copyGatewayEndpoint" "app.gateway.copyEndpoint"
    "Copy gateway endpoint for {gatewayName}"
    "Accessible label for copying a specific gateway's network endpoint.";
  message "copySandboxCommand" "app.gateway.connection.copySandboxCommand"
    "Copy the create-sandbox command"
    "Accessible label for copying the create-sandbox command.";
  message "copySetupCommand" "app.gateway.connection.copySetupCommand"
    "Copy the one-time setup commands"
    "Accessible label for copying the consolidated one-time setup script.";
  message "created" "app.table.column.created"
    "Created"
    "Heading for a resource creation date column.";
  message "deleteGateway" "app.gateway.delete"
    "Delete gateway"
    "Action that permanently deletes a gateway.";
  message "deleteGatewayActiveSandboxWarning" "app.gateway.delete.activeSandboxWarning"
    "This gateway has {count, plural, one {# active sandbox} other {# active sandboxes}} that will be disrupted by deletion."
    "Warning shown before deleting a gateway that still has running sandboxes.";
  message "deleteGatewayConfirmation" "app.gateway.delete.confirmation"
    "Deleting {gatewayName} starts permanent cleanup. New service accounts are blocked. The gateway stays visible until cleanup is complete."
    "Warning shown before permanently deleting a gateway.";
  message "deleteGatewayTitle" "app.gateway.delete.title"
    "Delete {gatewayName}?"
    "Title for the gateway deletion confirmation dialog.";
  message "deletingGateway" "app.gateway.delete.pending"
    "Sending deletion request"
    "Progress text while a deletion request is sent.";
  message "detailsTab" "app.gateway.detailsTab"
    "Details"
    "Label for the gateway detail Details tab.";
  message "editModel" "app.gateway.connection.editModel"
    "Model (editable)"
    "Accessible label for the inline-editable model name in the setup command.";
  message "editProviderName" "app.gateway.connection.editProviderName"
    "Provider name (editable)"
    "Accessible label for the inline-editable provider name in the setup command.";
  message "editSandboxName" "app.gateway.connection.editSandboxName"
    "Sandbox name (editable)"
    "Accessible label for the inline-editable sandbox name in the create-sandbox command.";
  message "error" "app.status.error"
    "Error:"
    "Screen-reader prefix for an error message.";
  message "filterGateways" "app.page.gateways.filter"
    "Filter by name, cluster, status, or endpoint"
    "Placeholder and accessible label for gateway search.";
  message "gateway" "app.gateway.singular"
    "Gateway"
    "Fallback breadcrumb label while a gateway is loading.";
  message "gatewayDeleted" "app.gateway.deleted"
    "Deletion requested for gateway {gatewayName}"
    "Confirmation that a Gateway deletion request was accepted.";
  message "gatewayDeleteError" "app.gateway.delete.error.title"
    "Deletion request failed"
    "Title shown when gateway deletion fails.";
  message "gatewayDeleteErrorBody" "app.gateway.delete.error.body"
    "Refresh the gateway to check its state. You can send the request again."
    "Recovery guidance when gateway deletion fails.";
  message "gatewayDescription" "app.page.gateway.description"
    "Connect to this gateway and review its configuration."
    "Metadata description for the gateway detail page.";
  message "gatewayDetailsTitle" "app.page.gatewayDetails.title"
    "Gateway details"
    "Metadata title for a user-facing gateway details page."].

(** [messages] of [ui/messages.ts], lines 283 to 422. *)
Definition gateway_messages_3 : list Message := [
  message "gatewayEndpoint" "app.gateway.endpoint"
    "Gateway endpoint"
    "Label for an OpenShell gateway network endpoint.";
  message "gatewayLoadError" "app.gateway.load.error.title"
    "Gateways could not be loaded"
    "Title shown when gateway data cannot be loaded from the API.";
  message "gatewayLoadErrorBody" "app.gateway.load.error.body"
    "Refresh the page to try again."
    "Recovery guidance when gateway data cannot be loaded.";
  message "gatewayName" "app.gateway.name"
    "Gateway name"
    "Label for a gateway name form field.";
  message "gatewayProvisionError" "app.page.gatewayProvision.error.title"
    "Gateway could not be provisioned"
    "Title shown when gateway provisioning fails.";
  message "gatewayProvisionErrorBody" "app.page.gatewayProvision.error.body"
    "Check the values and try again."
    "Recovery guidance when gateway provisioning fails.";
  message "gatewayReleaseId" "app.gateway.releaseId"
    "Gateway release ID"
    "Label for a gateway's release identifier.";
  message "gatewayRenamed" "app.gateway.renamed"
    "Gateway renamed to {gatewayName}"
    "Success notification after renaming a gateway.";
  message "gatewayRenameError" "app.gateway.rename.error.title"
    "Gateway could not be renamed"
    "Title shown when gateway renaming fails.";
  message "gatewayRenameErrorBody" "app.gateway.rename.error.body"
    "No changes were made. Choose a different name or try again."
    "Recovery guidance when gateway renaming fails.";
  message "gatewayRowActions" "app.gateway.rowActions"
    "Actions for {gatewayName}"
    "Accessible label for a gateway row actions menu.";
  message "gateways" "app.nav.gateways"
    "OpenShell Gateways"
    "Page and resource collection label for OpenShell gateways.";
  message "gatewaysDescription" "app.page.gateways.description"
    "HyperShell gateways."
    "Browser metadata description for the gateways page.";
  message "gatewaysEmptyBody" "app.page.gateways.empty.body"
    "Provisioned gateways will appear here."
    "Body text when the gateway list is empty.";
  message "gatewaysEmptyTitle" "app.page.gateways.empty.title"
    "No gateways"
    "Heading when the gateway list is empty.";
  message "hubCluster" "app.gateway.cluster.hub"
    "Hub cluster"
    "Placement label for the cluster hosting HyperShell.";
  message "hubClusterDefault" "app.gateway.cluster.hubDefault"
    "Hub cluster (default)"
    "Default placement option for a gateway provisioning form.";
  message "loadingClusterName" "app.gateway.cluster.loadingName"
    "Loading cluster name"
    "Status shown while a gateway row resolves its placement name.";
  message "loadingClusters" "app.gateway.cluster.loading"
    "Loading managed clusters"
    "Status shown while remote gateway placements are loading.";
  message "loadingGateways" "app.gateway.loading"
    "Loading gateways"
    "Accessible label shown while gateway data is loading.";
  message "moreClustersAvailable" "app.gateway.cluster.moreResults"
    "More clusters are available. Refine your search to find a specific cluster."
    "Guidance when a bounded cluster search has additional API results.";
  message "namespace" "app.gateway.namespace"
    "Namespace"
    "Label for a gateway namespace value.";
  message "noMatchingClusters" "app.gateway.cluster.noResults"
    "No matching clusters"
    "Status shown when no managed clusters match the search.";
  message "noMatchingGateways" "app.page.gateways.noResults.title"
    "No matching gateways"
    "Heading when no gateways match the current filter.";
  message "noMatchingGatewaysBody" "app.page.gateways.noResults.body"
    "Adjust or clear the filter to see gateways."
    "Guidance when no gateways match the current filter.";
  message "notAvailable" "app.value.notAvailable"
    "Not available"
    "Shown when the API does not provide a value.";
  message "notifications" "app.notifications"
    "Notifications"
    "Accessible label for transient application notifications."].

(** [messages] of [ui/messages.ts], lines 423 to 563. *)
Definition gateway_messages_4 : list Message := [
  message "openGatewayConsole" "app.gateway.openConsole"
    "Open gateway console"
    "Action that opens an OpenShell gateway's console.";
  message "openGatewayConsoleFor" "app.gateway.openConsoleFor"
    "Open console for {gatewayName} in a new tab"
    "Accessible label for opening a specific gateway console in a new tab.";
  message "owner" "app.gateway.column.owner"
    "Created by"
    "Heading for the gateways table column showing who created the gateway.";
  message "provisionGateway" "app.page.gatewayProvision.title"
    "Provision gateway"
    "Page title and action for provisioning a gateway.";
  message "provisionGatewayDescription" "app.page.gatewayProvision.description"
    "Configure a new OpenShell gateway."
    "Supporting text on the gateway provisioning page.";
  message "provisioningGateway" "app.page.gatewayProvision.pending"
    "Provisioning gateway"
    "Accessible progress text while a gateway is provisioning.";
  message "provisioningGatewayConsole" "app.gateway.provisioningConsole"
    "Provisioning console..."
    "Tooltip on the disabled console button while the console is not yet ready.";
  message "refreshGateways" "app.gateways.refresh"
    "Refresh gateways"
    "Accessible label for refreshing the gateway list.";
  message "renameGateway" "app.gateway.rename"
    "Rename gateway"
    "Action that changes a gateway's name.";
  message "renameGatewayTitle" "app.gateway.rename.title"
    "Rename {gatewayName}"
    "Title for the gateway rename dialog.";
  message "renamingGateway" "app.gateway.rename.pending"
    "Renaming gateway"
    "Accessible progress text while a gateway is being renamed.";
  message "requiredField" "app.form.requiredField"
    "This field is required."
    "Validation message for an empty required form field.";
  message "results" "app.table.results"
    "results"
    "Context announced after a filtered collection result count.";
  message "retry" "app.action.retry"
    "Retry"
    "Action that repeats a failed request.";
  message "selectCluster" "app.gateway.cluster.select"
    "Select a cluster"
    "Accessible label and placeholder for the cluster selector.";
  message "status" "app.table.column.status"
    "Status"
    "Heading for a resource status column.";
  message "serviceAccountsTab" "app.gateway.serviceAccounts.tab"
    "Service accounts"
    "Label for the gateway detail service-accounts tab.";
  message "serviceAccountsHeading" "app.gateway.serviceAccounts.heading"
    "Service accounts"
    "Heading for gateway-scoped service-account management.";
  message "serviceAccountsDescription" "app.gateway.serviceAccounts.description"
    "Use service accounts for automation. Each account exchanges client credentials for short-lived JWTs that work only with this gateway."
    "Introductory text for gateway service accounts.";
  message "manageServiceAccounts" "app.gateway.serviceAccounts.manage"
    "Create or manage service accounts"
    "Link from the interactive connection workflow to service-account management.";
  message "createServiceAccount" "app.gateway.serviceAccounts.create"
    "Create service account"
    "Action that creates a gateway service account.";
  message "creatingServiceAccount" "app.gateway.serviceAccounts.creating"
    "Creating service account"
    "Progress text while a service account is created.";
  message "refreshServiceAccounts" "app.gateway.serviceAccounts.refresh"
    "Refresh service accounts"
    "Accessible label for refreshing service accounts.";
  message "filterServiceAccounts" "app.gateway.serviceAccounts.filter"
    "Filter by name or client ID"
    "Label and placeholder for service-account search.";
  message "serviceAccountRole" "app.gateway.serviceAccounts.role"
    "OpenShell role"
    "Service-account role field and table heading.";
  message "serviceAccountStatusProvisioning" "app.gateway.serviceAccounts.status.provisioning"
    "Provisioning"
    "Status while a service-account identity is being created.";
  message "serviceAccountStatusReady" "app.gateway.serviceAccounts.status.ready"
    "Ready"
    "Status for a service account that can issue access tokens."].

(** [messages] of [ui/messages.ts], lines 564 to 701. *)
Definition gateway_messages_5 : list Message := [
  message "serviceAccountStatusExpired" "app.gateway.serviceAccounts.status.expired"
    "Expired"
    "Status for an expired service account.";
  message "serviceAccountStatusRevoking" "app.gateway.serviceAccounts.status.revoking"
    "Revoking"
    "Status while a service account is being revoked.";
  message "serviceAccountStatusRevoked" "app.gateway.serviceAccounts.status.revoked"
    "Revoked"
    "Status for a permanently revoked service account.";
  message "serviceAccountStatusDeleting" "app.gateway.serviceAccounts.status.deleting"
    "Deleting"
    "Status while a service account is being deleted.";
  message "serviceAccountStatusError" "app.gateway.serviceAccounts.status.error"
    "Error"
    "Status for a service account that needs replacement.";
  message "serviceAccountStatusDegraded" "app.gateway.serviceAccounts.status.degraded"
    "Degraded"
    "Status for a previously-ready service account whose reconciliation failed part-way and is being repaired.";
  message "expiration" "app.gateway.serviceAccounts.expiration"
    "Expiration"
    "Service-account expiration field and table heading.";
  message "serviceAccountsEmptyTitle" "app.gateway.serviceAccounts.empty.title"
    "No service accounts"
    "Heading for a gateway with no service accounts.";
  message "serviceAccountsEmptyBody" "app.gateway.serviceAccounts.empty.body"
    "Create a service account when automation needs this gateway."
    "Guidance for a gateway with no service accounts.";
  message "noMatchingServiceAccounts" "app.gateway.serviceAccounts.noResults.title"
    "No matching service accounts"
    "Heading when service-account filters have no matches.";
  message "noMatchingServiceAccountsBody" "app.gateway.serviceAccounts.noResults.body"
    "Clear the search and status filter to see all accounts."
    "Recovery guidance for service-account filters with no matches.";
  message "serviceAccountsLoadError" "app.gateway.serviceAccounts.loadError.title"
    "Service accounts could not be loaded"
    "Title for a service-account collection error.";
  message "serviceAccountsLoadErrorBody" "app.gateway.serviceAccounts.loadError.body"
    "Your filters are unchanged. Try loading this page again."
    "Recovery guidance for a service-account collection error.";
  message "serviceAccountOwnScope" "app.gateway.serviceAccounts.ownScope"
    "This list contains only service accounts that you created."
    "Explains creator-scoped service-account visibility.";
  message "serviceAccountCreateDenied" "app.gateway.serviceAccounts.createDenied"
    "You do not have permission to create a service account for this gateway."
    "Explanation for a disabled service-account create action.";
  message "viewServiceAccountDetails" "app.gateway.serviceAccounts.viewDetails"
    "View account details"
    "Disclosure control for non-secret service-account metadata.";
  message "serviceAccountDescription" "app.gateway.serviceAccounts.field.description"
    "Description (optional)"
    "Label for an optional service-account description.";
  message "clientId" "app.gateway.serviceAccounts.clientId"
    "Client ID"
    "Label for an OIDC client identifier.";
  message "clientSecret" "app.gateway.serviceAccounts.clientSecret"
    "Client secret"
    "Label for an OIDC client secret.";
  message "subject" "app.gateway.serviceAccounts.subject"
    "Service account subject"
    "Label for the stable OIDC subject of a service account.";
  message "subjectHelp" "app.gateway.serviceAccounts.subjectHelp"
    "This stable ID is the JWT subject (sub). Gateway administrators use it to grant workspace access."
    "Explains the service-account subject identifier.";
  message "serviceAccountName" "app.gateway.serviceAccounts.name"
    "Service account name"
    "Label for a service-account name.";
  message "optional" "app.form.optional"
    "Optional"
    "Indicates that a form field is optional.";
  message "openshellUserRoleDescription" "app.gateway.serviceAccounts.role.user.description"
    "Can authenticate as openshell-user. A gateway administrator must separately add its subject to each workspace it needs."
    "Explanation of the openshell-user service-account role.";
  message "openshellAdminRoleDescription" "app.gateway.serviceAccounts.role.admin.description"
    "Can perform OpenShell administrative operations on this gateway."
    "Explanation of the openshell-admin service-account role.";
  message "serviceAccountExpirationOption" "app.gateway.serviceAccounts.expiration.option"
    "{days, plural, one {# day} other {# days}}"
    "Duration option for service-account expiration."].

(** [messages] of [ui/messages.ts], lines 702 to 841. *)
Definition gateway_messages_6 : list Message := [
  message "serviceAccountExpiresPreview" "app.gateway.serviceAccounts.expiration.preview"
    "Expires {expiration}."
    "Absolute expiration preview before service-account creation.";
  message "serviceAccountTokenLifetimeNote" "app.gateway.serviceAccounts.expiration.tokenNote"
    "Account expiration stops future token grants. Each access token has a separate short lifetime."
    "Distinguishes service-account and access-token expiration.";
  message "serviceAccountCreateError" "app.gateway.serviceAccounts.createError.title"
    "Service account could not be created"
    "Title for a definitive service-account create failure.";
  message "serviceAccountCreateErrorBody" "app.gateway.serviceAccounts.createError.body"
    "Review the values and try again."
    "Recovery guidance for a definitive create failure.";
  message "serviceAccountNameExists" "app.gateway.serviceAccounts.nameExists.title"
    "A service account with this name already exists"
    "Title when a service-account name is already in use.";
  message "serviceAccountNameExistsBody" "app.gateway.serviceAccounts.nameExists.body"
    "Choose a different name, or delete the active service account before reusing this name."
    "Recovery guidance when a service-account name is in use.";
  message "serviceAccountCreateUncertain" "app.gateway.serviceAccounts.createUncertain.title"
    "The create result is uncertain"
    "Title when one-time credential delivery fails ambiguously.";
  message "serviceAccountCreateUncertainBody" "app.gateway.serviceAccounts.createUncertain.body"
    "Refresh the list. If the account exists, delete it and create a replacement. Retrying this request cannot recover its client secret."
    "Recovery guidance for an uncertain create result.";
  message "serviceAccountSetupTitle" "app.gateway.serviceAccounts.setup.title"
    "Set up {serviceAccountName}"
    "Title for one-time or repeatable service-account setup.";
  message "serviceAccountSecretOnce" "app.gateway.serviceAccounts.secretOnce"
    "Save this client secret now. HyperShell cannot show it again."
    "One-time client-secret warning.";
  message "serviceAccountSecretUnavailable" "app.gateway.serviceAccounts.secretUnavailable"
    "The client secret is no longer available. Use the secret you saved, or create a replacement service account."
    "Explanation for repeatable setup without a client secret.";
  message "showClientSecret" "app.gateway.serviceAccounts.secret.show"
    "Show client secret"
    "Action that reveals a masked client secret.";
  message "hideClientSecret" "app.gateway.serviceAccounts.secret.hide"
    "Hide client secret"
    "Action that masks a client secret.";
  message "copyClientSecret" "app.gateway.serviceAccounts.secret.copy"
    "Copy client secret"
    "Action that copies the client secret.";
  message "serviceAccountCopyFailed" "app.gateway.serviceAccounts.copyFailed"
    "Could not copy to the clipboard. Copy the value manually or try again."
    "Recovery guidance when copying service-account setup data fails.";
  message "openShellCliSetup" "app.gateway.serviceAccounts.setup.openshell"
    "Use with the OpenShell CLI"
    "Heading for supported OpenShell CLI setup commands.";
  message "exchangeCredentialsForJwt" "app.gateway.serviceAccounts.setup.jwt"
    "Exchange credentials for a JWT"
    "Heading for advanced Client Credentials commands.";
  message "copyOpenShellServiceAccountCommands" "app.gateway.serviceAccounts.setup.copyOpenShell"
    "Copy OpenShell CLI setup commands"
    "Accessible label for copying the OpenShell command group.";
  message "copyJwtExchangeCommands" "app.gateway.serviceAccounts.setup.copyJwt"
    "Copy JWT exchange commands"
    "Accessible label for copying the JWT command group.";
  message "serviceAccountCommandsUnavailable" "app.gateway.serviceAccounts.setup.unavailable"
    "Setup commands are unavailable because required connection metadata is missing."
    "Explanation when a complete command cannot be generated.";
  message "workspaceMembershipNote" "app.gateway.serviceAccounts.workspaceMembership"
    "This service account does not inherit your workspace access. Give the service account subject above to a gateway administrator. The administrator must add it to each required workspace."
    "Explains the separate OpenShell workspace grant.";
  message "grantWorkspaceAccess" "app.gateway.serviceAccounts.workspaceGrant.title"
    "Grant workspace access"
    "Heading for the manual gateway-administrator command.";
  message "workspaceGrantInstructions" "app.gateway.serviceAccounts.workspaceGrant.instructions"
    "After selecting this gateway, a gateway administrator can replace the workspace name and run:"
    "Instructions for granting service-account workspace access.";
  message "copyWorkspaceGrantCommand" "app.gateway.serviceAccounts.workspaceGrant.copy"
    "Copy workspace access command"
    "Accessible label for copying the workspace grant command.";
  message "acknowledgeSecretSaved" "app.gateway.serviceAccounts.secret.acknowledge"
    "I saved the client secret in a secure secret manager."
    "Required acknowledgement before completing one-time setup.";
  message "finishSetup" "app.gateway.serviceAccounts.setup.finish"
    "Finish setup"
    "Action that completes acknowledged one-time setup."].

(** [messages] of [ui/messages.ts], lines 842 to 942. *)
Definition gateway_messages_7 : list Message := [
  message "closeSetup" "app.gateway.serviceAccounts.setup.close"
    "Close setup instructions"
    "Action that closes repeatable non-secret setup instructions.";
  message "leaveWithoutSecretTitle" "app.gateway.serviceAccounts.secret.leave.title"
    "Leave without saving the client secret?"
    "Title for the one-time secret-loss confirmation.";
  message "leaveWithoutSecretBody" "app.gateway.serviceAccounts.secret.leave.body"
    "HyperShell cannot recover this secret. You must delete this service account and create a replacement."
    "Consequence of closing one-time setup without saving.";
  message "leaveSetup" "app.gateway.serviceAccounts.secret.leave"
    "Leave setup"
    "Confirms loss of an unsaved one-time secret.";
  message "returnToSetup" "app.gateway.serviceAccounts.secret.return"
    "Return to setup"
    "Returns from secret-loss confirmation to one-time setup.";
  message "serviceAccountRowActions" "app.gateway.serviceAccounts.rowActions"
    "Actions for service account {serviceAccountName}"
    "Accessible label for a service-account row actions menu.";
  message "viewSetupInstructions" "app.gateway.serviceAccounts.viewSetup"
    "View setup instructions"
    "Action that opens repeatable non-secret setup instructions.";
  message "revokeServiceAccount" "app.gateway.serviceAccounts.revoke"
    "Revoke service account"
    "Action that permanently revokes a service account.";
  message "deleteServiceAccount" "app.gateway.serviceAccounts.delete"
    "Delete service account"
    "Action that deletes a service account and Keycloak identity.";
  message "revokeServiceAccountTitle" "app.gateway.serviceAccounts.revoke.title"
    "Revoke {serviceAccountName}?"
    "Title for service-account revoke confirmation.";
  message "revokeServiceAccountBody" "app.gateway.serviceAccounts.revoke.body"
    "Keycloak will permanently stop issuing new access tokens. Tokens already issued can work until they expire. The account will remain here for audit and later deletion."
    "Consequences shown before service-account revocation.";
  message "deleteServiceAccountTitle" "app.gateway.serviceAccounts.delete.title"
    "Delete {serviceAccountName}?"
    "Title for service-account delete confirmation.";
  message "deleteServiceAccountBody" "app.gateway.serviceAccounts.delete.body"
    "This removes the Keycloak identity and the visible service account. A ready account is revoked first. Tokens already issued can work until they expire."
    "Consequences shown before service-account deletion.";
  message "revokingServiceAccount" "app.gateway.serviceAccounts.revoking"
    "Revoking service account"
    "Progress text while a service account is revoked.";
  message "deletingServiceAccount" "app.gateway.serviceAccounts.deleting"
    "Deleting service account"
    "Progress text while a service account is deleted.";
  message "serviceAccountActionError" "app.gateway.serviceAccounts.actionError.title"
    "The service account could not be updated"
    "Title for a service-account lifecycle action failure.";
  message "serviceAccountActionErrorBody" "app.gateway.serviceAccounts.actionError.body"
    "No confirmed change was reported. Try again or refresh the list."
    "Recovery guidance for a lifecycle action failure.";
  message "loadingServiceAccount" "app.gateway.serviceAccounts.loadingOne"
    "Loading service account"
    "Status while loading service-account setup metadata.";
  message "unavailableGatewayConsole" "app.gateway.unavailableConsole"
    "Console unavailable for this gateway"
    "Tooltip on the disabled console button once the console failed to become available within the expected time."].

Definition gateway_messages : list Message :=
  gateway_messages_1 ++ gateway_messages_2 ++ gateway_messages_3 ++ gateway_messages_4 ++ gateway_messages_5 ++ gateway_messages_6 ++ gateway_messages_7.

(** [messages] of [app/i18n/messages.ts]. *)
Definition app_messages : list Message := [
  message "account" "app.account"
    "Account"
    "Fallback label for the identity menu when no name is known.";
  message "breadcrumbLabel" "app.breadcrumb.ariaLabel"
    "Breadcrumb"
    "Accessible label for the application breadcrumb navigation.";
  message "errorBody" "app.error.body"
    "Refresh the page to try again."
    "Recovery guidance shown after an unexpected route failure.";
  message "errorTitle" "app.error.title"
    "The page could not be loaded"
    "Title shown after an unexpected route failure.";
  message "helloDescription" "app.hello.description"
    "The HyperShell web console is ready for development."
    "Supporting text on the initial web-console landing page.";
  message "helloTitle" "app.hello.title"
    "Hello world"
    "Main heading on the initial web-console landing page.";
  message "logout" "app.logout"
    "Log out"
    "Sign-out action in the masthead identity menu.";
  message "notFoundBody" "app.notFound.body"
    "Check the address and try again."
    "Recovery guidance shown when an application route does not exist.";
  message "notFoundTitle" "app.notFound.title"
    "Page not found"
    "Heading shown when an application route does not exist.";
  message "productName" "app.productName"
    "HyperShell"
    "HyperShell product name.";
  message "skipToContent" "app.skipToContent"
    "Skip to content"
    "Accessibility link that moves focus to the main page content.";
  message "switchToDarkMode" "app.toggleDarkMode.off"
    "Switch to dark mode"
    "Accessible label for the color scheme toggle when light mode is active.";
  message "switchToLightMode" "app.toggleDarkMode.on"
    "Switch to light mode"
    "Accessible label for the color scheme toggle when dark mode is active.";
  message "metricsNavLabel" "app.nav.metrics"
    "Metrics"
    "Navigation label for the gateway metrics dashboard page.";
  message "metricsPageDescription" "app.page.metrics.description"
    "Gateway phase metrics dashboard showing running, provisioning, degraded, and failed gateway counts."
    "Browser metadata description for the gateway metrics page."].

(** [messages] of [ui/metrics/gateway-metrics-dashboard.tsx]. *)
Definition metrics_messages : list Message := [
  message "dashboardTitle" "app.metrics.dashboard.title"
    "Gateway metrics"
    "Heading for the gateway metrics dashboard page.";
  message "loadError" "app.metrics.dashboard.loadError"
    "Metrics could not be loaded"
    "Shown when the metrics endpoint returns an error.";
  message "loadErrorBody" "app.metrics.dashboard.loadErrorBody"
    "Check that Prometheus is running and reachable, then refresh."
    "Recovery guidance shown below the metrics load error title.";
  message "loadingAriaLabel" "app.metrics.dashboard.loading"
    "Loading metrics"
    "Accessible label for the metrics loading spinner.";
  message "phaseRunning" "app.metrics.phase.running"
    "Running"
    "Label for the Running gateway phase metric card.";
  message "phaseProvisioning" "app.metrics.phase.provisioning"
    "Provisioning"
    "Label for the Provisioning gateway phase metric card.";
  message "phaseDegraded" "app.metrics.phase.degraded"
    "Degraded"
    "Label for the Degraded gateway phase metric card.";
  message "phaseFailed" "app.metrics.phase.failed"
    "Failed"
    "Label for the Failed gateway phase metric card.";
  message "gateways" "app.metrics.phase.gateways"
    "{count, plural, one {# gateway} other {# gateways}}"
    "Pluralized gateway count shown inside each phase card."].

(** [app/locales/en.json], lines 2 to 149. *)
Definition catalog_1 : list (jsstring * MessageDescriptor) := [
  entry "app.account"
    "Account"
    "Fallback label for the identity menu when no name is known.";
  entry "app.action.cancel"
    "Cancel"
    "Action that leaves a form without submitting it.";
  entry "app.action.close"
    "Close"
    "Accessible label for closing an overlay.";
  entry "app.action.retry"
    "Retry"
    "Action that repeats a failed request.";
  entry "app.breadcrumb.ariaLabel"
    "Breadcrumb"
    "Accessible label for the application breadcrumb navigation.";
  entry "app.clipboard.copied"
    "Copied"
    "Confirmation shown after text is copied to the clipboard.";
  entry "app.clipboard.copy"
    "Copy"
    "Tooltip for a button that copies text to the clipboard.";
  entry "app.error.body"
    "Refresh the page to try again."
    "Recovery guidance shown after an unexpected route failure.";
  entry "app.error.title"
    "The page could not be loaded"
    "Title shown after an unexpected route failure.";
  entry "app.form.optional"
    "Optional"
    "Indicates that a form field is optional.";
  entry "app.form.requiredField"
    "This field is required."
    "Validation message for an empty required form field.";
  entry "app.gateway.cliConnection"
    "CLI connection"
    "Label for a gateway's OpenShell CLI connection command.";
  entry "app.gateway.cliConnectionCommandCopied"
    "CLI connection command for {gatewayName} copied"
    "Success notification after copying a gateway CLI command.";
  entry "app.gateway.cliConnectionCommandCopyFailed"
    "CLI connection command for {gatewayName} could not be copied"
    "Error notification when copying a gateway CLI command fails.";
  entry "app.gateway.cluster"
    "Cluster"
    "Heading for the gateway placement cluster column.";
  entry "app.gateway.cluster.clearSearch"
    "Clear cluster search"
    "Accessible label for clearing the cluster typeahead input.";
  entry "app.gateway.cluster.hub"
    "Hub cluster"
    "Placement label for the cluster hosting HyperShell.";
  entry "app.gateway.cluster.hubDefault"
    "Hub cluster (default)"
    "Default placement option for a gateway provisioning form.";
  entry "app.gateway.cluster.loadError.body"
    "You can provision on Hub cluster (default), or try loading managed clusters again."
    "Recovery guidance when remote gateway placements cannot be loaded.";
  entry "app.gateway.cluster.loadError.title"
    "Managed clusters could not be loaded"
    "Title shown when remote gateway placements cannot be loaded.";
  entry "app.gateway.cluster.loading"
    "Loading managed clusters"
    "Status shown while remote gateway placements are loading.";
  entry "app.gateway.cluster.loadingName"
    "Loading cluster name"
    "Status shown while a gateway row resolves its placement name.";
  entry "app.gateway.cluster.moreResults"
    "More clusters are available. Refine your search to find a specific cluster."
    "Guidance when a bounded cluster search has additional API results.";
  entry "app.gateway.cluster.noResults"
    "No matching clusters"
    "Status shown when no managed clusters match the search.";
  entry "app.gateway.cluster.provider"
    "Provider: {provider}"
    "Provider context that distinguishes a managed cluster option.";
  entry "app.gateway.cluster.providerAndRegion"
    "Provider: {provider}; region: {region}"
    "Provider and region context that distinguishes a managed cluster option.";
  entry "app.gateway.cluster.region"
    "Region: {region}"
    "Region context that distinguishes a managed cluster option.";
  entry "app.gateway.cluster.select"
    "Select a cluster"
    "Accessible label and placeholder for the cluster selector.";
  entry "app.gateway.column.activeSandboxes"
    "Active sandboxes"
    "Heading for the gateways table column showing the number of active sandbox sessions.";
  entry "app.gateway.column.owner"
    "Created by"
    "Heading for the gateways table column showing who created the gateway.";
  entry "app.gateway.connection.copySandboxCommand"
    "Copy the create-sandbox command"
    "Accessible label for copying the create-sandbox command.";
  entry "app.gateway.connection.copySetupCommand"
    "Copy the one-time setup commands"
    "Accessible label for copying the consolidated one-time setup script.";
  entry "app.gateway.connection.editModel"
    "Model (editable)"
    "Accessible label for the inline-editable model name in the setup command.";
  entry "app.gateway.connection.editProviderName"
    "Provider name (editable)"
    "Accessible label for the inline-editable provider name in the setup command.";
  entry "app.gateway.connection.editSandboxName"
    "Sandbox name (editable)"
    "Accessible label for the inline-editable sandbox name in the create-sandbox command.";
  entry "app.gateway.connection.installLink"
    "Install the OpenShell CLI"
    "Link text pointing to the NVIDIA OpenShell installation documentation.";
  entry "app.gateway.connection.installLinkNewTab"
    "Install the OpenShell CLI (opens in a new tab)"
    "Accessible name for the OpenShell CLI install docs link, including that it opens in a new tab."].

(** [app/locales/en.json], lines 150 to 297. *)
Definition catalog_2 : list (jsstring * MessageDescriptor) := [
  entry "app.gateway.connection.installPrereq"
    "The OpenShell CLI must be installed before running the commands below."
    "Prerequisite note shown above the connection steps directing operators to install the CLI first.";
  entry "app.gateway.connection.installPrereqTitle"
    "Prerequisite"
    "Title for the CLI installation prerequisite alert.";
  entry "app.gateway.connection.login.unavailable"
    "This gateway is still provisioning. Its connection command becomes available once the gateway is running."
    "Shown in the login step while the gateway has not yet reached a running, ready-to-connect phase.";
  entry "app.gateway.connection.sandbox.description"
    "Once setup is done, run this whenever you want a fresh sandbox running Claude through this gateway."
    "Supporting text for the create-sandbox connection step.";
  entry "app.gateway.connection.sandbox.title"
    "Create a sandbox"
    "Title for the create-sandbox connection step.";
  entry "app.gateway.connection.setup.description"
    "Run these once to log in, add the Claude on Vertex AI provider, and select the model."
    "Supporting text for the one-time setup connection step.";
  entry "app.gateway.connection.setup.title"
    "One-time setup"
    "Title for the consolidated one-time setup connection step.";
  entry "app.gateway.connection.tab"
    "Connection"
    "Label for the default gateway detail Connection tab.";
  entry "app.gateway.connection.tabsLabel"
    "Gateway connection, service accounts, and details"
    "Accessible label for the gateway detail tabs.";
  entry "app.gateway.copyCliConnectionCommand"
    "Copy CLI connection command"
    "Menu action that copies a gateway's CLI connection command.";
  entry "app.gateway.copyConnectionCommand"
    "Copy connection command for {gatewayName}"
    "Accessible label for copying a specific gateway's CLI connection command.";
  entry "app.gateway.copyEndpoint"
    "Copy gateway endpoint for {gatewayName}"
    "Accessible label for copying a specific gateway's network endpoint.";
  entry "app.gateway.delete"
    "Delete gateway"
    "Action that permanently deletes a gateway.";
  entry "app.gateway.delete.activeSandboxWarning"
    "This gateway has {count, plural, one {# active sandbox} other {# active sandboxes}} that will be disrupted by deletion."
    "Warning shown before deleting a gateway that still has running sandboxes.";
  entry "app.gateway.delete.confirmation"
    "Deleting {gatewayName} will permanently remove the gateway. This action cannot be undone."
    "Warning shown before permanently deleting a gateway.";
  entry "app.gateway.delete.error.body"
    "No changes were made. Try again."
    "Recovery guidance when gateway deletion fails.";
  entry "app.gateway.delete.error.title"
    "Gateway could not be deleted"
    "Title shown when gateway deletion fails.";
  entry "app.gateway.delete.pending"
    "Deleting gateway"
    "Accessible progress text while a gateway is being deleted.";
  entry "app.gateway.delete.title"
    "Delete {gatewayName}?"
    "Title for the gateway deletion confirmation dialog.";
  entry "app.gateway.deleted"
    "Gateway {gatewayName} deleted"
    "Success notification after deleting a gateway.";
  entry "app.gateway.detailsTab"
    "Details"
    "Label for the gateway detail Details tab.";
  entry "app.gateway.endpoint"
    "Gateway endpoint"
    "Label for an OpenShell gateway network endpoint.";
  entry "app.gateway.load.error.body"
    "Refresh the page to try again."
    "Recovery guidance when gateway data cannot be loaded.";
  entry "app.gateway.load.error.title"
    "Gateways could not be loaded"
    "Title shown when gateway data cannot be loaded from the API.";
  entry "app.gateway.loading"
    "Loading gateways"
    "Accessible label shown while gateway data is loading.";
  entry "app.gateway.managedDatabaseId"
    "Managed database ID"
    "Label for a gateway's managed database identifier.";
  entry "app.gateway.name"
    "Gateway name"
    "Label for a gateway name form field.";
  entry "app.gateway.namespace"
    "Namespace"
    "Label for a gateway namespace value.";
  entry "app.gateway.openConsole"
    "Open gateway console"
    "Action that opens an OpenShell gateway's console.";
  entry "app.gateway.openConsoleFor"
    "Open console for {gatewayName} in a new tab"
    "Accessible label for opening a specific gateway console in a new tab.";
  entry "app.gateway.provisioningConsole"
    "Provisioning console..."
    "Tooltip on the disabled console button while the console is not yet ready.";
  entry "app.gateway.releaseId"
    "Gateway release ID"
    "Label for a gateway's release identifier.";
  entry "app.gateway.rename"
    "Rename gateway"
    "Action that changes a gateway's name.";
  entry "app.gateway.rename.error.body"
    "No changes were made. Choose a different name or try again."
    "Recovery guidance when gateway renaming fails.";
  entry "app.gateway.rename.error.title"
    "Gateway could not be renamed"
    "Title shown when gateway renaming fails.";
  entry "app.gateway.rename.pending"
    "Renaming gateway"
    "Accessible progress text while a gateway is being renamed.";
  entry "app.gateway.rename.title"
    "Rename {gatewayName}"
    "Title for the gateway rename dialog."].

(** [app/locales/en.json], lines 298 to 445. *)
Definition catalog_3 : list (jsstring * MessageDescriptor) := [
  entry "app.gateway.renamed"
    "Gateway renamed to {gatewayName}"
    "Success notification after renaming a gateway.";
  entry "app.gateway.rowActions"
    "Actions for {gatewayName}"
    "Accessible label for a gateway row actions menu.";
  entry "app.gateway.serviceAccounts.actionError.body"
    "No confirmed change was reported. Try again or refresh the list."
    "Recovery guidance for a lifecycle action failure.";
  entry "app.gateway.serviceAccounts.actionError.title"
    "The service account could not be updated"
    "Title for a service-account lifecycle action failure.";
  entry "app.gateway.serviceAccounts.clientId"
    "Client ID"
    "Label for an OIDC client identifier.";
  entry "app.gateway.serviceAccounts.clientSecret"
    "Client secret"
    "Label for an OIDC client secret.";
  entry "app.gateway.serviceAccounts.copyFailed"
    "Could not copy to the clipboard. Copy the value manually or try again."
    "Recovery guidance when copying service-account setup data fails.";
  entry "app.gateway.serviceAccounts.create"
    "Create service account"
    "Action that creates a gateway service account.";
  entry "app.gateway.serviceAccounts.createDenied"
    "You do not have permission to create a service account for this gateway."
    "Explanation for a disabled service-account create action.";
  entry "app.gateway.serviceAccounts.createError.body"
    "Review the values and try again."
    "Recovery guidance for a definitive create failure.";
  entry "app.gateway.serviceAccounts.createError.title"
    "Service account could not be created"
    "Title for a definitive service-account create failure.";
  entry "app.gateway.serviceAccounts.createUncertain.body"
    "Refresh the list. If the account exists, delete it and create a replacement. Retrying this request cannot recover its client secret."
    "Recovery guidance for an uncertain create result.";
  entry "app.gateway.serviceAccounts.createUncertain.title"
    "The create result is uncertain"
    "Title when one-time credential delivery fails ambiguously.";
  entry "app.gateway.serviceAccounts.creating"
    "Creating service account"
    "Progress text while a service account is created.";
  entry "app.gateway.serviceAccounts.delete"
    "Delete service account"
    "Action that deletes a service account and Keycloak identity.";
  entry "app.gateway.serviceAccounts.delete.body"
    "This removes the Keycloak identity and the visible service account. A ready account is revoked first. Tokens already issued can work until they expire."
    "Consequences shown before service-account deletion.";
  entry "app.gateway.serviceAccounts.delete.title"
    "Delete {serviceAccountName}?"
    "Title for service-account delete confirmation.";
  entry "app.gateway.serviceAccounts.deleting"
    "Deleting service account"
    "Progress text while a service account is deleted.";
  entry "app.gateway.serviceAccounts.description"
    "Use service accounts for automation. Each account exchanges client credentials for short-lived JWTs that work only with this gateway."
    "Introductory text for gateway service accounts.";
  entry "app.gateway.serviceAccounts.empty.body"
    "Create a service account when automation needs this gateway."
    "Guidance for a gateway with no service accounts.";
  entry "app.gateway.serviceAccounts.empty.title"
    "No service accounts"
    "Heading for a gateway with no service accounts.";
  entry "app.gateway.serviceAccounts.expiration"
    "Expiration"
    "Service-account expiration field and table heading.";
  entry "app.gateway.serviceAccounts.expiration.option"
    "{days, plural, one {# day} other {# days}}"
    "Duration option for service-account expiration.";
  entry "app.gateway.serviceAccounts.expiration.preview"
    "Expires {expiration}."
    "Absolute expiration preview before service-account creation.";
  entry "app.gateway.serviceAccounts.expiration.tokenNote"
    "Account expiration stops future token grants. Each access token has a separate short lifetime."
    "Distinguishes service-account and access-token expiration.";
  entry "app.gateway.serviceAccounts.field.description"
    "Description (optional)"
    "Label for an optional service-account description.";
  entry "app.gateway.serviceAccounts.filter"
    "Filter by name or client ID"
    "Label and placeholder for service-account search.";
  entry "app.gateway.serviceAccounts.heading"
    "Service accounts"
    "Heading for gateway-scoped service-account management.";
  entry "app.gateway.serviceAccounts.loadError.body"
    "Your filters are unchanged. Try loading this page again."
    "Recovery guidance for a service-account collection error.";
  entry "app.gateway.serviceAccounts.loadError.title"
    "Service accounts could not be loaded"
    "Title for a service-account collection error.";
  entry "app.gateway.serviceAccounts.loadingOne"
    "Loading service account"
    "Status while loading service-account setup metadata.";
  entry "app.gateway.serviceAccounts.manage"
    "Create or manage service accounts"
    "Link from the interactive connection workflow to service-account management.";
  entry "app.gateway.serviceAccounts.name"
    "Service account name"
    "Label for a service-account name.";
  entry "app.gateway.serviceAccounts.nameExists.body"
    "Choose a different name, or delete the active service account before reusing this name."
    "Recovery guidance when a service-account name is in use.";
  entry "app.gateway.serviceAccounts.nameExists.title"
    "A service account with this name already exists"
    "Title when a service-account name is already in use.";
  entry "app.gateway.serviceAccounts.noResults.body"
    "Clear the search and status filter to see all accounts."
    "Recovery guidance for service-account filters with no matches.";
  entry "app.gateway.serviceAccounts.noResults.title"
    "No matching service accounts"
    "Heading when service-account filters have no matches."].

(** [app/locales/en.json], lines 446 to 593. *)
Definition catalog_4 : list (jsstring * MessageDescriptor) := [
  entry "app.gateway.serviceAccounts.ownScope"
    "This list contains only service accounts that you created."
    "Explains creator-scoped service-account visibility.";
  entry "app.gateway.serviceAccounts.refresh"
    "Refresh service accounts"
    "Accessible label for refreshing service accounts.";
  entry "app.gateway.serviceAccounts.revoke"
    "Revoke service account"
    "Action that permanently revokes a service account.";
  entry "app.gateway.serviceAccounts.revoke.body"
    "Keycloak will permanently stop issuing new access tokens. Tokens already issued can work until they expire. The account will remain here for audit and later deletion."
    "Consequences shown before service-account revocation.";
  entry "app.gateway.serviceAccounts.revoke.title"
    "Revoke {serviceAccountName}?"
    "Title for service-account revoke confirmation.";
  entry "app.gateway.serviceAccounts.revoking"
    "Revoking service account"
    "Progress text while a service account is revoked.";
  entry "app.gateway.serviceAccounts.role"
    "OpenShell role"
    "Service-account role field and table heading.";
  entry "app.gateway.serviceAccounts.role.admin.description"
    "Can perform OpenShell administrative operations on this gateway."
    "Explanation of the openshell-admin service-account role.";
  entry "app.gateway.serviceAccounts.role.user.description"
    "Can authenticate as openshell-user. A gateway administrator must separately add its subject to each workspace it needs."
    "Explanation of the openshell-user service-account role.";
  entry "app.gateway.serviceAccounts.rowActions"
    "Actions for service account {serviceAccountName}"
    "Accessible label for a service-account row actions menu.";
  entry "app.gateway.serviceAccounts.secret.acknowledge"
    "I saved the client secret in a secure secret manager."
    "Required acknowledgement before completing one-time setup.";
  entry "app.gateway.serviceAccounts.secret.copy"
    "Copy client secret"
    "Action that copies the client secret.";
  entry "app.gateway.serviceAccounts.secret.hide"
    "Hide client secret"
    "Action that masks a client secret.";
  entry "app.gateway.serviceAccounts.secret.leave"
    "Leave setup"
    "Confirms loss of an unsaved one-time secret.";
  entry "app.gateway.serviceAccounts.secret.leave.body"
    "HyperShell cannot recover this secret. You must delete this service account and create a replacement."
    "Consequence of closing one-time setup without saving.";
  entry "app.gateway.serviceAccounts.secret.leave.title"
    "Leave without saving the client secret?"
    "Title for the one-time secret-loss confirmation.";
  entry "app.gateway.serviceAccounts.secret.return"
    "Return to setup"
    "Returns from secret-loss confirmation to one-time setup.";
  entry "app.gateway.serviceAccounts.secret.show"
    "Show client secret"
    "Action that reveals a masked client secret.";
  entry "app.gateway.serviceAccounts.secretOnce"
    "Save this client secret now. HyperShell cannot show it again."
    "One-time client-secret warning.";
  entry "app.gateway.serviceAccounts.secretUnavailable"
    "The client secret is no longer available. Use the secret you saved, or create a replacement service account."
    "Explanation for repeatable setup without a client secret.";
  entry "app.gateway.serviceAccounts.setup.close"
    "Close setup instructions"
    "Action that closes repeatable non-secret setup instructions.";
  entry "app.gateway.serviceAccounts.setup.copyJwt"
    "Copy JWT exchange commands"
    "Accessible label for copying the JWT command group.";
  entry "app.gateway.serviceAccounts.setup.copyOpenShell"
    "Copy OpenShell CLI setup commands"
    "Accessible label for copying the OpenShell command group.";
  entry "app.gateway.serviceAccounts.setup.finish"
    "Finish setup"
    "Action that completes acknowledged one-time setup.";
  entry "app.gateway.serviceAccounts.setup.jwt"
    "Exchange credentials for a JWT"
    "Heading for advanced Client Credentials commands.";
  entry "app.gateway.serviceAccounts.setup.openshell"
    "Use with the OpenShell CLI"
    "Heading for supported OpenShell CLI setup commands.";
  entry "app.gateway.serviceAccounts.setup.title"
    "Set up {serviceAccountName}"
    "Title for one-time or repeatable service-account setup.";
  entry "app.gateway.serviceAccounts.setup.unavailable"
    "Setup commands are unavailable because required connection metadata is missing."
    "Explanation when a complete command cannot be generated.";
  entry "app.gateway.serviceAccounts.status.degraded"
    "Degraded"
    "Status for a previously-ready service account whose reconciliation failed part-way and is being repaired.";
  entry "app.gateway.serviceAccounts.status.deleting"
    "Deleting"
    "Status while a service account is being deleted.";
  entry "app.gateway.serviceAccounts.status.error"
    "Error"
    "Status for a service account that needs replacement.";
  entry "app.gateway.serviceAccounts.status.expired"
    "Expired"
    "Status for an expired service account.";
  entry "app.gateway.serviceAccounts.status.provisioning"
    "Provisioning"
    "Status while a service-account identity is being created.";
  entry "app.gateway.serviceAccounts.status.ready"
    "Ready"
    "Status for a service account that can issue access tokens.";
  entry "app.gateway.serviceAccounts.status.revoked"
    "Revoked"
    "Status for a permanently revoked service account.";
  entry "app.gateway.serviceAccounts.status.revoking"
    "Revoking"
    "Status while a service account is being revoked.";
  entry "app.gateway.serviceAccounts.subject"
    "Service account subject"
    "Label for the stable OIDC subject of a service account."].

(** [app/locales/en.json], lines 594 to 741. *)
Definition catalog_5 : list (jsstring * MessageDescriptor) := [
  entry "app.gateway.serviceAccounts.subjectHelp"
    "This stable ID is the JWT subject (sub). Gateway administrators use it to grant workspace access."
    "Explains the service-account subject identifier.";
  entry "app.gateway.serviceAccounts.tab"
    "Service accounts"
    "Label for the gateway detail service-accounts tab.";
  entry "app.gateway.serviceAccounts.viewDetails"
    "View account details"
    "Disclosure control for non-secret service-account metadata.";
  entry "app.gateway.serviceAccounts.viewSetup"
    "View setup instructions"
    "Action that opens repeatable non-secret setup instructions.";
  entry "app.gateway.serviceAccounts.workspaceGrant.copy"
    "Copy workspace access command"
    "Accessible label for copying the workspace grant command.";
  entry "app.gateway.serviceAccounts.workspaceGrant.instructions"
    "After selecting this gateway, a gateway administrator can replace the workspace name and run:"
    "Instructions for granting service-account workspace access.";
  entry "app.gateway.serviceAccounts.workspaceGrant.title"
    "Grant workspace access"
    "Heading for the manual gateway-administrator command.";
  entry "app.gateway.serviceAccounts.workspaceMembership"
    "This service account does not inherit your workspace access. Give the service account subject above to a gateway administrator. The administrator must add it to each required workspace."
    "Explains the separate OpenShell workspace grant.";
  entry "app.gateway.singular"
    "Gateway"
    "Fallback breadcrumb label while a gateway is loading.";
  entry "app.gateway.unavailableConsole"
    "Console unavailable for this gateway"
    "Tooltip on the disabled console button once the console failed to become available within the expected time.";
  entry "app.gateways.refresh"
    "Refresh gateways"
    "Accessible label for refreshing the gateway list.";
  entry "app.hello.description"
    "The HyperShell web console is ready for development."
    "Supporting text on the initial web-console landing page.";
  entry "app.hello.title"
    "Hello world"
    "Main heading on the initial web-console landing page.";
  entry "app.logout"
    "Log out"
    "Sign-out action in the masthead identity menu.";
  entry "app.metrics.dashboard.loadError"
    "Metrics could not be loaded"
    "Shown when the metrics endpoint returns an error.";
  entry "app.metrics.dashboard.loadErrorBody"
    "Check that Prometheus is running and reachable, then refresh."
    "Recovery guidance shown below the metrics load error title.";
  entry "app.metrics.dashboard.loading"
    "Loading metrics"
    "Accessible label for the metrics loading spinner.";
  entry "app.metrics.dashboard.title"
    "Gateway metrics"
    "Heading for the gateway metrics dashboard page.";
  entry "app.metrics.phase.degraded"
    "Degraded"
    "Label for the Degraded gateway phase metric card.";
  entry "app.metrics.phase.failed"
    "Failed"
    "Label for the Failed gateway phase metric card.";
  entry "app.metrics.phase.gateways"
    "{count, plural, one {# gateway} other {# gateways}}"
    "Pluralized gateway count shown inside each phase card.";
  entry "app.metrics.phase.provisioning"
    "Provisioning"
    "Label for the Provisioning gateway phase metric card.";
  entry "app.metrics.phase.running"
    "Running"
    "Label for the Running gateway phase metric card.";
  entry "app.nav.gateways"
    "OpenShell Gateways"
    "Page and resource collection label for OpenShell gateways.";
  entry "app.nav.metrics"
    "Metrics"
    "Navigation label for the gateway metrics dashboard page.";
  entry "app.notFound.body"
    "Check the address and try again."
    "Recovery guidance shown when an application route does not exist.";
  entry "app.notFound.title"
    "Page not found"
    "Heading shown when an application route does not exist.";
  entry "app.notifications"
    "Notifications"
    "Accessible label for transient application notifications.";
  entry "app.page.gateway.description"
    "Connect to this gateway and review its configuration."
    "Metadata description for the gateway detail page.";
  entry "app.page.gatewayDetails.title"
    "Gateway details"
    "Metadata title for a user-facing gateway details page.";
  entry "app.page.gatewayProvision.description"
    "Configure a new OpenShell gateway."
    "Supporting text on the gateway provisioning page.";
  entry "app.page.gatewayProvision.error.body"
    "Check the values and try again."
    "Recovery guidance when gateway provisioning fails.";
  entry "app.page.gatewayProvision.error.title"
    "Gateway could not be provisioned"
    "Title shown when gateway provisioning fails.";
  entry "app.page.gatewayProvision.pending"
    "Provisioning gateway"
    "Accessible progress text while a gateway is provisioning.";
  entry "app.page.gatewayProvision.title"
    "Provision gateway"
    "Page title and action for provisioning a gateway.";
  entry "app.page.gateways.description"
    "HyperShell gateways."
    "Browser metadata description for the gateways page.";
  entry "app.page.gateways.empty.body"
    "Provisioned gateways will appear here."
    "Body text when the gateway list is empty."].

(** [app/locales/en.json], lines 742 to 805. *)
Definition catalog_6 : list (jsstring * MessageDescriptor) := [
  entry "app.page.gateways.empty.title"
    "No gateways"
    "Heading when the gateway list is empty.";
  entry "app.page.gateways.filter"
    "Filter by name, cluster, status, or endpoint"
    "Placeholder and accessible label for gateway search.";
  entry "app.page.gateways.noResults.body"
    "Adjust or clear the filter to see gateways."
    "Guidance when no gateways match the current filter.";
  entry "app.page.gateways.noResults.title"
    "No matching gateways"
    "Heading when no gateways match the current filter.";
  entry "app.page.metrics.description"
    "Gateway phase metrics dashboard showing running, provisioning, degraded, and failed gateway counts."
    "Browser metadata description for the gateway metrics page.";
  entry "app.productName"
    "HyperShell"
    "HyperShell product name.";
  entry "app.skipToContent"
    "Skip to content"
    "Accessibility link that moves focus to the main page content.";
  entry "app.status.error"
    "Error:"
    "Screen-reader prefix for an error message.";
  entry "app.table.clearFilters"
    "Clear filters"
    "Action that clears collection filters.";
  entry "app.table.column.actions"
    "Actions"
    "Accessible heading for table row actions.";
  entry "app.table.column.created"
    "Created"
    "Heading for a resource creation date column.";
  entry "app.table.column.status"
    "Status"
    "Heading for a resource status column.";
  entry "app.table.results"
    "results"
    "Context announced after a filtered collection result count.";
  entry "app.toggleDarkMode.off"
    "Switch to dark mode"
    "Accessible label for the color scheme toggle when light mode is active.";
  entry "app.toggleDarkMode.on"
    "Switch to light mode"
    "Accessible label for the color scheme toggle when dark mode is active.";
  entry "app.value.notAvailable"
    "Not available"
    "Shown when the API does not provide a value."].

Definition englishCatalog : list (jsstring * MessageDescriptor) :=
  catalog_1 ++ catalog_2 ++ catalog_3 ++ catalog_4 ++ catalog_5 ++ catalog_6.

(** * What is shown *)

Definition all_messages : list Message := gateway_messages ++ app_messages ++ metrics_messages.

(** The pattern the provider formats for a message. *)
Definition shown_pattern (m : Message) : jsstring :=
  default (ms_defaultMessage m) (prop_get (englishMessages englishCatalog) (ms_id m)).

Definition message_of (l : list Message) (key : jsstring) : option Message :=
  head (filter (λ m, ms_key m = key) l).

(** The titles of the routes and their descriptions ([app/routes]). *)
Definition productId : jsstring := js "app.productName".
Definition home_meta := createPageMeta englishCatalog (js "app.nav.gateways") (js "app.page.gateways.description") productId.
Definition gateway_new_meta :=
  createPageMeta englishCatalog (js "app.page.gatewayProvision.title") (js "app.page.gatewayProvision.description") productId.
Definition gateway_meta :=
  createPageMeta englishCatalog (js "app.page.gatewayDetails.title") (js "app.page.gateway.description") productId.
Definition metrics_meta := createPageMeta englishCatalog (js "app.nav.metrics") (js "app.page.metrics.description") productId.

(** * Patterns *)

(** The arguments of a pattern, by name: what stands between an outermost brace and the
    next comma or brace. *)
Fixpoint pattern_arguments (s : jsstring) (depth : nat) (name : option jsstring) : list jsstring :=
  match s with
  | [] => []
  | c :: s =>
      match name with
      | Some n =>
          if (c =? 125)%N then n :: pattern_arguments s 0 None
          else if (c =? 44)%N then n :: pattern_arguments s 1 None
          else pattern_arguments s depth (Some (n ++ [c]))
      | None =>
          if (c =? 123)%N then
            match depth with O => pattern_arguments s 0 (Some []) | S _ => pattern_arguments s (S depth) None end
          else if (c =? 125)%N then pattern_arguments s (pred depth) None
          else pattern_arguments s depth None
      end
  end.

Definition arguments_of (pattern : jsstring) : list jsstring := pattern_arguments pattern 0 None.

(** The messages whose text in the catalogue is not the declared one, and what is shown
    for them. *)
Definition stale_texts : list (jsstring * jsstring) := [
  (js "app.gateway.delete.confirmation",
   js "Deleting {gatewayName} will permanently remove the gateway. This action cannot be undone.");
  (js "app.gateway.delete.pending", js "Deleting gateway");
  (js "app.gateway.deleted", js "Gateway {gatewayName} deleted");
  (js "app.gateway.delete.error.title", js "Gateway could not be deleted");
  (js "app.gateway.delete.error.body", js "No changes were made. Try again.")].

(** An entry of the catalogue that no message declares. *)
Definition unused_id : jsstring := js "app.gateway.managedDatabaseId".

(** * Properties *)


(** Every page has a title of its own and a description, and every status of a service
    account a label of its own. *)
Theorem titles_and_labels :
  (λ m, m.1) <$> [home_meta; gateway_new_meta; gateway_meta; metrics_meta] =
    [js "HyperShell - OpenShell Gateways"; js "HyperShell - Provision gateway"; js "HyperShell - Gateway details";
     js "HyperShell - Metrics"] ∧
  Forall (λ m, is_Some m.2) [home_meta; gateway_new_meta; gateway_meta; metrics_meta] ∧
  Forall is_Some (map (λ s, message_of gateway_messages (serviceAccountStatusLabel s)) serviceAccountStatuses) ∧
  NoDup (map (λ s, ms_defaultMessage <$> message_of gateway_messages (serviceAccountStatusLabel s)) serviceAccountStatuses).
Proof.
  split_and!; apply (bool_decide_unpack _); by vm_compute.
Qed.

(** The toast for an accepted deletion. *)
Example deleted_toast :
  shown_pattern <$> message_of gateway_messages (js "gatewayDeleted") = Some (js "Gateway {gatewayName} deleted") ∧
  ms_defaultMessage <$> message_of gateway_messages (js "gatewayDeleted") =
    Some (js "Deletion requested for gateway {gatewayName}") ∧
  arguments_of (js "{count, plural, one {# gateway} other {# gateways}}") = [js "count"].
Proof. vm_compute. done. Qed.
